(** * docker-machine drivers: a shallow embedding of the Google Compute Engine
      and Amazon EC2 drivers, and the properties of their lifecycle code

    Sources embedded here:
    - [drivers/google/compute_util.go]  (module [Google], type [ComputeUtil])
    - [drivers/google/google.go]        (module [Google], type [Driver])
    - [drivers/amazonec2/amazonec2.go]  (module [AmazonEC2])

    Go functions that return [(T, error)] are modelled as computations that
    return a pair [(T * option error)]; a [nil] pointer is [None].  Calls that
    leave the process (cloud API, file system, clock) are answered by a
    [backend] function over an abstract world [W] and are recorded, in order,
    in a trace.  Run-time panics (index out of range, nil dereference) are an
    explicit outcome, and so is the exhaustion of the fuel given to the one
    unbounded loop ([waitForOp]). *)

From Stdlib Require Import ZArith DecimalString Ascii String.
From stdpp Require Import gmap strings list fin_maps.

Open Scope Z_scope.

Set Default Proof Using "Type".

(** ** Go values shared by both drivers *)

Module Go.

  (** [error] values, as far as the drivers can tell them apart: the dynamic
      type ([*googleapi.Error], [awserr.Error], anything else) together with
      the fields the drivers read and the text of [Error()]. *)
Inductive error : Type :=
  | errorString (text : string)
      (* errors.New / fmt.Errorf, and every foreign error of another type *)
  | googleapi_Error (Code : Z) (Message : string) (text : string)
  | awserr_Error (Code : string) (Message : string) (rest : string)
  | ErrHostIsNotRunning.
      (* the sentinel drivers.ErrHostIsNotRunning of libmachine *)

  (** [err.Error()].  For an [awserr.Error] the SDK prints the code, a colon
      and the message, followed by request details ([rest]). *)
Definition Error (e : error) : string :=
    match e with
    | errorString t => t
    | googleapi_Error _ _ t => t
    | awserr_Error c m r => c +:+ ": " +:+ m +:+ r
    | ErrHostIsNotRunning => "Host is not running"
    end.

  (** [fmt.Errorf(prefix + "%s", err)] and [fmt.Errorf(prefix + "%v", err)]. *)
Definition Errorf (prefix : string) (e : error) : error :=
    errorString (prefix +:+ Error e).

  (** [mcnutils.MultiError]: the aggregate returned by the EC2 [Remove]. *)
Record MultiError : Type := mkMultiError { Errs : list error }.

  (** [state.State] of libmachine. *)
Inductive State : Type :=
  | StateNone | Running | Paused | Saved | Stopped | Stopping | Starting
  | StateError | StateTimeout.

  (** [strings.HasPrefix(s, prefix)]. *)
Definition HasPrefix (s prefix : string) : bool := String.prefix prefix s.

  (** [strings.Contains(s, substr)]. *)
Fixpoint Contains (s substr : string) : bool :=
    String.prefix substr s ||
    match s with
    | EmptyString => false
    | String _ s' => Contains s' substr
    end.

  (** [strings.Split(s, sep)] for a non-empty separator: cut at every
      leftmost, non-overlapping occurrence of [sep].  [skip] counts the
      characters of a matched separator still to be dropped, [cur] is the
      piece being read. *)
Fixpoint Split_from (sep s : string) (skip : nat) (cur : string) : list string :=
    match s with
    | EmptyString => [cur]
    | String ch s' =>
        match skip with
        | S k => Split_from sep s' k cur
        | O =>
            if String.prefix sep s
            then cur :: Split_from sep s' (Nat.pred (String.length sep)) ""
            else Split_from sep s' O (cur +:+ String ch "")
        end
    end.

Definition Split (s sep : string) : list string := Split_from sep s O "".

  (** [strings.SplitN(s, sep, 2)] for a one-byte separator: the text before
      the first [sep] and the text after it, or [s] alone when [sep] does
      not occur.  [cut_at] finds the first occurrence. *)
Fixpoint cut_at (sep : ascii) (s : string) : string * option string :=
    match s with
    | EmptyString => (EmptyString, None)
    | String ch s' =>
        if Ascii.eqb ch sep then (EmptyString, Some s')
        else let '(before, after) := cut_at sep s' in (String ch before, after)
    end.

Definition SplitN2 (s : string) (sep : ascii) : list string :=
    match cut_at sep s with
    | (before, Some after) => [before; after]
    | (before, None) => [before]
    end.

  (** [fmt.Sprintf("%d", n)]. *)
Definition Itoa (n : Z) : string := NilZero.string_of_int (Z.to_int n).

  (** [s[:n]] on a Go string (a sequence of bytes). *)
Definition slice_to (s : string) (n : nat) : string := String.substring 0 n s.

  (** The zero value of [time.Duration] arithmetic is not needed: durations
      are nanosecond counts, and [backoff.Stop] is the constant [-1]. *)
Definition Duration : Type := Z.
Definition backoff_Stop : Duration := -1.

  (** The log of libmachine.  Only warnings are modelled; [Info] and [Debug]
      lines are left out of the embedding.  A line is its format string and
      the (string) arguments. *)
Record LogEntry : Type := Warnf { format : string; args : list string }.

  (** *** Outcome of running a piece of driver code *)
Inductive outcome (A : Type) : Type :=
  | Ret (a : A)           (* the function returned *)
  | Panic (msg : string)  (* run-time panic *)
  | Diverge.              (* the fuel of a loop ran out: still looping *)
Arguments Ret {A} a.
Arguments Panic {A} msg.
Arguments Diverge {A}.

Section Monad.
Context {Driver Call W : Type}.

    (** The state threaded through a driver method: the receiver [d *Driver]
        (methods mutate it through the pointer), the world outside the
        process, the calls made so far, and the warnings logged so far. *)
Record St : Type := mkSt {
      drv : Driver;
      world : W;
      trace : list Call;
      logs : list LogEntry
    }.

Definition M (A : Type) : Type := St -> outcome A * St.

Definition ret {A} (a : A) : M A := fun st => (Ret a, st).

Definition bind {A B} (f : A -> M B) (m : M A) : M B := fun st =>
      match m st with
      | (Ret a, st') => f a st'
      | (Panic msg, st') => (Panic msg, st')
      | (Diverge, st') => (Diverge, st')
      end.

Definition panic {A} (msg : string) : M A := fun st => (Panic msg, st).
Definition diverge {A} : M A := fun st => (Diverge, st).

Definition get_drv : M Driver := fun st => (Ret (drv st), st).

Definition modify_drv (f : Driver -> Driver) : M unit := fun st =>
      (Ret tt, {| drv := f (drv st); world := world st;
                  trace := trace st; logs := logs st |}).

(** The state in which one more warning has been logged. *)
Definition warned (fmt : string) (a : list string) (st : St) : St :=
  {| drv := drv st; world := world st; trace := trace st;
     logs := logs st ++ [Warnf fmt a] |}.

Definition log_Warnf (fmt : string) (a : list string) : M unit := fun st =>
  (Ret tt, warned fmt a st).

    (** Dereferencing a pointer the caller did not check. *)
Definition deref {A} (p : option A) : M A :=
      match p with
      | Some a => ret a
      | None => panic "invalid memory address or nil pointer dereference"
      end.

    (** [l[i]] on a slice. *)
Definition index {A} (l : list A) (i : nat) : M A :=
      match l !! i with
      | Some a => ret a
      | None => panic "index out of range"
      end.

(** What a computation may be known to do, whatever state it starts in:
    leave the driver as it found it; make only calls that satisfy [P]. *)
Definition keeps_drv {A} (m : M A) : Prop :=
  forall st o st', m st = (o, st') -> drv st' = drv st.

Definition only_calls (P : Call -> Prop) {A} (m : M A) : Prop :=
  forall st o st', m st = (o, st') ->
    exists new, trace st' = trace st ++ new /\ Forall P new.

Section Api.
Context {Resp : Call -> Type}.
Variable backend : forall c : Call, W -> Resp c * W.

      (** One call that leaves the process. *)
Definition api (c : Call) : M (Resp c) := fun st =>
        let '(r, w) := backend c (world st) in
        (Ret r, {| drv := drv st; world := w;
                   trace := trace st ++ [c]; logs := logs st |}).
End Api.
End Monad.

Arguments St : clear implicits.
Arguments M : clear implicits.
Arguments keeps_drv {Driver Call W A} m.
Arguments only_calls {Driver Call W} P {A} m.

#[global] Instance M_ret {Driver Call W} : MRet (M Driver Call W) :=
    fun A => @ret Driver Call W A.
#[global] Instance M_bind {Driver Call W} : MBind (M Driver Call W) :=
    fun A B => @bind Driver Call W A B.

End Go.

(** ** The Google Compute Engine driver *)

Module Google.
Import Go.

(** *** The parts of [google.golang.org/api/compute/v1] the driver touches *)

Record FirewallAllowed : Type := mkFirewallAllowed {
  IPProtocol : string;
  Ports : list string
}.

Record Firewall : Type := mkFirewall {
  Firewall_Name : string;
  Allowed : list FirewallAllowed;
  SourceRanges : list string;
  TargetTags : list string;
  Firewall_Network : string
}.

Record OperationErrorErrors : Type := mkOperationErrorErrors {
  OpErr_Code : string;
  OpErr_Location : string;
  OpErr_Message : string
}.

Record OperationError : Type := mkOperationError {
  Errors : list OperationErrorErrors
}.

Record Operation : Type := mkOperation {
  Op_Name : string;
  Op_Status : string;
  Op_Error : option OperationError
}.

Record AttachedDiskInitializeParams : Type := mkInitializeParams {
  DiskName : string;
  SourceImage : string;
  DiskSizeGb : Z;
  Init_DiskType : string
}.

Record AttachedDisk : Type := mkAttachedDisk {
  Boot : bool;
  AutoDelete : bool;
  AttachedDisk_Type : string;
  Mode : string;
  InitializeParams : option AttachedDiskInitializeParams;
  Source : string
}.

Record AccessConfig : Type := mkAccessConfig {
  AccessConfig_Type : string;
  NatIP : string
}.

Record NetworkInterface : Type := mkNetworkInterface {
  Network : string;
  Subnetwork : string;
  NetworkIP : string;
  AccessConfigs : list AccessConfig
}.

Record MetadataItems : Type := mkMetadataItems {
  Key : string;
  Value : string
}.

(** [raw.Instance].  The payload fields that no control flow of the driver
    depends on ([ServiceAccounts], [Labels], [GuestAccelerators]) are left
    out of the record. *)
Record Instance : Type := mkInstance {
  Instance_Name : string;
  Description : string;
  MachineType : string;
  MinCpuPlatform : string;
  Disks : list AttachedDisk;
  NetworkInterfaces : list NetworkInterface;
  Tags_Items : list string;
  Scheduling_Preemptible : bool;
  Scheduling_OnHostMaintenance : string;
  Metadata_Items : list MetadataItems;
  Status : string
}.

Record Disk : Type := mkDisk { Disk_Name : string }.

Record Address : Type := mkAddress { Address_Address : string }.

(** [url.URL], as far as [portsUsed] reads it. *)
Record URL : Type := mkURL { Host : string }.

(** *** [google.go]: the driver and its backoff factory *)

Record backoffFactory : Type := mkBackoffFactory {
  InitialInterval : Duration;
  RandomizationFactor : string;
  Multiplier : string;
  MaxInterval : Duration;
  MaxElapsedTime : Duration
}.

(** [Driver], with the fields of the embedded [*drivers.BaseDriver] that the
    driver reads or writes. *)
Record Driver : Type := mkDriver {
  (* drivers.BaseDriver *)
  IPAddress : string;
  MachineName : string;
  SSHUser : string;
  SwarmMaster : bool;
  SwarmHost : string;
  (* google.Driver *)
  Zone : string;
  Driver_MachineType : string;
  Driver_MinCPUPlatform : string;
  MachineImage : string;
  DiskType : string;
  Driver_Address : string;
  Driver_Network : string;
  Driver_Subnetwork : string;
  Preemptible : bool;
  UseInternalIP : bool;
  UseInternalIPOnly : bool;
  DiskSize : Z;
  Project : string;
  Tags : string;
  UseExisting : bool;
  OpenPorts : list string;
  Metadata : gmap string string;
  MetadataFromFile : gmap string string;
  MaintenancePolicy : string;
  SkipFirewall : bool;
  OperationBackoffFactory : option backoffFactory
}.

Definition set_IPAddress (ip : string) (d : Driver) : Driver :=
  {| IPAddress := ip;
     MachineName := MachineName d; SSHUser := SSHUser d;
     SwarmMaster := SwarmMaster d; SwarmHost := SwarmHost d;
     Zone := Zone d; Driver_MachineType := Driver_MachineType d;
     Driver_MinCPUPlatform := Driver_MinCPUPlatform d;
     MachineImage := MachineImage d; DiskType := DiskType d;
     Driver_Address := Driver_Address d; Driver_Network := Driver_Network d;
     Driver_Subnetwork := Driver_Subnetwork d; Preemptible := Preemptible d;
     UseInternalIP := UseInternalIP d;
     UseInternalIPOnly := UseInternalIPOnly d; DiskSize := DiskSize d;
     Project := Project d; Tags := Tags d; UseExisting := UseExisting d;
     OpenPorts := OpenPorts d; Metadata := Metadata d;
     MetadataFromFile := MetadataFromFile d;
     MaintenancePolicy := MaintenancePolicy d;
     SkipFirewall := SkipFirewall d;
     OperationBackoffFactory := OperationBackoffFactory d |}.

(** *** [compute_util.go]: [ComputeUtil] without its [service] handle *)

Record ComputeUtil : Type := mkComputeUtil {
  zone : string;
  instanceName : string;
  userName : string;
  project : string;
  diskTypeURL : string;
  address : string;
  networkProject : string;
  network : string;
  subnetwork : string;
  preemptible : bool;
  useInternalIP : bool;
  useInternalIPOnly : bool;
  zoneURL : string;
  globalURL : string;
  c_SwarmMaster : bool;
  c_SwarmHost : string;
  openPorts : list string;
  minCPUPlatform : string;
  maintenancePolicy : string;
  skipFirewall : bool;
  operationBackoffFactory : option backoffFactory
}.

Definition apiURL : string := "https://www.googleapis.com/compute/v1/projects/".
Definition firewallRule_name : string := "docker-machines".
Definition dockerPort : string := "2376".
Definition firewallTargetTag : string := "docker-machine".

(** *** Calls that leave the process, and the type of their answers *)

Inductive Call : Type :=
| DefaultClient                       (* google.DefaultClient(...) *)
| RawNew                              (* raw.New(client) *)
| FirewallsGet (proj name : string)
| FirewallsInsert (proj : string) (rule : Firewall)
| FirewallsUpdate (proj name : string) (rule : Firewall)
| InstancesGet (proj zn name : string)
| InstancesInsert (proj zn : string) (inst : Instance)
| InstancesDelete (proj zn name : string)
| InstancesStart (proj zn name : string)
| InstancesStop (proj zn name : string)
| InstancesSetTags (proj zn name : string) (items : list string)
| InstancesSetMetadata (proj zn name : string) (items : list MetadataItems)
| DisksGet (proj zn name : string)
| DisksDelete (proj zn name : string)
| AddressesGet (proj region name : string)
| ZoneOperationsWait (proj zn name : string)
| GlobalOperationsWait (proj name : string)
| BackOffReset (bf : backoffFactory)  (* bf.create() and b.Reset() *)
| NextBackOff                         (* b.NextBackOff() *)
| Sleep (d : Duration)                (* time.Sleep(d) *)
| GenerateSSHKey (path : string)      (* ssh.GenerateSSHKey(path) *)
| ReadFile (path : string).           (* ioutil.ReadFile(path) *)

Definition Resp (c : Call) : Type :=
  match c with
  | DefaultClient | RawNew => option error
  | FirewallsGet _ _ => (option Firewall * option error)%type
  | InstancesGet _ _ _ => (option Instance * option error)%type
  | DisksGet _ _ _ => (option Disk * option error)%type
  | AddressesGet _ _ _ => (option Address * option error)%type
  | FirewallsInsert _ _ | FirewallsUpdate _ _ _
  | InstancesInsert _ _ _ | InstancesDelete _ _ _
  | InstancesStart _ _ _ | InstancesStop _ _ _
  | InstancesSetTags _ _ _ _ | InstancesSetMetadata _ _ _ _
  | DisksDelete _ _ _
  | ZoneOperationsWait _ _ _ | GlobalOperationsWait _ _ =>
      (option Operation * option error)%type
  | BackOffReset _ => unit
  | NextBackOff => Duration
  | Sleep _ => unit
  | GenerateSSHKey _ => option error
  | ReadFile _ => (string * option error)%type
  end.

(** The calls that change something at the cloud provider. *)
Definition mutating (c : Call) : bool :=
  match c with
  | FirewallsInsert _ _ | FirewallsUpdate _ _ _
  | InstancesInsert _ _ _ | InstancesDelete _ _ _
  | InstancesStart _ _ _ | InstancesStop _ _ _
  | InstancesSetTags _ _ _ _ | InstancesSetMetadata _ _ _ _
  | DisksDelete _ _ _ => true
  | _ => false
  end.

(** The calls that delete a resource at the cloud provider. *)
Definition deletion (c : Call) : bool :=
  match c with
  | InstancesDelete _ _ _ | DisksDelete _ _ _ => true
  | _ => false
  end.

(** The calls by which an instance is set up, its insertion apart: reading
    files, looking things up, setting the metadata, awaiting operations. *)
Definition instance_setup (c : Call) : bool :=
  match c with
  | ReadFile _ | AddressesGet _ _ _ | DisksGet _ _ _ | InstancesGet _ _ _
  | InstancesSetMetadata _ _ _ _ | ZoneOperationsWait _ _ _
  | BackOffReset _ | NextBackOff | Sleep _ => true
  | _ => false
  end.

Definition newline : string := String (ascii_of_nat 10) EmptyString.

(** [a-z], the first character class of the pattern in [staticAddress]. *)
Definition is_lower_letter (ch : ascii) : bool :=
  let n := nat_of_ascii ch in (97 <=? n)%nat && (n <=? 122)%nat.

Fixpoint has_lower_letter (s : string) : bool :=
  match s with
  | EmptyString => false
  | String ch s' => is_lower_letter ch || has_lower_letter s'
  end.

(** [isNotFound]. *)
Definition isNotFound (err : error) : bool :=
  match err with
  | googleapi_Error code _ _ => bool_decide (code = 404)
  | _ => false
  end.

(** [unwrapGoogleError]. *)
Definition unwrapGoogleError (err : error) : error :=
  match err with
  | googleapi_Error _ message _ => errorString message
  | _ => err
  end.

(** [ComputeUtil.diskName], [ComputeUtil.diskType]. *)
Definition diskName (c : ComputeUtil) : string := instanceName c +:+ "-disk".

Definition diskType (c : ComputeUtil) : string :=
  apiURL +:+ project c +:+ "/zones/" +:+ zone c +:+ "/diskTypes/" +:+ diskTypeURL c.

(** [ComputeUtil.region]: [c.zone[:len(c.zone)-2]].  The slice expression
    panics when its upper bound is negative. *)
Definition region (c : ComputeUtil) : outcome string :=
  let hi := Z.of_nat (String.length (zone c)) - 2 in
  if hi <? 0 then Panic "slice bounds out of range"
  else Ret (slice_to (zone c) (Z.to_nat hi)).

(** [parseTags]. *)
Definition parseTags (d : Driver) : list string :=
  let tags := [firewallTargetTag] in
  if bool_decide (Tags d = "") then tags else tags ++ Split (Tags d) ",".

(** [appendMetadata]. *)
Definition appendMetadata (items : list MetadataItems) (key value : string)
  : list MetadataItems :=
  if bool_decide (value = "") then items
  else items ++ [mkMetadataItems key value].

Section WithBackend.
Context {W : Type}.

(** Library functions and repository helpers whose code is not part of the
    embedded sources; the development holds for every behaviour of them. *)
Variable SplitPortProto : string -> string * string.
  (* driverutil.SplitPortProto *)
Variable url_Parse : string -> option URL * option error.
  (* net/url.Parse *)
Variable networkProjectRegex_FindStringSubmatch : string -> list string.
  (* networkProjectRegex.FindStringSubmatch *)
Variable TrimSpace : string -> string.
  (* strings.TrimSpace *)
Variable GetSSHKeyPath : Driver -> string.
  (* the GetSSHKeyPath method of drivers.BaseDriver *)
Variable Sprint_OperationErrorErrors : OperationErrorErrors -> string.
  (* fmt's %v rendering of a raw.OperationErrorErrors value *)

(** The world outside the process. *)
Variable backend : forall c : Call, W -> Resp c * W.

Local Abbreviation M := (Go.M Driver Call W).
Local Abbreviation call := (api backend).

Definition lift {A} (o : outcome A) : M A :=
  match o with
  | Ret a => mret a
  | Panic msg => panic msg
  | Diverge => diverge
  end.

(** [newComputeUtil]. *)
Definition newComputeUtil (driver : Driver) : M (option ComputeUtil * option error) :=
  err ← call DefaultClient;
  match err with
  | Some e => mret (None, Some e)
  | None =>
    err ← call RawNew;
    match err with
    | Some e => mret (None, Some e)
    | None =>
      let matches := networkProjectRegex_FindStringSubmatch (Driver_Network driver) in
      networkProject ←
        (if bool_decide (0 < length matches)%nat then index matches 1
         else mret (Project driver));
      mret (Some {|
        zone := Zone driver;
        instanceName := MachineName driver;
        userName := SSHUser driver;
        project := Project driver;
        diskTypeURL := DiskType driver;
        address := Driver_Address driver;
        networkProject := networkProject;
        network := Driver_Network driver;
        subnetwork := Driver_Subnetwork driver;
        preemptible := Preemptible driver;
        useInternalIP := UseInternalIP driver;
        useInternalIPOnly := UseInternalIPOnly driver;
        zoneURL := apiURL +:+ Project driver +:+ "/zones/" +:+ Zone driver;
        globalURL := apiURL +:+ Project driver +:+ "/global";
        c_SwarmMaster := SwarmMaster driver;
        c_SwarmHost := SwarmHost driver;
        openPorts := OpenPorts driver;
        minCPUPlatform := Driver_MinCPUPlatform driver;
        maintenancePolicy := MaintenancePolicy driver;
        skipFirewall := SkipFirewall driver;
        operationBackoffFactory := OperationBackoffFactory driver
      |}, None)
    end
  end.

(** [ComputeUtil.waitForOp].  [waitForOp_loop] is the [for] loop; one unit
    of fuel pays for one iteration. *)
Fixpoint waitForOp_loop (fuel : nat)
    (opGetter : M (option Operation * option error)) : M (option error) :=
  match fuel with
  | O => diverge
  | S fuel' =>
    '(op, err) ← opGetter;
    match err with
    | Some e => mret (Some e)
    | None =>
      op ← deref op;
      if bool_decide (Op_Status op = "DONE") then
        match Op_Error op with
        | Some operr =>
          e0 ← index (Errors operr) 0;
          mret (Some (errorString
                  ("operation error: " +:+ Sprint_OperationErrorErrors e0)))
        | None => mret None
        end
      else
        next ← call NextBackOff;
        if bool_decide (next = backoff_Stop) then
          mret (Some (errorString "maximum backoff elapsed time exceeded"))
        else
          _ ← call (Sleep next);
          waitForOp_loop fuel' opGetter
    end
  end.

Definition waitForOp (fuel : nat) (c : ComputeUtil)
    (opGetter : M (option Operation * option error)) : M (option error) :=
  match operationBackoffFactory c with
  | None => mret (Some (errorString "operationBackoffFactory is not defined"))
  | Some bf =>
    _ ← call (BackOffReset bf);
    waitForOp_loop fuel opGetter
  end.

(** [waitForRegionalOp], [waitForGlobalOp]. *)
Definition waitForRegionalOp (fuel : nat) (c : ComputeUtil) (name : string)
  : M (option error) :=
  waitForOp fuel c (call (ZoneOperationsWait (project c) (zone c) name)).

Definition waitForGlobalOp (fuel : nat) (c : ComputeUtil) (name : string)
  : M (option error) :=
  waitForOp fuel c (call (GlobalOperationsWait (project c) name)).

(** [ComputeUtil.disk], [ComputeUtil.instance], [ComputeUtil.firewallRule]. *)
Definition disk (c : ComputeUtil) : M (option Disk * option error) :=
  call (DisksGet (project c) (zone c) (diskName c)).

Definition instance (c : ComputeUtil) : M (option Instance * option error) :=
  call (InstancesGet (project c) (zone c) (instanceName c)).

Definition firewallRule (c : ComputeUtil) : M (option Firewall * option error) :=
  call (FirewallsGet (networkProject c) firewallRule_name).

(** [ComputeUtil.deleteDisk]. *)
Definition deleteDisk (fuel : nat) (c : ComputeUtil) : M (option error) :=
  '(dsk, _) ← disk c;
  match dsk with
  | None => mret None
  | Some _ =>
    '(op, err) ← call (DisksDelete (project c) (zone c) (diskName c));
    match err with
    | Some e => mret (Some e)
    | None =>
      op ← deref op;
      waitForRegionalOp fuel c (Op_Name op)
    end
  end.

(** [ComputeUtil.staticAddress].  [regexp.MatchString] looks for the pattern
    [[a-z]([-a-z0-9]*[a-z0-9])?] anywhere in the address; the group is
    optional, so the pattern is found exactly when the address holds a
    letter of [a-z], and the (constant, well-formed) pattern never yields an
    error.  The region is computed as an argument, before the call. *)
Definition staticAddress (c : ComputeUtil) : M (string * option error) :=
  let isName := has_lower_letter (address c) in
  if negb isName then mret (address c, None)
  else
    r ← lift (region c);
    '(externalAddress, err) ← call (AddressesGet (project c) r (address c));
    match err with
    | Some e => mret ("", Some e)
    | None =>
      externalAddress ← deref externalAddress;
      mret (Address_Address externalAddress, None)
    end.

(** [missingOpenedPorts].  [opened] is the Go map used as a set of
    ["port/proto"] keys; [missing] maps a protocol to the ports to open. *)
Definition opened_ports (rule : Firewall) : gset string :=
  foldl (fun opened allowed =>
           foldl (fun opened allowedPort =>
                    {[ allowedPort +:+ "/" +:+ IPProtocol allowed ]} ∪ opened)
                 opened (Ports allowed))
        ∅ (Allowed rule).

Definition missingOpenedPorts (rule : Firewall) (ports : list string)
  : gmap string (list string) :=
  let opened := opened_ports rule in
  foldl (fun (missing : gmap string (list string)) p =>
           let '(port, proto) := SplitPortProto p in
           if bool_decide (port +:+ "/" +:+ proto ∈ opened) then missing
           else <[ proto := default [] (missing !! proto) ++ [port] ]> missing)
        ∅ ports.

(** The ["port/proto"] key under which [missingOpenedPorts] looks up a port
    specification, and the rule [openFirewallPorts] starts from when the
    provider has none. *)
Definition port_key (p : string) : string :=
  let '(port, proto) := SplitPortProto p in port +:+ "/" +:+ proto.

Definition fresh_rule (c : ComputeUtil) (d : Driver) : Firewall :=
  {| Firewall_Name := firewallRule_name;
     Allowed := [];
     SourceRanges := ["0.0.0.0/0"];
     TargetTags := [firewallTargetTag];
     Firewall_Network :=
       if Contains (Driver_Network d) "/networks/" then Driver_Network d
       else globalURL c +:+ "/networks/" +:+ Driver_Network d |}.

(** [ComputeUtil.portsUsed]. *)
Definition portsUsed (c : ComputeUtil) : outcome (list string * option error) :=
  let ports := [dockerPort +:+ "/tcp"] in
  let open_ports :=
    map (fun p => let '(port, proto) := SplitPortProto p in
                  port +:+ "/" +:+ proto) (openPorts c) in
  if c_SwarmMaster c then
    match url_Parse (c_SwarmHost c) with
    | (_, Some err) =>
        Ret ([], Some (Errorf "error authorizing port for swarm: " err))
    | (None, None) => Panic "invalid memory address or nil pointer dereference"
    | (Some u, None) =>
        match Split (Host u) ":" !! 1%nat with
        | None => Panic "index out of range"
        | Some swarmPort =>
            Ret ((ports ++ [swarmPort +:+ "/tcp"]) ++ open_ports, None)
        end
    end
  else Ret (ports ++ open_ports, None).

(** The rule [openFirewallPorts] sends: the rule it found (or the fresh one)
    with one more [Allowed] entry per protocol of [missingPorts].  Go ranges
    over the map in no fixed order; the new entries are listed here in the
    order of [map_to_list]. *)
Definition add_missing (rule : Firewall)
    (missingPorts : gmap string (list string)) : Firewall :=
  {| Firewall_Name := Firewall_Name rule;
     Allowed := Allowed rule ++
       map (fun '(proto, ports) => mkFirewallAllowed proto ports)
           (map_to_list missingPorts);
     SourceRanges := SourceRanges rule;
     TargetTags := TargetTags rule;
     Firewall_Network := Firewall_Network rule |}.

(** [ComputeUtil.openFirewallPorts].  [networkRegex] is the literal
    [/networks/], so [MatchString] is a substring test. *)
Definition openFirewallPorts (fuel : nat) (c : ComputeUtil) (d : Driver)
  : M (option error) :=
  if skipFirewall c then mret None
  else
    '(rule, err) ← firewallRule c;
    match err with
    | Some e => mret (Some (Errorf "requesting firewall rule: " e))
    | None =>
      let '(create, rule) :=
        match rule with
        | Some r => (false, r)
        | None => (true, fresh_rule c d)
        end in
      '(ports, err) ← lift (portsUsed c);
      match err with
      | Some e => mret (Some e)
      | None =>
        let missingPorts := missingOpenedPorts rule ports in
        if bool_decide (size missingPorts = 0%nat) then mret None
        else
          let rule := add_missing rule missingPorts in
          '(op, err) ←
            (if create : bool
             then call (FirewallsInsert (networkProject c) rule)
             else call (FirewallsUpdate (networkProject c) firewallRule_name rule));
          match err with
          | Some e => mret (Some e)
          | None =>
            op ← deref op;
            waitForGlobalOp fuel c (Op_Name op)
          end
      end
    end.

(** [ComputeUtil.uploadSSHKey]. *)
Definition uploadSSHKey (fuel : nat) (c : ComputeUtil) (inst : Instance)
    (sshKeyPath : string) : M (option error) :=
  '(sshKey, err) ← call (ReadFile (sshKeyPath +:+ ".pub"));
  match err with
  | Some e => mret (Some e)
  | None =>
    let metaDataValue :=
      userName c +:+ ":" +:+ TrimSpace sshKey +:+ " " +:+ userName c +:+ newline in
    let items := Metadata_Items inst ++
      [mkMetadataItems "sshKeys" metaDataValue;
       mkMetadataItems "ssh-keys" metaDataValue] in
    '(op, err) ←
      call (InstancesSetMetadata (project c) (zone c) (instanceName c) items);
    match err with
    | Some e => mret (Some e)
    | None =>
      op ← deref op;
      waitForRegionalOp fuel c (Op_Name op)
    end
  end.

(** [ComputeUtil.addFirewallTag]. *)
Definition addFirewallTag (fuel : nat) (c : ComputeUtil) (inst : Instance)
  : M (option error) :=
  if bool_decide (firewallTargetTag ∈ Tags_Items inst) then mret None
  else
    let items := Tags_Items inst ++ [firewallTargetTag] in
    '(op, err) ←
      call (InstancesSetTags (project c) (zone c) (Instance_Name inst) items);
    match err with
    | Some e => mret (Some e)
    | None =>
      op ← deref op;
      waitForRegionalOp fuel c (Op_Name op)
    end.

(** [ComputeUtil.configureInstance]. *)
Definition configureInstance (fuel : nat) (c : ComputeUtil) (d : Driver)
  : M (option error) :=
  '(inst, err) ← instance c;
  match err with
  | Some e => mret (Some e)
  | None =>
    inst ← deref inst;
    err ← addFirewallTag fuel c inst;
    match err with
    | Some e => mret (Some e)
    | None => uploadSSHKey fuel c inst (GetSSHKeyPath d)
    end
  end.

(** [readMetadataFile]. *)
Definition readMetadataFile (filePath : string) : M (string * option error) :=
  if bool_decide (filePath = "") then mret ("", None)
  else
    '(data, err) ← call (ReadFile filePath);
    match err with
    | Some e => mret ("", Some e)
    | None => mret (data, None)
    end.

(** [prepareMetadata].  The two [range] loops visit the maps in the order
    [map_to_list] lists them. *)
Fixpoint prepareMetadata_files (files : list (string * string))
    (items : list MetadataItems) : M (list MetadataItems * option error) :=
  match files with
  | [] => mret (items, None)
  | (key, filePath) :: files' =>
    '(value, err) ← readMetadataFile filePath;
    match err with
    | Some e => mret ([], Some e)
    | None => prepareMetadata_files files' (appendMetadata items key value)
    end
  end.

Definition prepareMetadata (d : Driver) : M (list MetadataItems * option error) :=
  let items :=
    foldl (fun items '(key, value) => appendMetadata items key value)
          [] (map_to_list (Metadata d)) in
  prepareMetadata_files (map_to_list (MetadataFromFile d)) items.

(** [instance.NetworkInterfaces[0].AccessConfigs[0].NatIP = staticAddress]. *)
Definition set_NatIP (nic : NetworkInterface) (ip : string)
  : outcome NetworkInterface :=
  match AccessConfigs nic with
  | [] => Panic "index out of range"
  | cfg :: cfgs =>
      Ret {| Network := Network nic; Subnetwork := Subnetwork nic;
             NetworkIP := NetworkIP nic;
             AccessConfigs := mkAccessConfig (AccessConfig_Type cfg) ip :: cfgs |}
  end.

(** [ComputeUtil.createInstance].  The instance is built field by field as in
    the source; the statements run in the source's order, so that a panic or
    an early return happens where the source has it. *)
Definition createInstance (fuel : nat) (c : ComputeUtil) (d : Driver)
  : M (option error) :=
  let net :=
    if Contains (Driver_Network d) "/networks/" then Driver_Network d
    else globalURL c +:+ "/networks/" +:+ Driver_Network d in
  '(metadata, err) ← prepareMetadata d;
  match err with
  | Some e => mret (Some e)
  | None =>
    subnet ←
      (if Contains (subnetwork c) "/subnetworks/" then mret (subnetwork c)
       else if negb (bool_decide (subnetwork c = "")) then
         r ← lift (region c);
         mret ("projects/" +:+ networkProject c +:+ "/regions/" +:+ r
               +:+ "/subnetworks/" +:+ subnetwork c)
       else mret "");
    let nic := {| Network := net; Subnetwork := subnet; NetworkIP := "";
                  AccessConfigs :=
                    if useInternalIPOnly c then []
                    else [mkAccessConfig "ONE_TO_ONE_NAT" ""] |} in
    nic_err ←
      (if negb (bool_decide (address c = "")) then
         '(staticAddr, err) ← staticAddress c;
         match err with
         | Some e => mret (nic, Some e)
         | None => nic ← lift (set_NatIP nic staticAddr); mret (nic, None)
         end
       else mret (nic, None));
    match nic_err with
    | (_, Some e) => mret (Some e)
    | (nic, None) =>
      '(dsk, err) ← disk c;
      let boot_disk :=
        match dsk, err with
        | Some _, None =>
            mkAttachedDisk true true "PERSISTENT" "READ_WRITE" None
              (zoneURL c +:+ "/disks/" +:+ instanceName c +:+ "-disk")
        | _, _ =>
            mkAttachedDisk true true "PERSISTENT" "READ_WRITE"
              (Some {| DiskName := diskName c;
                       SourceImage :=
                         "https://www.googleapis.com/compute/v1/projects/"
                         +:+ MachineImage d;
                       DiskSizeGb := DiskSize d;
                       Init_DiskType := diskType c |})
              ""
        end in
      let inst := {|
        Instance_Name := instanceName c;
        Description := "docker host vm";
        MachineType := zoneURL c +:+ "/machineTypes/" +:+ Driver_MachineType d;
        MinCpuPlatform := minCPUPlatform c;
        Disks := [boot_disk];
        NetworkInterfaces := [nic];
        Tags_Items := parseTags d;
        Scheduling_Preemptible := preemptible c;
        Scheduling_OnHostMaintenance := maintenancePolicy c;
        Metadata_Items := metadata;
        Status := "" |} in
      '(op, err) ← call (InstancesInsert (project c) (zone c) inst);
      match err with
      | Some e => mret (Some e)
      | None =>
        op ← deref op;
        err ← waitForRegionalOp fuel c (Op_Name op);
        match err with
        | Some e => mret (Some e)
        | None =>
          '(inst, err) ← instance c;
          match err with
          | Some e => mret (Some e)
          | None =>
            inst ← deref inst;
            uploadSSHKey fuel c inst (GetSSHKeyPath d)
          end
        end
      end
    end
  end.

(** [deleteInstance], [stopInstance], [startInstance]. *)
Definition deleteInstance (fuel : nat) (c : ComputeUtil) : M (option error) :=
  '(op, err) ← call (InstancesDelete (project c) (zone c) (instanceName c));
  match err with
  | Some e => mret (Some e)
  | None => op ← deref op; waitForRegionalOp fuel c (Op_Name op)
  end.

Definition stopInstance (fuel : nat) (c : ComputeUtil) : M (option error) :=
  '(op, err) ← call (InstancesStop (project c) (zone c) (instanceName c));
  match err with
  | Some e => mret (Some e)
  | None => op ← deref op; waitForRegionalOp fuel c (Op_Name op)
  end.

Definition startInstance (fuel : nat) (c : ComputeUtil) : M (option error) :=
  '(op, err) ← call (InstancesStart (project c) (zone c) (instanceName c));
  match err with
  | Some e => mret (Some e)
  | None => op ← deref op; waitForRegionalOp fuel c (Op_Name op)
  end.

(** [ComputeUtil.ip]. *)
Definition ip (c : ComputeUtil) : M (string * option error) :=
  '(inst, err) ← call (InstancesGet (project c) (zone c) (instanceName c));
  match err with
  | Some e => mret ("", Some (unwrapGoogleError e))
  | None =>
    inst ← deref inst;
    nic ← index (NetworkInterfaces inst) 0;
    if useInternalIP c then mret (NetworkIP nic, None)
    else
      cfg ← index (AccessConfigs nic) 0;
      mret (NatIP cfg, None)
  end.

(** *** The methods of [Driver] *)

(** The [switch instance.Status] of [GetState], with the final
    [return state.None, nil] as its default. *)
Definition state_of_Status (status : string) : State :=
  if bool_decide (status = "PROVISIONING") || bool_decide (status = "STAGING")
  then Starting
  else if bool_decide (status = "RUNNING") then Running
  else if bool_decide (status = "STOPPING") || bool_decide (status = "STOPPED")
          || bool_decide (status = "TERMINATED")
  then Stopped
  else StateNone.

(** [Driver.GetState]. *)
Definition GetState : M (State * option error) :=
  d ← get_drv;
  '(c, err) ← newComputeUtil d;
  match err with
  | Some e => mret (StateNone, Some e)
  | None =>
    c ← deref c;
    '(inst, _) ← instance c;
    match inst with
    | None =>
      '(dsk, _) ← disk c;
      match dsk with
      | None => mret (StateNone, None)
      | Some _ => mret (Stopped, None)
      end
    | Some inst => mret (state_of_Status (Status inst), None)
    end
  end.

(** [Driver.GetIP]. *)
Definition GetIP : M (string * option error) :=
  d ← get_drv;
  if negb (bool_decide (IPAddress d = "")) then mret (IPAddress d, None)
  else
    '(c, err) ← newComputeUtil d;
    match err with
    | Some e => mret ("", Some e)
    | None =>
      c ← deref c;
      '(addr, err) ← ip c;
      match err with
      | Some e => mret ("", Some e)
      | None =>
        if bool_decide (addr = "") then mret ("", Some ErrHostIsNotRunning)
        else
          _ ← modify_drv (set_IPAddress addr);
          mret (addr, None)
      end
    end.

(** [Driver.Create]. *)
Definition Create (fuel : nat) : M (option error) :=
  d ← get_drv;
  err ← call (GenerateSSHKey (GetSSHKeyPath d));
  match err with
  | Some e => mret (Some e)
  | None =>
    '(c, err) ← newComputeUtil d;
    match err with
    | Some e => mret (Some e)
    | None =>
      c ← deref c;
      err ← openFirewallPorts fuel c d;
      match err with
      | Some e => mret (Some e)
      | None =>
        if UseExisting d then configureInstance fuel c d
        else createInstance fuel c d
      end
    end
  end.

(** [Driver.Start]. *)
Definition Start (fuel : nat) : M (option error) :=
  d ← get_drv;
  '(c, err) ← newComputeUtil d;
  match err with
  | Some e => mret (Some e)
  | None =>
    c ← deref c;
    '(inst, err) ← instance c;
    let stop :=
      match err with
      | Some e => if negb (isNotFound e) then Some e else None
      | None => None
      end in
    match stop with
    | Some e => mret (Some e)
    | None =>
      err ← match inst with
            | None => createInstance fuel c d
            | Some _ => startInstance fuel c
            end;
      match err with
      | Some e => mret (Some e)
      | None =>
        '(addr, err) ← GetIP;
        _ ← modify_drv (set_IPAddress addr);
        mret err
      end
    end
  end.

(** [Driver.Stop]. *)
Definition Stop (fuel : nat) : M (option error) :=
  d ← get_drv;
  '(c, err) ← newComputeUtil d;
  match err with
  | Some e => mret (Some e)
  | None =>
    c ← deref c;
    err ← stopInstance fuel c;
    match err with
    | Some e => mret (Some e)
    | None =>
      _ ← modify_drv (set_IPAddress "");
      mret None
    end
  end.

(** [Driver.Restart], [Driver.Kill]. *)
Definition Restart (fuel : nat) : M (option error) :=
  err ← Stop fuel;
  match err with
  | Some e => mret (Some e)
  | None => Start fuel
  end.

Definition Kill (fuel : nat) : M (option error) := Stop fuel.

(** [Driver.Remove]. *)
Definition Remove (fuel : nat) : M (option error) :=
  d ← get_drv;
  '(c, err) ← newComputeUtil d;
  match err with
  | Some e => mret (Some e)
  | None =>
    c ← deref c;
    err ← deleteInstance fuel c;
    stop ← match err with
            | Some e =>
              if isNotFound e then
                _ ← log_Warnf "Remote instance does not exist, proceeding with removing local reference" [];
                mret None
              else mret (Some e)
            | None => mret None
            end;
    match stop with
    | Some e => mret (Some e)
    | None =>
      err ← deleteDisk fuel c;
      match err with
      | Some e =>
        if isNotFound e then
          _ ← log_Warnf "Remote disk does not exist, proceeding" [];
          mret None
        else mret (Some e)
      | None => mret None
      end
    end
  end.

(** *** Configuration helpers and the remaining queries *)

(** [metadataMapFromStringSlice] of [google.go]: the entries ["key=value"] of
    the [--google-metadata] flags, as a map. *)
Definition metadataMapFromStringSlice (slice : list string) : gmap string string :=
  foldl (fun (result : gmap string string) element =>
           match SplitN2 element "=" with
           | [key; value] => <[ key := value ]> result
           | _ => result
           end)
        ∅ slice.

(** [parseLabels], as a function of [d.Labels].  [split[0]] always exists:
    [SplitN] returns at least one piece. *)
Definition parseLabels (labels : list string) : gmap string string :=
  foldl (fun (m : gmap string string) kv =>
           let '(first, second) := cut_at ":" kv in
           let key := TrimSpace first in
           let value := match second with
                        | Some v => TrimSpace v
                        | None => ""
                        end in
           <[ key := value ]> m)
        ∅ labels.

(** [ComputeUtil.acceleratorCountAndType], as a function of [c.accelerator].
    [accelerator_loop] is the [range split] loop, with the two variables it
    updates. *)
Variable Atoi : string -> Z * option error.
  (* strconv.Atoi *)

Fixpoint accelerator_loop (split : list string) (count : Z)
    (acceleratorType : string) : Z * string :=
  match split with
  | [] => (count, acceleratorType)
  | kvStr :: rest =>
    match Split kvStr "=" with
    | [k; v] =>
      let key := TrimSpace k in
      let value := TrimSpace v in
      if bool_decide (key = "count") then
        match Atoi value with
        | (_, Some _) => (0, "")
        | (n, None) => accelerator_loop rest n acceleratorType
        end
      else if bool_decide (key = "type") then
        accelerator_loop rest count (TrimSpace value)
      else (0, "")
    | _ => accelerator_loop rest count acceleratorType
    end
  end.

Definition acceleratorCountAndType (accelerator : string) : Z * string :=
  if bool_decide (accelerator = "") then (0, "")
  else accelerator_loop (Split (TrimSpace accelerator) ",") 1 "".

(** [Driver.GetURL], [Driver.GetSSHHostname]. *)
Variable JoinHostPort : string -> string -> string.
  (* net.JoinHostPort *)

Definition GetURL : M (string * option error) :=
  '(addr, err) ← GetIP;
  match err with
  | Some e => mret ("", Some e)
  | None => mret ("tcp://" +:+ JoinHostPort addr "2376", None)
  end.

Definition GetSSHHostname : M (string * option error) := GetIP.

End WithBackend.
End Google.

(** ** The Amazon EC2 driver *)

Module AmazonEC2.
Import Go.

(** *** The parts of the AWS SDK the driver touches *)

Record IpPermission : Type := mkIpPermission {
  IpProtocol : string;
  FromPort : option Z;
  ToPort : option Z;
  IpRanges : list string
}.

Record SecurityGroup : Type := mkSecurityGroup {
  GroupId : string;
  SG_VpcId : string;
  GroupName : string;
  IpPermissions : list IpPermission
}.

Record Instance : Type := mkInstance {
  Instance_InstanceId : string;
  State_Name : string;
  PrivateIpAddress : option string;
  PublicIpAddress : option string
}.

Record Reservation : Type := mkReservation { Instances : list Instance }.

Record Tag : Type := mkTag { Key : string; Value : string }.

Record Filter : Type := mkFilter { Name : string; Values : list string }.

Record Subnet : Type := mkSubnet {
  Subnet_SubnetId : string;
  Subnet_VpcId : string;
  DefaultForAz : option bool
}.

(** [ec2.RunInstancesInput], without the block-device, monitoring, metadata
    and credit options, which no control flow of the driver depends on. *)
Record RunInstancesInput : Type := mkRunInstancesInput {
  ImageId : string;
  AvailabilityZone : string;
  Req_KeyName : string;
  Req_InstanceType : string;
  Groups : list string;
  Req_SubnetId : string;
  AssociatePublicIpAddress : bool;
  UserData : string;
  SpotMarket : bool;
  TagSpecifications : list (string * list Tag)
}.

(** *** [Driver], with the fields of the embedded [*drivers.BaseDriver] that
    the driver reads or writes; the volume, monitoring, metadata and credit
    settings, which only fill the launch request, are left out. *)
Record Driver : Type := mkDriver {
  (* drivers.BaseDriver *)
  IPAddress : string;
  MachineName : string;
  SSHUser : string;
  SSHPort : Z;
  SwarmMaster : bool;
  SwarmHost : string;
  (* amazonec2.Driver *)
  Region : string;
  AMI : string;
  ExistingKey : bool;
  KeyName : string;
  InstanceId : string;
  InstanceType : string;
  PrivateIPAddress : string;
  SecurityGroupId : string;
  SecurityGroupIds : list string;
  SecurityGroupName : string;
  SecurityGroupNames : list string;
  SecurityGroupReadOnly : bool;
  OpenPorts : list string;
  Tags : string;
  VpcId : string;
  SubnetId : string;
  Zone : string;
  RequestSpotInstance : bool;
  PrivateIPOnly : bool;
  UsePrivateIP : bool;
  SSHPrivateKeyPath : string;
  Endpoint : string;
  UserDataFile : string
}.

(** Assignments to the fields the methods write. *)
Inductive field : Type :=
| F_IPAddress (v : string)
| F_KeyName (v : string)
| F_InstanceId (v : string)
| F_PrivateIPAddress (v : string)
| F_SecurityGroupIds (v : list string)
| F_SubnetId (v : string).

Definition assign (f : field) (d : Driver) : Driver :=
  {| IPAddress := match f with F_IPAddress v => v | _ => IPAddress d end;
     MachineName := MachineName d; SSHUser := SSHUser d; SSHPort := SSHPort d;
     SwarmMaster := SwarmMaster d; SwarmHost := SwarmHost d;
     Region := Region d; AMI := AMI d; ExistingKey := ExistingKey d;
     KeyName := match f with F_KeyName v => v | _ => KeyName d end;
     InstanceId := match f with F_InstanceId v => v | _ => InstanceId d end;
     InstanceType := InstanceType d;
     PrivateIPAddress :=
       match f with F_PrivateIPAddress v => v | _ => PrivateIPAddress d end;
     SecurityGroupId := SecurityGroupId d;
     SecurityGroupIds :=
       match f with F_SecurityGroupIds v => v | _ => SecurityGroupIds d end;
     SecurityGroupName := SecurityGroupName d;
     SecurityGroupNames := SecurityGroupNames d;
     SecurityGroupReadOnly := SecurityGroupReadOnly d;
     OpenPorts := OpenPorts d; Tags := Tags d; VpcId := VpcId d;
     SubnetId := match f with F_SubnetId v => v | _ => SubnetId d end;
     Zone := Zone d; RequestSpotInstance := RequestSpotInstance d;
     PrivateIPOnly := PrivateIPOnly d; UsePrivateIP := UsePrivateIP d;
     SSHPrivateKeyPath := SSHPrivateKeyPath d; Endpoint := Endpoint d;
     UserDataFile := UserDataFile d |}.

(** Constants of [amazonec2.go] and of the SDK. *)
Definition ipRange : string := "0.0.0.0/0".
Definition keypairNotFoundCode : string := "InvalidKeyPair.NotFound".
Definition dockerPort : Z := 2376.
Definition errorReadingUserData : error :=
  errorString "unable to read --amazonec2-userdata file".
Definition errorUnprocessableResponse : error :=
  errorString "unexpected AWS API response".

Definition InstanceStateNamePending : string := "pending".
Definition InstanceStateNameRunning : string := "running".
Definition InstanceStateNameShuttingDown : string := "shutting-down".
Definition InstanceStateNameTerminated : string := "terminated".
Definition InstanceStateNameStopping : string := "stopping".
Definition InstanceStateNameStopped : string := "stopped".

(** *** Calls that leave the process: the methods of [Ec2Client] the driver
    uses, the file system and the clock *)

Inductive Call : Type :=
| DescribeKeyPairs (keyName : string)
| DescribeSubnets (filters : list Filter)
| ImportKeyPair (keyName : string) (publicKeyMaterial : string)
| DescribeSecurityGroups (filters : list Filter) (groupIds : list string)
| CreateSecurityGroup (groupName description vpcId : string)
| AuthorizeSecurityGroupIngress (groupId : string) (perms : list IpPermission)
| RunInstances (req : RunInstancesInput)
| CreateTags (resources : list string) (tags : list Tag)
| DescribeInstances (instanceId : string)
| TerminateInstances (instanceId : string)
| DeleteKeyPair (keyName : string)
| StartInstances (instanceId : string)
| StopInstances (instanceId : string) (force : bool)
| RebootInstances (instanceId : string)
| GenerateSSHKey (path : string)
| CopyFile (src dst : string)
| ReadFile (path : string)
| Sleep (d : Duration).

Definition Resp (c : Call) : Type :=
  match c with
  | DescribeKeyPairs _ => (option (list string) * option error)%type
  | DescribeSubnets _ => (option (list Subnet) * option error)%type
  | DescribeSecurityGroups _ _ =>
      (option (list SecurityGroup) * option error)%type
  | CreateSecurityGroup _ _ _ => (option string * option error)%type
  | RunInstances _ => (option (list Instance) * option error)%type
  | DescribeInstances _ => (option (list Reservation) * option error)%type
  | ReadFile _ => (string * option error)%type
  | Sleep _ => unit
  | _ => option error
  end.

(** The calls that change something at the cloud provider. *)
Definition mutating (c : Call) : bool :=
  match c with
  | ImportKeyPair _ _ | CreateSecurityGroup _ _ _
  | AuthorizeSecurityGroupIngress _ _ | RunInstances _ | CreateTags _ _
  | TerminateInstances _ | DeleteKeyPair _
  | StartInstances _ | StopInstances _ _ | RebootInstances _ => true
  | _ => false
  end.

(** [migrateStringToSlice]. *)
Definition migrateStringToSlice (value : string) (values : list string)
  : list string :=
  (if bool_decide (value = "") then [] else [value]) ++ values.

Definition securityGroupNames (d : Driver) : list string :=
  migrateStringToSlice (SecurityGroupName d) (SecurityGroupNames d).

Definition securityGroupIds (d : Driver) : list string :=
  migrateStringToSlice (SecurityGroupId d) (SecurityGroupIds d).

(** [Driver.getRegionZone]. *)
Definition getRegionZone (d : Driver) : string :=
  if bool_decide (Endpoint d = "") then Region d +:+ Zone d else Zone d.

(** The [for i := 0; i < len(t)-1; i += 2] loop of [createTags]. *)
Fixpoint tag_pairs (t : list string) : list Tag :=
  match t with
  | k :: v :: rest => mkTag k v :: tag_pairs rest
  | _ => []
  end.

(** The key under which [configureSecurityGroupPermissions] records a
    permission it found: [fmt.Sprintf("%d/%s", *p.FromPort, *p.IpProtocol)]. *)
Definition hasPorts_of (perms : list IpPermission) : gset string :=
  foldl (fun hasPorts p =>
           match FromPort p with
           | Some from => {[ Itoa from +:+ "/" +:+ IpProtocol p ]} ∪ hasPorts
           | None => hasPorts
           end)
        ∅ perms.

(** The permission the driver asks for: one port, open to [ipRange]. *)
Definition open_port (protocol : string) (port : Z) : IpPermission :=
  {| IpProtocol := protocol; FromPort := Some port; ToPort := Some port;
     IpRanges := [ipRange] |}.

(** What the driver relies on when it calls
    [AuthorizeSecurityGroupIngress]: the provider adds the new permissions
    to those the group has. *)
Definition authorize (perms : list IpPermission) (g : SecurityGroup)
  : SecurityGroup :=
  {| GroupId := GroupId g; SG_VpcId := SG_VpcId g; GroupName := GroupName g;
     IpPermissions := IpPermissions g ++ perms |}.

(** [clamp], at type [int64]: it compares and returns one of its arguments,
    so no arithmetic can overflow. *)
Definition clamp (n bottom top : Z) : Z :=
  if n <? bottom then bottom
  else if top <? n then top
  else n.

(** The block of [innerCreate] that fills [ec2.EbsBlockDevice] from the
    volume settings of the driver ([d.RootSize], [d.VolumeType],
    [d.VolumeIops], [d.VolumeThroughput], [d.VolumeEncrypted]). *)
Record EbsBlockDevice : Type := mkEbsBlockDevice {
  VolumeSize : Z;
  Ebs_VolumeType : string;
  Encrypted : bool;
  DeleteOnTermination : bool;
  Iops : option Z;
  Throughput : option Z
}.

Definition gp3MinimalVolumeIops : Z := 3000.
Definition gp3MinimalVolumeThroughput : Z := 125.
Definition MaxInt64 : Z := 2 ^ 63 - 1.

Definition ebsVolume (RootSize : Z) (VolumeType : string)
    (VolumeIops VolumeThroughput : Z) (VolumeEncrypted : bool) : EbsBlockDevice :=
  let ebsVolume := {| VolumeSize := RootSize; Ebs_VolumeType := VolumeType;
                      Encrypted := VolumeEncrypted; DeleteOnTermination := true;
                      Iops := None; Throughput := None |} in
  if bool_decide (VolumeType = "io1") || bool_decide (VolumeType = "io2") then
    {| VolumeSize := VolumeSize ebsVolume; Ebs_VolumeType := Ebs_VolumeType ebsVolume;
       Encrypted := Encrypted ebsVolume;
       DeleteOnTermination := DeleteOnTermination ebsVolume;
       Iops := Some VolumeIops; Throughput := Throughput ebsVolume |}
  else if bool_decide (VolumeType = "gp3") then
    {| VolumeSize := VolumeSize ebsVolume; Ebs_VolumeType := Ebs_VolumeType ebsVolume;
       Encrypted := Encrypted ebsVolume;
       DeleteOnTermination := DeleteOnTermination ebsVolume;
       Iops := Some (clamp VolumeIops gp3MinimalVolumeIops MaxInt64);
       Throughput :=
         Some (clamp VolumeThroughput gp3MinimalVolumeThroughput MaxInt64) |}
  else ebsVolume.

(** [regionDetails], [awsRegionsList] and [validateAwsRegion] of the region
    table.  The map holds the image of each region; Go ranges over it in no
    fixed order, [awsRegionsList] lists the keys in the order of
    [map_to_list], and [validate_loop] is the loop of [validateAwsRegion]
    over a list of regions. *)
Definition regionDetails : gmap string string :=
  list_to_map
    [("af-south-1", "ami-0732d133808ff3999");
     ("ap-east-1", "ami-063de75c5af01d92a");
     ("ap-northeast-1", "ami-067983a1f071c98a2");
     ("ap-northeast-2", "ami-048b1fc6c43a994cd");
     ("ap-northeast-3", "ami-052dc320a1c0e058d");
     ("ap-south-1", "ami-04b37139ce28e53e7");
     ("ap-south-2", "ami-0c9152930c06f7813");
     ("ap-southeast-1", "ami-0f64eb01ba87726eb");
     ("ap-southeast-2", "ami-0bebf9059183cb33e");
     ("ap-southeast-3", "ami-039527ea72d048456");
     ("ap-southeast-4", "ami-0fe0895ff31a0aaa0");
     ("ca-central-1", "ami-0486b4f025358dca4");
     ("ca-west-1", "ami-08baa6c4e3cdd1288");
     ("cn-north-1", "ami-090713a56d38daf9e");
     ("cn-northwest-1", "ami-036d67d565846771b");
     ("eu-central-1", "ami-00a830443b0381486");
     ("eu-central-2", "ami-016a2958363bce06f");
     ("eu-north-1", "ami-000b9845467bba0de");
     ("eu-south-1", "ami-02be2c3a70dbe2562");
     ("eu-south-2", "ami-085549792c0648fbf");
     ("eu-west-1", "ami-0da9e5d20774e4bac");
     ("eu-west-2", "ami-0889f6dd0117846f5");
     ("eu-west-3", "ami-08d0e3f9e0d3a5fb1");
     ("il-central-1", "ami-0859be55b3a3afd3a");
     ("me-central-1", "ami-059080e3af8ca3792");
     ("me-south-1", "ami-0770750496a7e7e8c");
     ("sa-east-1", "ami-0a04072565e4bffd4");
     ("us-east-1", "ami-0cadabe060becb0e1");
     ("us-east-2", "ami-07b469810a61205a8");
     ("us-west-1", "ami-0440a72908149722a");
     ("us-west-2", "ami-05d7e58fb07229475");
     ("us-gov-east-1", "ami-0eb7ef4cc0594fa04");
     ("us-gov-west-1", "ami-029a634618d6c0300");
     ("custom-endpoint", EmptyString)].

Definition awsRegionsList : list string := map fst (map_to_list regionDetails).

Fixpoint validate_loop (list : list string) (region : string)
  : string * option error :=
  match list with
  | [] => (EmptyString, Some (errorString "Invalid region specified"))
  | v :: rest =>
    if bool_decide (v = region) then (region, None)
    else validate_loop rest region
  end.

Definition validateAwsRegion (region : string) : string * option error :=
  validate_loop awsRegionsList region.

Section WithBackend.
Context {W : Type}.

(** Library functions and repository helpers whose code is not part of the
    embedded sources; the development holds for every behaviour of them. *)
Variable SplitPortProto : string -> string * string.
  (* driverutil.SplitPortProto *)
Variable ParseInt : string -> Z * option error.
  (* strconv.ParseInt(port, 10, 0) *)
Variable base64_EncodeToString : string -> string.
  (* base64.StdEncoding.EncodeToString *)
Variable GetSSHKeyPath : Driver -> string.
  (* the GetSSHKeyPath method of drivers.BaseDriver *)
Variable WaitFor_maxAttempts : nat.
Variable WaitFor_interval : Duration.
  (* the bounds mcnutils.WaitFor passes to its loop *)

(** The package variable [swarmPort]: 3376 unless [SetConfigFromFlags] read
    another port from the swarm host. *)
Variable swarmPort : Z.

(** The world outside the process. *)
Variable backend : forall c : Call, W -> Resp c * W.

Local Abbreviation M := (Go.M Driver Call W).
Local Abbreviation call := (api backend).

(** Modelled from the spec: [mcnutils.WaitFor] is not among the embedded
    sources.  Section 4.5 describes it as a bounded wait, distinct from the
    operation poller: the condition is tried at most [WaitFor_maxAttempts]
    times, with a sleep of [WaitFor_interval] after each failed try, and the
    wait fails when the attempts are used up. *)
Fixpoint WaitFor_loop (attempts : nat) (f : M bool) : M (option error) :=
  match attempts with
  | O => mret (Some (errorString
           ("Maximum number of retries ("
            +:+ Itoa (Z.of_nat WaitFor_maxAttempts) +:+ ") exceeded")))
  | S attempts' =>
    stop ← f;
    if stop : bool then mret None
    else
      _ ← call (Sleep WaitFor_interval);
      WaitFor_loop attempts' f
  end.

Definition WaitFor (f : M bool) : M (option error) :=
  WaitFor_loop WaitFor_maxAttempts f.

(** [Driver.getInstance]. *)
Definition getInstance : M (option Instance * option error) :=
  d ← get_drv;
  '(instances, err) ← call (DescribeInstances (InstanceId d));
  match err with
  | Some e => mret (None, Some e)
  | None =>
    match instances with
    | None | Some [] =>
      mret (None, Some (Errorf "error getting instance: " errorUnprocessableResponse))
    | Some (r :: _) =>
      match Instances r with
      | [] =>
        mret (None, Some (Errorf "error getting instance: " errorUnprocessableResponse))
      | inst :: _ => mret (Some inst, None)
      end
    end
  end.

(** [Driver.GetIP]. *)
Definition GetIP : M (string * option error) :=
  d ← get_drv;
  if negb (bool_decide (IPAddress d = "")) then mret (IPAddress d, None)
  else
    '(inst, err) ← getInstance;
    match err with
    | Some e => mret ("", Some e)
    | None =>
      inst ← deref inst;
      if PrivateIPOnly d then
        match PrivateIpAddress inst with
        | None =>
          mret ("", Some (errorString
                  ("No private IP for instance " +:+ Instance_InstanceId inst)))
        | Some a => mret (a, None)
        end
      else if UsePrivateIP d then
        match PrivateIpAddress inst with
        | None =>
          mret ("", Some (errorString
                  ("No private IP for instance " +:+ Instance_InstanceId inst)))
        | Some a => mret (a, None)
        end
      else
        match PublicIpAddress inst with
        | None =>
          mret ("", Some (errorString
                  ("No IP for instance " +:+ Instance_InstanceId inst)))
        | Some a => mret (a, None)
        end
    end.

(** [Driver.GetState]. *)
Definition GetState : M (State * option error) :=
  '(inst, err) ← getInstance;
  match err with
  | Some e => mret (StateError, Some e)
  | None =>
    inst ← deref inst;
    let name := State_Name inst in
    if bool_decide (name = InstanceStateNamePending) then mret (Starting, None)
    else if bool_decide (name = InstanceStateNameRunning) then mret (Running, None)
    else if bool_decide (name = InstanceStateNameStopping) then mret (Stopping, None)
    else if bool_decide (name = InstanceStateNameShuttingDown) then mret (Stopping, None)
    else if bool_decide (name = InstanceStateNameStopped) then mret (Stopped, None)
    else if bool_decide (name = InstanceStateNameTerminated) then mret (StateError, None)
    else
      _ ← log_Warnf "unrecognized instance state: %v" [name];
      mret (StateError, None)
  end.

(** [Driver.instanceIpAvailable], [Driver.instanceIsRunning],
    [Driver.waitForInstance]. *)
Definition instanceIpAvailable : M bool :=
  '(addr, _) ← GetIP;
  if negb (bool_decide (addr = "")) then
    _ ← modify_drv (assign (F_IPAddress addr));
    mret true
  else mret false.

Definition instanceIsRunning : M bool :=
  '(st, _) ← GetState;
  match st with
  | Running => mret true
  | _ => mret false
  end.

Definition waitForInstance : M (option error) := WaitFor instanceIsRunning.

(** [Driver.terminate]. *)
Definition terminate : M (option error) :=
  d ← get_drv;
  if bool_decide (InstanceId d = "") then
    _ ← log_Warnf "Missing instance ID, this is likely due to a failure during machine creation" [];
    mret None
  else
    err ← call (TerminateInstances (InstanceId d));
    match err with
    | Some e =>
      if HasPrefix (Error e) "unknown instance"
         || HasPrefix (Error e) "InvalidInstanceID.NotFound"
      then
        _ ← log_Warnf "Remote instance does not exist, proceeding with removing local reference" [];
        mret None
      else mret (Some (Errorf "unable to terminate instance: " e))
    | None => mret None
    end.

(** [Driver.deleteKeyPair]. *)
Definition deleteKeyPair : M (option error) :=
  d ← get_drv;
  if bool_decide (KeyName d = "") then
    _ ← log_Warnf "Missing key pair name, this is likely due to a failure during machine creation" [];
    mret None
  else
    err ← call (DeleteKeyPair (KeyName d));
    match err with
    | Some e => mret (Some e)
    | None => mret None
    end.

(** [Driver.Remove]. *)
Definition Remove : M (option MultiError) :=
  let multierr := [] in
  err ← terminate;
  let multierr := match err with Some e => multierr ++ [e] | None => multierr end in
  d ← get_drv;
  multierr ←
    (if negb (ExistingKey d) then
       err ← deleteKeyPair;
       mret (match err with Some e => multierr ++ [e] | None => multierr end)
     else mret multierr);
  if bool_decide (length multierr = 0%nat) then mret None
  else mret (Some (mkMultiError multierr)).

(** [Driver.checkPrereqs]. *)
Definition checkPrereqs : M (option error) :=
  d ← get_drv;
  let '(keyName, keyShouldExist) :=
    if bool_decide (KeyName d = "") then (MachineName d, false)
    else (KeyName d, true) in
  '(key, err) ← call (DescribeKeyPairs keyName);
  let failed :=
    match err with
    | Some (awserr_Error code _ _) =>
      if bool_decide (code = keypairNotFoundCode) && keyShouldExist then
        Some (errorString ("There is no keypair with the name " +:+ keyName
                           +:+ ". Please verify the key name provided."))
      else None
    | Some e => Some e
    | None => None
    end in
  match failed with
  | Some e => mret (Some e)
  | None =>
    taken ←
      match err with
      | None =>
        key ← deref key;
        mret (negb (bool_decide (length key = 0%nat)) && negb keyShouldExist)
      | Some _ => mret false
      end;
    if taken : bool then
      mret (Some (errorString
        ("There is already a keypair with the name " +:+ MachineName d
         +:+ ".  Please either remove that keypair or use a different machine name.")))
    else
      let regionZone := getRegionZone d in
      if bool_decide (SubnetId d = "") then
        let filters := [mkFilter "availability-zone" [regionZone];
                        mkFilter "vpc-id" [VpcId d]] in
        '(subnets, err) ← call (DescribeSubnets filters);
        match err with
        | Some e => mret (Some e)
        | None =>
          subnets ← deref subnets;
          match subnets with
          | [] =>
            mret (Some (errorString
              ("unable to find a subnet that is both in the zone " +:+ regionZone
               +:+ " and belonging to VPC ID " +:+ VpcId d)))
          | first :: rest =>
            let chosen :=
              match rest with
              | [] => Subnet_SubnetId first
              | _ =>
                match find (fun sn => match DefaultForAz sn with
                                      | Some true => true
                                      | _ => false
                                      end) subnets with
                | Some sn => Subnet_SubnetId sn
                | None => Subnet_SubnetId first
                end
              end in
            _ ← modify_drv (assign (F_SubnetId chosen));
            mret None
          end
        end
      else mret None
  end.

(** [Driver.createKeyPair]. *)
Definition createKeyPair : M (option error) :=
  d ← get_drv;
  early ←
    (if bool_decide (SSHPrivateKeyPath d = "") then
       err ← call (GenerateSSHKey (GetSSHKeyPath d));
       match err with
       | Some e => mret (inl (Some e))
       | None => mret (inr (GetSSHKeyPath d))
       end
     else
       err ← call (CopyFile (SSHPrivateKeyPath d) (GetSSHKeyPath d));
       match err with
       | Some e => mret (inl (Some e))
       | None =>
         err ← call (CopyFile (SSHPrivateKeyPath d +:+ ".pub")
                              (GetSSHKeyPath d +:+ ".pub"));
         match err with
         | Some e => mret (inl (Some e))
         | None =>
           if negb (bool_decide (KeyName d = "")) then mret (inl None)
           else mret (inr (SSHPrivateKeyPath d))
         end
       end);
  match early with
  | inl result => mret result
  | inr keyPath =>
    '(publicKey, err) ← call (ReadFile (keyPath +:+ ".pub"));
    match err with
    | Some e => mret (Some e)
    | None =>
      let keyName := MachineName d in
      err ← call (ImportKeyPair keyName publicKey);
      match err with
      | Some e => mret (Some e)
      | None =>
        _ ← modify_drv (assign (F_KeyName keyName));
        mret None
      end
    end
  end.

(** [Driver.securityGroupAvailableFunc]. *)
Definition securityGroupAvailableFunc (id : string) : M bool :=
  '(securityGroup, err) ← call (DescribeSecurityGroups [] [id]);
  match err with
  | Some _ => mret false
  | None =>
    securityGroup ← deref securityGroup;
    mret (bool_decide (0 < length securityGroup)%nat)
  end.

(** [Driver.configureSecurityGroupPermissions].  [open_ports_loop] is the
    [range d.OpenPorts] loop. *)
Fixpoint open_ports_loop (hasPorts : gset string) (openPorts : list string)
    (perms : list IpPermission) : list IpPermission * option error :=
  match openPorts with
  | [] => (perms, None)
  | p :: rest =>
    let '(port, protocol) := SplitPortProto p in
    match ParseInt port with
    | (_, Some err) =>
      ([], Some (errorString
         ("invalid port number " +:+ port +:+ ": " +:+ Error err)))
    | (portNum, None) =>
      if negb (bool_decide (port +:+ "/" +:+ protocol ∈ hasPorts))
      then open_ports_loop hasPorts rest (perms ++ [open_port protocol portNum])
      else open_ports_loop hasPorts rest perms
    end
  end.

Definition configureSecurityGroupPermissions (d : Driver) (group : SecurityGroup)
  : list IpPermission * option error :=
  if SecurityGroupReadOnly d then ([], None)
  else
    let hasPorts := hasPorts_of (IpPermissions group) in
    let perms := [] in
    let perms :=
      if negb (bool_decide (Itoa (SSHPort d) +:+ "/tcp" ∈ hasPorts))
      then perms ++ [open_port "tcp" (SSHPort d)] else perms in
    let perms :=
      if negb (bool_decide (Itoa dockerPort +:+ "/tcp" ∈ hasPorts))
      then perms ++ [open_port "tcp" dockerPort] else perms in
    let perms :=
      if negb (bool_decide (Itoa swarmPort +:+ "/tcp" ∈ hasPorts)) && SwarmMaster d
      then perms ++ [open_port "tcp" swarmPort] else perms in
    open_ports_loop hasPorts (OpenPorts d) perms.

(** The rules [configureSecurityGroupPermissions] wants, in its order, each
    with the key under which it looks for the rule among those of the
    group: the SSH port, the docker port, the swarm port for a swarm
    master, and the user's open ports. *)
Definition open_port_rule (p : string) : string * IpPermission :=
  let '(port, protocol) := SplitPortProto p in
  (port +:+ "/" +:+ protocol, open_port protocol (fst (ParseInt port))).

Definition desired_rules (d : Driver) : list (string * IpPermission) :=
  [(Itoa (SSHPort d) +:+ "/tcp", open_port "tcp" (SSHPort d));
   (Itoa dockerPort +:+ "/tcp", open_port "tcp" dockerPort)]
  ++ (if SwarmMaster d
      then [(Itoa swarmPort +:+ "/tcp", open_port "tcp" swarmPort)] else [])
  ++ map open_port_rule (OpenPorts d).

(** What a call made while the security groups of a driver [d] are
    configured may be: the creation of a group, the authorization on one
    group of the permissions computed for it, which are not empty, or a call
    that changes nothing at the provider. *)
Definition reconciling (d : Driver) (c : Call) : Prop :=
  match c with
  | CreateSecurityGroup _ _ _ => True
  | AuthorizeSecurityGroupIngress groupId perms =>
    exists group, GroupId group = groupId /\ perms <> [] /\
                  configureSecurityGroupPermissions d group = (perms, None)
  | c => mutating c = false
  end.

(** [Driver.configureSecurityGroups].  [groupsByName] is the Go map from a
    group name to the group found; [configure_groups] is the
    [range groupNames] loop. *)
Definition groupsByName_of (groups : list SecurityGroup)
  : gmap string SecurityGroup :=
  foldl (fun (m : gmap string SecurityGroup) securityGroup =>
           <[ GroupName securityGroup := securityGroup ]> m)
        ∅ groups.

Fixpoint configure_groups (groupsByName : gmap string SecurityGroup)
    (groupNames : list string) : M (option error) :=
  match groupNames with
  | [] => mret None
  | groupName :: rest =>
    d ← get_drv;
    found ←
      match groupsByName !! groupName with
      | Some securityGroup => mret (inr securityGroup)
      | None =>
        '(groupResp, err) ←
          call (CreateSecurityGroup groupName "Docker Machine" (VpcId d));
        match err with
        | Some e => mret (inl e)
        | None =>
          groupId ← deref groupResp;
          let group := {| GroupId := groupId; SG_VpcId := VpcId d;
                          GroupName := groupName; IpPermissions := [] |} in
          err ← WaitFor (securityGroupAvailableFunc groupId);
          match err with
          | Some e => mret (inl e)
          | None => mret (inr group)
          end
        end
      end;
    match found with
    | inl e => mret (Some e)
    | inr group =>
      _ ← modify_drv (fun d =>
             assign (F_SecurityGroupIds (SecurityGroupIds d ++ [GroupId group])) d);
      d ← get_drv;
      let '(perms, err) := configureSecurityGroupPermissions d group in
      match err with
      | Some e => mret (Some e)
      | None =>
        if negb (bool_decide (length perms = 0%nat)) then
          err ← call (AuthorizeSecurityGroupIngress (GroupId group) perms);
          match err with
          | Some e => mret (Some e)
          | None => configure_groups groupsByName rest
          end
        else configure_groups groupsByName rest
      end
    end
  end.

Definition configureSecurityGroups (groupNames : list string) : M (option error) :=
  if bool_decide (length groupNames = 0%nat) then mret None
  else
    d ← get_drv;
    let filters := [mkFilter "group-name" groupNames;
                    mkFilter "vpc-id" [VpcId d]] in
    '(groups, err) ← call (DescribeSecurityGroups filters []);
    match err with
    | Some e => mret (Some e)
    | None =>
      groups ← deref groups;
      configure_groups (groupsByName_of groups) groupNames
    end.

(** [Driver.Base64UserData]. *)
Definition Base64UserData : M (string * option error) :=
  d ← get_drv;
  if negb (bool_decide (UserDataFile d = "")) then
    '(buf, ioerr) ← call (ReadFile (UserDataFile d));
    match ioerr with
    | Some e =>
      _ ← log_Warnf "failed to read user data file %q: %s" [UserDataFile d; Error e];
      mret ("", Some errorReadingUserData)
    | None => mret (base64_EncodeToString buf, None)
    end
  else mret ("", None).

(** [Driver.createTags], [Driver.createTagSpecifications]. *)
Definition createTags : M (list Tag) :=
  d ← get_drv;
  let tags := [mkTag "Name" (MachineName d)] in
  if negb (bool_decide (Tags d = "")) then
    let t := Split (Tags d) "," in
    _ ← (if bool_decide (0 < length t)%nat
            && negb (bool_decide (length t `mod` 2 = 0)%nat)
         then log_Warnf "Tags are not key value in pairs. %d elements found"
                        [Itoa (Z.of_nat (length t))]
         else mret tt);
    mret (tags ++ tag_pairs t)
  else mret tags.

Definition createTagSpecifications : M (list (string * list Tag)) :=
  tags ← createTags;
  mret [("instance", tags); ("volume", tags); ("network-interface", tags)].

(** The tagging loop of [innerCreate]: at most ten tags per [CreateTags]
    call.  Every round removes at least one tag, so [length tags] rounds
    (and one for an empty list) are enough; [rounds] counts them down. *)
Fixpoint tag_in_batches (rounds : nat) (instanceId : string) (tags : list Tag)
  : M (option error) :=
  match rounds with
  | O => diverge
  | S rounds' =>
    let t := take 10 tags in
    err ← call (CreateTags [instanceId] t);
    match err with
    | Some e =>
      mret (Some (Errorf "Error setting tags for the spot instance: " e))
    | None =>
      let tags := drop 10 tags in
      if bool_decide (length tags = 0%nat) then mret None
      else tag_in_batches rounds' instanceId tags
    end
  end.

(** [Driver.innerCreate]. *)
Definition innerCreate : M (option error) :=
  err ← createKeyPair;
  match err with
  | Some e => mret (Some (Errorf "unable to create key pair: " e))
  | None =>
    d ← get_drv;
    err ← configureSecurityGroups (securityGroupNames d);
    match err with
    | Some e => mret (Some e)
    | None =>
      '(userdata, err) ← Base64UserData;
      match err with
      | Some e => mret (Some e)
      | None =>
        d ← get_drv;
        specs ← (if RequestSpotInstance d then mret []
                 else createTagSpecifications);
        let req := {|
          ImageId := AMI d;
          AvailabilityZone := getRegionZone d;
          Req_KeyName := KeyName d;
          Req_InstanceType := InstanceType d;
          Groups := securityGroupIds d;
          Req_SubnetId := SubnetId d;
          AssociatePublicIpAddress := negb (PrivateIPOnly d);
          UserData := userdata;
          SpotMarket := RequestSpotInstance d;
          TagSpecifications := specs |} in
        '(inst, err) ← call (RunInstances req);
        match err with
        | Some e => mret (Some (Errorf "Error launching instance: " e))
        | None =>
          match inst with
          | None | Some [] =>
            mret (Some (Errorf "error launching instance: " errorUnprocessableResponse))
          | Some (inst :: _) =>
            _ ← modify_drv (assign (F_InstanceId (Instance_InstanceId inst)));
            d ← get_drv;
            err ←
              (if RequestSpotInstance d && negb (bool_decide (InstanceId d = ""))
               then
                 tags ← createTags;
                 tag_in_batches (S (length tags)) (Instance_InstanceId inst) tags
               else mret None);
            match err with
            | Some e => mret (Some e)
            | None =>
              err ← WaitFor instanceIpAvailable;
              match err with
              | Some e => mret (Some e)
              | None =>
                _ ← match PrivateIpAddress inst with
                    | Some a => modify_drv (assign (F_PrivateIPAddress a))
                    | None => mret tt
                    end;
                _ ← waitForInstance;
                mret None
              end
            end
          end
        end
      end
    end
  end.

(** [Driver.Create]. *)
Definition Create : M (option error) :=
  err ← checkPrereqs;
  match err with
  | Some e => mret (Some e)
  | None =>
    err ← innerCreate;
    match err with
    | Some e =>
      (* cleanup partially created resources *)
      _ ← Remove;
      mret (Some e)
    | None => mret None
    end
  end.

(** [Driver.Start], [Driver.Stop], [Driver.Restart], [Driver.Kill]. *)
Definition Start : M (option error) :=
  d ← get_drv;
  err ← call (StartInstances (InstanceId d));
  match err with
  | Some e => mret (Some e)
  | None => waitForInstance
  end.

Definition Stop : M (option error) :=
  d ← get_drv; call (StopInstances (InstanceId d) false).

Definition Restart : M (option error) :=
  d ← get_drv; call (RebootInstances (InstanceId d)).

Definition Kill : M (option error) :=
  d ← get_drv; call (StopInstances (InstanceId d) true).

End WithBackend.

(** [Driver.getDefaultVPCId], which [SetConfigFromFlags] uses.  Its one call,
    [DescribeAccountAttributes], is not made by any other method modelled
    here, so it has a call type of its own; [default_vpc_loop] is the
    [range output.AccountAttributes] loop. *)
Record AccountAttribute : Type := mkAccountAttribute {
  AttributeName : string;
  AttributeValues : list string
}.

Inductive AccountCall : Type :=
| DescribeAccountAttributes.

Definition AccountResp (c : AccountCall) : Type :=
  (option (list AccountAttribute) * option error)%type.

Section WithAccount.
Context {W : Type}.
Variable backend : forall c : AccountCall, W -> AccountResp c * W.
Local Abbreviation M := (Go.M Driver AccountCall W).

Fixpoint default_vpc_loop (attributes : list AccountAttribute)
  : M (string * option error) :=
  match attributes with
  | [] => mret ("", Some (errorString "No default-vpc attribute"))
  | attribute :: rest =>
    if bool_decide (AttributeName attribute = "default-vpc") then
      value ← index (AttributeValues attribute) 0;
      if bool_decide (value = "none")
      then mret ("", Some (errorString "default-vpc is 'none'"))
      else mret (value, None)
    else default_vpc_loop rest
  end.

Definition getDefaultVPCId : M (string * option error) :=
  '(output, err) ← api backend DescribeAccountAttributes;
  match err with
  | Some e => mret ("", Some e)
  | None =>
    output ← deref output;
    default_vpc_loop output
  end.

End WithAccount.
End AmazonEC2.

(** ** Library functions used to run the drivers on concrete inputs *)

Module Lib.
Import Go.

(** The text before the first ["/"] and, if there is one, the text after it. *)
Fixpoint cut_at_slash (s : string) : string * option string :=
  match s with
  | EmptyString => (EmptyString, None)
  | String ch s' =>
    if Ascii.eqb ch "/"%char then (EmptyString, Some s')
    else let '(before, after) := cut_at_slash s' in (String ch before, after)
  end.

(** A port specification ["port/protocol"], the protocol defaulting to
    ["tcp"]: a possible [driverutil.SplitPortProto]. *)
Definition SplitPortProto (raw : string) : string * string :=
  match cut_at_slash raw with
  | (port, Some proto) => (port, proto)
  | (port, None) => (port, "tcp")
  end.

(** Decimal digits to a number, for a possible [strconv.ParseInt]. *)
Fixpoint digits_value (s : string) (acc : Z) : option Z :=
  match s with
  | EmptyString => Some acc
  | String ch s' =>
    let n := nat_of_ascii ch in
    if (48 <=? n)%nat && (n <=? 57)%nat
    then digits_value s' (10 * acc + Z.of_nat (n - 48))
    else None
  end.

Definition ParseInt (s : string) : Z * option error :=
  match s with
  | EmptyString => (0, Some (errorString "strconv.ParseInt: invalid syntax"))
  | _ =>
    match digits_value s 0 with
    | Some n =>
      if n <? 2 ^ 63 then (n, None)
      else (2 ^ 63 - 1, Some (errorString "strconv.ParseInt: value out of range"))
    | None => (0, Some (errorString "strconv.ParseInt: invalid syntax"))
    end
  end.

(** A possible [url.Parse] for hosts written ["tcp://host:port"]. *)
Definition url_Parse (s : string) : option Google.URL * option error :=
  if String.prefix "tcp://" s
  then (Some (Google.mkURL (String.substring 6 (String.length s - 6) s)), None)
  else (None, Some (errorString "parse: missing protocol scheme")).

End Lib.

(** ** An in-memory Compute Engine, to run the Google driver against *)

Module FakeGCE.
Import Go Google.

Record Cloud : Type := mkCloud {
  firewall : option Firewall;       (* the rule "docker-machines" *)
  vm : option Instance;             (* the instance of the driver *)
  pdisk : option Disk;              (* its persistent disk *)
  op_script : list (option Operation * option error);
    (* answers to the coming operation polls; afterwards every poll says DONE *)
  backoff_script : list Duration;
    (* answers of the coming NextBackOff calls; afterwards Stop *)
  faults : Call -> option error     (* calls that fail, and how *)
}.

Definition done_op : Operation := mkOperation "operation-1" "DONE" None.
Definition running_op : Operation := mkOperation "operation-1" "RUNNING" None.

Definition not_found : error :=
  googleapi_Error 404 "not found" "googleapi: Error 404: not found".

Definition with_firewall (r : option Firewall) (cl : Cloud) : Cloud :=
  mkCloud r (vm cl) (pdisk cl) (op_script cl) (backoff_script cl) (faults cl).
Definition with_vm (i : option Instance) (cl : Cloud) : Cloud :=
  mkCloud (firewall cl) i (pdisk cl) (op_script cl) (backoff_script cl) (faults cl).
Definition with_pdisk (dk : option Disk) (cl : Cloud) : Cloud :=
  mkCloud (firewall cl) (vm cl) dk (op_script cl) (backoff_script cl) (faults cl).
Definition with_op_script (l : list (option Operation * option error))
    (cl : Cloud) : Cloud :=
  mkCloud (firewall cl) (vm cl) (pdisk cl) l (backoff_script cl) (faults cl).
Definition with_backoff_script (l : list Duration) (cl : Cloud) : Cloud :=
  mkCloud (firewall cl) (vm cl) (pdisk cl) (op_script cl) l (faults cl).

Definition set_Status (s : string) (i : Instance) : Instance :=
  {| Instance_Name := Instance_Name i; Description := Description i;
     MachineType := MachineType i; MinCpuPlatform := MinCpuPlatform i;
     Disks := Disks i; NetworkInterfaces := NetworkInterfaces i;
     Tags_Items := Tags_Items i;
     Scheduling_Preemptible := Scheduling_Preemptible i;
     Scheduling_OnHostMaintenance := Scheduling_OnHostMaintenance i;
     Metadata_Items := Metadata_Items i; Status := s |}.

(** A mutating request: refused if a fault is planted, else applied. *)
Definition request (c : Call) (apply : Cloud -> option Cloud) (cl : Cloud)
  : (option Operation * option error) * Cloud :=
  match faults cl c with
  | Some e => ((None, Some e), cl)
  | None =>
    match apply cl with
    | Some cl' => ((Some done_op, None), cl')
    | None => ((None, Some not_found), cl)
    end
  end.

Definition poll (c : Call) (cl : Cloud)
  : (option Operation * option error) * Cloud :=
  match faults cl c with
  | Some e => ((None, Some e), cl)
  | None =>
    match op_script cl with
    | [] => ((Some done_op, None), cl)
    | r :: rest => (r, with_op_script rest cl)
    end
  end.

(** The answers of this cloud.  A lookup of the firewall rule answers with
    the rule the cloud holds and no error, also when it holds none; the
    answer Compute Engine gives for a rule that does not exist, a 404 error
    and no rule, is the one of a cloud with [fail_firewall_lookup] among its
    faults. *)
Definition backend (c : Call) : Cloud -> Resp c * Cloud :=
  match c as c0 return Cloud -> Resp c0 * Cloud with
  | DefaultClient => fun cl => (faults cl DefaultClient, cl)
  | RawNew => fun cl => (faults cl RawNew, cl)
  | FirewallsGet _ _ => fun cl =>
      match faults cl c with
      | Some e => ((None, Some e), cl)
      | None => ((firewall cl, None), cl)
      end
  | FirewallsInsert _ rule => request c (fun cl => Some (with_firewall (Some rule) cl))
  | FirewallsUpdate _ _ rule => request c (fun cl =>
      match firewall cl with
      | Some _ => Some (with_firewall (Some rule) cl)
      | None => None
      end)
  | InstancesGet _ _ _ => fun cl =>
      match faults cl c, vm cl with
      | Some e, _ => ((None, Some e), cl)
      | None, Some i => ((Some i, None), cl)
      | None, None => ((None, Some not_found), cl)
      end
  | InstancesInsert _ _ inst => request c (fun cl =>
      Some (with_pdisk (Some (mkDisk (Instance_Name inst +:+ "-disk")))
              (with_vm (Some (set_Status "RUNNING" inst)) cl)))
  | InstancesDelete _ _ _ => request c (fun cl =>
      match vm cl with
      | Some _ => Some (with_vm None cl)
      | None => None
      end)
  | InstancesStart _ _ _ => request c (fun cl =>
      match vm cl with
      | Some i => Some (with_vm (Some (set_Status "RUNNING" i)) cl)
      | None => None
      end)
  | InstancesStop _ _ _ => request c (fun cl =>
      match vm cl with
      | Some i => Some (with_vm (Some (set_Status "TERMINATED" i)) cl)
      | None => None
      end)
  | InstancesSetTags _ _ _ _ => request c (fun cl =>
      match vm cl with Some _ => Some cl | None => None end)
  | InstancesSetMetadata _ _ _ _ => request c (fun cl =>
      match vm cl with Some _ => Some cl | None => None end)
  | DisksGet _ _ _ => fun cl =>
      match faults cl c, pdisk cl with
      | Some e, _ => ((None, Some e), cl)
      | None, Some dk => ((Some dk, None), cl)
      | None, None => ((None, Some not_found), cl)
      end
  | DisksDelete _ _ _ => request c (fun cl =>
      match pdisk cl with
      | Some _ => Some (with_pdisk None cl)
      | None => None
      end)
  | AddressesGet _ _ _ => fun cl =>
      match faults cl c with
      | Some e => ((None, Some e), cl)
      | None => ((Some (mkAddress "203.0.113.7"), None), cl)
      end
  | ZoneOperationsWait _ _ _ => poll c
  | GlobalOperationsWait _ _ => poll c
  | BackOffReset _ => fun cl => (tt, cl)
  | NextBackOff => fun cl =>
      match backoff_script cl with
      | [] => (backoff_Stop, cl)
      | next :: rest => (next, with_backoff_script rest cl)
      end
  | Sleep _ => fun cl => (tt, cl)
  | GenerateSSHKey _ => fun cl => (faults cl c, cl)
  | ReadFile _ => fun cl =>
      match faults cl c with
      | Some e => (("", Some e), cl)
      | None => (("ssh-rsa AAAA", None), cl)
      end
  end.

Definition no_faults : Call -> option error := fun _ => None.

Definition empty_cloud : Cloud :=
  mkCloud None None None [] [1000; 2000; 4000] no_faults.

Definition default_backoff : backoffFactory :=
  mkBackoffFactory 1000000000 "0.5" "2" 30000000000 300000000000.

(** [NewDriver("machine", ...)] after [SetConfigFromFlags] with project
    ["proj"], the given zone, address, subnetwork, open ports and
    skip-firewall flag, and the default value of every other flag. *)
Definition driver_with (zn addr subnet : string) (ports : list string)
    (skip : bool) : Driver := {|
  IPAddress := ""; MachineName := "machine"; SSHUser := "ubuntu";
  SwarmMaster := false; SwarmHost := "";
  Zone := zn; Driver_MachineType := "n1-standard-1";
  Driver_MinCPUPlatform := "";
  MachineImage := "ubuntu-os-cloud/global/images/ubuntu-2004-focal-v20240229";
  DiskType := "pd-standard"; Driver_Address := addr;
  Driver_Network := "default"; Driver_Subnetwork := subnet;
  Preemptible := false; UseInternalIP := false; UseInternalIPOnly := false;
  DiskSize := 10; Project := "proj"; Tags := ""; UseExisting := false;
  OpenPorts := ports; Metadata := ∅; MetadataFromFile := ∅;
  MaintenancePolicy := ""; SkipFirewall := skip;
  OperationBackoffFactory := Some default_backoff |}.

Definition driver0 : Driver := driver_with "us-central1-a" "" "" [] false.

(** The firewall is left to the user. *)
Definition driver_skip : Driver := driver_with "us-central1-a" "" "" [] true.

(** Two open ports asked for by the user. *)
Definition driver_two_ports : Driver :=
  driver_with "us-central1-a" "" "" ["8080/tcp"; "53/udp"] false.

(** A one-letter zone, a named address and a named subnetwork. *)
Definition driver_short_zone : Driver :=
  driver_with "a" "my-address" "my-subnet" [] false.

Definition start (d : Driver) (cl : Cloud) : St Driver Call Cloud :=
  {| drv := d; world := cl; trace := []; logs := [] |}.

(** The driver's functions over this cloud. *)
Definition no_match : string -> list string := fun _ => [].
Definition key_path : Driver -> string := fun d => "/store/machines/" +:+ MachineName d +:+ "/id_rsa".
Definition show_op_error (e : OperationErrorErrors) : string :=
  "{" +:+ OpErr_Code e +:+ " " +:+ OpErr_Location e +:+ " " +:+ OpErr_Message e +:+ "}".

(** What [newComputeUtil] builds for a driver (its network is not a full
    URL, so the network project is the driver's project). *)
Definition util_of (d : Driver) : ComputeUtil := {|
  zone := Zone d; instanceName := MachineName d; userName := SSHUser d;
  project := Project d; diskTypeURL := DiskType d;
  address := Driver_Address d; networkProject := Project d;
  network := Driver_Network d; subnetwork := Driver_Subnetwork d;
  preemptible := Preemptible d; useInternalIP := UseInternalIP d;
  useInternalIPOnly := UseInternalIPOnly d;
  zoneURL := apiURL +:+ Project d +:+ "/zones/" +:+ Zone d;
  globalURL := apiURL +:+ Project d +:+ "/global";
  c_SwarmMaster := SwarmMaster d; c_SwarmHost := SwarmHost d;
  openPorts := OpenPorts d; minCPUPlatform := Driver_MinCPUPlatform d;
  maintenancePolicy := MaintenancePolicy d; skipFirewall := SkipFirewall d;
  operationBackoffFactory := OperationBackoffFactory d |}.

Definition util0 : ComputeUtil := util_of driver0.

Definition without_factory (c : ComputeUtil) : ComputeUtil := {|
  zone := zone c; instanceName := instanceName c; userName := userName c;
  project := project c; diskTypeURL := diskTypeURL c; address := address c;
  networkProject := networkProject c; network := network c;
  subnetwork := subnetwork c; preemptible := preemptible c;
  useInternalIP := useInternalIP c; useInternalIPOnly := useInternalIPOnly c;
  zoneURL := zoneURL c; globalURL := globalURL c;
  c_SwarmMaster := c_SwarmMaster c; c_SwarmHost := c_SwarmHost c;
  openPorts := openPorts c; minCPUPlatform := minCPUPlatform c;
  maintenancePolicy := maintenancePolicy c; skipFirewall := skipFirewall c;
  operationBackoffFactory := None |}.

(** The fetch function of [waitForRegionalOp] for the operation of the fake. *)
Definition fetch0 : M Driver Call Cloud (option Operation * option error) :=
  api backend (ZoneOperationsWait "proj" "us-central1-a" "operation-1").

(** An instance as the provider reports it, in the given status. *)
Definition instance_in (status : string) : Instance := {|
  Instance_Name := "machine"; Description := "docker host vm";
  MachineType := "n1-standard-1"; MinCpuPlatform := "";
  Disks := [];
  NetworkInterfaces :=
    [mkNetworkInterface "default" "" "10.128.0.2"
       [mkAccessConfig "ONE_TO_ONE_NAT" "203.0.113.9"]];
  Tags_Items := [firewallTargetTag];
  Scheduling_Preemptible := false; Scheduling_OnHostMaintenance := "";
  Metadata_Items := []; Status := status |}.

Definition cloud_with_instance (status : string) : Cloud :=
  with_pdisk (Some (mkDisk "machine-disk"))
    (with_vm (Some (instance_in status)) empty_cloud).

Definition with_faults (f : Call -> option error) (cl : Cloud) : Cloud :=
  mkCloud (firewall cl) (vm cl) (pdisk cl) (op_script cl) (backoff_script cl) f.

Definition server_error : error :=
  googleapi_Error 500 "backend error" "googleapi: Error 500: backend error".

(** The provider refuses to delete instances. *)
Definition fail_delete : Call -> option error := fun c =>
  match c with
  | InstancesDelete _ _ _ => Some server_error
  | _ => None
  end.

(** The provider has no rule and answers the lookup of it as Compute Engine
    does, with a 404 error. *)
Definition fail_firewall_lookup : Call -> option error := fun c =>
  match c with
  | FirewallsGet _ _ => Some not_found
  | _ => None
  end.

(** The public key file cannot be read. *)
Definition io_error : error :=
  errorString "open /store/machines/machine/id_rsa.pub: no such file or directory".

Definition fail_read : Call -> option error := fun c =>
  match c with
  | ReadFile _ => Some io_error
  | _ => None
  end.

(** The instance is gone, its disk is still there. *)
Definition cloud_with_disk_only : Cloud :=
  with_pdisk (Some (mkDisk "machine-disk")) empty_cloud.

Definition GetState := Google.GetState no_match backend.
Definition GetIP := Google.GetIP no_match backend.
Definition Stop := Google.Stop no_match show_op_error backend.
Definition Remove := Google.Remove no_match show_op_error backend.
Definition Create :=
  Google.Create Lib.SplitPortProto Lib.url_Parse no_match id key_path
    show_op_error backend.
Definition openFirewallPorts :=
  Google.openFirewallPorts Lib.SplitPortProto Lib.url_Parse show_op_error backend.

Definition quota_error : OperationErrorErrors :=
  mkOperationErrorErrors "QUOTA_EXCEEDED" "" "Quota exceeded".

Definition failed_op : Operation :=
  mkOperation "operation-1" "DONE" (Some (mkOperationError [quota_error])).

(** [driver0] with other settings: the address asked for, internal
    addresses only, the use of an existing instance, the swarm settings and
    the metadata given directly and in files. *)
Definition driver_set (addr : string) (internalOnly existing master : bool)
    (host : string) (metadata files : gmap string string) : Driver := {|
  IPAddress := ""; MachineName := "machine"; SSHUser := "ubuntu";
  SwarmMaster := master; SwarmHost := host;
  Zone := "us-central1-a"; Driver_MachineType := "n1-standard-1";
  Driver_MinCPUPlatform := "";
  MachineImage := "ubuntu-os-cloud/global/images/ubuntu-2004-focal-v20240229";
  DiskType := "pd-standard"; Driver_Address := addr;
  Driver_Network := "default"; Driver_Subnetwork := "";
  Preemptible := false; UseInternalIP := false;
  UseInternalIPOnly := internalOnly;
  DiskSize := 10; Project := "proj"; Tags := ""; UseExisting := existing;
  OpenPorts := []; Metadata := metadata; MetadataFromFile := files;
  MaintenancePolicy := ""; SkipFirewall := false;
  OperationBackoffFactory := Some default_backoff |}.

(** One metadata entry given directly and one in a file. *)
Definition driver_with_metadata : Driver :=
  driver_set "" false false false ""
    {[ "role" := "db" ]} {[ "startup-script" := "/tmp/startup.sh" ]}.

(** Internal addresses only, and a static address asked for. *)
Definition driver_internal_only : Driver :=
  driver_set "203.0.113.7" true false false "" ∅ ∅.

(** Internal addresses only, and an address asked for by name. *)
Definition driver_internal_named : Driver :=
  driver_set "my-address" true false false "" ∅ ∅.

(** Internal addresses only, a named address and a one-letter zone. *)
Definition driver_internal_short_zone : Driver := {|
  IPAddress := ""; MachineName := "machine"; SSHUser := "ubuntu";
  SwarmMaster := false; SwarmHost := "";
  Zone := "a"; Driver_MachineType := "n1-standard-1";
  Driver_MinCPUPlatform := "";
  MachineImage := "ubuntu-os-cloud/global/images/ubuntu-2004-focal-v20240229";
  DiskType := "pd-standard"; Driver_Address := "my-address";
  Driver_Network := "default"; Driver_Subnetwork := "";
  Preemptible := false; UseInternalIP := false; UseInternalIPOnly := true;
  DiskSize := 10; Project := "proj"; Tags := ""; UseExisting := false;
  OpenPorts := []; Metadata := ∅; MetadataFromFile := ∅;
  MaintenancePolicy := ""; SkipFirewall := false;
  OperationBackoffFactory := Some default_backoff |}.

(** The machine is an instance that exists already. *)
Definition driver_existing : Driver :=
  driver_set "" false true false "" ∅ ∅.

(** A swarm master whose swarm host names no port. *)
Definition driver_swarm_no_port : Driver :=
  driver_set "" false false true "tcp://swarm" ∅ ∅.

(** An instance as the provider reports it before the driver has tagged it. *)
Definition untagged_instance : Instance := {|
  Instance_Name := "machine"; Description := "docker host vm";
  MachineType := "n1-standard-1"; MinCpuPlatform := "";
  Disks := [];
  NetworkInterfaces :=
    [mkNetworkInterface "default" "" "10.128.0.2"
       [mkAccessConfig "ONE_TO_ONE_NAT" "203.0.113.9"]];
  Tags_Items := ["web"];
  Scheduling_Preemptible := false; Scheduling_OnHostMaintenance := "";
  Metadata_Items := [mkMetadataItems "role" "db"]; Status := "RUNNING" |}.

(** A possible [net.JoinHostPort], for hosts that are not IPv6 literals. *)
Definition join_host_port : string -> string -> string :=
  fun host port => host +:+ ":" +:+ port.

End FakeGCE.

(** ** An in-memory EC2, to run the Amazon driver against *)

Module FakeEC2.
Import Go AmazonEC2.

Record Cloud : Type := mkCloud {
  keypairs : list string;
  groups : list SecurityGroup;
  machines : list Instance;
  subnets : list Subnet;
  faults : Call -> option error     (* calls that fail, and how *)
}.

Definition with_keypairs (l : list string) (cl : Cloud) : Cloud :=
  mkCloud l (groups cl) (machines cl) (subnets cl) (faults cl).
Definition with_groups (l : list SecurityGroup) (cl : Cloud) : Cloud :=
  mkCloud (keypairs cl) l (machines cl) (subnets cl) (faults cl).
Definition with_machines (l : list Instance) (cl : Cloud) : Cloud :=
  mkCloud (keypairs cl) (groups cl) l (subnets cl) (faults cl).
Definition with_faults (f : Call -> option error) (cl : Cloud) : Cloud :=
  mkCloud (keypairs cl) (groups cl) (machines cl) (subnets cl) f.

Definition instance_not_found : error :=
  awserr_Error "InvalidInstanceID.NotFound" "The instance ID does not exist" "".
Definition keypair_not_found : error :=
  awserr_Error "InvalidKeyPair.NotFound" "The key pair does not exist" "".

Definition string_in (x : string) (l : list string) : bool :=
  bool_decide (x ∈ l).

Definition fresh_instance (req : RunInstancesInput) : Instance :=
  {| Instance_InstanceId := "i-0001"; State_Name := "running";
     PrivateIpAddress := Some "10.0.0.5";
     PublicIpAddress :=
       if AssociatePublicIpAddress req then Some "198.51.100.5" else None |}.

(** A request without an answer of its own: refused if a fault is planted. *)
Definition request (c : Call) (apply : Cloud -> Cloud) (cl : Cloud)
  : option error * Cloud :=
  match faults cl c with
  | Some e => (Some e, cl)
  | None => (None, apply cl)
  end.

Definition backend (c : Call) : Cloud -> Resp c * Cloud :=
  match c as c0 return Cloud -> Resp c0 * Cloud with
  | DescribeKeyPairs keyName => fun cl =>
      match faults cl c with
      | Some e => ((None, Some e), cl)
      | None =>
        if string_in keyName (keypairs cl) then ((Some [keyName], None), cl)
        else ((None, Some keypair_not_found), cl)
      end
  | DescribeSubnets _ => fun cl =>
      match faults cl c with
      | Some e => ((None, Some e), cl)
      | None => ((Some (subnets cl), None), cl)
      end
  | ImportKeyPair keyName _ =>
      request c (fun cl => with_keypairs (keypairs cl ++ [keyName]) cl)
  | DescribeSecurityGroups filters groupIds => fun cl =>
      match faults cl c with
      | Some e => ((None, Some e), cl)
      | None =>
        let names := match filters with f :: _ => Values f | [] => [] end in
        ((Some (filter (fun g => string_in (GroupId g) groupIds
                                 || string_in (GroupName g) names)
                       (groups cl)), None), cl)
      end
  | CreateSecurityGroup groupName _ vpcId => fun cl =>
      match faults cl c with
      | Some e => ((None, Some e), cl)
      | None =>
        let g := mkSecurityGroup ("sg-" +:+ groupName) vpcId groupName [] in
        ((Some (GroupId g), None), with_groups (groups cl ++ [g]) cl)
      end
  | AuthorizeSecurityGroupIngress groupId perms =>
      request c (fun cl =>
        with_groups
          (map (fun g => if bool_decide (GroupId g = groupId)
                         then AmazonEC2.authorize perms g else g) (groups cl)) cl)
  | RunInstances req => fun cl =>
      match faults cl c with
      | Some e => ((None, Some e), cl)
      | None =>
        ((Some [fresh_instance req], None),
         with_machines (machines cl ++ [fresh_instance req]) cl)
      end
  | CreateTags _ _ => request c (fun cl => cl)
  | DescribeInstances instanceId => fun cl =>
      match faults cl c with
      | Some e => ((None, Some e), cl)
      | None =>
        match filter (fun i => bool_decide (Instance_InstanceId i = instanceId))
                     (machines cl) with
        | [] => ((None, Some instance_not_found), cl)
        | l => ((Some [mkReservation l], None), cl)
        end
      end
  | TerminateInstances instanceId => fun cl =>
      match faults cl c with
      | Some e => (Some e, cl)
      | None =>
        if existsb (fun i => bool_decide (Instance_InstanceId i = instanceId))
                   (machines cl)
        then (None, with_machines
                      (filter (fun i => negb (bool_decide
                                 (Instance_InstanceId i = instanceId)))
                              (machines cl)) cl)
        else (Some instance_not_found, cl)
      end
  | DeleteKeyPair keyName =>
      request c (fun cl =>
        with_keypairs (filter (fun k => negb (bool_decide (k = keyName)))
                              (keypairs cl)) cl)
  | StartInstances _ => request c (fun cl => cl)
  | StopInstances _ _ => request c (fun cl => cl)
  | RebootInstances _ => request c (fun cl => cl)
  | GenerateSSHKey _ => request c (fun cl => cl)
  | CopyFile _ _ => request c (fun cl => cl)
  | ReadFile _ => fun cl =>
      match faults cl c with
      | Some e => (("", Some e), cl)
      | None => (("ssh-rsa AAAA", None), cl)
      end
  | Sleep _ => fun cl => (tt, cl)
  end.

Definition no_faults : Call -> option error := fun _ => None.

Definition empty_cloud : Cloud :=
  mkCloud [] [] [] [mkSubnet "subnet-1" "vpc-1" (Some true)] no_faults.

(** [NewDriver("machine", ...)] after [SetConfigFromFlags] with the default
    flags in VPC ["vpc-1"], the given open ports and read-only flag. *)
Definition driver_with (ports : list string) (readOnly : bool) : Driver := {|
  IPAddress := ""; MachineName := "machine"; SSHUser := "ubuntu";
  SSHPort := 22; SwarmMaster := false; SwarmHost := "";
  Region := "us-east-1"; AMI := "ami-0cadabe060becb0e1";
  ExistingKey := false; KeyName := ""; InstanceId := "";
  InstanceType := "t2.micro"; PrivateIPAddress := "";
  SecurityGroupId := ""; SecurityGroupIds := [];
  SecurityGroupName := ""; SecurityGroupNames := ["docker-machine"];
  SecurityGroupReadOnly := readOnly; OpenPorts := ports; Tags := "";
  VpcId := "vpc-1"; SubnetId := ""; Zone := "a";
  RequestSpotInstance := false; PrivateIPOnly := false; UsePrivateIP := false;
  SSHPrivateKeyPath := ""; Endpoint := ""; UserDataFile := "" |}.

Definition driver0 : Driver := driver_with [] false.

Definition start (d : Driver) (cl : Cloud) : St Driver Call Cloud :=
  {| drv := d; world := cl; trace := []; logs := [] |}.

Definition key_path : Driver -> string :=
  fun d => "/store/machines/" +:+ MachineName d +:+ "/id_rsa".

(** The driver after a successful [Create], and the cloud holding its
    instance in the given state. *)
Definition created (d : Driver) : Driver :=
  assign (F_InstanceId "i-0001") (assign (F_KeyName (MachineName d)) d).

Definition cloud_with_machine (state : string) : Cloud :=
  with_keypairs ["machine"]
    (with_machines
       [mkInstance "i-0001" state (Some "10.0.0.5") (Some "198.51.100.5")]
       empty_cloud).

(** The security group of the machines exists and has no permission yet. *)
Definition group0 : SecurityGroup :=
  mkSecurityGroup "sg-1" "vpc-1" "docker-machine" [].

Definition cloud_with_group (g : SecurityGroup) : Cloud :=
  with_groups [g] empty_cloud.

(** The provider has no capacity to launch an instance. *)
Definition capacity_error : error :=
  awserr_Error "InsufficientInstanceCapacity" "Insufficient capacity." "".

Definition fail_launch : Call -> option error := fun c =>
  match c with
  | RunInstances _ => Some capacity_error
  | _ => None
  end.


(** The driver's methods over this cloud, with [WaitFor] trying 60 times,
    3 seconds apart, and the swarm port at its default. *)
Definition swarmPort0 : Z := 3376.
Definition GetState := AmazonEC2.GetState backend.
Definition GetIP := AmazonEC2.GetIP backend.
Definition Remove := AmazonEC2.Remove backend.
Definition permissions :=
  AmazonEC2.configureSecurityGroupPermissions Lib.SplitPortProto Lib.ParseInt swarmPort0.
Definition configureSecurityGroups :=
  AmazonEC2.configureSecurityGroups Lib.SplitPortProto Lib.ParseInt
    60%nat 3000000000 swarmPort0 backend.
Definition Create :=
  AmazonEC2.Create Lib.SplitPortProto Lib.ParseInt id key_path
    60%nat 3000000000 swarmPort0 backend.

(** [driver0] with the given tags, spot request flag, key name and private
    key file. *)
Definition driver_set (tags : string) (spot : bool) (keyName keyFile : string)
  : Driver := {|
  IPAddress := ""; MachineName := "machine"; SSHUser := "ubuntu";
  SSHPort := 22; SwarmMaster := false; SwarmHost := "";
  Region := "us-east-1"; AMI := "ami-0cadabe060becb0e1";
  ExistingKey := negb (bool_decide (keyName = "")); KeyName := keyName;
  InstanceId := "";
  InstanceType := "t2.micro"; PrivateIPAddress := "";
  SecurityGroupId := ""; SecurityGroupIds := [];
  SecurityGroupName := ""; SecurityGroupNames := ["docker-machine"];
  SecurityGroupReadOnly := false; OpenPorts := []; Tags := tags;
  VpcId := "vpc-1"; SubnetId := ""; Zone := "a";
  RequestSpotInstance := spot; PrivateIPOnly := false; UsePrivateIP := false;
  SSHPrivateKeyPath := keyFile; Endpoint := ""; UserDataFile := "" |}.

(** The provider refuses to tag. *)
Definition throttled : error :=
  awserr_Error "RequestLimitExceeded" "Request limit exceeded." "".

Definition fail_tagging : Call -> option error := fun c =>
  match c with
  | CreateTags _ _ => Some throttled
  | _ => None
  end.

(** Three tag elements: a pair and an element left over. *)
Definition driver_tagged : Driver := driver_set "env,prod,team" false "" "".

(** A spot instance with twelve tags besides its name. *)
Definition driver_spot : Driver :=
  driver_set "a,1,b,2,c,3,d,4,e,5,f,6,g,7,h,8,i,9,j,10,k,11,l,12" true "" "".

(** Two subnets, the second of which is the default of its zone. *)
Definition with_subnets (l : list Subnet) (cl : Cloud) : Cloud :=
  mkCloud (keypairs cl) (groups cl) (machines cl) l (faults cl).

Definition cloud_two_subnets : Cloud :=
  with_subnets [mkSubnet "subnet-1" "vpc-1" (Some false);
                mkSubnet "subnet-2" "vpc-1" (Some true)] empty_cloud.

(** The account of the default VPC: the answer to
    [DescribeAccountAttributes] is what the world holds. *)
Definition account_backend (c : AccountCall)
  : list AccountAttribute -> AccountResp c * list AccountAttribute :=
  fun attributes => ((Some attributes, None), attributes).

Definition account_attributes : list AccountAttribute :=
  [mkAccountAttribute "supported-platforms" ["VPC"];
   mkAccountAttribute "default-vpc" ["vpc-1"];
   mkAccountAttribute "default-vpc" ["vpc-2"]].

End FakeEC2.

(** ** The state table of the specification *)

Module Spec.
Import Go.

(** The provider statuses named in section 4.2. *)
Inductive ProviderStatus : Type :=
| provisioning | staging | pending | running | stopping | shutting_down
| stopped | terminated | unrecognized.

(** Section 4.2, rule by rule: without instance the volume decides; with an
    instance the provider status does. *)
Definition canonical_state (instance_present volume_present : bool)
    (status : ProviderStatus) : State :=
  if negb instance_present then
    if negb volume_present then StateNone else Stopped
  else
    match status with
    | provisioning | staging | pending => Starting
    | running => Running
    | stopping | shutting_down => Stopping
    | stopped | terminated => Stopped
    | unrecognized => StateError
    end.

(** Section 4.4: the desired rule set is the control port, the cluster port
    when cluster mode is enabled, and the user's open ports. *)
Definition desired {A} (control_port : A) (cluster_port : option A)
    (user_ports : list A) : list A :=
  [control_port] ++ option_list cluster_port ++ user_ports.

End Spec.

(** ** Notions used to state the properties of the operation poller *)

Module Poller.
Import Go Google.

Section Rounds.
Context {W : Type}.
Variable backend : forall c : Call, W -> Resp c * W.
Local Abbreviation M := (Go.M Driver Call W).
Local Abbreviation St := (Go.St Driver Call W).

(** One pending round of the poller: the fetch reports an operation that is
    not done, the backoff grants a further interval, and the poller sleeps
    for it. *)
Inductive pending_round (opGetter : M (option Operation * option error))
  : St -> St -> Prop :=
| pending_round_intro st st1 st2 st3 op next :
    opGetter st = (Ret (Some op, None), st1) ->
    Op_Status op <> "DONE" ->
    api backend NextBackOff st1 = (Ret next, st2) ->
    next <> backoff_Stop ->
    api backend (Sleep next) st2 = (Ret tt, st3) ->
    pending_round opGetter st st3.

(** [n] pending rounds in a row. *)
Inductive pending_rounds (opGetter : M (option Operation * option error))
  : nat -> St -> St -> Prop :=
| pending_rounds_O st : pending_rounds opGetter 0 st st
| pending_rounds_S n st st' st'' :
    pending_round opGetter st st' ->
    pending_rounds opGetter n st' st'' ->
    pending_rounds opGetter (S n) st st''.

End Rounds.
End Poller.

(** ** Notions used to state the properties of the tagging loop *)

Module Tagging.
Import Go AmazonEC2.

Section Replies.
Context {W : Type}.
Variable backend : forall c : Call, W -> Resp c * W.

(** The replies of the provider to [CreateTags] calls for one instance, made
    one after the other from the world [w], and the world they leave. *)
Fixpoint replies (instanceId : string) (batches : list (list Tag)) (w : W)
  : list (option error) * W :=
  match batches with
  | [] => ([], w)
  | batch :: rest =>
    let '(reply, w1) := backend (CreateTags [instanceId] batch) w in
    let '(l, w2) := replies instanceId rest w1 in
    (reply :: l, w2)
  end.

End Replies.
End Tagging.

(* ===================================================================== *)
(** * Properties *)
(* ===================================================================== *)

(** ** Running computations *)

Module GoFacts.
Import Go.

Section Run.
Context {Driver Call W : Type}.
Local Abbreviation M := (Go.M Driver Call W).

Lemma bind_Ret {A B} (m : M A) (f : A -> M B) st a st' :
  m st = (Ret a, st') -> (m ≫= f) st = f a st'.
Proof. intros H. unfold mbind, M_bind, bind. now rewrite H. Qed.

Lemma bind_Panic {A B} (m : M A) (f : A -> M B) st msg st' :
  m st = (Panic msg, st') -> (m ≫= f) st = (Panic msg, st').
Proof. intros H. unfold mbind, M_bind, bind. now rewrite H. Qed.

Lemma bind_Diverge {A B} (m : M A) (f : A -> M B) st st' :
  m st = (Diverge, st') -> (m ≫= f) st = (Diverge, st').
Proof. intros H. unfold mbind, M_bind, bind. now rewrite H. Qed.

Lemma bind_inv {A B} (m : M A) (f : A -> M B) st b st' :
  (m ≫= f) st = (Ret b, st') ->
  exists a st1, m st = (Ret a, st1) /\ f a st1 = (Ret b, st').
Proof.
  unfold mbind, M_bind, bind. destruct (m st) as [[a|msg|] st1]; try discriminate.
  eauto.
Qed.

Lemma bind_assoc {A B C} (m : M A) (f : A -> M B) (g : B -> M C) st :
  ((m ≫= f) ≫= g) st = (m ≫= (fun x => f x ≫= g)) st.
Proof.
  unfold mbind, M_bind, bind. now destruct (m st) as [[a|msg|] st1].
Qed.

Lemma bind_cases {A B} (m : M A) (f : A -> M B) st o st' :
  (m ≫= f) st = (o, st') ->
  (exists a st1, m st = (Ret a, st1) /\ f a st1 = (o, st')) \/
  (exists o1, m st = (o1, st') /\ forall a, o1 <> Ret a).
Proof.
  unfold mbind, M_bind, bind. destruct (m st) as [[a|msg|] st1]; intros H.
  - left. eauto.
  - right. injection H as _ <-. now exists (Panic msg).
  - right. injection H as _ <-. now exists Diverge.
Qed.

Lemma bind_outcome {A B} (m : M A) (f : A -> M B) st o st' :
  (m ≫= f) st = (o, st') ->
  (exists a st1, m st = (Ret a, st1) /\ f a st1 = (o, st')) \/
  (exists msg, m st = (Panic msg, st') /\ o = Panic msg) \/
  (m st = (Diverge, st') /\ o = Diverge).
Proof.
  unfold mbind, M_bind, bind. destruct (m st) as [[a|msg|] st1]; intros H.
  - left. eauto.
  - right. left. injection H as <- <-. eauto.
  - right. right. injection H as <- <-. eauto.
Qed.

Lemma bind_ext {A B} (m : M A) (f g : A -> M B) st :
  (forall a st1, f a st1 = g a st1) -> (m ≫= f) st = (m ≫= g) st.
Proof.
  intros Hfg. unfold mbind, M_bind, bind.
  destruct (m st) as [[a|msg|] st1]; [apply Hfg | reflexivity | reflexivity].
Qed.

Lemma modify_drv_run (f : Driver -> Driver) (st : St Driver Call W) :
  (modify_drv f : M unit) st =
    (Ret tt, {| drv := f (drv st); world := world st;
                trace := trace st; logs := logs st |}).
Proof. reflexivity. Qed.

Lemma mret_run {A} (a : A) (st : St Driver Call W) :
  (mret a : M A) st = (Ret a, st).
Proof. reflexivity. Qed.

Lemma St_eta (st : St Driver Call W) :
  {| drv := drv st; world := world st; trace := trace st; logs := logs st |} = st.
Proof. now destruct st. Qed.

Lemma get_drv_run (st : St Driver Call W) :
  (get_drv : M Driver) st = (Ret (drv st), st).
Proof. reflexivity. Qed.

Lemma deref_Some {A} (a : A) (st : St Driver Call W) :
  (deref (Some a) : M A) st = (Ret a, st).
Proof. reflexivity. Qed.

Section Api.
Context {Resp : Call -> Type}.
Variable backend : forall c : Call, W -> Resp c * W.

(** A call leaves the driver and the log alone and adds itself to the trace. *)
Lemma api_run (c : Call) (st : St Driver Call W) :
  api backend c st =
    (Ret (fst (backend c (world st))),
     {| drv := drv st; world := snd (backend c (world st));
        trace := trace st ++ [c]; logs := logs st |}).
Proof. unfold api. now destruct (backend c (world st)). Qed.

Lemma api_inv (c : Call) (st st' : St Driver Call W) (o : outcome (Resp c)) :
  api backend c st = (o, st') ->
  o = Ret (fst (backend c (world st))) /\
  drv st' = drv st /\ logs st' = logs st /\ trace st' = trace st ++ [c] /\
  world st' = snd (backend c (world st)).
Proof. rewrite api_run. intros [= <- <-]. now repeat split. Qed.

Lemma keeps_drv_api (c : Call) : keeps_drv (api backend c : M (Resp c)).
Proof. intros st o st' H. now apply api_inv in H. Qed.

Lemma only_calls_api (P : Call -> Prop) (c : Call) :
  P c -> only_calls P (api backend c : M (Resp c)).
Proof.
  intros HP st o st' H. apply api_inv in H as (_ & _ & _ & Htrace & _).
  exists [c]. split; [assumption | now constructor].
Qed.

(** A block that starts with a call has that call first in what it adds to
    the trace. *)
Lemma api_first_then (P : Call -> Prop) {B} (c : Call) (f : Resp c -> M B)
    st o st' :
  (forall a, only_calls P (f a)) ->
  ((api backend c : M (Resp c)) ≫= f) st = (o, st') ->
  exists rest, trace st' = trace st ++ c :: rest /\ Forall P rest.
Proof.
  intros Hf H. unfold mbind, M_bind, bind in H. rewrite api_run in H.
  destruct (Hf _ _ _ _ H) as (new & Htrace & HP). cbn in Htrace.
  exists new. split; [now rewrite Htrace, <- app_assoc | exact HP].
Qed.

Lemma api_first {B} (c : Call) (f : Resp c -> M B) st o st' :
  (forall a, only_calls (fun _ => True) (f a)) ->
  ((api backend c : M (Resp c)) ≫= f) st = (o, st') ->
  exists rest, trace st' = trace st ++ c :: rest.
Proof.
  intros Hf H. destruct (api_first_then _ c f st o st' Hf H) as (rest & Ht & _).
  now exists rest.
Qed.

End Api.

Lemma keeps_drv_ret {A} (a : A) : keeps_drv (mret a : M A).
Proof. now intros st o st' [= _ <-]. Qed.

Lemma keeps_drv_panic {A} msg : keeps_drv (panic msg : M A).
Proof. now intros st o st' [= _ <-]. Qed.

Lemma keeps_drv_diverge {A} : keeps_drv (diverge : M A).
Proof. now intros st o st' [= _ <-]. Qed.

Lemma keeps_drv_log fmt a : keeps_drv (log_Warnf fmt a : M unit).
Proof. now intros st o st' [= _ <-]. Qed.

Lemma keeps_drv_deref {A} (p : option A) : keeps_drv (deref p : M A).
Proof. destruct p; [apply keeps_drv_ret | apply keeps_drv_panic]. Qed.

Lemma keeps_drv_index {A} (l : list A) i : keeps_drv (index l i : M A).
Proof.
  unfold index. destruct (l !! i); [apply keeps_drv_ret | apply keeps_drv_panic].
Qed.

Lemma keeps_drv_get : keeps_drv (get_drv : M Driver).
Proof. now intros st o st' [= _ <-]. Qed.

Lemma keeps_drv_bind {A B} (m : M A) (f : A -> M B) :
  keeps_drv m -> (forall a, keeps_drv (f a)) -> keeps_drv (m ≫= f).
Proof.
  intros Hm Hf st o st' H. unfold mbind, M_bind, bind in H.
  destruct (m st) as [[a|msg|] st1] eqn:Hrun.
  - rewrite (Hf _ _ _ _ H). eapply Hm, Hrun.
  - injection H as _ <-. eapply Hm, Hrun.
  - injection H as _ <-. eapply Hm, Hrun.
Qed.

Lemma only_calls_ret P {A} (a : A) : only_calls P (mret a : M A).
Proof.
  intros st o st' [= _ <-]. exists []. now rewrite app_nil_r.
Qed.

Lemma only_calls_panic P {A} msg : only_calls P (panic msg : M A).
Proof.
  intros st o st' [= _ <-]. exists []. now rewrite app_nil_r.
Qed.

Lemma only_calls_diverge P {A} : only_calls P (diverge : M A).
Proof.
  intros st o st' [= _ <-]. exists []. now rewrite app_nil_r.
Qed.

Lemma only_calls_log P fmt a : only_calls P (log_Warnf fmt a : M unit).
Proof.
  intros st o st' [= _ <-]. exists []. simpl. now rewrite app_nil_r.
Qed.

Lemma only_calls_get P : only_calls P (get_drv : M Driver).
Proof.
  intros st o st' [= _ <-]. exists []. now rewrite app_nil_r.
Qed.

Lemma only_calls_modify P f : only_calls P (modify_drv f : M unit).
Proof.
  intros st o st' [= _ <-]. exists []. simpl. now rewrite app_nil_r.
Qed.

Lemma only_calls_deref P {A} (p : option A) : only_calls P (deref p : M A).
Proof. destruct p; [apply only_calls_ret | apply only_calls_panic]. Qed.

Lemma only_calls_index P {A} (l : list A) i : only_calls P (index l i : M A).
Proof.
  unfold index. destruct (l !! i); [apply only_calls_ret | apply only_calls_panic].
Qed.

Lemma only_calls_bind P {A B} (m : M A) (f : A -> M B) :
  only_calls P m -> (forall a, only_calls P (f a)) -> only_calls P (m ≫= f).
Proof.
  intros Hm Hf st o st' H. unfold mbind, M_bind, bind in H.
  destruct (m st) as [[a|msg|] st1] eqn:Hrun.
  - destruct (Hm _ _ _ Hrun) as (new1 & Ht1 & HP1).
    destruct (Hf _ _ _ _ H) as (new2 & Ht2 & HP2).
    exists (new1 ++ new2). split.
    + now rewrite Ht2, Ht1, app_assoc.
    + now apply Forall_app.
  - injection H as _ <-. eapply Hm, Hrun.
  - injection H as _ <-. eapply Hm, Hrun.
Qed.

Lemma only_calls_weaken (P Q : Call -> Prop) {A} (m : M A) :
  (forall c, P c -> Q c) -> only_calls P m -> only_calls Q m.
Proof.
  intros HPQ Hm st o st' H. destruct (Hm _ _ _ H) as (new & Ht & HP).
  exists new. split; [assumption|]. eapply Forall_impl; eassumption.
Qed.

End Run.

(** Run the next statement of a monadic block with a known result. *)
Ltac step H := rewrite (bind_Ret _ _ _ _ _ H).
Ltac step_drv := rewrite (bind_Ret _ _ _ _ _ (get_drv_run _)).

(** Open the first statement of a block that is known to have returned. *)
Ltac unbind H a st1 H1 := apply bind_inv in H as (a & st1 & H1 & H).

Ltac step_api :=
  match goal with
  | |- context [(api ?b ?c ≫= _) ?s] => rewrite (bind_Ret _ _ _ _ _ (api_run b c s))
  end.

(** What a call that has been run did. *)
Ltac inv_api H :=
  match type of H with
  | api ?b ?c _ = _ => apply (api_inv b c) in H
  end.

(** Case analysis on whatever a block of driver code branches on. *)
Ltac branch :=
  match goal with
  | |- context [match ?x with _ => _ end] =>
      first [is_var x; destruct x | case_bool_decide | destruct x eqn:?]
  end.

(** [keeps_drv] and [only_calls], statement by statement; a call to another
    function of the driver is left as a goal. *)
Ltac keeps :=
  repeat match goal with
  | |- keeps_drv ((fun _ => _) _) => cbn beta
  | |- keeps_drv (mret _) => apply keeps_drv_ret
  | |- keeps_drv (panic _) => apply keeps_drv_panic
  | |- keeps_drv diverge => apply keeps_drv_diverge
  | |- keeps_drv (api ?b ?c) => exact (keeps_drv_api b c)
  | |- keeps_drv (deref _) => apply keeps_drv_deref
  | |- keeps_drv (index _ _) => apply keeps_drv_index
  | |- keeps_drv (log_Warnf _ _) => apply keeps_drv_log
  | |- keeps_drv get_drv => apply keeps_drv_get
  | |- keeps_drv (mbind _ _) => apply keeps_drv_bind; [|intros ?]
  | |- keeps_drv (match ?x with _ => _ end) => destruct x
  | H : keeps_drv ?m |- keeps_drv ?m => exact H
  end.

Ltac calls :=
  repeat match goal with
  | |- only_calls _ ((fun _ => _) _) => cbn beta
  | |- only_calls _ (mret _) => apply only_calls_ret
  | |- only_calls _ (panic _) => apply only_calls_panic
  | |- only_calls _ diverge => apply only_calls_diverge
  | |- only_calls ?P (api ?b ?c) =>
      apply (only_calls_api b P c); cbn; solve [auto]
  | |- only_calls _ (deref _) => apply only_calls_deref
  | |- only_calls _ (index _ _) => apply only_calls_index
  | |- only_calls _ (log_Warnf _ _) => apply only_calls_log
  | |- only_calls _ get_drv => apply only_calls_get
  | |- only_calls _ (modify_drv _) => apply only_calls_modify
  | |- only_calls _ (mbind _ _) => apply only_calls_bind; [|intros ?]
  | |- only_calls _ (match ?x with _ => _ end) => destruct x
  | H : only_calls ?P ?m |- only_calls ?P ?m => exact H
  end.

End GoFacts.

(** ** The operation poller of the Google driver *)

Module PollerFacts.
Import Go GoFacts Google Poller.

Section WithBackend.
Context {W : Type}.
Variable Sprint : OperationErrorErrors -> string.
Variable backend : forall c : Call, W -> Resp c * W.
Local Abbreviation M := (Go.M Driver Call W).
Local Abbreviation St := (Go.St Driver Call W).
Local Abbreviation loop := (waitForOp_loop Sprint backend).

Lemma loop_unfold fuel (opGetter : M (option Operation * option error)) :
  loop (S fuel) opGetter =
  ('(op, err) ← opGetter;
   match err with
   | Some e => mret (Some e)
   | None =>
     op ← deref op;
     if bool_decide (Op_Status op = "DONE") then
       match Op_Error op with
       | Some operr =>
         e0 ← index (Errors operr) 0;
         mret (Some (errorString ("operation error: " +:+ Sprint e0)))
       | None => mret None
       end
     else
       next ← api backend NextBackOff;
       if bool_decide (next = backoff_Stop) then
         mret (Some (errorString "maximum backoff elapsed time exceeded"))
       else
         _ ← api backend (Sleep next);
         loop fuel opGetter
   end).
Proof. reflexivity. Qed.

(** A pending round costs one unit of fuel and leaves the loop where it was. *)
Lemma loop_pending_round fuel opGetter (st st' : St) :
  pending_round backend opGetter st st' ->
  loop (S fuel) opGetter st = loop fuel opGetter st'.
Proof.
  intros [st0 st1 st2 st3 op next Hfetch Hstatus Hnext Hstop Hsleep].
  rewrite loop_unfold.
  rewrite (bind_Ret _ _ _ _ _ Hfetch). simpl.
  rewrite (bind_Ret _ _ _ _ _ (mret_run op st1)).
  rewrite bool_decide_eq_false_2 by assumption.
  rewrite (bind_Ret _ _ _ _ _ Hnext).
  rewrite bool_decide_eq_false_2 by assumption.
  now rewrite (bind_Ret _ _ _ _ _ Hsleep).
Qed.

Lemma loop_pending_rounds n : forall fuel opGetter (st st' : St),
  pending_rounds backend opGetter n st st' ->
  loop (n + fuel) opGetter st = loop fuel opGetter st'.
Proof.
  induction n as [|n IH]; intros fuel opGetter st st' H; inversion H; subst.
  - reflexivity.
  - change (S n + fuel)%nat with (S (n + fuel)).
    erewrite loop_pending_round by eassumption. now apply IH.
Qed.

(** Every call that leaves the process returns. *)
Lemma api_returns (c : Call) (st : St) :
  exists r st', api backend c st = (Ret r, st').
Proof.
  unfold api. destruct (backend c (world st)) as [r w]. eauto.
Qed.

(** If the loop returns success, it has seen a run of pending rounds closed
    by a fetch that reports the operation done, without a failure. *)
Lemma loop_success_inv fuel : forall opGetter (st st' : St),
  loop fuel opGetter st = (Ret None, st') ->
  exists n stn op,
    (n < fuel)%nat /\ pending_rounds backend opGetter n st stn /\
    opGetter stn = (Ret (Some op, None), st') /\
    Op_Status op = "DONE" /\ Op_Error op = None.
Proof.
  induction fuel as [|fuel IH]; intros opGetter st st' H.
  - discriminate H.
  - rewrite loop_unfold in H. unfold mbind, M_bind, bind in H.
    destruct (opGetter st) as [[[op err]|msg|] st1] eqn:Hfetch; try discriminate H.
    destruct err as [e|]; [discriminate H|].
    destruct op as [op|]; [|discriminate H]. simpl in H.
    case_bool_decide as Hdone.
    + destruct (Op_Error op) as [operr|] eqn:Herr.
      * destruct (index (Errors operr) 0 st1) as [[e0|msg|] st2];
          discriminate H.
      * injection H as <-.
        exists 0%nat, st, op. repeat split; try assumption; [lia | constructor].
    + destruct (api_returns NextBackOff st1) as (next & st2 & Hnext).
      rewrite Hnext in H.
      case_bool_decide as Hstop; [discriminate H|].
      destruct (api_returns (Sleep next) st2) as ([] & st3 & Hsleep).
      rewrite Hsleep in H.
      destruct (IH _ _ _ H) as (n & stn & op' & Hn & Hrounds & Hlast).
      exists (S n), stn, op'. repeat split; try tauto; [lia|].
      econstructor; [|eassumption]. econstructor; eassumption.
Qed.

Lemma loop_enough_fuel n fuel opGetter (st stn : St) :
  (n < fuel)%nat ->
  pending_rounds backend opGetter n st stn ->
  loop fuel opGetter st = loop (S (fuel - S n)) opGetter stn.
Proof.
  intros Hn Hrounds.
  replace fuel with (n + S (fuel - S n))%nat at 1 by lia.
  now apply loop_pending_rounds.
Qed.

Lemma loop_done_ok fuel opGetter (st st' : St) op :
  opGetter st = (Ret (Some op, None), st') ->
  Op_Status op = "DONE" -> Op_Error op = None ->
  loop (S fuel) opGetter st = (Ret None, st').
Proof.
  intros Hfetch Hdone Herr. rewrite loop_unfold.
  rewrite (bind_Ret _ _ _ _ _ Hfetch). simpl.
  rewrite (bind_Ret _ _ _ _ _ (mret_run op st')).
  rewrite bool_decide_eq_true_2 by assumption. now rewrite Herr.
Qed.

Lemma loop_done_failed fuel opGetter (st st' : St) op e rest :
  opGetter st = (Ret (Some op, None), st') ->
  Op_Status op = "DONE" ->
  Op_Error op = Some (mkOperationError (e :: rest)) ->
  loop (S fuel) opGetter st =
    (Ret (Some (errorString ("operation error: " +:+ Sprint e))), st').
Proof.
  intros Hfetch Hdone Herr. rewrite loop_unfold.
  rewrite (bind_Ret _ _ _ _ _ Hfetch). simpl.
  rewrite (bind_Ret _ _ _ _ _ (mret_run op st')).
  rewrite bool_decide_eq_true_2 by assumption. now rewrite Herr.
Qed.

Lemma loop_budget_exhausted fuel opGetter (st st1 st2 : St) op :
  opGetter st = (Ret (Some op, None), st1) ->
  Op_Status op <> "DONE" ->
  api backend NextBackOff st1 = (Ret backoff_Stop, st2) ->
  loop (S fuel) opGetter st =
    (Ret (Some (errorString "maximum backoff elapsed time exceeded")), st2).
Proof.
  intros Hfetch Hpending Hstop. rewrite loop_unfold.
  rewrite (bind_Ret _ _ _ _ _ Hfetch). simpl.
  rewrite (bind_Ret _ _ _ _ _ (mret_run op st1)).
  rewrite bool_decide_eq_false_2 by assumption.
  now rewrite (bind_Ret _ _ _ _ _ Hstop).
Qed.

Lemma waitForOp_with_factory fuel c bf opGetter (st0 st : St) :
  operationBackoffFactory c = Some bf ->
  api backend (BackOffReset bf) st0 = (Ret tt, st) ->
  waitForOp Sprint backend fuel c opGetter st0 = loop fuel opGetter st.
Proof.
  intros Hbf Hreset. unfold waitForOp. rewrite Hbf.
  now rewrite (bind_Ret _ _ _ _ _ Hreset).
Qed.

(** C4.  The poller, started with a backoff policy, on any sequence of
    answers: it returns success exactly when, after a run of pending rounds,
    a fetch reports the operation done without an embedded failure; when the
    fetch closing such a run reports it done with an embedded failure, the
    poller returns that failure in the state the fetch left, so nothing is
    fetched or slept after it; and when the backoff answers [Stop] after a
    pending fetch, the poller returns the elapsed-time error.  In each case
    any fuel above the number of pending rounds gives the result. *)
Theorem waitForOp_outcome fuel c bf opGetter (st0 st : St) :
  operationBackoffFactory c = Some bf ->
  api backend (BackOffReset bf) st0 = (Ret tt, st) ->
  (forall st',
     waitForOp Sprint backend fuel c opGetter st0 = (Ret None, st') <->
     exists n stn op,
       (n < fuel)%nat /\ pending_rounds backend opGetter n st stn /\
       opGetter stn = (Ret (Some op, None), st') /\
       Op_Status op = "DONE" /\ Op_Error op = None) /\
  (forall n stn op e rest st',
     (n < fuel)%nat -> pending_rounds backend opGetter n st stn ->
     opGetter stn = (Ret (Some op, None), st') ->
     Op_Status op = "DONE" ->
     Op_Error op = Some (mkOperationError (e :: rest)) ->
     waitForOp Sprint backend fuel c opGetter st0 =
       (Ret (Some (errorString ("operation error: " +:+ Sprint e))), st')) /\
  (forall n stn op st1 st2,
     (n < fuel)%nat -> pending_rounds backend opGetter n st stn ->
     opGetter stn = (Ret (Some op, None), st1) ->
     Op_Status op <> "DONE" ->
     api backend NextBackOff st1 = (Ret backoff_Stop, st2) ->
     waitForOp Sprint backend fuel c opGetter st0 =
       (Ret (Some (errorString "maximum backoff elapsed time exceeded")), st2)).
Proof.
  intros Hbf Hreset.
  rewrite (waitForOp_with_factory _ _ _ _ _ _ Hbf Hreset).
  split; [|split].
  - intros st'. split.
    + apply loop_success_inv.
    + intros (n & stn & op & Hn & Hrounds & Hfetch & Hdone & Herr).
      rewrite (loop_enough_fuel _ _ _ _ _ Hn Hrounds).
      eapply loop_done_ok; eassumption.
  - intros n stn op e rest st' Hn Hrounds Hfetch Hdone Herr.
    rewrite (loop_enough_fuel _ _ _ _ _ Hn Hrounds).
    eapply loop_done_failed; eassumption.
  - intros n stn op st1 st2 Hn Hrounds Hfetch Hpending Hstop.
    rewrite (loop_enough_fuel _ _ _ _ _ Hn Hrounds).
    eapply loop_budget_exhausted; eassumption.
Qed.

(** C5.  Without a backoff factory the poller returns its configuration
    error at once, whatever the fuel and the fetch function: the state is
    the one it was called in, so no status was fetched, the backoff was not
    consulted and nothing slept. *)
Theorem waitForOp_without_factory fuel c opGetter (st : St) :
  operationBackoffFactory c = None ->
  waitForOp Sprint backend fuel c opGetter st =
    (Ret (Some (errorString "operationBackoffFactory is not defined")), st).
Proof. intros Hbf. unfold waitForOp. now rewrite Hbf. Qed.

End WithBackend.
End PollerFacts.

(** ** The poller on the in-memory cloud *)

Module PollerExamples.
Import Go GoFacts Google Poller PollerFacts FakeGCE.

Local Abbreviation waitForOp := (Google.waitForOp show_op_error backend).
Local Abbreviation poll0 := (ZoneOperationsWait "proj" "us-central1-a" "operation-1").

Lemma two_pending_rounds (cl : Cloud) tr lg ops b1 b2 bs :
  op_script cl = (Some running_op, None) :: (Some running_op, None) :: ops ->
  backoff_script cl = b1 :: b2 :: bs ->
  b1 <> backoff_Stop -> b2 <> backoff_Stop ->
  faults cl = no_faults ->
  pending_rounds backend fetch0 2
    (mkSt driver0 cl tr lg)
    (mkSt driver0 (with_backoff_script bs (with_op_script ops cl))
       (tr ++ [poll0; NextBackOff; Sleep b1; poll0; NextBackOff; Sleep b2]) lg).
Proof.
  intros Hops Hback Hb1 Hb2 Hfaults. destruct cl as [fw i dk ops0 back flt].
  cbn [op_script backoff_script faults] in *. subst.
  apply pending_rounds_S with
    (st' := mkSt driver0 (mkCloud fw i dk ((Some running_op, None) :: ops)
                            (b2 :: bs) no_faults)
              (tr ++ [poll0; NextBackOff; Sleep b1]) lg).
  { apply pending_round_intro with
      (st1 := mkSt driver0 (mkCloud fw i dk ((Some running_op, None) :: ops)
                              (b1 :: b2 :: bs) no_faults) (tr ++ [poll0]) lg)
      (st2 := mkSt driver0 (mkCloud fw i dk ((Some running_op, None) :: ops)
                              (b2 :: bs) no_faults)
                (tr ++ [poll0; NextBackOff]) lg)
      (op := running_op) (next := b1).
    - reflexivity.
    - discriminate.
    - cbn. now rewrite <- app_assoc.
    - assumption.
    - cbn. now rewrite <- app_assoc. }
  apply pending_rounds_S with
    (st' := mkSt driver0 (mkCloud fw i dk ops bs no_faults)
              (tr ++ [poll0; NextBackOff; Sleep b1; poll0; NextBackOff; Sleep b2]) lg).
  { apply pending_round_intro with
      (st1 := mkSt driver0 (mkCloud fw i dk ops (b2 :: bs) no_faults)
                (tr ++ [poll0; NextBackOff; Sleep b1; poll0]) lg)
      (st2 := mkSt driver0 (mkCloud fw i dk ops bs no_faults)
                (tr ++ [poll0; NextBackOff; Sleep b1; poll0; NextBackOff]) lg)
      (op := running_op) (next := b2).
    - cbn. now rewrite <- app_assoc.
    - discriminate.
    - cbn. now rewrite <- app_assoc.
    - assumption.
    - cbn. now rewrite <- app_assoc. }
  apply pending_rounds_O.
Qed.

Lemma waitForOp_outcome_witness :
  fst (waitForOp 3 util0 fetch0
         (start driver0
            (with_op_script [(Some running_op, None); (Some running_op, None)]
               empty_cloud)))
  = Ret None /\
  fst (waitForOp 3 util0 fetch0
         (start driver0
            (with_op_script [(Some running_op, None); (Some running_op, None);
                             (Some failed_op, None)] empty_cloud)))
  = Ret (Some (errorString "operation error: {QUOTA_EXCEEDED  Quota exceeded}")) /\
  fst (waitForOp 3 util0 fetch0
         (start driver0
            (with_backoff_script [1000; 2000]
               (with_op_script [(Some running_op, None); (Some running_op, None);
                                (Some running_op, None)] empty_cloud))))
  = Ret (Some (errorString "maximum backoff elapsed time exceeded")).
Proof.
  split; [|split].
  - pose proof (waitForOp_outcome show_op_error backend 3 util0 default_backoff
                  fetch0 (start driver0
                     (with_op_script [(Some running_op, None); (Some running_op, None)]
                        empty_cloud)) _ eq_refl eq_refl) as [Hok _].
    erewrite (proj2 (Hok _)); [reflexivity|].
    eexists 2%nat, _, done_op. split; [lia|]. split.
    + apply two_pending_rounds with (b1 := 1000) (b2 := 2000) (bs := [4000]) (ops := []);
        first [reflexivity | discriminate].
    + split; [|split]; reflexivity.
  - pose proof (waitForOp_outcome show_op_error backend 3 util0 default_backoff
                  fetch0 (start driver0
                     (with_op_script [(Some running_op, None); (Some running_op, None);
                                      (Some failed_op, None)] empty_cloud))
                  _ eq_refl eq_refl) as [_ [Hfail _]].
    erewrite (Hfail 2%nat _ failed_op quota_error []); [reflexivity | lia | | | | ].
    + apply two_pending_rounds with (b1 := 1000) (b2 := 2000) (bs := [4000])
                                     (ops := [(Some failed_op, None)]);
        first [reflexivity | discriminate].
    + reflexivity.
    + reflexivity.
    + reflexivity.
  - pose proof (waitForOp_outcome show_op_error backend 3 util0 default_backoff
                  fetch0 (start driver0
                     (with_backoff_script [1000; 2000]
                        (with_op_script [(Some running_op, None); (Some running_op, None);
                                         (Some running_op, None)] empty_cloud)))
                  _ eq_refl eq_refl) as [_ [_ Hstop]].
    erewrite (Hstop 2%nat _ running_op); [reflexivity | lia | | | | ].
    + apply two_pending_rounds with (b1 := 1000) (b2 := 2000) (bs := [])
                                     (ops := [(Some running_op, None)]);
        first [reflexivity | discriminate].
    + reflexivity.
    + discriminate.
    + reflexivity.
Defined.

Lemma waitForOp_without_factory_witness :
  operationBackoffFactory (without_factory util0) = None /\
  waitForOp 0 (without_factory util0) fetch0 (start driver0 empty_cloud) =
    (Ret (Some (errorString "operationBackoffFactory is not defined")),
     start driver0 empty_cloud).
Proof.
  split; [reflexivity|].
  apply (waitForOp_without_factory show_op_error backend 0 (without_factory util0)
           fetch0 (start driver0 empty_cloud)).
  reflexivity.
Defined.

End PollerExamples.

(** ** The Google driver *)

Module GoogleFacts.
Import Go GoFacts Google.

(** Cutting the last two bytes off a string of at least two bytes. *)
Lemma slice_to_drops_two (s : string) : forall n,
  String.length s = S (S n) ->
  exists a b, s = slice_to s n +:+ String a (String b EmptyString).
Proof.
  unfold slice_to.
  induction s as [|ch s IH]; intros n Hlen; [discriminate|].
  destruct n as [|n].
  - destruct s as [|ch' s]; [discriminate|].
    destruct s; [|discriminate]. exists ch, ch'. reflexivity.
  - simpl in Hlen. injection Hlen as Hlen.
    destruct (IH n Hlen) as (a & b & Heq).
    exists a, b.
    change (String ch s =
            String ch (String.substring 0 n s +:+ String a (String b EmptyString))).
    now rewrite <- Heq.
Qed.

Lemma region_long (c : ComputeUtil) :
  (2 <= String.length (zone c))%nat ->
  region c = Ret (slice_to (zone c) (String.length (zone c) - 2)).
Proof.
  intros Hlen. unfold region.
  destruct (Z.ltb_spec (Z.of_nat (String.length (zone c)) - 2) 0) as [Hneg|_]; [lia|].
  do 2 f_equal. lia.
Qed.

Lemma region_short (c : ComputeUtil) :
  (String.length (zone c) < 2)%nat ->
  region c = Panic "slice bounds out of range".
Proof.
  intros Hlen. unfold region.
  destruct (Z.ltb_spec (Z.of_nat (String.length (zone c)) - 2) 0) as [_|Hpos];
    [reflexivity | lia].
Qed.

Section WithBackend.
Context {W : Type}.
Variable SplitPortProto : string -> string * string.
Variable url_Parse : string -> option URL * option error.
Variable FindStringSubmatch : string -> list string.
Variable TrimSpace : string -> string.
Variable GetSSHKeyPath : Driver -> string.
Variable Sprint : OperationErrorErrors -> string.
Variable backend : forall c : Call, W -> Resp c * W.
Local Abbreviation M := (Go.M Driver Call W).
Local Abbreviation St := (Go.St Driver Call W).
Local Abbreviation staticAddress := (Google.staticAddress backend).
Local Abbreviation prepareMetadata := (Google.prepareMetadata backend).
Local Abbreviation createInstance :=
  (Google.createInstance TrimSpace GetSSHKeyPath Sprint backend).

(** C10.  [region] returns the zone without its last two bytes when the zone
    has at least two, and panics on a shorter zone; the panic is reached from
    [staticAddress] when the address is a name, and from [createInstance]
    (once the metadata is prepared) when the subnetwork is a plain name. *)
Theorem region_needs_two_bytes (c : ComputeUtil) :
  ((2 <= String.length (zone c))%nat ->
   exists r a b,
     region c = Ret r /\ zone c = r +:+ String a (String b EmptyString)) /\
  ((String.length (zone c) < 2)%nat ->
   region c = Panic "slice bounds out of range" /\
   (forall st : St,
      has_lower_letter (address c) = true ->
      staticAddress c st = (Panic "slice bounds out of range", st)) /\
   (forall fuel d (st st' : St) items,
      prepareMetadata d st = (Ret (items, None), st') ->
      subnetwork c <> "" ->
      Contains (subnetwork c) "/subnetworks/" = false ->
      createInstance fuel c d st = (Panic "slice bounds out of range", st'))).
Proof.
  split.
  - intros Hlen.
    destruct (slice_to_drops_two (zone c) (String.length (zone c) - 2))
      as (a & b & Heq); [lia|].
    exists (slice_to (zone c) (String.length (zone c) - 2)), a, b.
    split; [now apply region_long | exact Heq].
  - intros Hlen. pose proof (region_short c Hlen) as Hpanic.
    split; [exact Hpanic|]. split.
    + intros st Hname. unfold Google.staticAddress.
      rewrite Hname. simpl. now rewrite Hpanic.
    + intros fuel d st st' items Hmeta Hnamed Hplain.
      unfold Google.createInstance.
      rewrite (bind_Ret _ _ _ _ _ Hmeta). simpl.
      rewrite Hplain.
      rewrite (bool_decide_eq_false_2 _ Hnamed). simpl.
      now rewrite Hpanic.
Qed.

Local Abbreviation newComputeUtil := (Google.newComputeUtil FindStringSubmatch backend).
Local Abbreviation GetState := (Google.GetState FindStringSubmatch backend).
Local Abbreviation instance := (Google.instance backend).
Local Abbreviation disk := (Google.disk backend).

(** Building the [ComputeUtil] logs nothing and leaves the driver alone. *)
Lemma newComputeUtil_quiet d (st st' : St) o :
  newComputeUtil d st = (o, st') -> drv st' = drv st /\ logs st' = logs st.
Proof.
  unfold Google.newComputeUtil. unfold mbind, M_bind, bind.
  rewrite api_run. destruct (fst (backend DefaultClient (world st))).
  { now intros [= <- <-]. }
  rewrite api_run. cbn [drv world trace logs].
  destruct (fst (backend RawNew _)).
  { now intros [= <- <-]. }
  case_bool_decide.
  - unfold index. destruct (_ !! _); now intros [= <- <-].
  - now intros [= <- <-].
Qed.

Lemma state_of_Status_table (status : string) :
  (status ∈ ["PROVISIONING"; "STAGING"] -> state_of_Status status = Starting) /\
  (status = "RUNNING" -> state_of_Status status = Running) /\
  (status ∈ ["STOPPING"; "STOPPED"; "TERMINATED"] ->
   state_of_Status status = Stopped) /\
  (status ∉ ["PROVISIONING"; "STAGING"; "RUNNING"; "STOPPING"; "STOPPED";
             "TERMINATED"] -> state_of_Status status = StateNone).
Proof.
  repeat split.
  - intros H. set_unfold in H. destruct H as [->| [->|[]]]; reflexivity.
  - intros ->. reflexivity.
  - intros H. set_unfold in H. destruct H as [->| [->| [->|[]]]]; reflexivity.
  - intros H. unfold state_of_Status.
    repeat (rewrite bool_decide_eq_false_2; [|intros ->; apply H; set_solver]).
    reflexivity.
Qed.

(** The table [Driver.GetState] follows, once the [ComputeUtil] is built and
    the instance lookup has answered. *)
Lemma Google_GetState_table (st st1 st2 : St) c o_inst e1 :
  newComputeUtil (drv st) st = (Ret (Some c, None), st1) ->
  instance c st1 = (Ret (o_inst, e1), st2) ->
  logs st2 = logs st /\
  match o_inst with
  | None =>
    forall o_dsk e2 st3,
      disk c st2 = (Ret (o_dsk, e2), st3) ->
      logs st3 = logs st /\
      GetState st =
        (Ret (match o_dsk with None => StateNone | Some _ => Stopped end, None),
         st3)
  | Some inst =>
    exists s,
      GetState st = (Ret (s, None), st2) /\
      (Status inst ∈ ["PROVISIONING"; "STAGING"] -> s = Starting) /\
      (Status inst = "RUNNING" -> s = Running) /\
      (Status inst ∈ ["STOPPING"; "STOPPED"; "TERMINATED"] -> s = Stopped) /\
      (Status inst ∉ ["PROVISIONING"; "STAGING"; "RUNNING"; "STOPPING";
                      "STOPPED"; "TERMINATED"] -> s = StateNone)
  end.
Proof.
  intros Hnew Hinst.
  destruct (newComputeUtil_quiet _ _ _ _ Hnew) as [_ Hlogs1].
  destruct (api_inv _ _ _ _ _ Hinst) as (_ & _ & Hlogs2 & _).
  assert (Hlogs : logs st2 = logs st) by congruence.
  split; [exact Hlogs|].
  assert (Hrun : forall k : _ -> M (State * option error),
    (Google.instance backend c ≫= k) st1 = k (o_inst, e1) st2)
    by (intros k; now step Hinst).
  destruct o_inst as [inst|].
  - exists (state_of_Status (Status inst)). split.
    + unfold Google.GetState. step_drv. step Hnew. cbn beta iota.
      step (deref_Some c st1). now rewrite Hrun.
    + apply state_of_Status_table.
  - intros o_dsk e2 st3 Hdisk.
    destruct (api_inv _ _ _ _ _ Hdisk) as (_ & _ & Hlogs3 & _).
    split; [congruence|].
    unfold Google.GetState. step_drv. step Hnew. cbn beta iota.
    step (deref_Some c st1). rewrite Hrun. cbn beta iota.
    step Hdisk. now destruct o_dsk.
Qed.

Local Abbreviation GetIP := (Google.GetIP FindStringSubmatch backend).
Local Abbreviation ip := (Google.ip backend).
Local Abbreviation stopInstance := (Google.stopInstance Sprint backend).
Local Abbreviation Stop := (Google.Stop FindStringSubmatch Sprint backend).

Lemma newComputeUtil_keeps d : keeps_drv (newComputeUtil d).
Proof. unfold Google.newComputeUtil. keeps. Qed.

Lemma ip_keeps c : keeps_drv (ip c).
Proof. unfold Google.ip. keeps. Qed.

(** A stored address is returned as it is: the state, and with it the trace
    of calls, is unchanged. *)
Lemma Google_GetIP_cached (st : St) :
  IPAddress (drv st) <> "" ->
  GetIP st = (Ret (IPAddress (drv st), None), st).
Proof.
  intros Hip. unfold Google.GetIP. step_drv.
  now rewrite (bool_decide_eq_false_2 _ Hip).
Qed.

(** An address that [GetIP] returns is not empty and is stored. *)
Lemma Google_GetIP_stores (st st' : St) a :
  GetIP st = (Ret (a, None), st') ->
  a <> "" /\ IPAddress (drv st') = a.
Proof.
  intros H. destruct (decide (IPAddress (drv st) = "")) as [Hempty|Hip].
  - unfold Google.GetIP in H. revert H. step_drv.
    rewrite (bool_decide_eq_true_2 _ Hempty). cbn [negb]. intros H.
    unbind H r st1 Hnew. destruct r as [c [e|]]; [discriminate H|].
    unbind H c' st2 Hc. unbind H r st3 Hip.
    destruct r as [addr [e|]]; [discriminate H|].
    case_bool_decide as Haddr; [discriminate H|].
    unbind H u st4 Hset. injection H as <- <-.
    injection Hset as _ <-. cbn. split; [assumption | reflexivity].
  - rewrite (Google_GetIP_cached st Hip) in H. now injection H as <- <-.
Qed.

(** With nothing stored, [GetIP] starts by building a client: it leaves the
    process. *)
Lemma Google_GetIP_asks (st st' : St) o :
  IPAddress (drv st) = "" ->
  GetIP st = (o, st') ->
  exists rest, trace st' = trace st ++ DefaultClient :: rest.
Proof.
  intros Hempty. unfold Google.GetIP. step_drv.
  rewrite (bool_decide_eq_true_2 _ Hempty). cbn [negb].
  unfold Google.newComputeUtil.
  intros H.
  rewrite bind_assoc in H.
  eapply api_first; [|exact H].
  intros a. unfold Google.ip. calls.
Qed.

(** A successful [Stop] empties the stored address. *)
Lemma Google_Stop_clears fuel (st st' : St) :
  Stop fuel st = (Ret None, st') -> IPAddress (drv st') = "".
Proof.
  unfold Google.Stop. step_drv. intros H.
  unbind H r st1 Hnew. destruct r as [c [e|]]; [discriminate H|].
  unbind H c' st2 Hc. unbind H err st3 Hstop.
  destruct err as [e|]; [discriminate H|].
  unbind H u st4 Hset. injection H as <-.
  injection Hset as _ <-. reflexivity.
Qed.

Local Abbreviation deleteInstance := (Google.deleteInstance Sprint backend).
Local Abbreviation deleteDisk := (Google.deleteDisk Sprint backend).
Local Abbreviation Remove := (Google.Remove FindStringSubmatch Sprint backend).

(** Without a disk, [deleteDisk] succeeds after the lookup: no deletion is
    requested. *)
Lemma deleteDisk_absent fuel c (st st' : St) e :
  disk c st = (Ret (None, e), st') ->
  deleteDisk fuel c st = (Ret None, st').
Proof. intros Hdisk. unfold Google.deleteDisk. now step Hdisk. Qed.

(** [Remove], step by step, once the [ComputeUtil] is built and
    [deleteInstance] has returned.  A failure of [deleteInstance] other than
    not-found ends [Remove] there, in the state [deleteInstance] left.
    Otherwise [deleteDisk] runs, and its failure is returned unless it is
    not-found. *)
Lemma Google_Remove_steps fuel (st st1 st2 : St) c e1 :
  newComputeUtil (drv st) st = (Ret (Some c, None), st1) ->
  deleteInstance fuel c st1 = (Ret e1, st2) ->
  (forall e, e1 = Some e -> isNotFound e = false ->
     Remove fuel st = (Ret (Some e), st2)) /\
  (forall st2',
     (e1 = None /\ st2' = st2) \/
     (exists e, e1 = Some e /\ isNotFound e = true /\
        st2' = warned "Remote instance does not exist, proceeding with removing local reference"
                      [] st2) ->
     forall e2 st3,
       deleteDisk fuel c st2' = (Ret e2, st3) ->
       (e2 = None -> Remove fuel st = (Ret None, st3)) /\
       (forall e, e2 = Some e -> isNotFound e = true ->
          Remove fuel st =
            (Ret None, warned "Remote disk does not exist, proceeding" [] st3)) /\
       (forall e, e2 = Some e -> isNotFound e = false ->
          Remove fuel st = (Ret (Some e), st3))).
Proof.
  intros Hnew Hdel.
  assert (Hrun : forall k : option error -> M (option error),
    Remove fuel st =
      (stop ← match e1 with
              | Some e =>
                if isNotFound e then
                  _ ← log_Warnf "Remote instance does not exist, proceeding with removing local reference" [];
                  mret None
                else mret (Some e)
              | None => mret None
              end;
       match stop with
       | Some e => mret (Some e)
       | None =>
         err ← deleteDisk fuel c;
         match err with
         | Some e =>
           if isNotFound e then
             _ ← log_Warnf "Remote disk does not exist, proceeding" [];
             mret None
           else mret (Some e)
         | None => mret None
         end
       end) st2).
  { intros _. unfold Google.Remove. step_drv. step Hnew. cbn beta iota.
    step (deref_Some c st1). now step Hdel. }
  specialize (Hrun (fun _ => mret None)). rewrite Hrun. clear Hrun.
  split.
  - intros e -> Hnf. now rewrite Hnf.
  - intros st2' Hcont e2 st3 Hdisk.
    assert (Hrun : forall k : option error -> M (option error),
      ((match e1 with
        | Some e =>
          if isNotFound e then
            _ ← log_Warnf "Remote instance does not exist, proceeding with removing local reference" [];
            mret None
          else mret (Some e)
        | None => mret None
        end : M (option error)) ≫= k) st2 = k None st2').
    { intros k. destruct Hcont as [[-> ->] | (e & -> & Hnf & ->)].
      - reflexivity.
      - now rewrite Hnf. }
    rewrite Hrun. step Hdisk.
    repeat split.
    + now intros ->.
    + intros e -> Hnf. now rewrite Hnf.
    + intros e -> Hnf. now rewrite Hnf.
Qed.

Local Abbreviation openFirewallPorts :=
  (Google.openFirewallPorts SplitPortProto url_Parse Sprint backend).
Local Abbreviation configureInstance :=
  (Google.configureInstance TrimSpace GetSSHKeyPath Sprint backend).
Local Abbreviation Create :=
  (Google.Create SplitPortProto url_Parse FindStringSubmatch TrimSpace
     GetSSHKeyPath Sprint backend).
Local Abbreviation keeps_resources := (only_calls (fun c => deletion c = false)).

Lemma only_calls_lift P {A} (o : outcome A) :
  only_calls P (Google.lift o : M A).
Proof. destruct o; cbn [Google.lift]; calls. Qed.

(** The poller makes no calls but those of its fetch function, the backoff
    and the clock. *)
Lemma waitForOp_loop_calls (P : Call -> Prop) fuel :
  P NextBackOff -> (forall d, P (Sleep d)) ->
  forall opGetter : M (option Operation * option error),
    only_calls P opGetter ->
    only_calls P (waitForOp_loop Sprint backend fuel opGetter).
Proof.
  intros Hnext Hsleep.
  induction fuel as [|fuel IH]; intros opGetter Hget; cbn [waitForOp_loop].
  - calls.
  - calls. now apply IH.
Qed.

Lemma waitForOp_calls (P : Call -> Prop) fuel c opGetter :
  P NextBackOff -> (forall d, P (Sleep d)) -> (forall bf, P (BackOffReset bf)) ->
  only_calls P opGetter ->
  only_calls P (waitForOp Sprint backend fuel c opGetter).
Proof.
  intros Hnext Hsleep Hreset Hget. unfold waitForOp. calls.
  now apply waitForOp_loop_calls.
Qed.

Lemma waitForOp_keeps_resources fuel c opGetter :
  keeps_resources opGetter ->
  keeps_resources (waitForOp Sprint backend fuel c opGetter).
Proof. intros Hget. now apply waitForOp_calls. Qed.

Lemma uploadSSHKey_keeps_resources fuel c inst path :
  keeps_resources (uploadSSHKey TrimSpace Sprint backend fuel c inst path).
Proof.
  unfold uploadSSHKey, waitForRegionalOp. calls.
  apply waitForOp_keeps_resources. calls.
Qed.

Lemma openFirewallPorts_keeps_resources fuel c d :
  keeps_resources (openFirewallPorts fuel c d).
Proof.
  unfold Google.openFirewallPorts, firewallRule, waitForGlobalOp.
  destruct (skipFirewall c); [calls|].
  apply only_calls_bind; [calls|]. intros [rule [e|]]; [calls|].
  destruct rule as [r|].
  all: apply only_calls_bind; [apply only_calls_lift|];
       intros [ports [e|]]; [calls|];
       case_bool_decide; [calls|];
       apply only_calls_bind; [calls|];
       intros [op [e|]]; [calls|];
       apply only_calls_bind; [calls|]; intros op';
       apply waitForOp_keeps_resources; calls.
Qed.

Lemma configureInstance_keeps_resources fuel c d :
  keeps_resources (configureInstance fuel c d).
Proof.
  unfold Google.configureInstance, Google.instance, addFirewallTag,
    waitForRegionalOp.
  calls; try apply uploadSSHKey_keeps_resources.
  all: try (apply waitForOp_keeps_resources; calls).
Qed.

Lemma prepareMetadata_files_keeps_resources files :
  forall items,
    keeps_resources (prepareMetadata_files backend files items).
Proof.
  induction files as [|[key filePath] files IH]; intros items;
    cbn [prepareMetadata_files].
  - calls.
  - unfold readMetadataFile. calls; apply IH.
Qed.

Lemma createInstance_keeps_resources fuel c d :
  keeps_resources (createInstance fuel c d).
Proof.
  unfold Google.createInstance, Google.prepareMetadata, Google.staticAddress,
    Google.disk, Google.instance, waitForRegionalOp.
  apply only_calls_bind; [apply prepareMetadata_files_keeps_resources|].
  intros [metadata [e|]]; [calls|].
  apply only_calls_bind.
  { destruct (Contains _ _); [calls|]. destruct (negb _); [|calls].
    apply only_calls_bind; [apply only_calls_lift | intros; calls]. }
  intros subnet. apply only_calls_bind.
  { destruct (negb _); [|calls].
    apply only_calls_bind.
    - destruct (negb _); [calls|].
      apply only_calls_bind; [apply only_calls_lift|]. intros r. calls.
    - intros [addr [e|]]; [calls|].
      apply only_calls_bind; [apply only_calls_lift | intros; calls]. }
  intros [nic [e|]]; [calls|].
  apply only_calls_bind; [calls|]. intros [dsk err].
  apply only_calls_bind; [calls|]. intros [op [e|]]; [calls|].
  apply only_calls_bind; [calls|]. intros op'.
  apply only_calls_bind; [apply waitForOp_keeps_resources; calls|].
  intros [e|]; [calls|].
  calls. apply uploadSSHKey_keeps_resources.
Qed.

(** [Create] never asks the provider to delete anything: it does not undo
    what it has created. *)
Lemma Google_Create_keeps_resources fuel : keeps_resources (Create fuel).
Proof.
  unfold Google.Create.
  apply only_calls_bind; [calls|]. intros d.
  apply only_calls_bind; [calls|]. intros [e|]; [calls|].
  apply only_calls_bind; [unfold Google.newComputeUtil; calls|].
  intros [c [e|]]; [calls|].
  apply only_calls_bind; [calls|]. intros c'.
  apply only_calls_bind; [apply openFirewallPorts_keeps_resources|].
  intros [e|]; [calls|].
  destruct (UseExisting d);
    [apply configureInstance_keeps_resources | apply createInstance_keeps_resources].
Qed.

(** [Create], step by step, once the key is generated and the [ComputeUtil]
    is built: a failure of the firewall step is what [Create] returns, in
    the state that step left; otherwise [Create] is the instance step. *)
Lemma Google_Create_steps fuel (st st1 st2 : St) c :
  api backend (GenerateSSHKey (GetSSHKeyPath (drv st))) st = (Ret None, st1) ->
  newComputeUtil (drv st) st1 = (Ret (Some c, None), st2) ->
  (forall e st3,
     openFirewallPorts fuel c (drv st) st2 = (Ret (Some e), st3) ->
     Create fuel st = (Ret (Some e), st3)) /\
  (forall st3,
     openFirewallPorts fuel c (drv st) st2 = (Ret None, st3) ->
     Create fuel st =
       (if UseExisting (drv st) then configureInstance fuel c (drv st)
        else createInstance fuel c (drv st)) st3).
Proof.
  intros Hkey Hnew. split.
  - intros e st3 Hfw. unfold Google.Create. step_drv. step Hkey. step Hnew.
    cbn beta iota. step (deref_Some c st2). now step Hfw.
  - intros st3 Hfw. unfold Google.Create. step_drv. step Hkey. step Hnew.
    cbn beta iota. step (deref_Some c st2). now step Hfw.
Qed.

End WithBackend.
End GoogleFacts.

(** ** The Google driver on the in-memory cloud *)

Module GoogleExamples.
Import Go GoFacts Google GoogleFacts FakeGCE.

Local Abbreviation createInstance :=
  (Google.createInstance id key_path show_op_error backend).

Lemma region_needs_two_bytes_witness :
  (exists r a b,
     region util0 = Ret r /\
     zone util0 = r +:+ String a (String b EmptyString)) /\
  region (util_of driver_short_zone) = Panic "slice bounds out of range" /\
  Google.staticAddress backend (util_of driver_short_zone)
    (start driver_short_zone empty_cloud)
  = (Panic "slice bounds out of range", start driver_short_zone empty_cloud) /\
  createInstance 1 (util_of driver_short_zone) driver_short_zone
    (start driver_short_zone empty_cloud)
  = (Panic "slice bounds out of range", start driver_short_zone empty_cloud).
Proof.
  split.
  - apply (proj1 (region_needs_two_bytes id key_path show_op_error backend util0)).
    vm_compute. lia.
  - pose proof (proj2 (region_needs_two_bytes id key_path show_op_error backend
                         (util_of driver_short_zone))) as H.
    assert (Hshort : (String.length (zone (util_of driver_short_zone)) < 2)%nat)
      by (vm_compute; lia).
    destruct (H Hshort) as (Hregion & Hstatic & Hcreate).
    split; [exact Hregion|]. split.
    + apply Hstatic. reflexivity.
    + apply Hcreate with (items := []).
      * vm_compute. reflexivity.
      * discriminate.
      * reflexivity.
Defined.

Example region_of_default_zone : region util0 = Ret "us-central1".
Proof. reflexivity. Qed.

End GoogleExamples.

(** ** The Amazon EC2 driver *)

Module EC2Facts.
Import Go GoFacts AmazonEC2.

Section WithBackend.
Context {W : Type}.
Variable SplitPortProto : string -> string * string.
Variable ParseInt : string -> Z * option error.
Variable base64_EncodeToString : string -> string.
Variable GetSSHKeyPath : Driver -> string.
Variable maxAttempts : nat.
Variable interval : Duration.
Variable swarmPort : Z.
Variable backend : forall c : Call, W -> Resp c * W.
Local Abbreviation M := (Go.M Driver Call W).
Local Abbreviation St := (Go.St Driver Call W).
Local Abbreviation getInstance := (AmazonEC2.getInstance backend).
Local Abbreviation GetState := (AmazonEC2.GetState backend).

(** The table [Driver.GetState] follows, once the instance lookup has
    answered. *)
Lemma EC2_GetState_table (st : St) :
  (forall o e st1,
     getInstance st = (Ret (o, Some e), st1) ->
     GetState st = (Ret (StateError, Some e), st1)) /\
  (forall inst st1,
     getInstance st = (Ret (Some inst, None), st1) ->
     (State_Name inst = "pending" ->
      GetState st = (Ret (Starting, None), st1)) /\
     (State_Name inst = "running" ->
      GetState st = (Ret (Running, None), st1)) /\
     (State_Name inst ∈ ["stopping"; "shutting-down"] ->
      GetState st = (Ret (Stopping, None), st1)) /\
     (State_Name inst = "stopped" ->
      GetState st = (Ret (Stopped, None), st1)) /\
     (State_Name inst = "terminated" ->
      GetState st = (Ret (StateError, None), st1)) /\
     (State_Name inst ∉ ["pending"; "running"; "stopping"; "shutting-down";
                         "stopped"; "terminated"] ->
      GetState st =
        (Ret (StateError, None),
         warned "unrecognized instance state: %v" [State_Name inst] st1))).
Proof.
  split.
  - intros o e st1 Hget. unfold AmazonEC2.GetState. now step Hget.
  - intros inst st1 Hget.
    assert (Hrun : GetState st =
      (let name := State_Name inst in
       if bool_decide (name = InstanceStateNamePending) then mret (Starting, None)
       else if bool_decide (name = InstanceStateNameRunning) then mret (Running, None)
       else if bool_decide (name = InstanceStateNameStopping) then mret (Stopping, None)
       else if bool_decide (name = InstanceStateNameShuttingDown) then mret (Stopping, None)
       else if bool_decide (name = InstanceStateNameStopped) then mret (Stopped, None)
       else if bool_decide (name = InstanceStateNameTerminated) then mret (StateError, None)
       else
         _ ← log_Warnf "unrecognized instance state: %v" [name];
         mret (StateError, None)) st1).
    { unfold AmazonEC2.GetState. step Hget. cbn beta iota.
      now step (deref_Some inst st1). }
    rewrite Hrun. clear Hrun. cbn zeta.
    unfold InstanceStateNamePending, InstanceStateNameRunning,
      InstanceStateNameStopping, InstanceStateNameShuttingDown,
      InstanceStateNameStopped, InstanceStateNameTerminated.
    repeat split.
    + intros ->. reflexivity.
    + intros ->. reflexivity.
    + intros H. set_unfold in H. destruct H as [->| [->|[]]]; reflexivity.
    + intros ->. reflexivity.
    + intros ->. reflexivity.
    + intros H.
      repeat (rewrite bool_decide_eq_false_2;
              [|intros Heq; apply H; rewrite Heq; set_solver]).
      reflexivity.
Qed.

Local Abbreviation GetIP := (AmazonEC2.GetIP backend).
Local Abbreviation instanceIpAvailable := (AmazonEC2.instanceIpAvailable backend).

Lemma getInstance_keeps : keeps_drv getInstance.
Proof. unfold AmazonEC2.getInstance. keeps. Qed.

(** A stored address is returned as it is: the state, and with it the trace
    of calls, is unchanged. *)
Lemma EC2_GetIP_cached (st : St) :
  IPAddress (drv st) <> "" ->
  GetIP st = (Ret (IPAddress (drv st), None), st).
Proof.
  intros Hip. unfold AmazonEC2.GetIP. step_drv.
  now rewrite (bool_decide_eq_false_2 _ Hip).
Qed.

(** [GetIP] never writes to the driver: what it resolves is not stored. *)
Lemma EC2_GetIP_keeps : keeps_drv GetIP.
Proof.
  unfold AmazonEC2.GetIP. keeps. apply getInstance_keeps.
Qed.

(** With nothing stored, [GetIP] starts by describing the instance: it leaves
    the process. *)
Lemma EC2_GetIP_asks (st st' : St) o :
  IPAddress (drv st) = "" ->
  GetIP st = (o, st') ->
  exists rest, trace st' = trace st ++ DescribeInstances (InstanceId (drv st)) :: rest.
Proof.
  intros Hempty. unfold AmazonEC2.GetIP. step_drv.
  rewrite (bool_decide_eq_true_2 _ Hempty). cbn [negb].
  unfold AmazonEC2.getInstance. intros H.
  rewrite bind_assoc in H. revert H. step_drv. rewrite bind_assoc. intros H.
  eapply (api_first backend (DescribeInstances (InstanceId (drv st))));
    [|exact H].
  intros a. calls.
Qed.

(** [instanceIpAvailable], the condition [Create] waits for, is what stores
    the address. *)
Lemma instanceIpAvailable_stores (st st' : St) :
  instanceIpAvailable st = (Ret true, st') -> IPAddress (drv st') <> "".
Proof.
  unfold AmazonEC2.instanceIpAvailable. intros H.
  unbind H r st1 Hip. destruct r as [addr err].
  case_bool_decide as Haddr; cbn [negb] in H.
  - discriminate H.
  - unbind H u st2 Hset. injection H as <-.
    injection Hset as _ <-. exact Haddr.
Qed.

Local Abbreviation terminate := (AmazonEC2.terminate backend).
Local Abbreviation deleteKeyPair := (AmazonEC2.deleteKeyPair backend).
Local Abbreviation Remove := (AmazonEC2.Remove backend).

(** [terminate]: without an instance id nothing is asked and nothing fails;
    an answer that starts with one of the two not-found prefixes is turned
    into success; any other failure is returned, wrapped. *)
Lemma terminate_cases (st : St) :
  (InstanceId (drv st) = "" ->
   terminate st =
     (Ret None,
      warned "Missing instance ID, this is likely due to a failure during machine creation"
             [] st)) /\
  (InstanceId (drv st) <> "" ->
   forall err st1,
     api backend (TerminateInstances (InstanceId (drv st))) st = (Ret err, st1) ->
     match err with
     | None => terminate st = (Ret None, st1)
     | Some e =>
       if HasPrefix (Error e) "unknown instance"
          || HasPrefix (Error e) "InvalidInstanceID.NotFound"
       then terminate st =
              (Ret None,
               warned "Remote instance does not exist, proceeding with removing local reference"
                      [] st1)
       else terminate st =
              (Ret (Some (Errorf "unable to terminate instance: " e)), st1)
     end).
Proof.
  split.
  - intros Hid. unfold AmazonEC2.terminate. step_drv.
    now rewrite (bool_decide_eq_true_2 _ Hid).
  - intros Hid err st1 Hcall. unfold AmazonEC2.terminate. step_drv.
    rewrite (bool_decide_eq_false_2 _ Hid). step Hcall.
    destruct err as [e|]; [|reflexivity].
    now destruct (HasPrefix (Error e) "unknown instance"
                  || HasPrefix (Error e) "InvalidInstanceID.NotFound").
Qed.

(** [deleteKeyPair]: without a key name nothing is asked and nothing fails;
    otherwise the answer of the provider is returned as it is. *)
Lemma deleteKeyPair_cases (st : St) :
  (KeyName (drv st) = "" ->
   deleteKeyPair st =
     (Ret None,
      warned "Missing key pair name, this is likely due to a failure during machine creation"
             [] st)) /\
  (KeyName (drv st) <> "" ->
   forall err st1,
     api backend (DeleteKeyPair (KeyName (drv st))) st = (Ret err, st1) ->
     deleteKeyPair st = (Ret err, st1)).
Proof.
  split.
  - intros Hkey. unfold AmazonEC2.deleteKeyPair. step_drv.
    now rewrite (bool_decide_eq_true_2 _ Hkey).
  - intros Hkey err st1 Hcall. unfold AmazonEC2.deleteKeyPair. step_drv.
    rewrite (bool_decide_eq_false_2 _ Hkey). step Hcall.
    now destruct err.
Qed.

Lemma terminate_returns (st : St) :
  exists err st1, terminate st = (Ret err, st1) /\ drv st1 = drv st.
Proof.
  destruct (terminate_cases st) as [Hnone Hsome].
  destruct (decide (InstanceId (drv st) = "")) as [Hid|Hid].
  - eexists _, _. split; [exact (Hnone Hid) | reflexivity].
  - specialize (Hsome Hid _ _ (api_run backend _ st)).
    destruct (fst (backend (TerminateInstances (InstanceId (drv st))) (world st)))
      as [e|].
    + destruct (HasPrefix (Error e) "unknown instance"
                || HasPrefix (Error e) "InvalidInstanceID.NotFound");
        eexists _, _; (split; [exact Hsome | reflexivity]).
    + eexists _, _. split; [exact Hsome | reflexivity].
Qed.

Lemma deleteKeyPair_returns (st : St) :
  exists err st1, deleteKeyPair st = (Ret err, st1).
Proof.
  destruct (deleteKeyPair_cases st) as [Hnone Hsome].
  destruct (decide (KeyName (drv st) = "")) as [Hkey|Hkey].
  - eexists _, _. exact (Hnone Hkey).
  - eexists _, _. exact (Hsome Hkey _ _ (api_run backend _ st)).
Qed.

(** [Remove] always returns; it runs [terminate], then, whatever that gave
    and only for a key pair the driver created, [deleteKeyPair]; its result
    is [nil] when neither failed and otherwise the aggregate of the failures
    in that order. *)
Lemma EC2_Remove_aggregates (st : St) :
  exists e1 st1 e2 st2,
    terminate st = (Ret e1, st1) /\
    (if ExistingKey (drv st) then e2 = None /\ st2 = st1
     else deleteKeyPair st1 = (Ret e2, st2)) /\
    Remove st =
      (Ret (match option_list e1 ++ option_list e2 with
            | [] => None
            | errs => Some (mkMultiError errs)
            end), st2).
Proof.
  destruct (terminate_returns st) as (e1 & st1 & Hterm & Hdrv).
  destruct (ExistingKey (drv st)) eqn:Hexisting.
  - exists e1, st1, None, st1. split; [exact Hterm|]. split; [now split|].
    unfold AmazonEC2.Remove. step Hterm. step_drv. rewrite Hdrv, Hexisting.
    cbn [negb]. step (mret_run (match e1 with Some e => [] ++ [e] | None => [] end) st1).
    now destruct e1.
  - destruct (deleteKeyPair_returns st1) as (e2 & st2 & Hdel).
    exists e1, st1, e2, st2. split; [exact Hterm|]. split; [exact Hdel|].
    unfold AmazonEC2.Remove. step Hterm. step_drv. rewrite Hdrv, Hexisting.
    cbn [negb]. rewrite bind_assoc. step Hdel.
    now destruct e1, e2.
Qed.

(** [Remove] asks the provider for nothing but the termination of the
    instance and the deletion of the key pair: there is no volume step. *)
Lemma EC2_Remove_calls :
  only_calls (fun c => (exists i, c = TerminateInstances i) \/
                       (exists k, c = DeleteKeyPair k)) Remove.
Proof.
  unfold AmazonEC2.Remove, AmazonEC2.terminate, AmazonEC2.deleteKeyPair.
  calls.
  all: match goal with
       | |- only_calls ?P (api ?b ?c) => apply (only_calls_api b P c); eauto
       end.
Qed.

Local Abbreviation checkPrereqs := (AmazonEC2.checkPrereqs backend).
Local Abbreviation createKeyPair := (AmazonEC2.createKeyPair GetSSHKeyPath backend).
Local Abbreviation configureSecurityGroups :=
  (AmazonEC2.configureSecurityGroups SplitPortProto ParseInt maxAttempts interval
     swarmPort backend).
Local Abbreviation innerCreate :=
  (AmazonEC2.innerCreate SplitPortProto ParseInt base64_EncodeToString
     GetSSHKeyPath maxAttempts interval swarmPort backend).
Local Abbreviation Create :=
  (AmazonEC2.Create SplitPortProto ParseInt base64_EncodeToString
     GetSSHKeyPath maxAttempts interval swarmPort backend).

Lemma EC2_Remove_returns (st : St) : exists r st', Remove st = (Ret r, st').
Proof.
  destruct (EC2_Remove_aggregates st) as (e1 & st1 & e2 & st2 & _ & _ & H).
  eauto.
Qed.

(** The first two steps of [innerCreate]: a failure of the key-pair step is
    returned with a prefix, a failure of the security-group step as it is. *)
Lemma innerCreate_first_steps (st : St) :
  (forall e st1,
     createKeyPair st = (Ret (Some e), st1) ->
     innerCreate st = (Ret (Some (Errorf "unable to create key pair: " e)), st1)) /\
  (forall st1 e st2,
     createKeyPair st = (Ret None, st1) ->
     configureSecurityGroups (securityGroupNames (drv st1)) st1
       = (Ret (Some e), st2) ->
     innerCreate st = (Ret (Some e), st2)).
Proof.
  split.
  - intros e st1 Hkey. unfold AmazonEC2.innerCreate. now step Hkey.
  - intros st1 e st2 Hkey Hgroups. unfold AmazonEC2.innerCreate.
    step Hkey. step_drv. now step Hgroups.
Qed.

(** [Create]: a failed prerequisite check ends it at once; a failure of
    [innerCreate] is followed by [Remove], which returns, and [Create] then
    returns the failure of [innerCreate] in the state [Remove] left,
    whatever [Remove] returned. *)
Lemma EC2_Create_compensates (st : St) :
  (forall e st1,
     checkPrereqs st = (Ret (Some e), st1) ->
     Create st = (Ret (Some e), st1)) /\
  (forall st1 e st2,
     checkPrereqs st = (Ret None, st1) ->
     innerCreate st1 = (Ret (Some e), st2) ->
     exists r st3,
       Remove st2 = (Ret r, st3) /\ Create st = (Ret (Some e), st3)) /\
  (forall st1 st2,
     checkPrereqs st = (Ret None, st1) ->
     innerCreate st1 = (Ret None, st2) ->
     Create st = (Ret None, st2)).
Proof.
  split; [|split].
  - intros e st1 Hpre. unfold AmazonEC2.Create. now step Hpre.
  - intros st1 e st2 Hpre Hinner.
    destruct (EC2_Remove_returns st2) as (r & st3 & Hremove).
    exists r, st3. split; [exact Hremove|].
    unfold AmazonEC2.Create. step Hpre. step Hinner. now step Hremove.
  - intros st1 st2 Hpre Hinner. unfold AmazonEC2.Create.
    step Hpre. now step Hinner.
Qed.

End WithBackend.
End EC2Facts.

(** ** The canonical state, for both drivers *)

Module StateFacts.
Import Go GoFacts.

Section BothDrivers.
Context {W1 W2 : Type}.
Variable FindStringSubmatch : string -> list string.
Variable gce : forall c : Google.Call, W1 -> Google.Resp c * W1.
Variable ec2 : forall c : AmazonEC2.Call, W2 -> AmazonEC2.Resp c * W2.

(** C1, as amended.  Each driver follows a table of its own.
    Google, once the [ComputeUtil] is built and the instance lookup has
    answered: without an instance, no disk gives [None] and a disk gives
    [Stopped]; with an instance, PROVISIONING and STAGING give [Starting],
    RUNNING gives [Running], STOPPING, STOPPED and TERMINATED give
    [Stopped], and every other status gives [None]; nothing is logged.
    EC2 (which looks up no volume): a failed lookup gives [Error] together
    with the lookup error; pending gives [Starting], running [Running],
    stopping and shutting-down [Stopping], stopped [Stopped], terminated
    [Error], and every other state name gives [Error] with one warning
    logged. *)
Theorem GetState_tables :
  (forall (st st1 st2 : St Google.Driver Google.Call W1) c o_inst e1,
     Google.newComputeUtil FindStringSubmatch gce (drv st) st
       = (Ret (Some c, None), st1) ->
     Google.instance gce c st1 = (Ret (o_inst, e1), st2) ->
     logs st2 = logs st /\
     match o_inst with
     | None =>
       forall o_dsk e2 st3,
         Google.disk gce c st2 = (Ret (o_dsk, e2), st3) ->
         logs st3 = logs st /\
         Google.GetState FindStringSubmatch gce st =
           (Ret (match o_dsk with None => StateNone | Some _ => Stopped end,
                 None), st3)
     | Some inst =>
       exists s,
         Google.GetState FindStringSubmatch gce st = (Ret (s, None), st2) /\
         (Google.Status inst ∈ ["PROVISIONING"; "STAGING"] -> s = Starting) /\
         (Google.Status inst = "RUNNING" -> s = Running) /\
         (Google.Status inst ∈ ["STOPPING"; "STOPPED"; "TERMINATED"] ->
          s = Stopped) /\
         (Google.Status inst ∉ ["PROVISIONING"; "STAGING"; "RUNNING";
                                "STOPPING"; "STOPPED"; "TERMINATED"] ->
          s = StateNone)
     end) /\
  (forall st : St AmazonEC2.Driver AmazonEC2.Call W2,
     (forall o e st1,
        AmazonEC2.getInstance ec2 st = (Ret (o, Some e), st1) ->
        AmazonEC2.GetState ec2 st = (Ret (StateError, Some e), st1)) /\
     (forall inst st1,
        AmazonEC2.getInstance ec2 st = (Ret (Some inst, None), st1) ->
        (AmazonEC2.State_Name inst = "pending" ->
         AmazonEC2.GetState ec2 st = (Ret (Starting, None), st1)) /\
        (AmazonEC2.State_Name inst = "running" ->
         AmazonEC2.GetState ec2 st = (Ret (Running, None), st1)) /\
        (AmazonEC2.State_Name inst ∈ ["stopping"; "shutting-down"] ->
         AmazonEC2.GetState ec2 st = (Ret (Stopping, None), st1)) /\
        (AmazonEC2.State_Name inst = "stopped" ->
         AmazonEC2.GetState ec2 st = (Ret (Stopped, None), st1)) /\
        (AmazonEC2.State_Name inst = "terminated" ->
         AmazonEC2.GetState ec2 st = (Ret (StateError, None), st1)) /\
        (AmazonEC2.State_Name inst ∉ ["pending"; "running"; "stopping";
                                      "shutting-down"; "stopped"; "terminated"] ->
         AmazonEC2.GetState ec2 st =
           (Ret (StateError, None),
            warned "unrecognized instance state: %v"
                   [AmazonEC2.State_Name inst] st1)))).
Proof.
  split.
  - intros st st1 st2 c o_inst e1 Hnew Hinst.
    exact (GoogleFacts.Google_GetState_table _ _ _ _ _ _ _ _ Hnew Hinst).
  - intros st. apply EC2Facts.EC2_GetState_table.
Qed.

End BothDrivers.

(** C1 as the specification states it fails: an instance that is STOPPING is
    reported [Stopped] by the Google driver, where the table of section 4.2
    has [Stopping]. *)
Lemma GetState_stopping_counterexample :
  fst (FakeGCE.GetState
         (FakeGCE.start FakeGCE.driver0 (FakeGCE.cloud_with_instance "STOPPING")))
    = Ret (Stopped, None) /\
  fst (FakeGCE.GetState
         (FakeGCE.start FakeGCE.driver0 (FakeGCE.cloud_with_instance "STOPPING")))
    <> Ret (Spec.canonical_state true true Spec.stopping, None).
Proof. split; [vm_compute; reflexivity | vm_compute; discriminate]. Qed.

(** Two more rows on which the drivers leave the table of section 4.2. *)
Example GetState_unrecognized_is_None :
  FakeGCE.GetState
    (FakeGCE.start FakeGCE.driver0 (FakeGCE.cloud_with_instance "SUSPENDED"))
  = (Ret (StateNone, None),
     mkSt FakeGCE.driver0 (FakeGCE.cloud_with_instance "SUSPENDED")
       [Google.DefaultClient; Google.RawNew;
        Google.InstancesGet "proj" "us-central1-a" "machine"] []).
Proof. vm_compute. reflexivity. Qed.

Example GetState_terminated_is_Error :
  fst (FakeEC2.GetState
         (FakeEC2.start (FakeEC2.created FakeEC2.driver0)
                        (FakeEC2.cloud_with_machine "terminated")))
  = Ret (StateError, None).
Proof. vm_compute. reflexivity. Qed.

Lemma GetState_tables_witness :
  fst (FakeGCE.GetState
         (FakeGCE.start FakeGCE.driver0 (FakeGCE.cloud_with_instance "RUNNING")))
    = Ret (Running, None) /\
  fst (FakeEC2.GetState
         (FakeEC2.start (FakeEC2.created FakeEC2.driver0)
                        (FakeEC2.cloud_with_machine "running")))
    = Ret (Running, None).
Proof.
  pose proof (GetState_tables FakeGCE.no_match FakeGCE.backend FakeEC2.backend)
    as [HG HE].
  split.
  - pose (st := FakeGCE.start FakeGCE.driver0 (FakeGCE.cloud_with_instance "RUNNING")).
    pose (st1 := snd (Google.newComputeUtil FakeGCE.no_match FakeGCE.backend
                        FakeGCE.driver0 st)).
    pose (st2 := snd (Google.instance FakeGCE.backend FakeGCE.util0 st1)).
    destruct (HG st st1 st2 FakeGCE.util0 (Some (FakeGCE.instance_in "RUNNING")) None)
      as [_ (s & Hrun & _ & Hrunning & _)].
    + vm_compute. reflexivity.
    + vm_compute. reflexivity.
    + unfold FakeGCE.GetState. fold st. rewrite Hrun.
      now rewrite (Hrunning eq_refl).
  - pose (st := FakeEC2.start (FakeEC2.created FakeEC2.driver0)
                  (FakeEC2.cloud_with_machine "running")).
    pose (st1 := snd (AmazonEC2.getInstance FakeEC2.backend st)).
    destruct (HE st) as [_ Hfound].
    destruct (Hfound (AmazonEC2.mkInstance "i-0001" "running" (Some "10.0.0.5")
                        (Some "198.51.100.5")) st1) as (_ & Hrunning & _).
    + vm_compute. reflexivity.
    + unfold FakeEC2.GetState. fold st. now rewrite (Hrunning eq_refl).
Defined.

End StateFacts.

(** ** The stored address, for both drivers *)

Module AddressFacts.
Import Go GoFacts.

Section BothDrivers.
Context {W1 W2 : Type}.
Variable FindStringSubmatch : string -> list string.
Variable Sprint : Google.OperationErrorErrors -> string.
Variable gce : forall c : Google.Call, W1 -> Google.Resp c * W1.
Variable ec2 : forall c : AmazonEC2.Call, W2 -> AmazonEC2.Resp c * W2.
Local Abbreviation G_GetIP := (Google.GetIP FindStringSubmatch gce).
Local Abbreviation G_Stop := (Google.Stop FindStringSubmatch Sprint gce).
Local Abbreviation E_GetIP := (AmazonEC2.GetIP ec2).

(** C9, as amended.  Google: [GetIP] returns a stored, non-empty address
    without leaving the process and without changing anything; an address it
    returns is non-empty and stored; a successful [Stop] (hence [Kill] and
    the first half of [Restart]) empties the store, and the next [GetIP]
    then goes back to the provider.  EC2: [GetIP] likewise returns a stored,
    non-empty address as it is, but it never writes to the driver, so that
    with an empty store every [GetIP] describes the instance again; the
    address is stored by [instanceIpAvailable], which [Create] waits on. *)
Theorem GetIP_store :
  (forall st : St Google.Driver Google.Call W1,
     Google.IPAddress (drv st) <> "" ->
     G_GetIP st = (Ret (Google.IPAddress (drv st), None), st)) /\
  (forall (st st' : St Google.Driver Google.Call W1) a,
     G_GetIP st = (Ret (a, None), st') ->
     a <> "" /\ Google.IPAddress (drv st') = a) /\
  (forall fuel (st st' : St Google.Driver Google.Call W1),
     G_Stop fuel st = (Ret None, st') ->
     Google.IPAddress (drv st') = "" /\
     forall o st'',
       G_GetIP st' = (o, st'') ->
       exists rest, trace st'' = trace st' ++ Google.DefaultClient :: rest) /\
  (forall st : St AmazonEC2.Driver AmazonEC2.Call W2,
     AmazonEC2.IPAddress (drv st) <> "" ->
     E_GetIP st = (Ret (AmazonEC2.IPAddress (drv st), None), st)) /\
  (forall (st st' : St AmazonEC2.Driver AmazonEC2.Call W2) o,
     E_GetIP st = (o, st') -> drv st' = drv st) /\
  (forall (st st' : St AmazonEC2.Driver AmazonEC2.Call W2) o,
     AmazonEC2.IPAddress (drv st) = "" ->
     E_GetIP st = (o, st') ->
     exists rest,
       trace st' = trace st ++
         AmazonEC2.DescribeInstances (AmazonEC2.InstanceId (drv st)) :: rest) /\
  (forall st st' : St AmazonEC2.Driver AmazonEC2.Call W2,
     AmazonEC2.instanceIpAvailable ec2 st = (Ret true, st') ->
     AmazonEC2.IPAddress (drv st') <> "").
Proof.
  split; [|split; [|split; [|split; [|split; [|split]]]]].
  - apply GoogleFacts.Google_GetIP_cached.
  - intros st st' a H. eapply GoogleFacts.Google_GetIP_stores; exact H.
  - intros fuel st st' Hstop.
    pose proof (GoogleFacts.Google_Stop_clears _ _ _ _ _ _ Hstop) as Hempty.
    split; [exact Hempty|].
    intros o st''. now apply GoogleFacts.Google_GetIP_asks.
  - apply EC2Facts.EC2_GetIP_cached.
  - intros st st' o. apply EC2Facts.EC2_GetIP_keeps.
  - intros st st' o. apply EC2Facts.EC2_GetIP_asks.
  - apply EC2Facts.instanceIpAvailable_stores.
Qed.

End BothDrivers.

(** C9 as the specification states it fails: the EC2 [GetIP] resolves an
    address and leaves the store empty, and the next [GetIP] describes the
    instance again. *)
Lemma GetIP_resolves_again_counterexample :
  let st := FakeEC2.start (FakeEC2.created FakeEC2.driver0)
                          (FakeEC2.cloud_with_machine "running") in
  let st' := snd (FakeEC2.GetIP st) in
  fst (FakeEC2.GetIP st) = Ret ("198.51.100.5", None) /\
  AmazonEC2.IPAddress (drv st') = "" /\
  trace st' = [AmazonEC2.DescribeInstances "i-0001"] /\
  trace (snd (FakeEC2.GetIP st')) =
    [AmazonEC2.DescribeInstances "i-0001"; AmazonEC2.DescribeInstances "i-0001"].
Proof. vm_compute. repeat split; reflexivity. Qed.

(** On the Google driver the store lasts until the machine is stopped. *)
Example GetIP_after_Stop :
  let st := FakeGCE.start FakeGCE.driver0 (FakeGCE.cloud_with_instance "RUNNING") in
  let st1 := snd (FakeGCE.GetIP st) in
  let st2 := snd (FakeGCE.Stop 1 st1) in
  Google.IPAddress (drv st1) = "203.0.113.9" /\
  fst (FakeGCE.Stop 1 st1) = Ret None /\
  Google.IPAddress (drv st2) = "" /\
  length (trace (snd (FakeGCE.GetIP st2))) = (length (trace st2) + 3)%nat.
Proof. vm_compute. repeat split; reflexivity. Qed.

Lemma GetIP_store_witness :
  let st := FakeGCE.start FakeGCE.driver0 (FakeGCE.cloud_with_instance "RUNNING") in
  let st1 := snd (FakeGCE.GetIP st) in
  Google.IPAddress (drv st1) = "203.0.113.9" /\
  FakeGCE.GetIP st1 = (Ret ("203.0.113.9", None), st1) /\
  Google.IPAddress (drv (snd (FakeGCE.Stop 1 st1))) = "".
Proof.
  intros st st1.
  pose proof (GetIP_store FakeGCE.no_match FakeGCE.show_op_error
                FakeGCE.backend FakeEC2.backend)
    as (Hcached & Hstores & Hstop & _).
  assert (Hrun : FakeGCE.GetIP st = (Ret ("203.0.113.9", None), st1))
    by (vm_compute; reflexivity).
  destruct (Hstores st st1 "203.0.113.9" Hrun) as [Hne Hip].
  split; [exact Hip|]. split.
  - unfold FakeGCE.GetIP. rewrite (Hcached st1); [now rewrite Hip|].
    now rewrite Hip.
  - apply (Hstop 1%nat st1 (snd (FakeGCE.Stop 1 st1))).
    vm_compute. reflexivity.
Defined.

End AddressFacts.

(** ** Removal, for both drivers *)

Module RemoveFacts.
Import Go GoFacts.

Section BothDrivers.
Context {W1 W2 : Type}.
Variable FindStringSubmatch : string -> list string.
Variable Sprint : Google.OperationErrorErrors -> string.
Variable gce : forall c : Google.Call, W1 -> Google.Resp c * W1.
Variable ec2 : forall c : AmazonEC2.Call, W2 -> AmazonEC2.Resp c * W2.
Local Abbreviation G_St := (St Google.Driver Google.Call W1).
Local Abbreviation E_St := (St AmazonEC2.Driver AmazonEC2.Call W2).
Local Abbreviation G_Remove := (Google.Remove FindStringSubmatch Sprint gce).
Local Abbreviation G_deleteDisk := (Google.deleteDisk Sprint gce).
Local Abbreviation E_Remove := (AmazonEC2.Remove ec2).

(** C7, as amended.  EC2: [Remove] always returns; it terminates the
    instance and then, whatever that gave and only when the driver created
    the key pair, deletes the key pair; it returns [nil] when neither failed
    and otherwise the aggregate of the failures, in that order; it asks for
    nothing else, so there is no volume step.  Google: [Remove] deletes the
    instance and then the disk, has no key-pair step and no aggregate; a
    failure of the instance deletion other than not-found is returned at
    once, in the state that deletion left, so the disk is not attempted;
    otherwise the disk is deleted and its failure is returned unless it is
    not-found. *)
Theorem Remove_teardown :
  (forall st : E_St,
     exists e1 st1 e2 st2,
       AmazonEC2.terminate ec2 st = (Ret e1, st1) /\
       (if AmazonEC2.ExistingKey (drv st) then e2 = None /\ st2 = st1
        else AmazonEC2.deleteKeyPair ec2 st1 = (Ret e2, st2)) /\
       E_Remove st =
         (Ret (match option_list e1 ++ option_list e2 with
               | [] => None
               | errs => Some (mkMultiError errs)
               end), st2)) /\
  only_calls (fun c => (exists i, c = AmazonEC2.TerminateInstances i) \/
                       (exists k, c = AmazonEC2.DeleteKeyPair k)) E_Remove /\
  (forall fuel (st st1 st2 : G_St) c e1,
     Google.newComputeUtil FindStringSubmatch gce (drv st) st
       = (Ret (Some c, None), st1) ->
     Google.deleteInstance Sprint gce fuel c st1 = (Ret e1, st2) ->
     (forall e, e1 = Some e -> Google.isNotFound e = false ->
        G_Remove fuel st = (Ret (Some e), st2)) /\
     (forall st2',
        (e1 = None /\ st2' = st2) \/
        (exists e, e1 = Some e /\ Google.isNotFound e = true /\
           st2' = warned "Remote instance does not exist, proceeding with removing local reference"
                         [] st2) ->
        forall e2 st3,
          G_deleteDisk fuel c st2' = (Ret e2, st3) ->
          (e2 = None -> G_Remove fuel st = (Ret None, st3)) /\
          (forall e, e2 = Some e -> Google.isNotFound e = true ->
             G_Remove fuel st =
               (Ret None, warned "Remote disk does not exist, proceeding" [] st3)) /\
          (forall e, e2 = Some e -> Google.isNotFound e = false ->
             G_Remove fuel st = (Ret (Some e), st3)))).
Proof.
  split; [|split].
  - apply EC2Facts.EC2_Remove_aggregates.
  - apply EC2Facts.EC2_Remove_calls.
  - intros fuel st st1 st2 c e1.
    apply GoogleFacts.Google_Remove_steps.
Qed.

(** Removing what is gone already.  Google: a not-found answer to the
    deletion of the instance is not returned, [Remove] goes on to the disk
    and returns what
    the disk step gives, where a not-found answer is dropped as well; with no
    disk to be found, [deleteDisk] succeeds without asking for a deletion.
    EC2: without an instance id [terminate] succeeds without a call, and an
    answer that starts with "unknown instance" or
    "InvalidInstanceID.NotFound" is turned into success; without a key name
    [deleteKeyPair] succeeds without a call, and otherwise it returns the
    answer of the provider as it is, a not-found answer included. *)
Theorem Remove_of_absent_resources :
  (forall fuel (st st1 st2 : G_St) c e,
     Google.newComputeUtil FindStringSubmatch gce (drv st) st
       = (Ret (Some c, None), st1) ->
     Google.deleteInstance Sprint gce fuel c st1 = (Ret (Some e), st2) ->
     Google.isNotFound e = true ->
     forall e2 st3,
       G_deleteDisk fuel c
         (warned "Remote instance does not exist, proceeding with removing local reference"
                 [] st2) = (Ret e2, st3) ->
       fst (G_Remove fuel st) =
         Ret (match e2 with
              | Some e' => if Google.isNotFound e' then None else Some e'
              | None => None
              end)) /\
  (forall fuel c (st st' : G_St) e,
     Google.disk gce c st = (Ret (None, e), st') ->
     G_deleteDisk fuel c st = (Ret None, st')) /\
  (forall st : E_St,
     (AmazonEC2.InstanceId (drv st) = "" ->
      AmazonEC2.terminate ec2 st =
        (Ret None,
         warned "Missing instance ID, this is likely due to a failure during machine creation"
                [] st)) /\
     (AmazonEC2.InstanceId (drv st) <> "" ->
      forall e st1,
        api ec2 (AmazonEC2.TerminateInstances (AmazonEC2.InstanceId (drv st))) st
          = (Ret (Some e), st1) ->
        HasPrefix (Error e) "unknown instance"
        || HasPrefix (Error e) "InvalidInstanceID.NotFound" = true ->
        AmazonEC2.terminate ec2 st =
          (Ret None,
           warned "Remote instance does not exist, proceeding with removing local reference"
                  [] st1))) /\
  (forall st : E_St,
     (AmazonEC2.KeyName (drv st) = "" ->
      AmazonEC2.deleteKeyPair ec2 st =
        (Ret None,
         warned "Missing key pair name, this is likely due to a failure during machine creation"
                [] st)) /\
     (AmazonEC2.KeyName (drv st) <> "" ->
      forall err st1,
        api ec2 (AmazonEC2.DeleteKeyPair (AmazonEC2.KeyName (drv st))) st
          = (Ret err, st1) ->
        AmazonEC2.deleteKeyPair ec2 st = (Ret err, st1))).
Proof.
  split; [|split; [|split]].
  - intros fuel st st1 st2 c e Hnew Hdel Hnf e2 st3 Hdisk.
    destruct (GoogleFacts.Google_Remove_steps _ _ _ _ _ _ _ _ _ Hnew Hdel)
      as [_ Hcont].
    destruct (Hcont _ (or_intror (ex_intro _ e (conj eq_refl (conj Hnf eq_refl))))
                _ _ Hdisk) as (Hnone & Hfound & Hother).
    destruct e2 as [e'|].
    + destruct (Google.isNotFound e') eqn:Hnf'.
      * now rewrite (Hfound e' eq_refl Hnf').
      * now rewrite (Hother e' eq_refl Hnf').
    + now rewrite (Hnone eq_refl).
  - intros fuel c st st' e. apply GoogleFacts.deleteDisk_absent.
  - intros st. destruct (EC2Facts.terminate_cases ec2 st) as [Hnone Hsome].
    split; [exact Hnone|].
    intros Hid e st1 Hcall Hprefix.
    specialize (Hsome Hid _ _ Hcall). cbn beta iota in Hsome.
    now rewrite Hprefix in Hsome.
  - intros st. apply EC2Facts.deleteKeyPair_cases.
Qed.

End BothDrivers.
End RemoveFacts.

(** ** Removal on the in-memory clouds *)

Module RemoveExamples.
Import Go GoFacts RemoveFacts.

(** C7 as the specification states it fails: when the provider refuses to
    delete the instance, the Google [Remove] returns that one failure and
    stops; the disk is neither looked up nor deleted. *)
Lemma Remove_stops_at_instance_counterexample :
  let st := FakeGCE.start FakeGCE.driver0
              (FakeGCE.with_faults FakeGCE.fail_delete
                 (FakeGCE.cloud_with_instance "RUNNING")) in
  fst (FakeGCE.Remove 1 st) = Ret (Some FakeGCE.server_error) /\
  FakeGCE.pdisk (world (snd (FakeGCE.Remove 1 st)))
    = Some (Google.mkDisk "machine-disk") /\
  trace (snd (FakeGCE.Remove 1 st)) =
    [Google.DefaultClient; Google.RawNew;
     Google.InstancesDelete "proj" "us-central1-a" "machine"].
Proof. vm_compute. repeat split; reflexivity. Qed.


Lemma Remove_teardown_witness :
  let st := FakeGCE.start FakeGCE.driver0 FakeGCE.cloud_with_disk_only in
  FakeGCE.Remove 1 st =
    (Ret None, snd (FakeGCE.Remove 1 st)) /\
  FakeGCE.pdisk (world (snd (FakeGCE.Remove 1 st))) = None /\
  logs (snd (FakeGCE.Remove 1 st)) =
    [Warnf "Remote instance does not exist, proceeding with removing local reference" []].
Proof.
  intros st.
  pose proof (Remove_teardown FakeGCE.no_match FakeGCE.show_op_error
                FakeGCE.backend FakeEC2.backend) as (_ & _ & HG).
  pose (st1 := snd (Google.newComputeUtil FakeGCE.no_match FakeGCE.backend
                      FakeGCE.driver0 st)).
  pose (st2 := snd (Google.deleteInstance FakeGCE.show_op_error FakeGCE.backend
                      1 FakeGCE.util0 st1)).
  pose (st2' := warned "Remote instance does not exist, proceeding with removing local reference"
                       [] st2).
  pose (st3 := snd (Google.deleteDisk FakeGCE.show_op_error FakeGCE.backend
                      1 FakeGCE.util0 st2')).
  destruct (HG 1%nat st st1 st2 FakeGCE.util0 (Some FakeGCE.not_found))
    as [_ Hcont].
  { vm_compute. reflexivity. }
  { vm_compute. reflexivity. }
  destruct (Hcont st2') with (e2 := @None error) (st3 := st3) as [Hnone _].
  { right. exists FakeGCE.not_found. repeat split; reflexivity. }
  { vm_compute. reflexivity. }
  unfold FakeGCE.Remove. rewrite (Hnone eq_refl).
  split; [reflexivity|]. split; vm_compute; reflexivity.
Defined.

Lemma Remove_of_absent_resources_witness :
  fst (FakeGCE.Remove 1 (FakeGCE.start FakeGCE.driver0 FakeGCE.cloud_with_disk_only))
    = Ret None /\
  fst (Google.deleteDisk FakeGCE.show_op_error FakeGCE.backend 1 FakeGCE.util0
         (FakeGCE.start FakeGCE.driver0 FakeGCE.empty_cloud)) = Ret None /\
  fst (AmazonEC2.terminate FakeEC2.backend
         (FakeEC2.start FakeEC2.driver0 FakeEC2.empty_cloud)) = Ret None /\
  fst (AmazonEC2.terminate FakeEC2.backend
         (FakeEC2.start (FakeEC2.created FakeEC2.driver0) FakeEC2.empty_cloud))
    = Ret None /\
  fst (AmazonEC2.deleteKeyPair FakeEC2.backend
         (FakeEC2.start FakeEC2.driver0 FakeEC2.empty_cloud)) = Ret None.
Proof.
  pose proof (Remove_of_absent_resources FakeGCE.no_match FakeGCE.show_op_error
                FakeGCE.backend FakeEC2.backend) as (HGinst & HGdisk & HEinst & HEkey).
  split; [|split; [|split; [|split]]].
  - set (st := FakeGCE.start FakeGCE.driver0 FakeGCE.cloud_with_disk_only).
    pose (st1 := snd (Google.newComputeUtil FakeGCE.no_match FakeGCE.backend
                        FakeGCE.driver0 st)).
    pose (st2 := snd (Google.deleteInstance FakeGCE.show_op_error FakeGCE.backend
                        1 FakeGCE.util0 st1)).
    pose (st3 := snd (Google.deleteDisk FakeGCE.show_op_error FakeGCE.backend
                        1 FakeGCE.util0
                        (warned "Remote instance does not exist, proceeding with removing local reference"
                                [] st2))).
    unfold FakeGCE.Remove.
    rewrite (HGinst 1%nat st st1 st2 FakeGCE.util0 FakeGCE.not_found) with
      (e2 := @None error) (st3 := st3);
      [reflexivity | vm_compute; reflexivity | vm_compute; reflexivity
       | reflexivity | vm_compute; reflexivity].
  - set (st := FakeGCE.start FakeGCE.driver0 FakeGCE.empty_cloud).
    rewrite (HGdisk 1%nat FakeGCE.util0 st
               (snd (Google.disk FakeGCE.backend FakeGCE.util0 st))
               (Some FakeGCE.not_found));
      [reflexivity | vm_compute; reflexivity].
  - rewrite (proj1 (HEinst _)); reflexivity.
  - set (st := FakeEC2.start (FakeEC2.created FakeEC2.driver0) FakeEC2.empty_cloud).
    rewrite (proj2 (HEinst st)) with
      (e := FakeEC2.instance_not_found)
      (st1 := snd (api FakeEC2.backend (AmazonEC2.TerminateInstances "i-0001") st));
      [reflexivity | discriminate | vm_compute; reflexivity | vm_compute; reflexivity].
  - rewrite (proj1 (HEkey _)); reflexivity.
Defined.

End RemoveExamples.

(** ** Creation and its undoing, for both drivers *)

Module CreateFacts.
Import Go GoFacts.

Section BothDrivers.
Context {W1 W2 : Type}.
Variable G_SplitPortProto : string -> string * string.
Variable url_Parse : string -> option Google.URL * option error.
Variable FindStringSubmatch : string -> list string.
Variable TrimSpace : string -> string.
Variable G_GetSSHKeyPath : Google.Driver -> string.
Variable Sprint : Google.OperationErrorErrors -> string.
Variable gce : forall c : Google.Call, W1 -> Google.Resp c * W1.
Variable E_SplitPortProto : string -> string * string.
Variable ParseInt : string -> Z * option error.
Variable base64_EncodeToString : string -> string.
Variable E_GetSSHKeyPath : AmazonEC2.Driver -> string.
Variable maxAttempts : nat.
Variable interval : Duration.
Variable swarmPort : Z.
Variable ec2 : forall c : AmazonEC2.Call, W2 -> AmazonEC2.Resp c * W2.
Local Abbreviation G_St := (St Google.Driver Google.Call W1).
Local Abbreviation E_St := (St AmazonEC2.Driver AmazonEC2.Call W2).
Local Abbreviation G_Create :=
  (Google.Create G_SplitPortProto url_Parse FindStringSubmatch TrimSpace
     G_GetSSHKeyPath Sprint gce).
Local Abbreviation G_openFirewallPorts :=
  (Google.openFirewallPorts G_SplitPortProto url_Parse Sprint gce).
Local Abbreviation E_Create :=
  (AmazonEC2.Create E_SplitPortProto ParseInt base64_EncodeToString
     E_GetSSHKeyPath maxAttempts interval swarmPort ec2).
Local Abbreviation E_innerCreate :=
  (AmazonEC2.innerCreate E_SplitPortProto ParseInt base64_EncodeToString
     E_GetSSHKeyPath maxAttempts interval swarmPort ec2).

(** C3, as amended.  EC2: a failed prerequisite check ends [Create] at once;
    when [innerCreate] fails, at whichever of its steps (a failed key-pair
    step is returned with a prefix, a failed security-group step as it is),
    [Create] runs [Remove], which always returns, and then returns the
    failure of [innerCreate] in the state [Remove] left, whatever [Remove]
    returned.  Google: [Create] returns the failure of the firewall step in
    the state that step left, and otherwise is the instance step; it never
    asks the provider to delete anything, so it does not run [Remove]. *)
Theorem Create_compensation :
  (forall st : E_St,
     (forall e st1,
        AmazonEC2.checkPrereqs ec2 st = (Ret (Some e), st1) ->
        E_Create st = (Ret (Some e), st1)) /\
     (forall st1 e st2,
        AmazonEC2.checkPrereqs ec2 st = (Ret None, st1) ->
        E_innerCreate st1 = (Ret (Some e), st2) ->
        exists r st3,
          AmazonEC2.Remove ec2 st2 = (Ret r, st3) /\
          E_Create st = (Ret (Some e), st3)) /\
     (forall st1 st2,
        AmazonEC2.checkPrereqs ec2 st = (Ret None, st1) ->
        E_innerCreate st1 = (Ret None, st2) ->
        E_Create st = (Ret None, st2))) /\
  (forall st : E_St,
     (forall e st1,
        AmazonEC2.createKeyPair E_GetSSHKeyPath ec2 st = (Ret (Some e), st1) ->
        E_innerCreate st =
          (Ret (Some (Errorf "unable to create key pair: " e)), st1)) /\
     (forall st1 e st2,
        AmazonEC2.createKeyPair E_GetSSHKeyPath ec2 st = (Ret None, st1) ->
        AmazonEC2.configureSecurityGroups E_SplitPortProto ParseInt maxAttempts
          interval swarmPort ec2 (AmazonEC2.securityGroupNames (drv st1)) st1
          = (Ret (Some e), st2) ->
        E_innerCreate st = (Ret (Some e), st2))) /\
  (forall fuel (st st1 st2 : G_St) c,
     api gce (Google.GenerateSSHKey (G_GetSSHKeyPath (drv st))) st
       = (Ret None, st1) ->
     Google.newComputeUtil FindStringSubmatch gce (drv st) st1
       = (Ret (Some c, None), st2) ->
     (forall e st3,
        G_openFirewallPorts fuel c (drv st) st2 = (Ret (Some e), st3) ->
        G_Create fuel st = (Ret (Some e), st3)) /\
     (forall st3,
        G_openFirewallPorts fuel c (drv st) st2 = (Ret None, st3) ->
        G_Create fuel st =
          (if Google.UseExisting (drv st)
           then Google.configureInstance TrimSpace G_GetSSHKeyPath Sprint gce
                  fuel c (drv st)
           else Google.createInstance TrimSpace G_GetSSHKeyPath Sprint gce
                  fuel c (drv st)) st3)) /\
  (forall fuel, only_calls (fun c => Google.deletion c = false) (G_Create fuel)).
Proof.
  split; [|split; [|split]].
  - intros st. apply EC2Facts.EC2_Create_compensates.
  - intros st. apply EC2Facts.innerCreate_first_steps.
  - intros fuel st st1 st2 c. apply GoogleFacts.Google_Create_steps.
  - intros fuel. apply GoogleFacts.Google_Create_keeps_resources.
Qed.

End BothDrivers.

(** C3 as the specification states it fails: on the Google driver the last
    creation step fails (the public key cannot be read) after the firewall
    rule, the instance and its disk have been created; [Create] returns that
    failure, no deletion has been requested and the instance is still
    there. *)
Lemma Create_without_Remove_counterexample :
  let st := FakeGCE.start FakeGCE.driver0
              (FakeGCE.with_faults FakeGCE.fail_read FakeGCE.empty_cloud) in
  fst (FakeGCE.Create 3 st) = Ret (Some FakeGCE.io_error) /\
  filter (fun c => Google.deletion c = true) (trace (snd (FakeGCE.Create 3 st))) = [] /\
  FakeGCE.vm (world (snd (FakeGCE.Create 3 st))) <> None /\
  FakeGCE.pdisk (world (snd (FakeGCE.Create 3 st))) <> None.
Proof.
  vm_compute. split; [reflexivity|]. split; [reflexivity|].
  split; discriminate.
Qed.

Lemma Create_compensation_witness :
  let st := FakeEC2.start FakeEC2.driver0
              (FakeEC2.with_faults FakeEC2.fail_launch FakeEC2.empty_cloud) in
  fst (FakeEC2.Create st) =
    Ret (Some (Errorf "Error launching instance: " FakeEC2.capacity_error)) /\
  snd (FakeEC2.Create st) =
    snd (FakeEC2.Remove
           (snd (AmazonEC2.innerCreate Lib.SplitPortProto Lib.ParseInt id
                   FakeEC2.key_path 60 3000000000 FakeEC2.swarmPort0
                   FakeEC2.backend
                   (snd (AmazonEC2.checkPrereqs FakeEC2.backend st))))).
Proof.
  intros st.
  pose proof (Create_compensation Lib.SplitPortProto Lib.url_Parse FakeGCE.no_match
                id FakeGCE.key_path FakeGCE.show_op_error FakeGCE.backend
                Lib.SplitPortProto Lib.ParseInt id FakeEC2.key_path 60
                3000000000 FakeEC2.swarmPort0 FakeEC2.backend) as [HE _].
  destruct (HE st) as (_ & Hfail & _).
  set (st1 := snd (AmazonEC2.checkPrereqs FakeEC2.backend st)).
  set (st2 := snd (AmazonEC2.innerCreate Lib.SplitPortProto Lib.ParseInt id
                     FakeEC2.key_path 60 3000000000 FakeEC2.swarmPort0
                     FakeEC2.backend st1)).
  destruct (Hfail st1 (Errorf "Error launching instance: " FakeEC2.capacity_error) st2)
    as (r & st3 & Hremove & Hcreate).
  - vm_compute. reflexivity.
  - vm_compute. reflexivity.
  - unfold FakeEC2.Create, FakeEC2.Remove. rewrite Hcreate, Hremove.
    split; reflexivity.
Defined.

End CreateFacts.

(** ** The firewall rule of the Google driver *)

Module FirewallFacts.
Import Go GoFacts Google.

(** The keys one [Allowed] entry opens. *)
Lemma opened_entry (proto : string) (ports : list string) :
  forall (acc : gset string) key,
    key ∈ foldl (fun opened allowedPort =>
                   {[ allowedPort +:+ "/" +:+ proto ]} ∪ opened) acc ports <->
    key ∈ acc \/ exists port, port ∈ ports /\ key = port +:+ "/" +:+ proto.
Proof.
  induction ports as [|port ports IH]; intros acc key; cbn [foldl].
  - split; [now left | intros [H | (port & Hin & _)]; [exact H | inversion Hin]].
  - rewrite IH. split.
    + intros [H | (port' & Hin & Hkey)].
      * apply elem_of_union in H as [H | H].
        -- apply elem_of_singleton in H. right. exists port.
           split; [constructor | exact H].
        -- now left.
      * right. exists port'. split; [now constructor | exact Hkey].
    + intros [H | (port' & Hin & Hkey)].
      * left. apply elem_of_union. now right.
      * apply elem_of_cons in Hin as [-> | Hin].
        -- left. apply elem_of_union. left. now apply elem_of_singleton.
        -- right. exists port'. now split.
Qed.

Lemma opened_entries (entries : list FirewallAllowed) :
  forall (acc : gset string) key,
    key ∈ foldl (fun opened allowed =>
                   foldl (fun opened allowedPort =>
                            {[ allowedPort +:+ "/" +:+ IPProtocol allowed ]} ∪ opened)
                         opened (Ports allowed)) acc entries <->
    key ∈ acc \/
    exists allowed port,
      allowed ∈ entries /\ port ∈ Ports allowed /\
      key = port +:+ "/" +:+ IPProtocol allowed.
Proof.
  induction entries as [|a entries IH]; intros acc key; cbn [foldl].
  - split; [now left | intros [H | (a & port & Hin & _)]; [exact H | inversion Hin]].
  - rewrite IH, opened_entry. split.
    + intros [[H | (port & Hin & Hkey)] | (a' & port & Ha & Hin & Hkey)].
      * now left.
      * right. exists a, port. repeat split; [constructor | exact Hin | exact Hkey].
      * right. exists a', port. repeat split; [now constructor | exact Hin | exact Hkey].
    + intros [H | (a' & port & Ha & Hin & Hkey)].
      * left. now left.
      * apply elem_of_cons in Ha as [-> | Ha].
        -- left. right. exists port. now split.
        -- right. exists a', port. now repeat split.
Qed.

(** A key is opened by a rule exactly when one of its [Allowed] entries
    lists the port for the protocol. *)
Lemma opened_ports_spec (rule : Firewall) key :
  key ∈ opened_ports rule <->
  exists allowed port,
    allowed ∈ Allowed rule /\ port ∈ Ports allowed /\
    key = port +:+ "/" +:+ IPProtocol allowed.
Proof.
  unfold opened_ports. rewrite opened_entries. split.
  - intros [H | H]; [now apply not_elem_of_empty in H | exact H].
  - now right.
Qed.

Section WithSplit.
Variable SplitPortProto : string -> string * string.
Local Abbreviation missingOpenedPorts := (Google.missingOpenedPorts SplitPortProto).

(** What the loop of [missingOpenedPorts] has collected after the port
    specifications [done]: under each protocol, in a non-empty list, the
    ports of [done] for that protocol whose key the rule does not open. *)
Lemma missing_loop (opened : gset string) (ports : list string) :
  forall (acc : gmap string (list string)) (done : list string),
    (forall proto,
       match acc !! proto with
       | Some l =>
         l <> [] /\
         forall port, port ∈ l <->
           exists p, p ∈ done /\ SplitPortProto p = (port, proto) /\
                     port +:+ "/" +:+ proto ∉ opened
       | None =>
         forall p port, p ∈ done -> SplitPortProto p = (port, proto) ->
                        port +:+ "/" +:+ proto ∈ opened
       end) ->
    forall proto,
      match foldl (fun (missing : gmap string (list string)) p =>
                     let '(port, proto) := SplitPortProto p in
                     if bool_decide (port +:+ "/" +:+ proto ∈ opened) then missing
                     else <[ proto := default [] (missing !! proto) ++ [port] ]> missing)
                  acc ports !! proto with
      | Some l =>
        l <> [] /\
        forall port, port ∈ l <->
          exists p, p ∈ done ++ ports /\ SplitPortProto p = (port, proto) /\
                    port +:+ "/" +:+ proto ∉ opened
      | None =>
        forall p port, p ∈ done ++ ports -> SplitPortProto p = (port, proto) ->
                       port +:+ "/" +:+ proto ∈ opened
      end.
Proof.
  induction ports as [|p ports IH]; intros acc done Hinv proto.
  - cbn [foldl]. rewrite app_nil_r. apply Hinv.
  - cbn [foldl]. replace (done ++ p :: ports) with ((done ++ [p]) ++ ports)
      by (now rewrite <- app_assoc).
    apply IH. clear IH proto. intros proto.
    destruct (SplitPortProto p) as [port0 proto0] eqn:Hsplit.
    case_bool_decide as Hopened.
    + (* the key of [p] is opened: nothing is added *)
      specialize (Hinv proto). destruct (acc !! proto) as [l|].
      * destruct Hinv as [Hne Hl]. split; [exact Hne|]. intros port.
        rewrite Hl. split.
        -- intros (q & Hq & Hsq & Hnot). exists q.
           split; [apply elem_of_app; now left | now split].
        -- intros (q & Hq & Hsq & Hnot).
           apply elem_of_app in Hq as [Hq | Hq]; [now exists q|].
           apply list_elem_of_singleton in Hq as ->.
           rewrite Hsplit in Hsq. injection Hsq as -> ->. contradiction.
      * intros q port Hq Hsq.
        apply elem_of_app in Hq as [Hq | Hq]; [now apply (Hinv q)|].
        apply list_elem_of_singleton in Hq as ->.
        rewrite Hsplit in Hsq. now injection Hsq as <- <-.
    + (* the key of [p] is missing: its port is added under its protocol *)
      destruct (decide (proto0 = proto)) as [->|Hother].
      * rewrite lookup_insert_eq. split.
        { intros Hnil. now apply app_eq_nil in Hnil as [_ Hnil]. }
        intros port. rewrite elem_of_app, list_elem_of_singleton.
        specialize (Hinv proto). split.
        -- intros [Hin | ->].
           ++ destruct (acc !! proto) as [l|]; [|inversion Hin].
              destruct Hinv as [_ Hl]. apply Hl in Hin as (q & Hq & Hsq & Hnot).
              exists q. split; [apply elem_of_app; now left | now split].
           ++ exists p. split; [apply elem_of_app; right; constructor | now split].
        -- intros (q & Hq & Hsq & Hnot).
           apply elem_of_app in Hq as [Hq | Hq].
           ++ left. destruct (acc !! proto) as [l|].
              ** destruct Hinv as [_ Hl]. apply Hl. now exists q.
              ** exfalso. apply Hnot. now apply (Hinv q).
           ++ apply list_elem_of_singleton in Hq as ->.
              rewrite Hsplit in Hsq. injection Hsq as ->. now right.
      * rewrite lookup_insert_ne by exact Hother.
        specialize (Hinv proto). destruct (acc !! proto) as [l|].
        -- destruct Hinv as [Hne Hl]. split; [exact Hne|]. intros port.
           rewrite Hl. split.
           ++ intros (q & Hq & Hsq & Hnot). exists q.
              split; [apply elem_of_app; now left | now split].
           ++ intros (q & Hq & Hsq & Hnot).
              apply elem_of_app in Hq as [Hq | Hq]; [now exists q|].
              apply list_elem_of_singleton in Hq as ->.
              rewrite Hsplit in Hsq. injection Hsq as _ ->. contradiction.
        -- intros q port Hq Hsq.
           apply elem_of_app in Hq as [Hq | Hq]; [now apply (Hinv q)|].
           apply list_elem_of_singleton in Hq as ->.
           rewrite Hsplit in Hsq. injection Hsq as _ ->. contradiction.
Qed.

(** [missingOpenedPorts]: under each protocol, in a non-empty list, the
    desired ports for that protocol whose key the rule does not open. *)
Lemma missingOpenedPorts_spec (rule : Firewall) (ports : list string) proto :
  match missingOpenedPorts rule ports !! proto with
  | Some l =>
    l <> [] /\
    forall port, port ∈ l <->
      exists p, p ∈ ports /\ SplitPortProto p = (port, proto) /\
                port +:+ "/" +:+ proto ∉ opened_ports rule
  | None =>
    forall p port, p ∈ ports -> SplitPortProto p = (port, proto) ->
                   port +:+ "/" +:+ proto ∈ opened_ports rule
  end.
Proof.
  unfold Google.missingOpenedPorts.
  apply (missing_loop (opened_ports rule) ports ∅ []).
  intros proto'. rewrite lookup_empty. intros p port Hin. inversion Hin.
Qed.

Local Abbreviation port_key := (Google.port_key SplitPortProto).

Lemma port_key_split p port proto :
  SplitPortProto p = (port, proto) -> port_key p = port +:+ "/" +:+ proto.
Proof. intros H. unfold Google.port_key. now rewrite H. Qed.

(** Nothing is missing exactly when the rule opens every desired key. *)
Lemma missing_empty_iff (rule : Firewall) (ports : list string) :
  missingOpenedPorts rule ports = ∅ <->
  forall p, p ∈ ports -> port_key p ∈ opened_ports rule.
Proof.
  split.
  - intros Hempty p Hin.
    destruct (SplitPortProto p) as [port proto] eqn:Hsplit.
    rewrite (port_key_split _ _ _ Hsplit).
    pose proof (missingOpenedPorts_spec rule ports proto) as Hspec.
    rewrite Hempty, lookup_empty in Hspec. now apply (Hspec p).
  - intros Hall. apply map_eq. intros proto. rewrite lookup_empty.
    pose proof (missingOpenedPorts_spec rule ports proto) as Hspec.
    destruct (missingOpenedPorts rule ports !! proto) as [l|]; [|reflexivity].
    destruct Hspec as [Hne Hl]. destruct l as [|port l]; [contradiction|].
    destruct (proj1 (Hl port)) as (p & Hin & Hsplit & Hnot); [constructor|].
    exfalso. apply Hnot. rewrite <- (port_key_split _ _ _ Hsplit). now apply Hall.
Qed.

(** The rule that is sent keeps the entries of the rule that was found, in
    place, and changes no other field. *)
Lemma add_missing_appends (rule : Firewall) (m : gmap string (list string)) :
  exists new,
    Allowed (add_missing rule m) = Allowed rule ++ new /\
    (forall a, a ∈ new <-> m !! IPProtocol a = Some (Ports a)) /\
    Firewall_Name (add_missing rule m) = Firewall_Name rule /\
    SourceRanges (add_missing rule m) = SourceRanges rule /\
    TargetTags (add_missing rule m) = TargetTags rule /\
    Firewall_Network (add_missing rule m) = Firewall_Network rule.
Proof.
  exists (map (fun '(proto, ports) => mkFirewallAllowed proto ports) (map_to_list m)).
  split; [reflexivity|]. split; [|now repeat split].
  intros a. rewrite list_elem_of_fmap. split.
  - intros ([proto l] & -> & Hin). now apply elem_of_map_to_list in Hin.
  - intros Hlook. exists (IPProtocol a, Ports a). split; [now destruct a|].
    now apply elem_of_map_to_list.
Qed.

Lemma add_missing_keeps_open (rule : Firewall) (m : gmap string (list string)) key :
  key ∈ opened_ports rule -> key ∈ opened_ports (add_missing rule m).
Proof.
  rewrite !opened_ports_spec. intros (a & port & Ha & Hport & Hkey).
  exists a, port. split; [|now split].
  cbn [add_missing Allowed]. apply elem_of_app. now left.
Qed.

(** The rule that is sent opens every desired key. *)
Lemma add_missing_opens (rule : Firewall) (ports : list string) p :
  p ∈ ports ->
  port_key p ∈ opened_ports (add_missing rule (missingOpenedPorts rule ports)).
Proof.
  intros Hin. destruct (SplitPortProto p) as [port proto] eqn:Hsplit.
  rewrite (port_key_split _ _ _ Hsplit).
  destruct (decide (port +:+ "/" +:+ proto ∈ opened_ports rule)) as [Hopen|Hnot].
  - now apply add_missing_keeps_open.
  - pose proof (missingOpenedPorts_spec rule ports proto) as Hspec.
    destruct (missingOpenedPorts rule ports !! proto) as [l|] eqn:Hlook.
    + destruct Hspec as [_ Hl]. apply opened_ports_spec.
      exists (mkFirewallAllowed proto l), port. split; [|split].
      * destruct (add_missing_appends rule (missingOpenedPorts rule ports))
          as (new & -> & Hnew & _).
        apply elem_of_app. right. now apply Hnew.
      * apply Hl. now exists p.
      * reflexivity.
    + exfalso. apply Hnot. now apply (Hspec p).
Qed.

(** Every port of a new entry is a desired port that the rule found did not
    open. *)
Lemma add_missing_only_missing (rule : Firewall) (ports : list string) a port :
  missingOpenedPorts rule ports !! IPProtocol a = Some (Ports a) ->
  port ∈ Ports a ->
  exists p, p ∈ ports /\ SplitPortProto p = (port, IPProtocol a) /\
            port_key p ∉ opened_ports rule.
Proof.
  intros Hlook Hin.
  pose proof (missingOpenedPorts_spec rule ports (IPProtocol a)) as Hspec.
  rewrite Hlook in Hspec. destruct Hspec as [_ Hl].
  apply Hl in Hin as (p & Hp & Hsplit & Hnot).
  exists p. split; [exact Hp|]. split; [exact Hsplit|].
  now rewrite (port_key_split _ _ _ Hsplit).
Qed.

(** Against the rule that was sent, nothing is missing any more. *)
Lemma missing_after_add (rule : Firewall) (ports : list string) :
  missingOpenedPorts (add_missing rule (missingOpenedPorts rule ports)) ports = ∅.
Proof. apply missing_empty_iff. intros p. apply add_missing_opens. Qed.

End WithSplit.

Section WithBackend.
Context {W : Type}.
Variable SplitPortProto : string -> string * string.
Variable url_Parse : string -> option URL * option error.
Variable Sprint : OperationErrorErrors -> string.
Variable backend : forall c : Call, W -> Resp c * W.
Local Abbreviation M := (Go.M Driver Call W).
Local Abbreviation St := (Go.St Driver Call W).
Local Abbreviation port_key := (Google.port_key SplitPortProto).
Local Abbreviation portsUsed := (Google.portsUsed SplitPortProto url_Parse).
Local Abbreviation missingOpenedPorts := (Google.missingOpenedPorts SplitPortProto).
Local Abbreviation openFirewallPorts :=
  (Google.openFirewallPorts SplitPortProto url_Parse Sprint backend).

(** The ports [portsUsed] lists: the docker port, the swarm port for a swarm
    master, and the user's open ports, each as a ["port/proto"] key. *)
Lemma portsUsed_exact (c : ComputeUtil) :
  (c_SwarmMaster c = false ->
   portsUsed c = Ret ("2376/tcp" :: map port_key (openPorts c), None)) /\
  (c_SwarmMaster c = true ->
   forall u swarmPort,
     url_Parse (c_SwarmHost c) = (Some u, None) ->
     Split (Host u) ":" !! 1%nat = Some swarmPort ->
     portsUsed c =
       Ret ("2376/tcp" :: (swarmPort +:+ "/tcp") :: map port_key (openPorts c),
            None)).
Proof.
  split.
  - intros Hswarm. unfold Google.portsUsed. now rewrite Hswarm.
  - intros Hswarm u swarmPort Hurl Hport. unfold Google.portsUsed.
    now rewrite Hswarm, Hurl, Hport.
Qed.

(** With the firewall skipped, [openFirewallPorts] does nothing at all. *)
Lemma openFirewallPorts_skipped fuel c d (st : St) :
  skipFirewall c = true -> openFirewallPorts fuel c d st = (Ret None, st).
Proof. intros Hskip. unfold Google.openFirewallPorts. now rewrite Hskip. Qed.

(** [openFirewallPorts], once the rule has been looked up and the ports are
    listed.  If nothing is missing it returns at once: the lookup is its
    only call.  Otherwise its next call sends the rule found (or a fresh
    one) with the missing ports added, as an update (or an insert), and no
    call after that changes anything at the provider. *)
Lemma openFirewallPorts_reconciles fuel c d (st st1 : St) found ports :
  skipFirewall c = false ->
  firewallRule backend c st = (Ret (found, None), st1) ->
  portsUsed c = Ret (ports, None) ->
  let rule := default (fresh_rule c d) found in
  let missing := missingOpenedPorts rule ports in
  (missing = ∅ -> openFirewallPorts fuel c d st = (Ret None, st1)) /\
  (missing <> ∅ ->
   forall o st',
     openFirewallPorts fuel c d st = (o, st') ->
     exists rest,
       trace st' = trace st1 ++
         match found with
         | Some _ => FirewallsUpdate (networkProject c) firewallRule_name
                       (add_missing rule missing)
         | None => FirewallsInsert (networkProject c) (add_missing rule missing)
         end :: rest /\
       Forall (fun call => mutating call = false) rest).
Proof.
  intros Hskip Hget Hports rule missing.
  assert (Hrun : openFirewallPorts fuel c d st =
    (if bool_decide (size missing = 0%nat) then mret None
     else
       '(op, err) ←
         (if match found with Some _ => false | None => true end
          then api backend (FirewallsInsert (networkProject c) (add_missing rule missing))
          else api backend (FirewallsUpdate (networkProject c) firewallRule_name
                              (add_missing rule missing)));
       match err with
       | Some e => mret (Some e)
       | None =>
         op ← deref op;
         waitForGlobalOp Sprint backend fuel c (Op_Name op)
       end) st1).
  { unfold Google.openFirewallPorts. rewrite Hskip. step Hget. cbn beta iota.
    rewrite Hports. subst missing rule.
    destruct found as [r|]; reflexivity. }
  rewrite Hrun. clear Hrun. split.
  - intros Hempty. rewrite Hempty. reflexivity.
  - intros Hmissing o st' H.
    rewrite bool_decide_eq_false_2 in H
      by (intros Hsize; now apply map_size_empty_iff in Hsize).
    assert (Hrest : forall a : option Operation * option error,
      only_calls (fun call => mutating call = false)
        (let '(op, err) := a in
         match err with
         | Some e => mret (Some e)
         | None =>
           op ← deref op;
           waitForGlobalOp Sprint backend fuel c (Op_Name op)
         end : M (option error))).
    { intros [op [e|]]; [calls|]. calls. unfold waitForGlobalOp.
      apply GoogleFacts.waitForOp_calls; try reflexivity. calls. }
    destruct found as [r|]; cbn [default] in *.
    + exact (api_first_then backend (fun call => mutating call = false)
               (FirewallsUpdate (networkProject c) firewallRule_name
                  (add_missing rule missing)) _ st1 o st' Hrest H).
    + exact (api_first_then backend (fun call => mutating call = false)
               (FirewallsInsert (networkProject c) (add_missing rule missing))
               _ st1 o st' Hrest H).
Qed.

(** A failed lookup of the rule ends [openFirewallPorts]: nothing is sent. *)
Lemma openFirewallPorts_lookup_fails fuel c d (st st1 : St) r e :
  skipFirewall c = false ->
  firewallRule backend c st = (Ret (r, Some e), st1) ->
  openFirewallPorts fuel c d st
    = (Ret (Some (Errorf "requesting firewall rule: " e)), st1).
Proof.
  intros Hskip Hget. unfold Google.openFirewallPorts. rewrite Hskip. now step Hget.
Qed.

(** Run again once the provider has the rule that was sent,
    [openFirewallPorts] looks the rule up and returns. *)
Lemma openFirewallPorts_settled fuel c d (st st1 : St) rule ports :
  skipFirewall c = false ->
  portsUsed c = Ret (ports, None) ->
  firewallRule backend c st
    = (Ret (Some (add_missing rule (missingOpenedPorts rule ports)), None), st1) ->
  openFirewallPorts fuel c d st = (Ret None, st1) /\
  trace st1 = trace st ++ [FirewallsGet (networkProject c) firewallRule_name].
Proof.
  intros Hskip Hports Hget. split.
  - destruct (openFirewallPorts_reconciles fuel c d st st1 _ ports Hskip Hget Hports)
      as [Hnone _].
    apply Hnone. cbn [default]. apply missing_after_add.
  - unfold firewallRule in Hget. inv_api Hget. now destruct Hget as (_ & _ & _ & Ht & _).
Qed.

End WithBackend.
End FirewallFacts.

(** ** The security-group permissions of the EC2 driver *)

Module SecurityGroupFacts.
Import Go GoFacts AmazonEC2.

Lemma filter_none {A} (P : A -> Prop) `{!forall x, Decision (P x)} (l : list A) :
  (forall x, x ∈ l -> ~ P x) -> filter P l = [].
Proof.
  induction l as [|x l IH]; intros Hall; [reflexivity|].
  rewrite filter_cons_False by (apply Hall; constructor).
  apply IH. intros y Hy. apply Hall. now constructor.
Qed.

Lemma filter_all {A} (P : A -> Prop) `{!forall x, Decision (P x)} (l : list A) :
  (forall x, x ∈ l -> P x) -> filter P l = l.
Proof.
  induction l as [|x l IH]; intros Hall; [reflexivity|].
  rewrite filter_cons_True by (apply Hall; constructor).
  f_equal. apply IH. intros y Hy. apply Hall. now constructor.
Qed.

(** The keys [hasPorts] holds: one for each permission that has a first
    port, formed from that port and the protocol. *)
Lemma hasPorts_loop (perms : list IpPermission) :
  forall (acc : gset string) key,
    key ∈ foldl (fun hasPorts p =>
                   match FromPort p with
                   | Some from => {[ Itoa from +:+ "/" +:+ IpProtocol p ]} ∪ hasPorts
                   | None => hasPorts
                   end) acc perms <->
    key ∈ acc \/
    exists p from, p ∈ perms /\ FromPort p = Some from /\
                   key = Itoa from +:+ "/" +:+ IpProtocol p.
Proof.
  induction perms as [|p perms IH]; intros acc key; cbn [foldl].
  - split; [now left | intros [H | (p & from & Hin & _)]; [exact H | inversion Hin]].
  - rewrite IH. split.
    + intros [H | (q & from & Hq & Hfrom & Hkey)].
      * destruct (FromPort p) as [from|] eqn:Hfrom; [|now left].
        apply elem_of_union in H as [H | H]; [|now left].
        apply elem_of_singleton in H. right. exists p, from.
        split; [constructor | now split].
      * right. exists q, from. split; [now constructor | now split].
    + intros [H | (q & from & Hq & Hfrom & Hkey)].
      * left. destruct (FromPort p); [apply elem_of_union; now right | exact H].
      * apply elem_of_cons in Hq as [-> | Hq].
        -- left. rewrite Hfrom. apply elem_of_union. left.
           now apply elem_of_singleton.
        -- right. exists q, from. now repeat split.
Qed.

Lemma hasPorts_of_spec (perms : list IpPermission) key :
  key ∈ hasPorts_of perms <->
  exists p from, p ∈ perms /\ FromPort p = Some from /\
                 key = Itoa from +:+ "/" +:+ IpProtocol p.
Proof.
  unfold hasPorts_of. rewrite hasPorts_loop. split.
  - intros [H | H]; [now apply not_elem_of_empty in H | exact H].
  - now right.
Qed.

Section WithLib.
Variable SplitPortProto : string -> string * string.
Variable ParseInt : string -> Z * option error.
Variable swarmPort : Z.
Local Abbreviation permissions :=
  (configureSecurityGroupPermissions SplitPortProto ParseInt swarmPort).
Local Abbreviation desired_rules :=
  (AmazonEC2.desired_rules SplitPortProto ParseInt swarmPort).
Local Abbreviation open_port_rule :=
  (AmazonEC2.open_port_rule SplitPortProto ParseInt).

(** The loop over the open ports, when every port number parses: it adds the
    rules whose key is not held, in order. *)
Lemma open_ports_loop_spec (hasPorts : gset string) (ports : list string) :
  (forall p, p ∈ ports -> snd (ParseInt (fst (SplitPortProto p))) = None) ->
  forall perms,
    open_ports_loop SplitPortProto ParseInt hasPorts ports perms =
      (perms ++ map snd (filter (fun kr => fst kr ∉ hasPorts)
                                (map open_port_rule ports)), None).
Proof.
  induction ports as [|p ports IH]; intros Hparse perms.
  - cbn. now rewrite app_nil_r.
  - assert (Hp : snd (ParseInt (fst (SplitPortProto p))) = None)
      by (apply Hparse; constructor).
    assert (Hrest : forall q, q ∈ ports ->
              snd (ParseInt (fst (SplitPortProto q))) = None)
      by (intros q Hq; apply Hparse; now constructor).
    cbn [open_ports_loop map]. unfold AmazonEC2.open_port_rule at 1.
    destruct (SplitPortProto p) as [port protocol]. cbn [fst snd] in *.
    destruct (ParseInt port) as [portNum err]. cbn [fst snd] in *. subst err.
    case_bool_decide as Hheld; cbn [negb].
    + rewrite filter_cons_False by (intros Hnot; now apply Hnot).
      now apply IH.
    + rewrite filter_cons_True by exact Hheld.
      rewrite (IH Hrest). cbn [map snd]. now rewrite <- app_assoc.
Qed.

(** [configureSecurityGroupPermissions], when the group is not read-only and
    every port number parses: the wanted rules whose key the group does not
    hold, in order. *)
Lemma permissions_spec (d : Driver) (group : SecurityGroup) :
  SecurityGroupReadOnly d = false ->
  (forall p, p ∈ OpenPorts d -> snd (ParseInt (fst (SplitPortProto p))) = None) ->
  permissions d group =
    (map snd (filter (fun kr => fst kr ∉ hasPorts_of (IpPermissions group))
                     (desired_rules d)), None).
Proof.
  intros Hrw Hparse. unfold configureSecurityGroupPermissions. rewrite Hrw.
  rewrite (open_ports_loop_spec _ _ Hparse).
  unfold AmazonEC2.desired_rules.
  rewrite !filter_app, !map_app.
  rewrite app_assoc. f_equal.
  rewrite !filter_cons, filter_nil. cbn [fst].
  destruct (SwarmMaster d).
  - rewrite filter_cons, filter_nil. cbn [fst].
    repeat case_bool_decide; repeat case_decide; try contradiction; reflexivity.
  - rewrite filter_nil, andb_false_r.
    repeat case_bool_decide; repeat case_decide; try contradiction; reflexivity.
Qed.

Lemma permissions_readonly (d : Driver) (group : SecurityGroup) :
  SecurityGroupReadOnly d = true -> permissions d group = ([], None).
Proof. intros Hro. unfold configureSecurityGroupPermissions. now rewrite Hro. Qed.

(** The wanted rules, spelled out. *)
Lemma desired_rules_exact (d : Driver) :
  map snd (desired_rules d) =
    [open_port "tcp" (SSHPort d); open_port "tcp" 2376]
    ++ (if SwarmMaster d then [open_port "tcp" swarmPort] else [])
    ++ map (fun p => open_port (snd (SplitPortProto p))
                       (fst (ParseInt (fst (SplitPortProto p)))))
           (OpenPorts d).
Proof.
  unfold AmazonEC2.desired_rules. rewrite !map_app, map_map. cbn [map snd].
  f_equal. f_equal.
  - now destruct (SwarmMaster d).
  - apply map_ext. intros p. unfold AmazonEC2.open_port_rule.
    now destruct (SplitPortProto p).
Qed.

(** On a group without permissions every wanted rule is asked for. *)
Lemma permissions_empty_group (d : Driver) (group : SecurityGroup) :
  SecurityGroupReadOnly d = false ->
  (forall p, p ∈ OpenPorts d -> snd (ParseInt (fst (SplitPortProto p))) = None) ->
  IpPermissions group = [] ->
  permissions d group = (map snd (desired_rules d), None).
Proof.
  intros Hrw Hparse Hempty. rewrite (permissions_spec d group Hrw Hparse).
  rewrite Hempty. rewrite filter_all; [reflexivity|].
  intros kr _. apply not_elem_of_empty.
Qed.

(** Whatever the group holds, only wanted rules are asked for. *)
Lemma permissions_wanted (d : Driver) (group : SecurityGroup) perm :
  SecurityGroupReadOnly d = false ->
  (forall p, p ∈ OpenPorts d -> snd (ParseInt (fst (SplitPortProto p))) = None) ->
  perm ∈ fst (permissions d group) -> perm ∈ map snd (desired_rules d).
Proof.
  intros Hrw Hparse. rewrite (permissions_spec d group Hrw Hparse). cbn [fst].
  rewrite !list_elem_of_fmap. intros (kr & -> & Hin).
  apply list_elem_of_filter in Hin as [_ Hin]. now exists kr.
Qed.

(** If the open ports are written the way [Itoa] prints a number, the key
    of a wanted rule is the key under which the rule is found again once
    the group has it. *)
Lemma desired_rules_keys (d : Driver) kr :
  (forall p, p ∈ OpenPorts d ->
     Itoa (fst (ParseInt (fst (SplitPortProto p)))) = fst (SplitPortProto p)) ->
  kr ∈ desired_rules d ->
  exists from, FromPort (snd kr) = Some from /\
               fst kr = Itoa from +:+ "/" +:+ IpProtocol (snd kr).
Proof.
  intros Hcanon Hin. unfold AmazonEC2.desired_rules in Hin.
  apply elem_of_app in Hin as [Hin | Hin].
  - apply elem_of_cons in Hin as [-> | Hin]; [now exists (SSHPort d)|].
    apply list_elem_of_singleton in Hin as ->. now exists dockerPort.
  - apply elem_of_app in Hin as [Hin | Hin].
    + destruct (SwarmMaster d); [|inversion Hin].
      apply list_elem_of_singleton in Hin as ->. now exists swarmPort.
    + apply list_elem_of_fmap in Hin as (p & -> & Hp).
      specialize (Hcanon p Hp). unfold AmazonEC2.open_port_rule.
      destruct (SplitPortProto p) as [port protocol]. cbn [fst snd] in *.
      exists (fst (ParseInt port)). split; [reflexivity|].
      cbn [open_port IpProtocol]. now rewrite Hcanon.
Qed.

(** A group keeps the keys it holds when permissions are added to it. *)
Lemma authorize_keeps perms (group : SecurityGroup) key :
  key ∈ hasPorts_of (IpPermissions group) ->
  key ∈ hasPorts_of (IpPermissions (authorize perms group)).
Proof.
  rewrite !hasPorts_of_spec. intros (p & from & Hin & Hfrom & Hkey).
  exists p, from. split; [|now split].
  cbn [authorize IpPermissions]. apply elem_of_app. now left.
Qed.

(** Once the permissions asked for have been added to the group, the group
    holds the key of every wanted rule. *)
Lemma authorize_holds (d : Driver) (group : SecurityGroup) kr :
  SecurityGroupReadOnly d = false ->
  (forall p, p ∈ OpenPorts d -> snd (ParseInt (fst (SplitPortProto p))) = None) ->
  (forall p, p ∈ OpenPorts d ->
     Itoa (fst (ParseInt (fst (SplitPortProto p)))) = fst (SplitPortProto p)) ->
  kr ∈ desired_rules d ->
  fst kr ∈ hasPorts_of
             (IpPermissions (authorize (fst (permissions d group)) group)).
Proof.
  intros Hrw Hparse Hcanon Hin.
  destruct (decide (fst kr ∈ hasPorts_of (IpPermissions group))) as [Hheld | Hnot].
  - now apply authorize_keeps.
  - destruct (desired_rules_keys d kr Hcanon Hin) as (from & Hfrom & Hkey).
    apply hasPorts_of_spec. exists (snd kr), from.
    split; [|now split].
    cbn [authorize IpPermissions]. apply elem_of_app. right.
    rewrite (permissions_spec d group Hrw Hparse). cbn [fst].
    apply list_elem_of_fmap. exists kr. split; [reflexivity|].
    apply list_elem_of_filter. now split.
Qed.

(** Against that group nothing is asked for any more. *)
Lemma permissions_after_authorize (d : Driver) (group : SecurityGroup) :
  SecurityGroupReadOnly d = false ->
  (forall p, p ∈ OpenPorts d -> snd (ParseInt (fst (SplitPortProto p))) = None) ->
  (forall p, p ∈ OpenPorts d ->
     Itoa (fst (ParseInt (fst (SplitPortProto p)))) = fst (SplitPortProto p)) ->
  permissions d (authorize (fst (permissions d group)) group) = ([], None).
Proof.
  intros Hrw Hparse Hcanon.
  rewrite (permissions_spec d (authorize _ group) Hrw Hparse).
  rewrite filter_none; [reflexivity|].
  intros kr Hin Hnot. apply Hnot. now apply authorize_holds.
Qed.

(** The permissions asked for do not depend on the group ids the driver has
    recorded. *)
Lemma permissions_assign_ids v (d : Driver) (group : SecurityGroup) :
  permissions (assign (F_SecurityGroupIds v) d) group = permissions d group.
Proof. reflexivity. Qed.

End WithLib.

Section WithBackend.
Context {W : Type}.
Variable SplitPortProto : string -> string * string.
Variable ParseInt : string -> Z * option error.
Variable maxAttempts : nat.
Variable interval : Duration.
Variable swarmPort : Z.
Variable backend : forall c : Call, W -> Resp c * W.
Local Abbreviation M := (Go.M Driver Call W).
Local Abbreviation St := (Go.St Driver Call W).
Local Abbreviation permissions :=
  (configureSecurityGroupPermissions SplitPortProto ParseInt swarmPort).
Local Abbreviation reconciling :=
  (AmazonEC2.reconciling SplitPortProto ParseInt swarmPort).
Local Abbreviation WaitFor_loop :=
  (AmazonEC2.WaitFor_loop maxAttempts interval backend).
Local Abbreviation configure_groups :=
  (AmazonEC2.configure_groups SplitPortProto ParseInt maxAttempts interval
     swarmPort backend).
Local Abbreviation configureSecurityGroups :=
  (AmazonEC2.configureSecurityGroups SplitPortProto ParseInt maxAttempts interval
     swarmPort backend).

Lemma WaitFor_loop_calls (P : Call -> Prop) n (f : M bool) :
  P (Sleep interval) -> only_calls P f -> only_calls P (WaitFor_loop n f).
Proof.
  intros Hsleep Hf. induction n as [|n IH]; cbn [AmazonEC2.WaitFor_loop]; calls.
Qed.

Lemma WaitFor_loop_keeps n (f : M bool) :
  keeps_drv f -> keeps_drv (WaitFor_loop n f).
Proof.
  intros Hf. induction n as [|n IH]; cbn [AmazonEC2.WaitFor_loop]; keeps.
Qed.

(** The loop over the group names.  Every call it makes creates a group,
    authorizes on one group the permissions computed for it, or changes
    nothing: no permission is revoked and no group is deleted. *)
Lemma configure_groups_calls (d0 : Driver) groupsByName groupNames :
  forall (st : St) o st',
    (forall group, permissions (drv st) group = permissions d0 group) ->
    configure_groups groupsByName groupNames st = (o, st') ->
    exists new, trace st' = trace st ++ new /\ Forall (reconciling d0) new.
Proof.
  induction groupNames as [|groupName rest IH]; intros st o st' Hd H.
  - injection H as _ <-. exists []. now rewrite app_nil_r.
  - cbn [AmazonEC2.configure_groups] in H.
    rewrite (bind_Ret _ _ _ _ _ (get_drv_run _)) in H.
    apply bind_cases in H as [(found & st1 & Hfound & H) | (o1 & Hfound & _)].
    all: match type of Hfound with
         | ?m _ = _ =>
           assert (Hcalls : only_calls (reconciling d0) m)
             by (destruct (groupsByName !! groupName); calls;
                 unfold WaitFor; apply WaitFor_loop_calls; [reflexivity|];
                 unfold securityGroupAvailableFunc; calls);
           assert (Hkeep : keeps_drv m)
             by (destruct (groupsByName !! groupName); keeps;
                 unfold WaitFor; apply WaitFor_loop_keeps;
                 unfold securityGroupAvailableFunc; keeps)
         end.
    2: exact (Hcalls _ _ _ Hfound).
    destruct (Hcalls _ _ _ Hfound) as (new1 & Ht1 & HP1).
    pose proof (Hkeep _ _ _ Hfound) as Hdrv1.
    destruct found as [e | group].
    { injection H as _ <-. now exists new1. }
    rewrite (bind_Ret _ _ _ _ _ (modify_drv_run _ _)) in H.
    rewrite (bind_Ret _ _ _ _ _ (get_drv_run _)) in H.
    cbn [drv] in H. rewrite permissions_assign_ids, Hdrv1, Hd in H.
    destruct (permissions d0 group) as [perms err] eqn:Hperms.
    destruct err as [e|].
    { injection H as _ <-. cbn [trace]. now exists new1. }
    match type of H with
    | _ ?s = _ => set (st2 := s) in *
    end.
    assert (Hd2 : forall g, permissions (drv st2) g = permissions d0 g).
    { intros g. subst st2. cbn [drv]. rewrite permissions_assign_ids, ?Hdrv1.
      apply Hd. }
    case_bool_decide as Hlen; cbn [negb] in H.
    + destruct (IH _ _ _ Hd2 H) as (new2 & Ht2 & HP2).
      exists (new1 ++ new2). split; [|now apply Forall_app].
      rewrite Ht2. subst st2. cbn [trace]. now rewrite Ht1, app_assoc.
    + apply bind_cases in H as [(err & st3 & Hapi & H) | (o1 & Hapi & Ho)].
      2: { inv_api Hapi. destruct Hapi as (-> & _). now destruct (Ho _ eq_refl). }
      inv_api Hapi. destruct Hapi as (_ & Hdrv3 & _ & Ht3 & _).
      assert (Hauth : reconciling d0
                        (AuthorizeSecurityGroupIngress (GroupId group) perms)).
      { exists group. split; [reflexivity|]. split; [|exact Hperms].
        intros ->. now apply Hlen. }
      destruct err as [e|].
      * injection H as _ <-.
        exists (new1 ++ [AuthorizeSecurityGroupIngress (GroupId group) perms]).
        split.
        -- rewrite Ht3. subst st2. cbn [trace]. now rewrite Ht1, app_assoc.
        -- apply Forall_app. split; [exact HP1 | now constructor].
      * assert (Hd3 : forall g, permissions (drv st3) g = permissions d0 g)
          by (intros g; now rewrite Hdrv3).
        destruct (IH _ _ _ Hd3 H) as (new3 & Ht3' & HP3).
        exists (new1 ++ AuthorizeSecurityGroupIngress (GroupId group) perms :: new3).
        split.
        -- rewrite Ht3', Ht3. subst st2. cbn [trace].
           now rewrite Ht1, <- !app_assoc.
        -- apply Forall_app. split; [exact HP1 | now constructor].
Qed.

Lemma configureSecurityGroups_calls groupNames (st : St) o st' :
  configureSecurityGroups groupNames st = (o, st') ->
  exists new, trace st' = trace st ++ new /\ Forall (reconciling (drv st)) new.
Proof.
  intros H. unfold AmazonEC2.configureSecurityGroups in H.
  case_bool_decide as Hlen.
  { injection H as _ <-. exists []. now rewrite app_nil_r. }
  rewrite (bind_Ret _ _ _ _ _ (get_drv_run _)) in H.
  apply bind_cases in H as [([groups err] & st1 & Hapi & H) | (o1 & Hapi & Ho)].
  2: { inv_api Hapi. destruct Hapi as (-> & _). now destruct (Ho _ eq_refl). }
  inv_api Hapi. destruct Hapi as (_ & Hdrv1 & _ & Ht1 & _).
  destruct err as [e|].
  { injection H as _ <-. rewrite Ht1. eexists. split; [reflexivity|].
    now constructor. }
  destruct groups as [groups|].
  2: { injection H as _ <-. rewrite Ht1. eexists. split; [reflexivity|].
       now constructor. }
  rewrite (bind_Ret _ _ _ _ _ (deref_Some _ _)) in H.
  assert (Hd1 : forall g, permissions (drv st1) g = permissions (drv st) g)
    by (intros g; now rewrite Hdrv1).
  destruct (configure_groups_calls (drv st) _ _ _ _ _ Hd1 H) as (new & Ht & HP).
  eexists. split; [rewrite Ht, Ht1, <- app_assoc; reflexivity|].
  now constructor.
Qed.

(** If every group is found and nothing is asked for on any of them, the
    loop returns without a call. *)
Lemma configure_groups_settled groupsByName groupNames :
  forall st : St,
    (forall groupName, groupName ∈ groupNames ->
       exists group, groupsByName !! groupName = Some group /\
                     permissions (drv st) group = ([], None)) ->
    exists st', configure_groups groupsByName groupNames st = (Ret None, st') /\
                trace st' = trace st /\ world st' = world st.
Proof.
  induction groupNames as [|groupName rest IH]; intros st Hall.
  - now exists st.
  - destruct (Hall groupName) as (group & Hlook & Hperms); [constructor|].
    cbn [AmazonEC2.configure_groups].
    rewrite (bind_Ret _ _ _ _ _ (get_drv_run _)). rewrite Hlook.
    rewrite (bind_Ret _ _ _ _ _ (mret_run _ _)).
    rewrite (bind_Ret _ _ _ _ _ (modify_drv_run _ _)).
    rewrite (bind_Ret _ _ _ _ _ (get_drv_run _)).
    cbn [drv]. rewrite permissions_assign_ids, Hperms.
    rewrite bool_decide_eq_true_2 by reflexivity. cbn [negb].
    match goal with
    | |- context [configure_groups _ _ ?s] => set (st2 := s)
    end.
    destruct (IH st2) as (st' & Hrun & Ht & Hw).
    { intros name Hname. destruct (Hall name) as (g & Hg & Hp); [now constructor|].
      exists g. split; [exact Hg|]. subst st2. cbn [drv].
      now rewrite permissions_assign_ids. }
    exists st'. split; [exact Hrun|]. now split.
Qed.

(** Run again on groups that hold everything, [configureSecurityGroups]
    makes one call, the lookup of the groups. *)
Lemma configureSecurityGroups_settled groupNames (st : St) groups :
  groupNames <> [] ->
  fst (backend (DescribeSecurityGroups
                  [mkFilter "group-name" groupNames;
                   mkFilter "vpc-id" [VpcId (drv st)]] []) (world st))
    = (Some groups, None) ->
  (forall groupName, groupName ∈ groupNames ->
     exists group, groupsByName_of groups !! groupName = Some group /\
                   permissions (drv st) group = ([], None)) ->
  exists st',
    configureSecurityGroups groupNames st = (Ret None, st') /\
    trace st' = trace st ++ [DescribeSecurityGroups
                               [mkFilter "group-name" groupNames;
                                mkFilter "vpc-id" [VpcId (drv st)]] []].
Proof.
  intros Hne Hanswer Hall. unfold AmazonEC2.configureSecurityGroups.
  rewrite bool_decide_eq_false_2
    by (intros Hlen; now apply length_zero_iff_nil in Hlen).
  rewrite (bind_Ret _ _ _ _ _ (get_drv_run _)).
  step_api. rewrite Hanswer.
  rewrite (bind_Ret _ _ _ _ _ (deref_Some _ _)).
  match goal with
  | |- context [configure_groups _ _ ?s] => set (st1 := s)
  end.
  destruct (configure_groups_settled (groupsByName_of groups) groupNames st1 Hall)
    as (st' & Hrun & Ht & _).
  exists st'. split; [exact Hrun|]. now rewrite Ht.
Qed.

End WithBackend.
End SecurityGroupFacts.

(** ** The desired ports, for both drivers *)

Module PortsFacts.
Import Go GoFacts.

Section BothDrivers.
Variable G_SplitPortProto : string -> string * string.
Variable url_Parse : string -> option Google.URL * option error.
Variable E_SplitPortProto : string -> string * string.
Variable ParseInt : string -> Z * option error.
Variable swarmPort : Z.
Local Abbreviation portsUsed := (Google.portsUsed G_SplitPortProto url_Parse).
Local Abbreviation permissions :=
  (AmazonEC2.configureSecurityGroupPermissions E_SplitPortProto ParseInt swarmPort).
Local Abbreviation ec2_wanted := (fun d : AmazonEC2.Driver =>
  [AmazonEC2.open_port "tcp" (AmazonEC2.SSHPort d); AmazonEC2.open_port "tcp" 2376]
  ++ (if AmazonEC2.SwarmMaster d then [AmazonEC2.open_port "tcp" swarmPort] else [])
  ++ map (fun p => AmazonEC2.open_port (snd (E_SplitPortProto p))
                     (fst (ParseInt (fst (E_SplitPortProto p)))))
         (AmazonEC2.OpenPorts d)).

(** C6, as amended.  Google: [portsUsed] lists exactly 2376/tcp, then the
    port of the swarm host over tcp for a swarm master, then the user's open
    ports as port/protocol, and nothing else.  EC2: unless the security
    group is read-only (then nothing is asked for), and when every open
    port number parses, the rules wanted are the SSH port over tcp, 2376
    over tcp, the swarm port over tcp for a swarm master, and the user's
    open ports: all of them are asked for on a group without permissions,
    and on any group nothing but them. *)
Theorem desired_ports :
  (forall c : Google.ComputeUtil,
     (Google.c_SwarmMaster c = false ->
      portsUsed c =
        Ret ("2376/tcp" :: map (Google.port_key G_SplitPortProto)
                               (Google.openPorts c), None)) /\
     (Google.c_SwarmMaster c = true ->
      forall u port,
        url_Parse (Google.c_SwarmHost c) = (Some u, None) ->
        Split (Google.Host u) ":" !! 1%nat = Some port ->
        portsUsed c =
          Ret ("2376/tcp" :: (port +:+ "/tcp")
                 :: map (Google.port_key G_SplitPortProto) (Google.openPorts c),
               None))) /\
  (forall (d : AmazonEC2.Driver) (group : AmazonEC2.SecurityGroup),
     (AmazonEC2.SecurityGroupReadOnly d = true ->
      permissions d group = ([], None)) /\
     (AmazonEC2.SecurityGroupReadOnly d = false ->
      (forall p, p ∈ AmazonEC2.OpenPorts d ->
                 snd (ParseInt (fst (E_SplitPortProto p))) = None) ->
      (AmazonEC2.IpPermissions group = [] ->
       permissions d group = (ec2_wanted d, None)) /\
      (forall perm, perm ∈ fst (permissions d group) -> perm ∈ ec2_wanted d))).
Proof.
  split.
  - intros c. apply FirewallFacts.portsUsed_exact.
  - intros d group. split.
    + apply SecurityGroupFacts.permissions_readonly.
    + intros Hrw Hparse.
      rewrite <- (SecurityGroupFacts.desired_rules_exact E_SplitPortProto ParseInt
                    swarmPort d).
      split.
      * now apply SecurityGroupFacts.permissions_empty_group.
      * intros perm. now apply SecurityGroupFacts.permissions_wanted.
Qed.

End BothDrivers.

(** C6 as the specification states it fails: with no open port asked for and
    no swarm, the EC2 driver wants port 22 besides the control port. *)
Lemma desired_has_ssh_counterexample :
  let group := AmazonEC2.mkSecurityGroup "sg-1" "vpc-1" "docker-machine" [] in
  fst (FakeEC2.permissions FakeEC2.driver0 group) =
    [AmazonEC2.open_port "tcp" 22; AmazonEC2.open_port "tcp" 2376] /\
  AmazonEC2.open_port "tcp" 22
    ∉ Spec.desired (AmazonEC2.open_port "tcp" 2376) None [].
Proof.
  split; [vm_compute; reflexivity|].
  intros Hin. cbn in Hin. apply list_elem_of_singleton in Hin. discriminate Hin.
Qed.

(** The theorem at work, with open ports 8080/tcp and 53/udp. *)
Lemma desired_ports_witness :
  Google.portsUsed Lib.SplitPortProto Lib.url_Parse
    (FakeGCE.util_of FakeGCE.driver_two_ports)
  = Ret (["2376/tcp"; "8080/tcp"; "53/udp"], None) /\
  FakeEC2.permissions (FakeEC2.driver_with ["8080/tcp"; "53/udp"] false)
    (AmazonEC2.mkSecurityGroup "sg-1" "vpc-1" "docker-machine" [])
  = ([AmazonEC2.open_port "tcp" 22; AmazonEC2.open_port "tcp" 2376;
      AmazonEC2.open_port "tcp" 8080; AmazonEC2.open_port "udp" 53], None).
Proof.
  pose proof (desired_ports Lib.SplitPortProto Lib.url_Parse Lib.SplitPortProto
                Lib.ParseInt FakeEC2.swarmPort0) as [HG HE].
  split.
  - rewrite (proj1 (HG (FakeGCE.util_of FakeGCE.driver_two_ports)) eq_refl).
    vm_compute. reflexivity.
  - destruct (HE (FakeEC2.driver_with ["8080/tcp"; "53/udp"] false)
                (AmazonEC2.mkSecurityGroup "sg-1" "vpc-1" "docker-machine" []))
      as [_ Hrw].
    destruct (Hrw eq_refl) as [Hall _].
    + intros p Hp. cbn in Hp.
      apply elem_of_cons in Hp as [-> | Hp]; [vm_compute; reflexivity|].
      apply list_elem_of_singleton in Hp as ->. vm_compute. reflexivity.
    + unfold FakeEC2.permissions. rewrite (Hall eq_refl).
      vm_compute. reflexivity.
Defined.

End PortsFacts.

(** ** Reconciling the firewall rule and the security groups *)

Module ReconcileFacts.
Import Go GoFacts.

Section BothDrivers.
Context {GW EW : Type}.
Variable G_SplitPortProto : string -> string * string.
Variable url_Parse : string -> option Google.URL * option error.
Variable Sprint : Google.OperationErrorErrors -> string.
Variable gce : forall c : Google.Call, GW -> Google.Resp c * GW.
Variable E_SplitPortProto : string -> string * string.
Variable ParseInt : string -> Z * option error.
Variable maxAttempts : nat.
Variable interval : Duration.
Variable swarmPort : Z.
Variable ec2 : forall c : AmazonEC2.Call, EW -> AmazonEC2.Resp c * EW.
Local Abbreviation openFirewallPorts :=
  (Google.openFirewallPorts G_SplitPortProto url_Parse Sprint gce).
Local Abbreviation portsUsed := (Google.portsUsed G_SplitPortProto url_Parse).
Local Abbreviation missingOpenedPorts := (Google.missingOpenedPorts G_SplitPortProto).
Local Abbreviation port_key := (Google.port_key G_SplitPortProto).
Local Abbreviation permissions :=
  (AmazonEC2.configureSecurityGroupPermissions E_SplitPortProto ParseInt swarmPort).
Local Abbreviation desired_rules :=
  (AmazonEC2.desired_rules E_SplitPortProto ParseInt swarmPort).
Local Abbreviation reconciling :=
  (AmazonEC2.reconciling E_SplitPortProto ParseInt swarmPort).
Local Abbreviation configureSecurityGroups :=
  (AmazonEC2.configureSecurityGroups E_SplitPortProto ParseInt maxAttempts
     interval swarmPort ec2).

(** What the reconcilers do when the lookup answers and the ports are
    written as they print.

    Google, [openFirewallPorts].  With the firewall skipped nothing is done.
    Otherwise the rule is looked up; an error of the lookup is returned and
    nothing is sent.  When the lookup answers, take the rule found, or a
    fresh rule when none was found, and the ports [portsUsed] lists.  If the
    rule opens them all, the lookup was the only call.  If not, the next
    call sends the rule with the missing ports added (an update of the rule
    found, an insert of the fresh one) and no later call changes anything.
    The rule sent keeps the entries of the rule it comes from, in place,
    followed by new entries that hold nothing but wanted ports the rule did
    not open; so it opens what the rule opened and every wanted port.  Run
    again once the provider answers the lookup with the rule sent,
    [openFirewallPorts] makes the lookup and returns.

    EC2, [configureSecurityGroups].  For a read-only driver no permission is
    asked for.  Otherwise, when every open port number parses, the
    permissions asked for on a group are wanted rules whose key the group
    does not hold, and a group to which they are added keeps its keys.  If
    moreover the open ports are written as [Itoa] prints them, the group
    then holds the key of every wanted rule and nothing is asked for on it
    any more.  Every call [configureSecurityGroups] makes creates a group,
    authorizes on one group the permissions computed for it, or changes
    nothing at the provider.  Run on groups that are all found and on which
    nothing is asked for, it makes the lookup of the groups and no other
    call. *)
Theorem reconcile_appends_missing :
  (forall fuel (c : Google.ComputeUtil) (d : Google.Driver),
     (Google.skipFirewall c = true ->
      forall st, openFirewallPorts fuel c d st = (Ret None, st)) /\
     (Google.skipFirewall c = false ->
      forall st st1 found err,
        Google.firewallRule gce c st = (Ret (found, err), st1) ->
        match err with
        | Some e =>
          openFirewallPorts fuel c d st
            = (Ret (Some (Errorf "requesting firewall rule: " e)), st1)
        | None =>
          forall ports,
            portsUsed c = Ret (ports, None) ->
            let rule := default (Google.fresh_rule c d) found in
            let missing := missingOpenedPorts rule ports in
            let sent := Google.add_missing rule missing in
            (missing = ∅ -> openFirewallPorts fuel c d st = (Ret None, st1)) /\
            (missing <> ∅ ->
             forall o st',
               openFirewallPorts fuel c d st = (o, st') ->
               exists rest,
                 trace st' = trace st1 ++
                   match found with
                   | Some _ => Google.FirewallsUpdate (Google.networkProject c)
                                 Google.firewallRule_name sent
                   | None => Google.FirewallsInsert (Google.networkProject c) sent
                   end :: rest /\
                 Forall (fun call => Google.mutating call = false) rest) /\
            (exists new,
               Google.Allowed sent = Google.Allowed rule ++ new /\
               forall a port,
                 a ∈ new -> port ∈ Google.Ports a ->
                 exists p, p ∈ ports /\
                           G_SplitPortProto p = (port, Google.IPProtocol a) /\
                           port_key p ∉ Google.opened_ports rule) /\
            (forall key, key ∈ Google.opened_ports rule ->
                         key ∈ Google.opened_ports sent) /\
            (forall p, p ∈ ports -> port_key p ∈ Google.opened_ports sent) /\
            (forall st2 st3,
               Google.firewallRule gce c st2 = (Ret (Some sent, None), st3) ->
               openFirewallPorts fuel c d st2 = (Ret None, st3) /\
               trace st3 = trace st2 ++
                 [Google.FirewallsGet (Google.networkProject c)
                    Google.firewallRule_name])
        end)) /\
  (forall d : AmazonEC2.Driver,
     (AmazonEC2.SecurityGroupReadOnly d = true ->
      forall group, permissions d group = ([], None)) /\
     (AmazonEC2.SecurityGroupReadOnly d = false ->
      (forall p, p ∈ AmazonEC2.OpenPorts d ->
                 snd (ParseInt (fst (E_SplitPortProto p))) = None) ->
      forall group,
        let perms := fst (permissions d group) in
        let group' := AmazonEC2.authorize perms group in
        snd (permissions d group) = None /\
        (forall perm, perm ∈ perms ->
           exists kr, kr ∈ desired_rules d /\ perm = snd kr /\
                      fst kr ∉ AmazonEC2.hasPorts_of (AmazonEC2.IpPermissions group)) /\
        (forall key,
           key ∈ AmazonEC2.hasPorts_of (AmazonEC2.IpPermissions group) ->
           key ∈ AmazonEC2.hasPorts_of (AmazonEC2.IpPermissions group')) /\
        ((forall p, p ∈ AmazonEC2.OpenPorts d ->
            Itoa (fst (ParseInt (fst (E_SplitPortProto p))))
              = fst (E_SplitPortProto p)) ->
         (forall kr, kr ∈ desired_rules d ->
            fst kr ∈ AmazonEC2.hasPorts_of (AmazonEC2.IpPermissions group')) /\
         permissions d group' = ([], None)))) /\
  (forall groupNames (st : Go.St AmazonEC2.Driver AmazonEC2.Call EW),
     let lookup :=
       AmazonEC2.DescribeSecurityGroups
         [AmazonEC2.mkFilter "group-name" groupNames;
          AmazonEC2.mkFilter "vpc-id" [AmazonEC2.VpcId (drv st)]] [] in
     (forall o st',
        configureSecurityGroups groupNames st = (o, st') ->
        exists new, trace st' = trace st ++ new /\
                    Forall (reconciling (drv st)) new) /\
     (groupNames <> [] ->
      forall groups,
        fst (ec2 lookup (world st)) = (Some groups, None) ->
        (forall groupName, groupName ∈ groupNames ->
           exists group,
             AmazonEC2.groupsByName_of groups !! groupName = Some group /\
             permissions (drv st) group = ([], None)) ->
        exists st',
          configureSecurityGroups groupNames st = (Ret None, st') /\
          trace st' = trace st ++ [lookup])).
Proof.
  split; [|split].
  - intros fuel c d. split.
    + intros Hskip st. now apply FirewallFacts.openFirewallPorts_skipped.
    + intros Hskip st st1 found [e|] Hget.
      { exact (FirewallFacts.openFirewallPorts_lookup_fails G_SplitPortProto
                 url_Parse Sprint gce fuel c d st st1 found e Hskip Hget). }
      intros ports Hports rule missing sent.
      destruct (FirewallFacts.openFirewallPorts_reconciles G_SplitPortProto url_Parse
                  Sprint gce fuel c d st st1 found ports Hskip Hget Hports)
        as [Hnone Hsome].
      split; [exact Hnone|]. split; [exact Hsome|].
      split; [|split; [|split]].
      * destruct (FirewallFacts.add_missing_appends rule missing)
          as (new & Hallowed & Hnew & _).
        exists new. split; [exact Hallowed|].
        intros a port Ha Hport. apply Hnew in Ha.
        exact (FirewallFacts.add_missing_only_missing G_SplitPortProto rule ports
                 a port Ha Hport).
      * intros key. apply FirewallFacts.add_missing_keeps_open.
      * intros p. apply FirewallFacts.add_missing_opens.
      * intros st2 st3 Hget2.
        exact (FirewallFacts.openFirewallPorts_settled G_SplitPortProto url_Parse
                 Sprint gce fuel c d st2 st3 rule ports Hskip Hports Hget2).
  - intros d. split.
    + intros Hro group. now apply SecurityGroupFacts.permissions_readonly.
    + intros Hrw Hparse group perms group'. subst perms group'.
      pose proof (SecurityGroupFacts.permissions_spec E_SplitPortProto ParseInt
                    swarmPort d group Hrw Hparse) as Hspec.
      split; [now rewrite Hspec|]. split; [|split].
      * intros perm Hin. rewrite Hspec in Hin. cbn [fst] in Hin.
        apply list_elem_of_fmap in Hin as (kr & -> & Hin).
        apply list_elem_of_filter in Hin as [Hnot Hin]. now exists kr.
      * intros key. apply SecurityGroupFacts.authorize_keeps.
      * intros Hcanon. split.
        -- intros kr Hin. now apply SecurityGroupFacts.authorize_holds.
        -- now apply SecurityGroupFacts.permissions_after_authorize.
  - intros groupNames st lookup. split.
    + intros o st'. apply SecurityGroupFacts.configureSecurityGroups_calls.
    + intros Hne groups Hanswer Hall.
      now apply (SecurityGroupFacts.configureSecurityGroups_settled
                   E_SplitPortProto ParseInt maxAttempts interval swarmPort ec2
                   groupNames st groups).
Qed.

End BothDrivers.
End ReconcileFacts.

Module ReconcileExamples.
Import Go GoFacts.

(** Reconciliation switched off.  Google, with the firewall skipped: the
    driver wants port 2376 open, reports success without a call, and the
    provider has no rule afterwards.  EC2, with a read-only security group:
    the driver wants ports 22, 2376 and 8080 open, reports success, and the
    group is left without any permission. *)
Example reconcile_switched_off :
  (let d := FakeGCE.driver_skip in
   let c := FakeGCE.util_of d in
   let run := FakeGCE.openFirewallPorts 10 c d
                (FakeGCE.start d FakeGCE.empty_cloud) in
   Google.portsUsed Lib.SplitPortProto Lib.url_Parse c = Ret (["2376/tcp"], None) /\
   fst run = Ret None /\
   trace (snd run) = [] /\
   FakeGCE.firewall (world (snd run)) = None) /\
  (let d := FakeEC2.driver_with ["8080/tcp"] true in
   let run := FakeEC2.configureSecurityGroups ["docker-machine"]
                (FakeEC2.start d (FakeEC2.cloud_with_group FakeEC2.group0)) in
   map snd (AmazonEC2.desired_rules Lib.SplitPortProto Lib.ParseInt
              FakeEC2.swarmPort0 d)
     = [AmazonEC2.open_port "tcp" 22; AmazonEC2.open_port "tcp" 2376;
        AmazonEC2.open_port "tcp" 8080] /\
   fst run = Ret None /\
   FakeEC2.groups (world (snd run)) = [FakeEC2.group0] /\
   AmazonEC2.IpPermissions FakeEC2.group0 = []).
Proof.
  vm_compute. split.
  - split; [reflexivity|]. split; [reflexivity|]. split; reflexivity.
  - split; [reflexivity|]. split; [reflexivity|]. split; reflexivity.
Qed.

(** C2.  Two runs of the reconcilers, with reconciliation switched on, that
    miss what the claim states.

    Google.  The project has no rule ["docker-machines"], the driver wants
    port 2376 open, and the provider answers the lookup of the rule as
    Compute Engine does for a rule that does not exist, with a 404 error and
    no rule.  [openFirewallPorts] returns that error, wrapped, right after
    the lookup: the branch that creates the rule is not reached, nothing is
    sent, and the project still has no rule.  The branch is reached when the
    lookup answers with no rule and no error: the rule is then inserted.

    EC2.  The driver is asked to open port ["0080/tcp"] on a group without
    permissions.  The first run authorizes ports 22, 2376 and 80, and the
    group holds them.  The second run, with the same driver on that group,
    looks the port up under ["0080/tcp"], finds the permission under
    ["80/tcp"], and authorizes port 80 again: it is not a no-op. *)
Theorem reconcile_misses_ports :
  (let d := FakeGCE.driver0 in
   let c := FakeGCE.util_of d in
   let cl := FakeGCE.with_faults FakeGCE.fail_firewall_lookup FakeGCE.empty_cloud in
   let run := FakeGCE.openFirewallPorts 10 c d (FakeGCE.start d cl) in
   let other := FakeGCE.openFirewallPorts 10 c d (FakeGCE.start d FakeGCE.empty_cloud) in
   Google.skipFirewall c = false /\
   Google.portsUsed Lib.SplitPortProto Lib.url_Parse c = Ret (["2376/tcp"], None) /\
   FakeGCE.firewall cl = None /\
   fst (FakeGCE.backend (Google.FirewallsGet "proj" "docker-machines") cl)
     = (None, Some FakeGCE.not_found) /\
   Google.isNotFound FakeGCE.not_found = true /\
   fst run = Ret (Some (Errorf "requesting firewall rule: " FakeGCE.not_found)) /\
   trace (snd run) = [Google.FirewallsGet "proj" "docker-machines"] /\
   FakeGCE.firewall (world (snd run)) = None /\
   fst other = Ret None /\
   (exists rest,
      trace (snd other) =
        Google.FirewallsGet "proj" "docker-machines"
        :: Google.FirewallsInsert "proj"
             (Google.add_missing (Google.fresh_rule c d)
                (Google.missingOpenedPorts Lib.SplitPortProto
                   (Google.fresh_rule c d) ["2376/tcp"]))
        :: rest)) /\
  (let d := FakeEC2.driver_with ["0080/tcp"] false in
   let lookup :=
     AmazonEC2.DescribeSecurityGroups
       [AmazonEC2.mkFilter "group-name" ["docker-machine"];
        AmazonEC2.mkFilter "vpc-id" ["vpc-1"]] [] in
   let first := FakeEC2.configureSecurityGroups ["docker-machine"]
                  (FakeEC2.start d (FakeEC2.cloud_with_group FakeEC2.group0)) in
   let second := FakeEC2.configureSecurityGroups ["docker-machine"]
                   (FakeEC2.start d (world (snd first))) in
   AmazonEC2.SecurityGroupReadOnly d = false /\
   fst first = Ret None /\
   trace (snd first) =
     [lookup;
      AmazonEC2.AuthorizeSecurityGroupIngress "sg-1"
        [AmazonEC2.open_port "tcp" 22; AmazonEC2.open_port "tcp" 2376;
         AmazonEC2.open_port "tcp" 80]] /\
   map AmazonEC2.IpPermissions (FakeEC2.groups (world (snd first)))
     = [[AmazonEC2.open_port "tcp" 22; AmazonEC2.open_port "tcp" 2376;
         AmazonEC2.open_port "tcp" 80]] /\
   fst second = Ret None /\
   trace (snd second) =
     [lookup;
      AmazonEC2.AuthorizeSecurityGroupIngress "sg-1" [AmazonEC2.open_port "tcp" 80]]).
Proof.
  split.
  - vm_compute. repeat (split; [reflexivity|]). eexists. reflexivity.
  - vm_compute. repeat split; reflexivity.
Qed.

(** The theorem at work.  Google: ports 8080/tcp and 53/udp are asked for
    and the provider has no rule; the first run inserts the rule with the
    three wanted ports, and a run against that rule returns.  EC2: port
    8080/tcp is asked for on a group without permissions; on the group with
    the permissions added nothing is asked for, and a run against it makes
    the lookup only. *)
Lemma reconcile_appends_missing_witness :
  let d := FakeGCE.driver_two_ports in
  let c := FakeGCE.util_of d in
  let ports := ["2376/tcp"; "8080/tcp"; "53/udp"] in
  let sent :=
    Google.add_missing (Google.fresh_rule c d)
      (Google.missingOpenedPorts Lib.SplitPortProto (Google.fresh_rule c d) ports) in
  let st := FakeGCE.start d FakeGCE.empty_cloud in
  let st2 := FakeGCE.start d (FakeGCE.with_firewall (Some sent) FakeGCE.empty_cloud) in
  let e := FakeEC2.driver_with ["8080/tcp"] false in
  let settled :=
    AmazonEC2.authorize (fst (FakeEC2.permissions e FakeEC2.group0)) FakeEC2.group0 in
  let lookup :=
    AmazonEC2.DescribeSecurityGroups
      [AmazonEC2.mkFilter "group-name" ["docker-machine"];
       AmazonEC2.mkFilter "vpc-id" ["vpc-1"]] [] in
  (exists rest,
     trace (snd (FakeGCE.openFirewallPorts 10 c d st)) =
       [Google.FirewallsGet "proj" "docker-machines"]
       ++ Google.FirewallsInsert "proj" sent :: rest /\
     Forall (fun call => Google.mutating call = false) rest) /\
  (forall p, p ∈ ports ->
             Google.port_key Lib.SplitPortProto p ∈ Google.opened_ports sent) /\
  fst (FakeGCE.openFirewallPorts 10 c d st2) = Ret None /\
  FakeEC2.permissions e settled = ([], None) /\
  (exists st',
     FakeEC2.configureSecurityGroups ["docker-machine"]
       (FakeEC2.start e (FakeEC2.cloud_with_group settled)) = (Ret None, st') /\
     trace st' = [lookup]).
Proof.
  intros d c ports sent st st2 e settled lookup.
  destruct (ReconcileFacts.reconcile_appends_missing
              Lib.SplitPortProto Lib.url_Parse FakeGCE.show_op_error FakeGCE.backend
              Lib.SplitPortProto Lib.ParseInt 60%nat 3000000000 FakeEC2.swarmPort0
              FakeEC2.backend) as (HG & HE & HC).
  destruct (HG 10%nat c d) as [_ Hrun].
  pose (st1 := snd (Google.firewallRule FakeGCE.backend c st)).
  assert (Hget : Google.firewallRule FakeGCE.backend c st = (Ret (None, None), st1))
    by (vm_compute; reflexivity).
  assert (Hports : Google.portsUsed Lib.SplitPortProto Lib.url_Parse c
                   = Ret (ports, None))
    by (vm_compute; reflexivity).
  destruct (Hrun eq_refl st st1 None None Hget ports Hports)
    as (_ & Hsome & _ & _ & Hopens & Hagain).
  assert (Hparse : forall p, p ∈ AmazonEC2.OpenPorts e ->
            snd (Lib.ParseInt (fst (Lib.SplitPortProto p))) = None).
  { intros p Hp. apply list_elem_of_singleton in Hp as ->. vm_compute. reflexivity. }
  assert (Hcanon : forall p, p ∈ AmazonEC2.OpenPorts e ->
            Itoa (fst (Lib.ParseInt (fst (Lib.SplitPortProto p))))
              = fst (Lib.SplitPortProto p)).
  { intros p Hp. apply list_elem_of_singleton in Hp as ->. vm_compute. reflexivity. }
  destruct (HE e) as [_ Hrw].
  destruct (Hrw eq_refl Hparse FakeEC2.group0) as (_ & _ & _ & Hsettled).
  destruct (Hsettled Hcanon) as [_ Hidem].
  split; [|split; [|split; [|split]]].
  - apply (Hsome) with (o := fst (FakeGCE.openFirewallPorts 10 c d st)).
    + intros Hempty. apply (f_equal (fun m => m !! "tcp")) in Hempty.
      vm_compute in Hempty. discriminate Hempty.
    + apply surjective_pairing.
  - exact Hopens.
  - pose (st3 := snd (Google.firewallRule FakeGCE.backend c st2)).
    assert (Hget2 : Google.firewallRule FakeGCE.backend c st2
                    = (Ret (Some sent, None), st3))
      by (vm_compute; reflexivity).
    destruct (Hagain st2 st3 Hget2) as [Hnone _].
    unfold FakeGCE.openFirewallPorts. now rewrite Hnone.
  - exact Hidem.
  - destruct (HC ["docker-machine"]
                (FakeEC2.start e (FakeEC2.cloud_with_group settled))) as [_ Hquiet].
    apply (Hquiet ltac:(discriminate) [settled]).
    + vm_compute. reflexivity.
    + intros name Hname. apply list_elem_of_singleton in Hname as ->.
      exists settled. split; [vm_compute; reflexivity | exact Hidem].
Defined.

End ReconcileExamples.

(* ===================================================================== *)
(** * Further properties of the drivers *)
(* ===================================================================== *)

(** ** Strings *)

Module StringFacts.
Import Go.

Lemma prefix_byte c ch s :
  String.prefix (String c "") (String ch s) = bool_decide (c = ch).
Proof.
  cbn [String.prefix]. destruct (ascii_dec c ch) as [Heq | Hne].
  - rewrite bool_decide_eq_true_2 by exact Heq. now destruct s.
  - now rewrite bool_decide_eq_false_2.
Qed.

Lemma Contains_byte_cons c ch s :
  Contains (String ch s) (String c "") =
    bool_decide (c = ch) || Contains s (String c "").
Proof. cbn [Contains]. now rewrite prefix_byte. Qed.

Lemma Contains_byte_nil c : Contains "" (String c "") = false.
Proof. reflexivity. Qed.

(** A string without the separator is not cut. *)
Lemma cut_at_none c s :
  Contains s (String c "") = false -> cut_at c s = (s, None).
Proof.
  induction s as [|ch s IH]; [reflexivity|].
  rewrite Contains_byte_cons. intros H. apply orb_false_iff in H as [Hne Hrest].
  apply bool_decide_eq_false in Hne. cbn [cut_at].
  destruct (Ascii.eqb ch c) eqn:Heq; [apply Ascii.eqb_eq in Heq; congruence|].
  now rewrite (IH Hrest).
Qed.

(** A string is cut at the first separator. *)
Lemma cut_at_app c k v :
  Contains k (String c "") = false ->
  cut_at c (k +:+ String c v) = (k, Some v).
Proof.
  induction k as [|ch k IH]; intros H.
  - change ("" +:+ String c v) with (String c v). cbn [cut_at].
    now rewrite Ascii.eqb_refl.
  - rewrite Contains_byte_cons in H. apply orb_false_iff in H as [Hne Hrest].
    apply bool_decide_eq_false in Hne.
    change (String ch k +:+ String c v) with (String ch (k +:+ String c v)).
    cbn [cut_at].
    destruct (Ascii.eqb ch c) eqn:Heq; [apply Ascii.eqb_eq in Heq; congruence|].
    now rewrite (IH Hrest).
Qed.

Lemma append_empty_r (s : string) : s +:+ "" = s.
Proof.
  induction s as [|a s IH]; [reflexivity|].
  change (String a s +:+ "") with (String a (s +:+ "")). now rewrite IH.
Qed.

Lemma append_byte_l (cur : string) ch s :
  (cur +:+ String ch "") +:+ s = cur +:+ String ch s.
Proof.
  induction cur as [|a cur IH]; [reflexivity|].
  change ((String a cur +:+ String ch "") +:+ s)
    with (String a ((cur +:+ String ch "") +:+ s)).
  now rewrite IH.
Qed.

(** [Split] on a string without the one-byte separator gives the string. *)
Lemma Split_from_no_sep c s :
  Contains s (String c "") = false ->
  forall cur, Split_from (String c "") s 0 cur = [cur +:+ s].
Proof.
  induction s as [|ch s IH]; intros H cur.
  - cbn [Split_from]. now rewrite append_empty_r.
  - rewrite Contains_byte_cons in H. apply orb_false_iff in H as [Hne Hrest].
    cbn [Split_from]. rewrite prefix_byte, Hne. rewrite (IH Hrest).
    now rewrite append_byte_l.
Qed.

Lemma Split_no_sep c s :
  Contains s (String c "") = false -> Split s (String c "") = [s].
Proof. intros H. unfold Split. now rewrite (Split_from_no_sep c s H). Qed.

(** [Split] never returns an empty slice. *)
Lemma Split_from_nonempty sep s : forall skip cur, Split_from sep s skip cur <> [].
Proof.
  induction s as [|ch s IH]; intros skip cur; cbn [Split_from]; [discriminate|].
  destruct skip as [|k]; [|apply IH].
  destruct (String.prefix sep (String ch s)); [discriminate | apply IH].
Qed.

Lemma Split_nonempty s sep : Split s sep <> [].
Proof. apply Split_from_nonempty. Qed.

End StringFacts.

(** ** The configuration helpers of the Google driver *)

Module GoogleConfigFacts.
Import Go GoFacts Google StringFacts.

Lemma foldl_snoc {A B} (f : A -> B -> A) (a : A) (l : list B) (b : B) :
  foldl f a (l ++ [b]) = f (foldl f a l) b.
Proof. now rewrite foldl_app. Qed.

(** X1.  [metadataMapFromStringSlice]: an element without ["="] adds
    nothing; an element [key=value] whose key holds no ["="] sets [key] to
    [value], whatever the value holds and whatever the elements before it
    set: the last one wins. *)
Theorem metadataMap_entries (slice : list string) :
  (forall element,
     Contains element "=" = false ->
     metadataMapFromStringSlice (slice ++ [element])
       = metadataMapFromStringSlice slice) /\
  (forall key value,
     Contains key "=" = false ->
     metadataMapFromStringSlice (slice ++ [key +:+ "=" +:+ value])
       = <[ key := value ]> (metadataMapFromStringSlice slice)).
Proof.
  split.
  - intros element H. unfold metadataMapFromStringSlice. rewrite foldl_snoc.
    unfold SplitN2. now rewrite (cut_at_none "=" element H).
  - intros key value H. unfold metadataMapFromStringSlice. rewrite foldl_snoc.
    unfold SplitN2.
    change (key +:+ "=" +:+ value) with (key +:+ String "=" value).
    now rewrite (cut_at_app "=" key value H).
Qed.

Lemma metadataMap_entries_witness :
  metadataMapFromStringSlice (["a=1"; "b=2"] ++ ["novalue"])
    = metadataMapFromStringSlice ["a=1"; "b=2"] /\
  metadataMapFromStringSlice (["a=1"; "b=2"] ++ ["a" +:+ "=" +:+ "x=y"])
    = <[ "a" := "x=y" ]> (metadataMapFromStringSlice ["a=1"; "b=2"]).
Proof.
  destruct (metadataMap_entries ["a=1"; "b=2"]) as [Hskip Hset].
  split.
  - apply Hskip. reflexivity.
  - apply Hset. reflexivity.
Defined.

Section WithTrim.
Variable TrimSpace : string -> string.
Local Abbreviation parseLabels := (Google.parseLabels TrimSpace).

(** X2.  [parseLabels]: every element of [d.Labels] sets a label.  An
    element without [":"] sets its trimmed text to the empty value; an
    element [key:value] whose key holds no [":"] sets the trimmed key to the
    trimmed value; a later element replaces what an earlier one set for the
    same trimmed key. *)
Theorem parseLabels_entries (labels : list string) :
  (forall kv,
     Contains kv ":" = false ->
     parseLabels (labels ++ [kv]) = <[ TrimSpace kv := "" ]> (parseLabels labels)) /\
  (forall key value,
     Contains key ":" = false ->
     parseLabels (labels ++ [key +:+ ":" +:+ value])
       = <[ TrimSpace key := TrimSpace value ]> (parseLabels labels)).
Proof.
  split.
  - intros kv H. unfold Google.parseLabels. rewrite foldl_snoc.
    now rewrite (cut_at_none ":" kv H).
  - intros key value H. unfold Google.parseLabels. rewrite foldl_snoc.
    change (key +:+ ":" +:+ value) with (key +:+ String ":" value).
    now rewrite (cut_at_app ":" key value H).
Qed.

End WithTrim.

Lemma parseLabels_entries_witness :
  Google.parseLabels id (["env:dev"] ++ ["solo"])
    = <[ "solo" := "" ]> (Google.parseLabels id ["env:dev"]) /\
  Google.parseLabels id (["env:dev"] ++ ["env" +:+ ":" +:+ "prod:eu"])
    = <[ "env" := "prod:eu" ]> (Google.parseLabels id ["env:dev"]).
Proof.
  destruct (parseLabels_entries id ["env:dev"]) as [Hbare Hset].
  split.
  - apply (Hbare "solo"). reflexivity.
  - apply (Hset "env" "prod:eu"). reflexivity.
Defined.

Section WithLib.
Variable TrimSpace : string -> string.
Variable Atoi : string -> Z * option error.
Local Abbreviation accelerator_loop := (Google.accelerator_loop TrimSpace Atoi).
Local Abbreviation acceleratorCountAndType :=
  (Google.acceleratorCountAndType TrimSpace Atoi).

(** One entry [k=v] with an unknown key, or with a count that does not
    parse, ends the loop with no accelerator, wherever it stands. *)
Lemma accelerator_loop_bad (entries : list string) entry k v :
  entry ∈ entries ->
  Split entry "=" = [k; v] ->
  (TrimSpace k <> "count" /\ TrimSpace k <> "type") \/
  (TrimSpace k = "count" /\ snd (Atoi (TrimSpace v)) <> None) ->
  forall count acceleratorType,
    accelerator_loop entries count acceleratorType = (0, "").
Proof.
  intros Hin Hsplit Hbad.
  induction entries as [|e entries IH]; intros count acceleratorType;
    [inversion Hin|].
  cbn [Google.accelerator_loop].
  apply elem_of_cons in Hin as [<- | Hin].
  - rewrite Hsplit. destruct Hbad as [[Hc Ht] | [Hc Hparse]].
    + now rewrite !bool_decide_eq_false_2.
    + rewrite bool_decide_eq_true_2 by exact Hc.
      destruct (Atoi (TrimSpace v)) as [n [err|]]; [reflexivity|].
      now cbn in Hparse.
  - specialize (IH Hin).
    destruct (Split e "=") as [|k' [|v' [|x rest]]]; try apply IH.
    case_bool_decide; [|case_bool_decide; [apply IH | reflexivity]].
    destruct (Atoi (TrimSpace v')) as [n [err|]]; [reflexivity | apply IH].
Qed.

(** X3.  [acceleratorCountAndType]: without a setting there is no
    accelerator; one entry [k=v] whose trimmed key is neither [count] nor
    [type], or whose count does not parse, gives count 0 and no type,
    wherever the entry stands and whatever the other entries are; a single
    entry [type=T] gives one accelerator of the trimmed type. *)
Theorem acceleratorCountAndType_cases :
  acceleratorCountAndType "" = (0, "") /\
  (forall accelerator entry k v,
     accelerator <> "" ->
     entry ∈ Split (TrimSpace accelerator) "," ->
     Split entry "=" = [k; v] ->
     (TrimSpace k <> "count" /\ TrimSpace k <> "type") \/
     (TrimSpace k = "count" /\ snd (Atoi (TrimSpace v)) <> None) ->
     acceleratorCountAndType accelerator = (0, "")) /\
  (forall accelerator entry k v,
     accelerator <> "" ->
     Split (TrimSpace accelerator) "," = [entry] ->
     Split entry "=" = [k; v] ->
     TrimSpace k = "type" ->
     acceleratorCountAndType accelerator = (1, TrimSpace (TrimSpace v))).
Proof.
  split; [reflexivity|]. split.
  - intros accelerator entry k v Hne Hin Hsplit Hbad.
    unfold Google.acceleratorCountAndType.
    rewrite bool_decide_eq_false_2 by exact Hne.
    now apply (accelerator_loop_bad _ entry k v).
  - intros accelerator entry k v Hne Hentries Hsplit Htype.
    unfold Google.acceleratorCountAndType.
    rewrite bool_decide_eq_false_2 by exact Hne.
    rewrite Hentries. cbn [Google.accelerator_loop]. rewrite Hsplit.
    rewrite bool_decide_eq_false_2 by (rewrite Htype; discriminate).
    now rewrite bool_decide_eq_true_2.
Qed.

End WithLib.

Lemma acceleratorCountAndType_cases_witness :
  Google.acceleratorCountAndType id Lib.ParseInt "type=nvidia-tesla-t4,cnt=2" = (0, "") /\
  Google.acceleratorCountAndType id Lib.ParseInt "count=two,type=nvidia-tesla-t4" = (0, "") /\
  Google.acceleratorCountAndType id Lib.ParseInt "type=nvidia-tesla-t4"
    = (1, "nvidia-tesla-t4").
Proof.
  destruct (acceleratorCountAndType_cases id Lib.ParseInt) as (_ & Hbad & Htype).
  split; [|split].
  - apply (Hbad _ "cnt=2" "cnt" "2").
    + discriminate.
    + apply (list_elem_of_lookup_2 _ 1%nat). reflexivity.
    + reflexivity.
    + left. split; discriminate.
  - apply (Hbad _ "count=two" "count" "two").
    + discriminate.
    + apply (list_elem_of_lookup_2 _ 0%nat). reflexivity.
    + reflexivity.
    + right. split; [reflexivity | discriminate].
  - apply (Htype _ "type=nvidia-tesla-t4" "type" "nvidia-tesla-t4").
    + discriminate.
    + reflexivity.
    + reflexivity.
    + reflexivity.
Defined.

End GoogleConfigFacts.

(** ** Preparing and configuring an instance on Compute Engine *)

Module GoogleInstanceFacts.
Import Go GoFacts Google.

Section WithBackend.
Context {W : Type}.
Variable TrimSpace : string -> string.
Variable GetSSHKeyPath : Driver -> string.
Variable Sprint : OperationErrorErrors -> string.
Variable backend : forall c : Call, W -> Resp c * W.
Local Abbreviation M := (Go.M Driver Call W).
Local Abbreviation St := (Go.St Driver Call W).
Local Abbreviation readMetadataFile := (Google.readMetadataFile backend).
Local Abbreviation prepareMetadata_files := (Google.prepareMetadata_files backend).
Local Abbreviation prepareMetadata := (Google.prepareMetadata backend).
Local Abbreviation addFirewallTag := (Google.addFirewallTag Sprint backend).
Local Abbreviation uploadSSHKey := (Google.uploadSSHKey TrimSpace Sprint backend).
Local Abbreviation waitForRegionalOp := (Google.waitForRegionalOp Sprint backend).
Local Abbreviation quiet := (fun call : Call => mutating call = false).

(** Reading a metadata file: the empty path is not read and gives the empty
    value. *)
Lemma readMetadataFile_value (filePath : string) (st st' : St) value :
  readMetadataFile filePath st = (Ret (value, None), st') ->
  value <> "" -> filePath <> "".
Proof.
  intros H Hvalue ->. unfold Google.readMetadataFile in H.
  rewrite bool_decide_eq_true_2 in H by reflexivity.
  injection H as <- _. now apply Hvalue.
Qed.

Lemma readMetadataFile_calls filePath :
  only_calls (fun c => exists path, c = ReadFile path /\ path <> "")
             (readMetadataFile filePath).
Proof.
  unfold Google.readMetadataFile. case_bool_decide as Hpath; [calls|].
  apply only_calls_bind.
  - apply (only_calls_api backend _ (ReadFile filePath)). now exists filePath.
  - intros [data [e|]]; calls.
Qed.

Lemma readMetadataFile_keeps filePath : keeps_drv (readMetadataFile filePath).
Proof. unfold Google.readMetadataFile. case_bool_decide; keeps. Qed.

Lemma appendMetadata_inv (Q : MetadataItems -> Prop) items key value :
  Forall Q items ->
  (value <> "" -> Q (mkMetadataItems key value)) ->
  Forall Q (appendMetadata items key value).
Proof.
  intros Hitems HQ. unfold appendMetadata. case_bool_decide as Hvalue; [exact Hitems|].
  apply Forall_app. split; [exact Hitems|]. constructor; [now apply HQ | constructor].
Qed.

Lemma prepareMetadata_files_inv (Q : MetadataItems -> Prop) files :
  forall items (st st' : St) items' err,
    Forall Q items ->
    (forall key path value,
       (key, path) ∈ files -> path <> "" -> value <> "" ->
       Q (mkMetadataItems key value)) ->
    prepareMetadata_files files items st = (Ret (items', err), st') ->
    match err with
    | Some _ => items' = []
    | None => Forall Q items'
    end.
Proof.
  induction files as [|[key path] files IH]; intros items st st' items' err Hitems HQ H.
  - injection H as <- <- _. exact Hitems.
  - cbn [Google.prepareMetadata_files] in H.
    unbind H a st1 H1. destruct a as [value [e|]].
    + injection H as <- <- _. reflexivity.
    + apply IH in H; [exact H | |].
      * apply appendMetadata_inv; [exact Hitems|]. intros Hvalue.
        apply (HQ key path value); [constructor | | exact Hvalue].
        exact (readMetadataFile_value _ _ _ _ H1 Hvalue).
      * intros k p v Hin. apply HQ. now constructor.
Qed.

Lemma prepareMetadata_files_calls files :
  forall items,
    only_calls (fun c => exists path, c = ReadFile path /\ path <> "")
               (prepareMetadata_files files items).
Proof.
  induction files as [|[key path] files IH]; intros items;
    cbn [Google.prepareMetadata_files]; [calls|].
  apply only_calls_bind; [apply readMetadataFile_calls|].
  intros [value [e|]]; [calls | apply IH].
Qed.

Lemma prepareMetadata_files_keeps files :
  forall items, keeps_drv (prepareMetadata_files files items).
Proof.
  induction files as [|[key path] files IH]; intros items;
    cbn [Google.prepareMetadata_files]; [keeps|].
  apply keeps_drv_bind; [apply readMetadataFile_keeps|].
  intros [value [e|]]; [keeps | apply IH].
Qed.

Lemma foldl_appendMetadata_inv (Q : MetadataItems -> Prop) (l : list (string * string)) :
  forall items,
    Forall Q items ->
    (forall key value, (key, value) ∈ l -> value <> "" -> Q (mkMetadataItems key value)) ->
    Forall Q (foldl (fun items '(key, value) => appendMetadata items key value) items l).
Proof.
  induction l as [|[key value] l IH]; intros items Hitems HQ; [exact Hitems|].
  cbn [foldl]. apply IH.
  - apply appendMetadata_inv; [exact Hitems|]. apply HQ. constructor.
  - intros k v Hin. apply HQ. now constructor.
Qed.

(** X4.  [prepareMetadata] leaves the driver as it is; the only calls it
    makes read files, never the empty path; when it fails it returns no
    item; when it succeeds every item has a non-empty value, and either
    [d.Metadata] maps its key to its value or [d.MetadataFromFile] maps its
    key to a path that is not empty. *)
Theorem prepareMetadata_items (d : Driver) (st st' : St) items err :
  prepareMetadata d st = (Ret (items, err), st') ->
  drv st' = drv st /\
  (exists new,
     trace st' = trace st ++ new /\
     Forall (fun c => exists path, c = ReadFile path /\ path <> "") new) /\
  match err with
  | Some _ => items = []
  | None =>
    forall item, item ∈ items ->
      Value item <> "" /\
      (Metadata d !! Key item = Some (Value item) \/
       exists path, MetadataFromFile d !! Key item = Some path /\ path <> "")
  end.
Proof.
  intros H. unfold Google.prepareMetadata in H. split; [|split].
  - exact (prepareMetadata_files_keeps _ _ _ _ _ H).
  - exact (prepareMetadata_files_calls _ _ _ _ _ H).
  - set (Q := fun item : MetadataItems =>
                Value item <> "" /\
                (Metadata d !! Key item = Some (Value item) \/
                 exists path, MetadataFromFile d !! Key item = Some path /\ path <> "")).
    assert (Hinv := prepareMetadata_files_inv Q _ _ _ _ _ _
                      (foldl_appendMetadata_inv Q (map_to_list (Metadata d)) []
                         (Forall_nil_2 _)
                         (fun key value Hin Hvalue =>
                            conj Hvalue (or_introl (proj1 (elem_of_map_to_list _ _ _) Hin))))
                      (fun key path value Hin Hpath Hvalue =>
                         conj Hvalue
                           (or_intror (ex_intro _ path
                              (conj (proj1 (elem_of_map_to_list _ _ _) Hin) Hpath))))
                      H).
    destruct err as [e|]; [exact Hinv|].
    intros item Hin. exact (proj1 (Forall_forall _ _) Hinv item Hin).
Qed.

(** The calls made while an operation is awaited change nothing. *)
Lemma waitForRegionalOp_quiet fuel c name :
  only_calls quiet (waitForRegionalOp fuel c name).
Proof.
  unfold Google.waitForRegionalOp.
  apply GoogleFacts.waitForOp_calls; try reflexivity. calls.
Qed.

(** X5.  [addFirewallTag]: on an instance that has the tag [docker-machine]
    it returns without a call; otherwise its first call sets the tags of the
    instance to those it has, in their order, followed by the tag, and no
    later call changes anything.  On the instance so tagged it makes no
    call. *)
Theorem addFirewallTag_idempotent fuel (c : ComputeUtil) (inst : Instance) (st : St) :
  (firewallTargetTag ∈ Tags_Items inst ->
   addFirewallTag fuel c inst st = (Ret None, st)) /\
  (firewallTargetTag ∉ Tags_Items inst ->
   forall o st',
     addFirewallTag fuel c inst st = (o, st') ->
     exists rest,
       trace st' = trace st ++
         InstancesSetTags (project c) (zone c) (Instance_Name inst)
           (Tags_Items inst ++ [firewallTargetTag]) :: rest /\
       Forall quiet rest) /\
  (forall inst' (st2 : St),
     Tags_Items inst' = Tags_Items inst ++ [firewallTargetTag] ->
     addFirewallTag fuel c inst' st2 = (Ret None, st2)).
Proof.
  split; [|split].
  - intros Hin. unfold Google.addFirewallTag.
    now rewrite bool_decide_eq_true_2.
  - intros Hnot o st' H. unfold Google.addFirewallTag in H.
    rewrite bool_decide_eq_false_2 in H by exact Hnot.
    refine (api_first_then backend quiet
              (InstancesSetTags (project c) (zone c) (Instance_Name inst)
                 (Tags_Items inst ++ [firewallTargetTag])) _ st o st' _ H).
    intros [op [e|]]; [calls|]. calls. apply waitForRegionalOp_quiet.
  - intros inst' st2 Htags. unfold Google.addFirewallTag.
    rewrite bool_decide_eq_true_2; [reflexivity|].
    rewrite Htags. apply elem_of_app. right. constructor.
Qed.

(** X6.  [uploadSSHKey]: if the public key cannot be read the error is
    returned and the provider is not called.  Otherwise the next call sets
    the metadata of the instance named in the [ComputeUtil] to the items the
    instance has, in their order, followed by [sshKeys] and [ssh-keys], both
    with the value [user:key user] and a newline, the key trimmed; no later
    call changes anything. *)
Theorem uploadSSHKey_appends fuel (c : ComputeUtil) (inst : Instance)
    (sshKeyPath : string) (st st1 : St) sshKey err :
  api backend (ReadFile (sshKeyPath +:+ ".pub")) st = (Ret (sshKey, err), st1) ->
  match err with
  | Some e => uploadSSHKey fuel c inst sshKeyPath st = (Ret (Some e), st1)
  | None =>
    forall o st',
      uploadSSHKey fuel c inst sshKeyPath st = (o, st') ->
      let value :=
        userName c +:+ ":" +:+ TrimSpace sshKey +:+ " " +:+ userName c +:+ newline in
      exists rest,
        trace st' = trace st1 ++
          InstancesSetMetadata (project c) (zone c) (instanceName c)
            (Metadata_Items inst ++
             [mkMetadataItems "sshKeys" value; mkMetadataItems "ssh-keys" value])
          :: rest /\
        Forall quiet rest
  end.
Proof.
  intros Hread. destruct err as [e|].
  - unfold Google.uploadSSHKey. now step Hread.
  - intros o st' H value. unfold Google.uploadSSHKey in H.
    rewrite (bind_Ret _ _ _ _ _ Hread) in H. cbn beta iota in H.
    refine (api_first_then backend quiet
              (InstancesSetMetadata (project c) (zone c) (instanceName c) _)
              _ st1 o st' _ H).
    intros [op [e|]]; [calls|]. calls. apply waitForRegionalOp_quiet.
Qed.

Local Abbreviation staticAddress := (Google.staticAddress backend).
Local Abbreviation createInstance :=
  (Google.createInstance TrimSpace GetSSHKeyPath Sprint backend).
Local Abbreviation configureInstance :=
  (Google.configureInstance TrimSpace GetSSHKeyPath Sprint backend).

Lemma waitForRegionalOp_calls (P : Call -> Prop) fuel c name :
  (forall call, instance_setup call = true -> P call) ->
  only_calls P (waitForRegionalOp fuel c name).
Proof.
  intros HP. unfold Google.waitForRegionalOp.
  apply GoogleFacts.waitForOp_calls; try (intros; now apply HP).
  apply (only_calls_api backend P (ZoneOperationsWait (project c) (zone c) name)).
  now apply HP.
Qed.

Lemma prepareMetadata_calls (P : Call -> Prop) d :
  (forall path, P (ReadFile path)) ->
  only_calls P (prepareMetadata d).
Proof.
  intros HP. unfold Google.prepareMetadata.
  eapply only_calls_weaken; [|apply prepareMetadata_files_calls].
  intros call (path & -> & _). apply HP.
Qed.

Lemma staticAddress_calls (P : Call -> Prop) c :
  (forall proj r name, P (AddressesGet proj r name)) ->
  only_calls P (staticAddress c).
Proof.
  intros HP. unfold Google.staticAddress. destruct (negb _); [calls|].
  apply only_calls_bind; [apply GoogleFacts.only_calls_lift|]. intros r.
  apply only_calls_bind.
  - apply (only_calls_api backend P (AddressesGet (project c) r (address c))).
    apply HP.
  - intros [a [e|]]; calls.
Qed.

Lemma uploadSSHKey_calls (P : Call -> Prop) fuel c inst path :
  (forall call, instance_setup call = true -> P call) ->
  only_calls P (uploadSSHKey fuel c inst path).
Proof.
  intros HP. unfold Google.uploadSSHKey.
  apply only_calls_bind.
  - apply (only_calls_api backend P (ReadFile (path +:+ ".pub"))). now apply HP.
  - intros [sshKey [e|]]; [calls|]. apply only_calls_bind.
    + match goal with
      | |- only_calls _ (api _ ?call) => apply (only_calls_api backend P call)
      end.
      now apply HP.
    + intros [op [e|]]; [calls|]. calls. now apply waitForRegionalOp_calls.
Qed.

Lemma parseTags_has_tag d : firewallTargetTag ∈ parseTags d.
Proof.
  unfold parseTags. case_bool_decide; [constructor|].
  apply elem_of_app. left. constructor.
Qed.

(** What [createInstance] asks the provider to insert. *)
Local Abbreviation well_formed := (fun (c : ComputeUtil) (d : Driver) (inst : Instance) =>
  Instance_Name inst = instanceName c /\
  firewallTargetTag ∈ Tags_Items inst /\
  exists boot,
    Disks inst = [boot] /\ Boot boot = true /\ AutoDelete boot = true /\
    ((InitializeParams boot = None /\
      Source boot = zoneURL c +:+ "/disks/" +:+ diskName c) \/
     (exists params,
        InitializeParams boot = Some params /\ Source boot = "" /\
        DiskName params = diskName c /\
        DiskSizeGb params = DiskSize d /\
        SourceImage params = apiURL +:+ MachineImage d))).

Lemma createInstance_calls (P : Call -> Prop) fuel c d :
  (forall call, instance_setup call = true -> P call) ->
  (forall inst, well_formed c d inst ->
                P (InstancesInsert (project c) (zone c) inst)) ->
  only_calls P (createInstance fuel c d).
Proof.
  intros HP Hinsert.
  unfold Google.createInstance, Google.disk, Google.instance.
  apply only_calls_bind;
    [apply prepareMetadata_calls; intros; now apply HP|].
  intros [metadata [e|]]; [calls|].
  apply only_calls_bind.
  { destruct (Contains _ _); [calls|]. destruct (negb _); [|calls].
    apply only_calls_bind; [apply GoogleFacts.only_calls_lift | intros; calls]. }
  intros subnet. apply only_calls_bind.
  { destruct (negb _); [|calls].
    apply only_calls_bind; [apply staticAddress_calls; intros; now apply HP|].
    intros [addr [e|]]; [calls|].
    apply only_calls_bind; [apply GoogleFacts.only_calls_lift | intros; calls]. }
  intros [nic [e|]]; [calls|].
  apply only_calls_bind.
  { apply (only_calls_api backend P (DisksGet (project c) (zone c) (diskName c))).
    now apply HP. }
  intros [dsk err].
  apply only_calls_bind.
  { match goal with
    | |- only_calls _ (api _ ?call) => apply (only_calls_api backend P call)
    end.
    apply Hinsert. split; [reflexivity|]. split; [apply parseTags_has_tag|].
    destruct dsk as [dk|], err as [e|]; eexists; (split; [reflexivity|]);
      (split; [reflexivity|]); (split; [reflexivity|]).
    all: first [ left; split; reflexivity
               | right; eexists; repeat split; reflexivity ]. }
  intros [op [e|]]; [calls|].
  apply only_calls_bind; [calls|]. intros op'.
  apply only_calls_bind; [now apply waitForRegionalOp_calls|].
  intros [e|]; [calls|].
  apply only_calls_bind.
  { apply (only_calls_api backend P
             (InstancesGet (project c) (zone c) (instanceName c))).
    now apply HP. }
  intros [inst [e|]]; [calls|]. calls. now apply uploadSSHKey_calls.
Qed.

(** A [createInstance] that succeeds has inserted the instance: before the
    insertion nothing was changed at the provider, the provider accepted the
    insertion, and the calls after it only set the instance up. *)
Lemma createInstance_ok_inserts fuel c d (st st' : St) :
  createInstance fuel c d st = (Ret None, st') ->
  exists pre inst (st1 st2 : St) op rest,
    trace st1 = trace st ++ pre /\ Forall quiet pre /\
    well_formed c d inst /\
    api backend (InstancesInsert (project c) (zone c) inst) st1
      = (Ret (Some op, None), st2) /\
    trace st' = trace st2 ++ rest /\
    Forall (fun call => instance_setup call = true) rest.
Proof.
  unfold Google.createInstance, Google.disk. intros H.
  unbind H r sta Hmeta. destruct r as [metadata [e|]]; [discriminate H|].
  destruct (prepareMetadata_calls quiet d (fun _ => eq_refl) _ _ _ Hmeta)
    as (n1 & Ht1 & Hq1).
  unbind H subnet stb Hsub. cbn beta zeta in H.
  assert (Hc2 : only_calls quiet
            (if Contains (subnetwork c) "/subnetworks/" then mret (subnetwork c)
             else if negb (bool_decide (subnetwork c = "")) then
               r ← Google.lift (region c);
               mret ("projects/" +:+ networkProject c +:+ "/regions/" +:+ r
                     +:+ "/subnetworks/" +:+ subnetwork c)
             else mret "" : M string)).
  { destruct (Contains _ _); [calls|]. destruct (negb _); [|calls].
    apply only_calls_bind; [apply GoogleFacts.only_calls_lift | intros; calls]. }
  destruct (Hc2 _ _ _ Hsub) as (n2 & Ht2 & Hq2). clear Hc2.
  unbind H r stc Hnic. destruct r as [nic [e|]]; [discriminate H|].
  match type of Hnic with
  | ?m _ = _ => assert (Hc3 : only_calls quiet m)
  end.
  { destruct (bool_decide (address c = "")); cbn [negb]; [calls|].
    apply only_calls_bind; [now apply staticAddress_calls|].
    intros [addr [e|]]; [calls|].
    apply only_calls_bind; [apply GoogleFacts.only_calls_lift | intros; calls]. }
  destruct (Hc3 _ _ _ Hnic) as (n3 & Ht3 & Hq3). clear Hc3.
  unbind H r std Hdisk. destruct r as [dsk err].
  destruct (only_calls_api backend quiet
              (DisksGet (project c) (zone c) (diskName c)) eq_refl _ _ _ Hdisk)
    as (n4 & Ht4 & Hq4).
  cbn beta iota zeta in H.
  unbind H r ste Hinsert. destruct r as [op [e|]]; [discriminate H|].
  destruct op as [op|]; [|discriminate H].
  match type of Hinsert with
  | api _ (InstancesInsert _ _ ?i) _ = _ => set (inst := i) in *
  end.
  match type of H with
  | ?m _ = _ => assert (Hc5 : only_calls (fun call => instance_setup call = true) m)
  end.
  { apply only_calls_bind; [calls|]. intros op'.
    apply only_calls_bind; [now apply waitForRegionalOp_calls|].
    intros [e|]; [calls|].
    apply only_calls_bind.
    { now apply (only_calls_api backend (fun call => instance_setup call = true)
                   (InstancesGet (project c) (zone c) (instanceName c))). }
    intros [i [e|]]; [calls|]. calls. now apply uploadSSHKey_calls. }
  destruct (Hc5 _ _ _ H) as (n5 & Ht5 & Hq5). clear Hc5.
  exists (n1 ++ n2 ++ n3 ++ n4), inst, std, ste, op, n5.
  split; [rewrite Ht4, Ht3, Ht2, Ht1; now rewrite <- !app_assoc|].
  split; [now repeat apply Forall_app_2|].
  split.
  { split; [reflexivity|]. split; [apply parseTags_has_tag|].
    subst inst.
    destruct dsk as [dk|], err as [e|]; eexists; (split; [reflexivity|]);
      (split; [reflexivity|]); (split; [reflexivity|]).
    all: first [ left; split; reflexivity
               | right; eexists; repeat split; reflexivity ]. }
  split; [exact Hinsert|]. now split.
Qed.

(** With internal addresses only, and an address asked for, there is no
    access configuration to put the address into. *)
Lemma createInstance_internal_only_run fuel c d (st : St) :
  useInternalIPOnly c = true -> address c <> "" ->
  createInstance fuel c d st =
    ('(metadata, err) ← prepareMetadata d;
     match err with
     | Some e => mret (Some e)
     | None =>
       subnet ←
         (if Contains (subnetwork c) "/subnetworks/" then mret (subnetwork c)
          else if negb (bool_decide (subnetwork c = "")) then
            r ← Google.lift (region c);
            mret ("projects/" +:+ networkProject c +:+ "/regions/" +:+ r
                  +:+ "/subnetworks/" +:+ subnetwork c)
          else mret "");
       '(staticAddr, err) ← staticAddress c;
       match err with
       | Some e => mret (Some e)
       | None => panic "index out of range"
       end
     end : M (option error)) st.
Proof.
  intros Hint Haddr. unfold Google.createInstance.
  apply bind_ext. intros [metadata [e|]] st1; [reflexivity|].
  apply bind_ext. intros subnet st2.
  rewrite Hint, (bool_decide_eq_false_2 _ Haddr). cbn [negb].
  rewrite bind_assoc. apply bind_ext. intros [staticAddr [e|]] st3; reflexivity.
Qed.

Lemma prepareMetadata_files_returns files :
  forall items (st : St),
    exists r st', prepareMetadata_files files items st = (Ret r, st').
Proof.
  induction files as [|[key filePath] files IH]; intros items st.
  - now eexists _, _.
  - cbn [Google.prepareMetadata_files]. unfold Google.readMetadataFile.
    case_bool_decide.
    + rewrite (bind_Ret _ _ _ _ _ (mret_run _ _)). apply IH.
    + rewrite bind_assoc. step_api.
      destruct (fst (backend (ReadFile filePath) (world st))) as [data [e|]].
      * rewrite (bind_Ret _ _ _ _ _ (mret_run _ _)). now eexists _, _.
      * rewrite (bind_Ret _ _ _ _ _ (mret_run _ _)). apply IH.
Qed.

(** X7.  [createInstance] for a machine with internal addresses only and an
    address (static or named) asked for: it never succeeds and never changes
    anything at the provider: the instance is not inserted.  It ends in one
    of these ways.  The metadata cannot be prepared: the error is returned.
    The zone is shorter than two bytes and its region is needed, for a named
    address or a subnetwork given by name: the panic of the slice.  The
    address is a name: its lookup is the last call, and its error is
    returned, or, when the lookup gives neither an address nor an error,
    the nil address is dereferenced.  In every other case, the address
    found or given is assigned to the first access configuration of an
    interface that has none: index out of range. *)
Theorem createInstance_internal_only_address fuel (c : ComputeUtil) (d : Driver)
    (st st' : St) o :
  useInternalIPOnly c = true ->
  address c <> "" ->
  createInstance fuel c d st = (o, st') ->
  o <> Ret None /\
  (exists new, trace st' = trace st ++ new /\ Forall quiet new) /\
  ((exists items e,
      prepareMetadata d st = (Ret (items, Some e), st') /\ o = Ret (Some e)) \/
   (exists items st1,
      prepareMetadata d st = (Ret (items, None), st1) /\
      ((o = Panic "slice bounds out of range" /\ st' = st1 /\
        (String.length (zone c) < 2)%nat /\
        (has_lower_letter (address c) = true \/
         subnetwork c <> "" /\ Contains (subnetwork c) "/subnetworks/" = false)) \/
       (exists r externalAddress err,
          has_lower_letter (address c) = true /\ region c = Ret r /\
          api backend (AddressesGet (project c) r (address c)) st1
            = (Ret (externalAddress, err), st') /\
          o = match err, externalAddress with
              | Some e, _ => Ret (Some e)
              | None, None =>
                Panic "invalid memory address or nil pointer dereference"
              | None, Some _ => Panic "index out of range"
              end) \/
       (has_lower_letter (address c) = false /\ st' = st1 /\
        o = Panic "index out of range")))).
Proof.
  intros Hint Haddr H.
  rewrite (createInstance_internal_only_run fuel c d st Hint Haddr) in H.
  assert (Hcalls : exists new, trace st' = trace st ++ new /\ Forall quiet new).
  {
    revert H. generalize st o st'.
    change (only_calls quiet
      ('(metadata, err) ← prepareMetadata d;
       match err with
       | Some e => mret (Some e)
       | None =>
         subnet ←
           (if Contains (subnetwork c) "/subnetworks/" then mret (subnetwork c)
            else if negb (bool_decide (subnetwork c = "")) then
              r ← Google.lift (region c);
              mret ("projects/" +:+ networkProject c +:+ "/regions/" +:+ r
                    +:+ "/subnetworks/" +:+ subnetwork c)
            else mret "");
         '(staticAddr, err) ← staticAddress c;
         match err with
         | Some e => mret (Some e)
         | None => panic "index out of range"
         end
       end : M (option error))).
    apply only_calls_bind; [now apply prepareMetadata_calls|].
    intros [metadata [e|]]; [calls|].
    apply only_calls_bind.
    { destruct (Contains _ _); [calls|]. destruct (negb _); [|calls].
      apply only_calls_bind; [apply GoogleFacts.only_calls_lift | intros; calls]. }
    intros subnet. apply only_calls_bind; [now apply staticAddress_calls|].
    intros [staticAddr [e|]]; calls.
  }
  assert (Hends :
    (exists items e,
       prepareMetadata d st = (Ret (items, Some e), st') /\ o = Ret (Some e)) \/
    (exists items st1,
       prepareMetadata d st = (Ret (items, None), st1) /\
       ((o = Panic "slice bounds out of range" /\ st' = st1 /\
         (String.length (zone c) < 2)%nat /\
         (has_lower_letter (address c) = true \/
          subnetwork c <> "" /\ Contains (subnetwork c) "/subnetworks/" = false)) \/
        (exists r externalAddress err,
           has_lower_letter (address c) = true /\ region c = Ret r /\
           api backend (AddressesGet (project c) r (address c)) st1
             = (Ret (externalAddress, err), st') /\
           o = match err, externalAddress with
               | Some e, _ => Ret (Some e)
               | None, None =>
                 Panic "invalid memory address or nil pointer dereference"
               | None, Some _ => Panic "index out of range"
               end) \/
        (has_lower_letter (address c) = false /\ st' = st1 /\
         o = Panic "index out of range")))).
  { destruct (prepareMetadata_files_returns
                (map_to_list (MetadataFromFile d))
                (foldl (fun items '(key, value) => appendMetadata items key value)
                       [] (map_to_list (Metadata d))) st)
      as ([items err] & st1 & Hmeta).
    change (prepareMetadata d st = (Ret (items, err), st1)) in Hmeta.
    rewrite (bind_Ret _ _ _ _ _ Hmeta) in H. cbn beta iota in H.
    destruct err as [e|].
    { injection H as <- <-. left. now exists items, e. }
    right. exists items, st1. split; [exact Hmeta|].
    (* the address, once the subnetwork is settled *)
    assert (Haddress : forall subnet,
      ('(staticAddr, err) ← staticAddress c;
       match err with
       | Some e => mret (Some e)
       | None => panic "index out of range"
       end : M (option error)) st1 = (o, st') ->
      (o = Panic "slice bounds out of range" /\ st' = st1 /\
       (String.length (zone c) < 2)%nat /\
       (has_lower_letter (address c) = true \/ subnet)) \/
      (exists r externalAddress err,
         has_lower_letter (address c) = true /\ region c = Ret r /\
         api backend (AddressesGet (project c) r (address c)) st1
           = (Ret (externalAddress, err), st') /\
         o = match err, externalAddress with
             | Some e, _ => Ret (Some e)
             | None, None =>
               Panic "invalid memory address or nil pointer dereference"
             | None, Some _ => Panic "index out of range"
             end) \/
      (has_lower_letter (address c) = false /\ st' = st1 /\
       o = Panic "index out of range")).
    { intros subnet. unfold Google.staticAddress.
      destruct (has_lower_letter (address c)) eqn:Hname; cbn [negb].
      2: { rewrite (bind_Ret _ _ _ _ _ (mret_run _ _)).
           intros [= <- <-]. right. right. now repeat split. }
      destruct (le_lt_dec 2 (String.length (zone c))) as [Hlong | Hshort].
      2: { rewrite (GoogleFacts.region_short c Hshort).
           intros [= <- <-]. left. split; [reflexivity|]. split; [reflexivity|].
           split; [exact Hshort | now left]. }
      rewrite (GoogleFacts.region_long c Hlong). cbn [Google.lift].
      rewrite !bind_assoc, (bind_Ret _ _ _ _ _ (mret_run _ _)).
      rewrite bind_assoc. step_api.
      match goal with
      | |- context [backend ?call (world st1)] =>
        set (answer := backend call (world st1))
      end.
      intros Hrun. right. left.
      exists (slice_to (zone c) (String.length (zone c) - 2)),
             (fst (fst answer)), (snd (fst answer)).
      split; [reflexivity|]. split; [reflexivity|].
      rewrite api_run. fold answer.
      destruct answer as [[externalAddress err] w]. cbn [fst snd] in *.
      destruct err as [e|].
      - injection Hrun as <- <-. now split.
      - destruct externalAddress as [a|]; injection Hrun as <- <-; now split. }
    revert H.
    destruct (Contains (subnetwork c) "/subnetworks/") eqn:Hpath.
    { rewrite (bind_Ret _ _ _ _ _ (mret_run _ _)). intros H.
      destruct (Haddress False H) as [(-> & -> & Hshort & [Hn | []]) | Hrest].
      - left. now repeat split; try left.
      - right. exact Hrest. }
    case_bool_decide as Hsub; cbn [negb].
    { rewrite (bind_Ret _ _ _ _ _ (mret_run _ _)). intros H.
      destruct (Haddress False H) as [(-> & -> & Hshort & [Hn | []]) | Hrest].
      - left. now repeat split; try left.
      - right. exact Hrest. }
    destruct (le_lt_dec 2 (String.length (zone c))) as [Hlong | Hshort].
    2: { rewrite (GoogleFacts.region_short c Hshort).
         intros [= <- <-]. left. split; [reflexivity|]. split; [reflexivity|].
         split; [exact Hshort|]. right. now split. }
    rewrite (GoogleFacts.region_long c Hlong). cbn [Google.lift].
    rewrite bind_assoc, (bind_Ret _ _ _ _ _ (mret_run _ _)).
    rewrite (bind_Ret _ _ _ _ _ (mret_run _ _)). intros H.
    destruct (Haddress False H) as [(-> & -> & Hshort & [Hn | []]) | Hrest].
    - lia.
    - right. rewrite (GoogleFacts.region_long c Hlong) in Hrest. exact Hrest. }
  split; [|split; [exact Hcalls | exact Hends]].
  destruct Hends as [(items & e & _ & ->) | (items & st1 & _ & Hcase)];
    [discriminate|].
  destruct Hcase as [(-> & _) | [(r & ext & err & _ & _ & _ & ->) | (_ & _ & ->)]];
    [discriminate | | discriminate].
  destruct err as [e|]; [discriminate|]. destruct ext; discriminate.
Qed.

(** X8.  Every instance [createInstance] asks the provider to insert, in the
    project and zone of the machine, is named after the machine, carries the
    tag [docker-machine], and has one disk, a boot disk deleted with the
    instance: either the existing disk of the machine or a new disk with the
    machine's disk name, of the size and from the image of the driver.  All
    its other calls read files, look things up, set the metadata or await
    an operation. *)
Theorem createInstance_request fuel (c : ComputeUtil) (d : Driver) :
  only_calls
    (fun call =>
       match call with
       | InstancesInsert proj zn inst =>
         proj = project c /\ zn = zone c /\ well_formed c d inst
       | call => instance_setup call = true
       end)
    (createInstance fuel c d).
Proof.
  apply createInstance_calls.
  - intros call Hcall. now destruct call.
  - intros inst Hinst. now split.
Qed.

End WithBackend.
End GoogleInstanceFacts.

(** ** Starting, stopping and querying a machine on Compute Engine *)

Module GoogleLifecycleFacts.
Import Go GoFacts Google.

Section WithBackend.
Context {W : Type}.
Variable SplitPortProto : string -> string * string.
Variable url_Parse : string -> option URL * option error.
Variable FindStringSubmatch : string -> list string.
Variable TrimSpace : string -> string.
Variable GetSSHKeyPath : Driver -> string.
Variable Sprint : OperationErrorErrors -> string.
Variable JoinHostPort : string -> string -> string.
Variable backend : forall c : Call, W -> Resp c * W.
Local Abbreviation M := (Go.M Driver Call W).
Local Abbreviation St := (Go.St Driver Call W).
Local Abbreviation quiet := (fun call : Call => mutating call = false).
Local Abbreviation newComputeUtil := (Google.newComputeUtil FindStringSubmatch backend).
Local Abbreviation instance := (Google.instance backend).
Local Abbreviation ip := (Google.ip backend).
Local Abbreviation GetIP := (Google.GetIP FindStringSubmatch backend).
Local Abbreviation GetState := (Google.GetState FindStringSubmatch backend).
Local Abbreviation GetURL := (Google.GetURL FindStringSubmatch backend JoinHostPort).
Local Abbreviation startInstance := (Google.startInstance Sprint backend).
Local Abbreviation stopInstance := (Google.stopInstance Sprint backend).
Local Abbreviation createInstance :=
  (Google.createInstance TrimSpace GetSSHKeyPath Sprint backend).
Local Abbreviation configureInstance :=
  (Google.configureInstance TrimSpace GetSSHKeyPath Sprint backend).
Local Abbreviation openFirewallPorts :=
  (Google.openFirewallPorts SplitPortProto url_Parse Sprint backend).
Local Abbreviation Start :=
  (Google.Start FindStringSubmatch TrimSpace GetSSHKeyPath Sprint backend).
Local Abbreviation Stop := (Google.Stop FindStringSubmatch Sprint backend).
Local Abbreviation Restart :=
  (Google.Restart FindStringSubmatch TrimSpace GetSSHKeyPath Sprint backend).
Local Abbreviation Create :=
  (Google.Create SplitPortProto url_Parse FindStringSubmatch TrimSpace
     GetSSHKeyPath Sprint backend).

Lemma newComputeUtil_quiet_calls d : only_calls quiet (newComputeUtil d).
Proof. unfold Google.newComputeUtil. calls. Qed.

Lemma ip_quiet c : only_calls quiet (ip c).
Proof. unfold Google.ip. calls. Qed.

Lemma GetIP_quiet : only_calls quiet GetIP.
Proof.
  unfold Google.GetIP. calls.
  - apply newComputeUtil_quiet_calls.
  - apply ip_quiet.
Qed.

Lemma GetState_quiet : only_calls quiet GetState.
Proof.
  unfold Google.GetState, Google.instance, Google.disk. calls.
  apply newComputeUtil_quiet_calls.
Qed.

Lemma GetState_keeps : keeps_drv GetState.
Proof.
  unfold Google.GetState, Google.instance, Google.disk. keeps.
  apply GoogleFacts.newComputeUtil_keeps.
Qed.

(** [GetIP] writes nothing but the address, and only an address it
    resolved. *)
Lemma GetIP_writes (st st' : St) o :
  GetIP st = (o, st') ->
  drv st' = drv st \/
  exists a, a <> "" /\ o = Ret (a, None) /\ drv st' = set_IPAddress a (drv st).
Proof.
  unfold Google.GetIP. step_drv. intros H.
  destruct (negb _); [injection H as _ <-; now left|].
  apply bind_outcome in H as [(r & st1 & Hnew & H) | [(msg & Hnew & _) | [Hnew _]]].
  2, 3: left; exact (GoogleFacts.newComputeUtil_keeps _ _ _ _ _ _ Hnew).
  pose proof (GoogleFacts.newComputeUtil_keeps _ _ _ _ _ _ Hnew) as Hd1.
  destruct r as [c [e|]]; [injection H as _ <-; now left|].
  destruct c as [c|]; [|injection H as _ <-; now left].
  rewrite (bind_Ret _ _ _ _ _ (deref_Some _ _)) in H.
  apply bind_outcome in H as [(r & st2 & Hip & H) | [(msg & Hip & _) | [Hip _]]].
  2, 3: left; rewrite <- Hd1; exact (GoogleFacts.ip_keeps _ _ _ _ _ Hip).
  pose proof (GoogleFacts.ip_keeps _ _ _ _ _ Hip) as Hd2.
  destruct r as [addr [e|]]; [injection H as _ <-; left; congruence|].
  case_bool_decide as Haddr; [injection H as _ <-; left; congruence|].
  rewrite (bind_Ret _ _ _ _ _ (modify_drv_run _ _)) in H.
  injection H as <- <-. right. exists addr. cbn [drv].
  split; [exact Haddr|]. split; [reflexivity|]. congruence.
Qed.

(** X9.  [GetURL]: the error of [GetIP] is returned with an empty URL.
    Otherwise the URL is [tcp://] followed by the address joined to port
    2376, and a [GetURL] made right after returns the same URL without a
    call and without changing anything. *)
Theorem GetURL_cached (st st1 : St) a err :
  GetIP st = (Ret (a, err), st1) ->
  match err with
  | Some e => GetURL st = (Ret ("", Some e), st1)
  | None =>
    GetURL st = (Ret ("tcp://" +:+ JoinHostPort a "2376", None), st1) /\
    GetURL st1 = (Ret ("tcp://" +:+ JoinHostPort a "2376", None), st1)
  end.
Proof.
  intros H. destruct err as [e|].
  - unfold Google.GetURL. now step H.
  - destruct (GoogleFacts.Google_GetIP_stores _ _ _ _ _ H) as [Hne Hstored].
    split.
    + unfold Google.GetURL. now step H.
    + unfold Google.GetURL.
      rewrite (bind_Ret _ _ _ _ _
                 (GoogleFacts.Google_GetIP_cached FindStringSubmatch backend st1
                    ltac:(now rewrite Hstored))).
      now rewrite Hstored.
Qed.

(** A successful [Start] leaves an address in the driver. *)
Lemma Start_ok_address fuel (st st' : St) :
  Start fuel st = (Ret None, st') -> IPAddress (drv st') <> "".
Proof.
  unfold Google.Start. step_drv. intros H.
  unbind H r st1 Hnew. destruct r as [c [e|]]; [discriminate H|].
  unbind H c' st2 Hc. unbind H r st3 Hinst. destruct r as [inst err].
  cbn zeta in H.
  destruct (match err with
            | Some e => if negb (isNotFound e) then Some e else None
            | None => None
            end) as [e|]; [discriminate H|].
  unbind H err2 st4 Hrun. destruct err2 as [e|]; [discriminate H|].
  unbind H r st5 Hip. destruct r as [addr err3].
  unbind H u st6 Hset. injection H as -> <-.
  injection Hset as _ <-. cbn [drv IPAddress set_IPAddress].
  now destruct (GoogleFacts.Google_GetIP_stores _ _ _ _ _ Hip).
Qed.

(** X10.  [Start], once the client is built and the instance looked up.  A
    lookup error other than not-found is returned at once.  Otherwise, if
    the instance was found, the next call starts it and no later call
    changes anything at the provider.  If it was not found the instance is
    created anew: [Start] runs [createInstance] for the machine and, unless
    that succeeds, ends as it ends.  When it succeeds the provider was asked
    to insert an instance named after the machine, in its project and zone,
    and accepted; nothing was changed at the provider before that call, the
    calls after it only set the instance up, and the calls of [Start] after
    the creation change nothing.  In this branch the only calls that change
    anything insert an instance or set its metadata.  A [Start] that
    succeeds leaves a non-empty address in the driver. *)
Theorem Start_steps fuel (st st1 st2 : St) (c : ComputeUtil) inst err :
  newComputeUtil (drv st) st = (Ret (Some c, None), st1) ->
  instance c st1 = (Ret (inst, err), st2) ->
  (forall e, err = Some e -> isNotFound e = false ->
     Start fuel st = (Ret (Some e), st2)) /\
  ((err = None \/ exists e, err = Some e /\ isNotFound e = true) ->
   forall o st',
     Start fuel st = (o, st') ->
     match inst with
     | Some _ =>
       exists rest,
         trace st' = trace st2 ++
           InstancesStart (project c) (zone c) (instanceName c) :: rest /\
         Forall quiet rest
     | None =>
       (exists new,
          trace st' = trace st2 ++ new /\
          Forall (fun call =>
                    mutating call = true ->
                    (exists proj zn i, call = InstancesInsert proj zn i) \/
                    (exists proj zn name items,
                       call = InstancesSetMetadata proj zn name items)) new) /\
       exists created st3,
         createInstance fuel c (drv st) st2 = (created, st3) /\
         (created <> Ret None -> o = created /\ st' = st3) /\
         (created = Ret None ->
          (exists pre i (sta stb : St) op setup,
             trace sta = trace st2 ++ pre /\ Forall quiet pre /\
             Instance_Name i = instanceName c /\
             api backend (InstancesInsert (project c) (zone c) i) sta
               = (Ret (Some op, None), stb) /\
             trace st3 = trace stb ++ setup /\
             Forall (fun call => instance_setup call = true) setup) /\
          exists rest, trace st' = trace st3 ++ rest /\ Forall quiet rest)
     end) /\
  (forall st', Start fuel st = (Ret None, st') -> IPAddress (drv st') <> "").
Proof.
  intros Hnew Hinst.
  assert (Hrun : forall stop,
    stop = match err with
           | Some e => if negb (isNotFound e) then Some e else None
           | None => None
           end ->
    Start fuel st =
      (match stop with
       | Some e => mret (Some e)
       | None =>
         err ← match inst with
               | None => createInstance fuel c (drv st)
               | Some _ => startInstance fuel c
               end;
         match err with
         | Some e => mret (Some e)
         | None =>
           '(addr, err) ← GetIP;
           _ ← modify_drv (set_IPAddress addr);
           mret err
         end
       end : M (option error)) st2).
  { intros stop ->. unfold Google.Start. step_drv. step Hnew.
    rewrite (bind_Ret _ _ _ _ _ (deref_Some _ _)). now step Hinst. }
  split; [|split].
  - intros e -> Hnf. rewrite (Hrun (Some e)); [reflexivity|]. now rewrite Hnf.
  - intros Herr o st' H. rewrite (Hrun None) in H.
    2: { destruct Herr as [-> | (e & -> & Hnf)]; [reflexivity | now rewrite Hnf]. }
    assert (Htail : forall a : option error,
      only_calls quiet
        (match a with
         | Some e => mret (Some e)
         | None =>
           '(addr, err) ← GetIP;
           _ ← modify_drv (set_IPAddress addr);
           mret err
         end : M (option error))).
    { intros [e|]; [calls|]. apply only_calls_bind; [apply GetIP_quiet|].
      intros [addr err']. calls. }
    destruct inst as [i|].
    + unfold Google.startInstance in H. rewrite bind_assoc in H.
      refine (api_first_then backend quiet
                (InstancesStart (project c) (zone c) (instanceName c)) _ st2 o st' _ H).
      intros [op [e|]].
      * apply only_calls_bind; [calls | apply Htail].
      * apply only_calls_bind; [|apply Htail].
        calls. apply GoogleInstanceFacts.waitForRegionalOp_quiet.
    + split.
      2: { destruct (createInstance fuel c (drv st) st2) as [created st3] eqn:Hc.
           exists created, st3. split; [reflexivity|].
           destruct created as [[e|] | msg |].
           - rewrite (bind_Ret _ _ _ _ _ Hc) in H. injection H as <- <-.
             split; [now intros _ | discriminate].
           - rewrite (bind_Ret _ _ _ _ _ Hc) in H.
             split; [now intros []|]. intros _. split; [|exact (Htail None _ _ _ H)].
             apply GoogleInstanceFacts.createInstance_ok_inserts in Hc
               as (pre & i & sta & stb & op & setup & Hpre & Hq & Hwf & Hins & Hset).
             exists pre, i, sta, stb, op, setup.
             split; [exact Hpre|]. split; [exact Hq|].
             split; [exact (proj1 Hwf)|]. split; [exact Hins | exact Hset].
           - rewrite (bind_Panic _ _ _ _ _ Hc) in H. injection H as <- <-.
             split; [now intros _ | discriminate].
           - rewrite (bind_Diverge _ _ _ _ Hc) in H. injection H as <- <-.
             split; [now intros _ | discriminate]. }
      revert H. generalize st2 o st'.
      change (only_calls
        (fun call =>
           mutating call = true ->
           (exists proj zn i, call = InstancesInsert proj zn i) \/
           (exists proj zn name items,
              call = InstancesSetMetadata proj zn name items))
        (err ← createInstance fuel c (drv st);
         match err with
         | Some e => mret (Some e)
         | None =>
           '(addr, err) ← GetIP;
           _ ← modify_drv (set_IPAddress addr);
           mret err
         end : M (option error))).
      apply only_calls_bind.
      * apply GoogleInstanceFacts.createInstance_calls.
        -- intros call Hcall Hmut. destruct call; try discriminate.
           right. eauto.
        -- intros i _ _. left. eauto.
      * intros a. eapply only_calls_weaken; [|apply Htail].
        intros call Hq Hmut. congruence.
  - intros st'. apply Start_ok_address.
Qed.

(** A [Stop] that does not succeed leaves the driver as it was. *)
Lemma Stop_outcome fuel (st st' : St) o :
  Stop fuel st = (o, st') ->
  (o = Ret None /\ drv st' = set_IPAddress "" (drv st)) \/
  (o <> Ret None /\ drv st' = drv st).
Proof.
  unfold Google.Stop. step_drv. intros H.
  apply bind_outcome in H as [(r & st1 & Hnew & H) | [(msg & Hnew & ->) | [Hnew ->]]].
  2, 3: right; split; [discriminate|];
        exact (GoogleFacts.newComputeUtil_keeps _ _ _ _ _ _ Hnew).
  pose proof (GoogleFacts.newComputeUtil_keeps _ _ _ _ _ _ Hnew) as Hd1.
  destruct r as [c [e|]]; [injection H as <- <-; right; now split|].
  destruct c as [c|]; [|injection H as <- <-; right; now split].
  rewrite (bind_Ret _ _ _ _ _ (deref_Some _ _)) in H.
  assert (Hkeep : keeps_drv (stopInstance fuel c)).
  { unfold Google.stopInstance, Google.waitForRegionalOp, Google.waitForOp.
    keeps. clear. induction fuel as [|fuel IH]; cbn [waitForOp_loop]; keeps. }
  apply bind_outcome in H as [(r & st2 & Hstop & H) | [(msg & Hstop & ->) | [Hstop ->]]].
  2, 3: right; split; [discriminate|]; rewrite <- Hd1;
        exact (Hkeep _ _ _ Hstop).
  pose proof (Hkeep _ _ _ Hstop) as Hd2.
  destruct r as [e|]; [injection H as <- <-; right; split; [discriminate | congruence]|].
  rewrite (bind_Ret _ _ _ _ _ (modify_drv_run _ _)) in H.
  injection H as <- <-. left. split; [reflexivity|]. cbn [drv]. congruence.
Qed.

(** X11.  [Stop], and [Kill], which is [Stop]: the only call that changes
    anything at the provider stops the instance; after a [Stop] that
    succeeded the driver is as before with its address emptied; after one
    that did not, the driver is as before, its address included. *)
Theorem Stop_effects fuel :
  only_calls (fun call =>
                mutating call = true ->
                exists proj zn name, call = InstancesStop proj zn name)
             (Stop fuel) /\
  (forall (st st' : St) o,
     Stop fuel st = (o, st') ->
     (o = Ret None /\ drv st' = set_IPAddress "" (drv st)) \/
     (o <> Ret None /\ drv st' = drv st)) /\
  Google.Kill FindStringSubmatch Sprint backend fuel = Stop fuel.
Proof.
  split; [|split; [intros st st' o; apply Stop_outcome | reflexivity]].
  unfold Google.Stop, Google.stopInstance.
  apply only_calls_bind; [calls|]. intros d.
  apply only_calls_bind.
  { eapply only_calls_weaken; [|apply newComputeUtil_quiet_calls].
    intros call Hq Hmut. congruence. }
  intros [c [e|]]; [calls|].
  apply only_calls_bind; [calls|]. intros c'.
  apply only_calls_bind; [|intros [e|]; calls].
  apply only_calls_bind.
  - apply (only_calls_api backend _
             (InstancesStop (project c') (zone c') (instanceName c'))).
    intros _. eauto.
  - intros [op [e|]]; [calls|]. calls.
    eapply only_calls_weaken; [|apply GoogleInstanceFacts.waitForRegionalOp_quiet].
    intros call Hq Hmut. congruence.
Qed.

(** X12.  [Restart] is [Stop] followed by [Start].  If [Stop] fails, its
    error is returned, [Start] is not attempted and the driver is as it was;
    if [Stop] succeeds, [Restart] is [Start] run on the driver with its
    address emptied, so that the address is asked of the provider again; a
    [Restart] that succeeds leaves a non-empty address in the driver. *)
Theorem Restart_steps fuel (st : St) :
  (forall e st1,
     Stop fuel st = (Ret (Some e), st1) ->
     Restart fuel st = (Ret (Some e), st1) /\ drv st1 = drv st) /\
  (forall st1,
     Stop fuel st = (Ret None, st1) ->
     Restart fuel st = Start fuel st1 /\ IPAddress (drv st1) = "") /\
  (forall st', Restart fuel st = (Ret None, st') -> IPAddress (drv st') <> "").
Proof.
  split; [|split].
  - intros e st1 H. split.
    + unfold Google.Restart. now step H.
    + destruct (Stop_outcome _ _ _ _ H) as [[Hn _] | [_ Hd]];
        [discriminate Hn | exact Hd].
  - intros st1 H. split.
    + unfold Google.Restart. now step H.
    + exact (GoogleFacts.Google_Stop_clears _ _ _ _ _ _ H).
  - intros st' H. unfold Google.Restart in H.
    unbind H err st1 Hstop. destruct err as [e|]; [discriminate H|].
    exact (Start_ok_address _ _ _ H).
Qed.

Lemma openFirewallPorts_calls (P : Call -> Prop) fuel c d :
  (forall call, quiet call -> P call) ->
  (forall proj rule, P (FirewallsInsert proj rule)) ->
  (forall proj name rule, P (FirewallsUpdate proj name rule)) ->
  only_calls P (openFirewallPorts fuel c d).
Proof.
  intros HP Hinsert Hupdate.
  assert (Hwait : forall name,
            only_calls P (Google.waitForGlobalOp Sprint backend fuel c name)).
  { intros name. unfold Google.waitForGlobalOp.
    apply GoogleFacts.waitForOp_calls; try (intros; now apply HP).
    apply (only_calls_api backend P (GlobalOperationsWait (project c) name)).
    now apply HP. }
  unfold Google.openFirewallPorts, Google.firewallRule.
  destruct (skipFirewall c); [calls|].
  apply only_calls_bind.
  { apply (only_calls_api backend P
             (FirewallsGet (networkProject c) firewallRule_name)).
    now apply HP. }
  intros [rule [e|]]; [calls|].
  destruct rule as [r|].
  all: apply only_calls_bind; [apply GoogleFacts.only_calls_lift|];
       intros [ports [e|]]; [calls|];
       case_bool_decide; [calls|];
       apply only_calls_bind;
         [match goal with
          | |- only_calls _ (api _ ?call) => apply (only_calls_api backend P call)
          end; first [apply Hinsert | apply Hupdate]|];
       intros [op [e|]]; [calls|];
       apply only_calls_bind; [calls|]; intros op'; apply Hwait.
Qed.

(** X13.  [Create] for a machine that uses an existing instance never
    inserts, starts, stops or deletes an instance and never deletes a disk:
    besides the firewall rule it only sets the tags and the metadata of the
    instance it finds. *)
Theorem Create_use_existing fuel (st st' : St) o :
  UseExisting (drv st) = true ->
  Create fuel st = (o, st') ->
  exists new,
    trace st' = trace st ++ new /\
    Forall (fun call =>
              match call with
              | InstancesInsert _ _ _ | InstancesDelete _ _ _
              | InstancesStart _ _ _ | InstancesStop _ _ _
              | DisksDelete _ _ _ => False
              | _ => True
              end) new.
Proof.
  intros Huse. unfold Google.Create. step_drv. rewrite Huse. intros H.
  match type of H with
  | ?m st = _ =>
    match goal with
    | |- exists new, _ /\ Forall ?P new => assert (Hcalls : only_calls P m)
    end
  end; [|exact (Hcalls _ _ _ H)].
  clear H.
  apply only_calls_bind; [calls|]. intros [e|]; [calls|].
  apply only_calls_bind.
  { eapply only_calls_weaken; [|apply newComputeUtil_quiet_calls].
    intros call Hq. now destruct call. }
  intros [c [e|]]; [calls|].
  apply only_calls_bind; [calls|]. intros c'.
  apply only_calls_bind.
  { apply openFirewallPorts_calls; [|exact (fun _ _ => I) | exact (fun _ _ _ => I)].
    intros call Hq. now destruct call. }
  intros [e|]; [calls|].
  unfold Google.configureInstance, Google.instance, Google.addFirewallTag.
  apply only_calls_bind; [calls|]. intros [inst [e|]]; [calls|].
  apply only_calls_bind; [calls|]. intros inst'.
  apply only_calls_bind.
  { case_bool_decide; [calls|].
    apply only_calls_bind; [calls|]. intros [op [e|]]; [calls|].
    apply only_calls_bind; [calls|]. intros op'.
    eapply only_calls_weaken; [|apply GoogleInstanceFacts.waitForRegionalOp_quiet].
    intros call Hq. now destruct call. }
  intros [e|]; [calls|].
  apply GoogleInstanceFacts.uploadSSHKey_calls.
  intros call Hcall. now destruct call.
Qed.

Local Abbreviation portsUsed := (Google.portsUsed SplitPortProto url_Parse).

(** X14.  A swarm master whose swarm host does not parse, or parses to a
    host without [":"]: [portsUsed] returns the parse error, wrapped, or
    panics on the missing second piece; [openFirewallPorts] then ends right
    after the lookup of the rule, with that error or that panic, before
    anything is sent to the provider. *)
Theorem swarm_host_stops_firewall (c : ComputeUtil) :
  c_SwarmMaster c = true ->
  (forall u e,
     url_Parse (c_SwarmHost c) = (u, Some e) ->
     portsUsed c = Ret ([], Some (Errorf "error authorizing port for swarm: " e)) /\
     forall fuel d (st st1 : St) found,
       skipFirewall c = false ->
       Google.firewallRule backend c st = (Ret (found, None), st1) ->
       openFirewallPorts fuel c d st
         = (Ret (Some (Errorf "error authorizing port for swarm: " e)), st1)) /\
  (forall u,
     url_Parse (c_SwarmHost c) = (Some u, None) ->
     Contains (Host u) ":" = false ->
     portsUsed c = Panic "index out of range" /\
     forall fuel d (st st1 : St) found,
       skipFirewall c = false ->
       Google.firewallRule backend c st = (Ret (found, None), st1) ->
       openFirewallPorts fuel c d st = (Panic "index out of range", st1)).
Proof.
  intros Hswarm. split.
  - intros u e Hparse.
    assert (Hports : portsUsed c =
              Ret ([], Some (Errorf "error authorizing port for swarm: " e))).
    { unfold Google.portsUsed. rewrite Hswarm, Hparse. now destruct u. }
    split; [exact Hports|].
    intros fuel d st st1 found Hskip Hget. unfold Google.openFirewallPorts.
    rewrite Hskip. step Hget. cbn beta iota. rewrite Hports.
    now destruct found.
  - intros u Hparse Hhost.
    assert (Hports : portsUsed c = Panic "index out of range").
    { unfold Google.portsUsed. rewrite Hswarm, Hparse.
      now rewrite (StringFacts.Split_no_sep ":" (Host u) Hhost). }
    split; [exact Hports|].
    intros fuel d st st1 found Hskip Hget. unfold Google.openFirewallPorts.
    rewrite Hskip. step Hget. cbn beta iota. rewrite Hports.
    now destruct found.
Qed.

End WithBackend.
End GoogleLifecycleFacts.

(** ** The volume settings and the region table of the EC2 driver *)

Module EC2ConfigFacts.
Import Go GoFacts AmazonEC2.

Lemma clamp_cases (n bottom top : Z) :
  (n < bottom -> clamp n bottom top = bottom) /\
  (bottom <= n -> top < n -> clamp n bottom top = top) /\
  (bottom <= n <= top -> clamp n bottom top = n).
Proof.
  unfold clamp. split; [|split]; intros.
  - destruct (Z.ltb_spec n bottom); [reflexivity | lia].
  - destruct (Z.ltb_spec n bottom); [lia|].
    destruct (Z.ltb_spec top n); [reflexivity | lia].
  - destruct (Z.ltb_spec n bottom); [lia|].
    destruct (Z.ltb_spec top n); [lia | reflexivity].
Qed.

(** X15.  [clamp] and the volume it is used for.  With [bottom <= top] the
    result of [clamp] lies between the two and is [n] itself when [n] does;
    below [bottom] the result is [bottom] even when [bottom] exceeds [top].
    The volume asked for has the root size and is deleted on termination;
    for [io1] and [io2] it carries the IOPS of the driver as they are, for
    [gp3] at least 3000 IOPS and a throughput of at least 125 (the settings
    of the driver when they are larger, within [int64]), and for any other
    type neither. *)
Theorem ebsVolume_limits (RootSize : Z) (VolumeType : string)
    (VolumeIops VolumeThroughput : Z) (VolumeEncrypted : bool) :
  let volume := ebsVolume RootSize VolumeType VolumeIops VolumeThroughput
                  VolumeEncrypted in
  (forall n bottom top,
     (bottom <= top -> bottom <= clamp n bottom top <= top) /\
     (bottom <= n <= top -> clamp n bottom top = n) /\
     (n < bottom -> clamp n bottom top = bottom)) /\
  VolumeSize volume = RootSize /\
  DeleteOnTermination volume = true /\
  (VolumeType ∈ ["io1"; "io2"] ->
   Iops volume = Some VolumeIops /\ Throughput volume = None) /\
  (VolumeType = "gp3" ->
   VolumeIops <= MaxInt64 -> VolumeThroughput <= MaxInt64 ->
   Iops volume = Some (Z.max VolumeIops 3000) /\
   Throughput volume = Some (Z.max VolumeThroughput 125)) /\
  (VolumeType ∉ ["io1"; "io2"; "gp3"] ->
   Iops volume = None /\ Throughput volume = None).
Proof.
  intros volume. split; [|split; [|split; [|split; [|split]]]].
  - intros n bottom top. split; [|split].
    + intros Hle. unfold clamp.
      destruct (Z.ltb_spec n bottom); [lia|].
      destruct (Z.ltb_spec top n); lia.
    + apply clamp_cases.
    + apply clamp_cases.
  - subst volume. unfold ebsVolume.
    destruct (_ || _); [reflexivity|]. now case_bool_decide.
  - subst volume. unfold ebsVolume.
    destruct (_ || _); [reflexivity|]. now case_bool_decide.
  - intros Hin. subst volume. unfold ebsVolume.
    apply elem_of_cons in Hin as [-> | Hin]; [now split|].
    apply list_elem_of_singleton in Hin as ->. now split.
  - intros -> Hiops Hthr. subst volume. unfold ebsVolume.
    assert (Hmax : MaxInt64 = 9223372036854775807) by reflexivity.
    rewrite Hmax in Hiops, Hthr.
    rewrite (bool_decide_eq_false_2 ("gp3" = "io1")) by discriminate.
    rewrite (bool_decide_eq_false_2 ("gp3" = "io2")) by discriminate.
    rewrite (bool_decide_eq_true_2 ("gp3" = "gp3")) by reflexivity.
    cbn [orb Iops Throughput]. rewrite Hmax.
    unfold clamp, gp3MinimalVolumeIops, gp3MinimalVolumeThroughput.
    split; f_equal.
    + destruct (Z.ltb_spec VolumeIops 3000); [lia|].
      destruct (Z.ltb_spec 9223372036854775807 VolumeIops); lia.
    + destruct (Z.ltb_spec VolumeThroughput 125); [lia|].
      destruct (Z.ltb_spec 9223372036854775807 VolumeThroughput); lia.
  - intros Hnot. subst volume. unfold ebsVolume.
    rewrite !bool_decide_eq_false_2; [now split| |  |];
      intros ->; apply Hnot; set_solver.
Qed.

Lemma ebsVolume_limits_witness :
  Iops (ebsVolume 16 "gp3" 0 0 false) = Some 3000 /\
  Throughput (ebsVolume 16 "gp3" 0 0 false) = Some 125 /\
  Iops (ebsVolume 16 "io1" 0 0 false) = Some 0 /\
  Iops (ebsVolume 16 "gp2" 5000 0 false) = None /\
  clamp 7 3 5 = 5.
Proof.
  destruct (ebsVolume_limits 16 "gp3" 0 0 false) as (Hclamp & _ & _ & _ & Hgp3 & _).
  destruct (ebsVolume_limits 16 "io1" 0 0 false) as (_ & _ & _ & Hio & _).
  destruct (ebsVolume_limits 16 "gp2" 5000 0 false) as (_ & _ & _ & _ & _ & Hother).
  destruct (Hgp3 eq_refl) as [Hi Ht]; [unfold MaxInt64; lia | unfold MaxInt64; lia|].
  split; [exact Hi|]. split; [exact Ht|].
  split; [apply Hio; constructor|].
  split.
  - apply Hother. intros Hin.
    apply elem_of_cons in Hin as [Heq | Hin]; [discriminate Heq|].
    apply elem_of_cons in Hin as [Heq | Hin]; [discriminate Heq|].
    apply list_elem_of_singleton in Hin. discriminate Hin.
  - destruct (Hclamp 7 3 5) as (Hrange & _ & _).
    specialize (Hrange ltac:(lia)).
    assert (Hge : clamp 7 3 5 = 5) by reflexivity. exact Hge.
Defined.

Lemma validate_loop_spec (list : list string) (region : string) :
  validate_loop list region =
    if bool_decide (region ∈ list) then (region, None)
    else ("", Some (errorString "Invalid region specified")).
Proof.
  induction list as [|v list IH]; cbn [validate_loop].
  - now rewrite bool_decide_eq_false_2 by (intros H; inversion H).
  - destruct (decide (v = region)) as [-> | Hv].
    + rewrite (bool_decide_eq_true_2 (region = region)) by reflexivity.
      now rewrite bool_decide_eq_true_2 by constructor.
    + rewrite (bool_decide_eq_false_2 (v = region)) by exact Hv.
      rewrite IH. destruct (decide (region ∈ list)) as [Hin | Hin].
      * rewrite (bool_decide_eq_true_2 _ Hin).
        now rewrite bool_decide_eq_true_2 by (now constructor).
      * rewrite (bool_decide_eq_false_2 _ Hin).
        rewrite bool_decide_eq_false_2; [reflexivity|].
        intros H. apply elem_of_cons in H as [-> | H]; [now apply Hv | now apply Hin].
Qed.

Lemma awsRegionsList_spec (region : string) :
  region ∈ awsRegionsList <-> is_Some (regionDetails !! region).
Proof.
  unfold awsRegionsList. rewrite list_elem_of_fmap. split.
  - intros ([k image] & -> & Hin). apply elem_of_map_to_list in Hin. now exists image.
  - intros [image Hlook]. exists (region, image). split; [reflexivity|].
    now apply elem_of_map_to_list.
Qed.

(** X16.  [validateAwsRegion] accepts exactly the regions of the table and
    returns an accepted region as it is; any other region gives the empty
    string and the error.  The answer does not depend on the order in which
    the regions are listed. *)
Theorem validateAwsRegion_accepts (list : list string) (region : string) :
  (forall v, v ∈ list <-> v ∈ awsRegionsList) ->
  validate_loop list region = validateAwsRegion region /\
  (is_Some (regionDetails !! region) ->
   validateAwsRegion region = (region, None)) /\
  (regionDetails !! region = None ->
   validateAwsRegion region = ("", Some (errorString "Invalid region specified"))).
Proof.
  intros Hsame. unfold validateAwsRegion. rewrite !validate_loop_spec.
  split; [|split].
  - destruct (decide (region ∈ list)) as [Hin | Hin].
    + rewrite (bool_decide_eq_true_2 _ Hin).
      now rewrite bool_decide_eq_true_2 by (now apply Hsame).
    + rewrite (bool_decide_eq_false_2 _ Hin).
      now rewrite bool_decide_eq_false_2 by (intros H; now apply Hin, Hsame).
  - intros Hsome. now rewrite bool_decide_eq_true_2 by (now apply awsRegionsList_spec).
  - intros Hnone. rewrite bool_decide_eq_false_2; [reflexivity|].
    intros Hin. apply awsRegionsList_spec in Hin as [image Hlook]. congruence.
Qed.

Lemma validateAwsRegion_accepts_witness :
  validate_loop (reverse awsRegionsList) "eu-west-3" = validateAwsRegion "eu-west-3" /\
  validateAwsRegion "eu-west-3" = ("eu-west-3", None) /\
  validateAwsRegion "custom-endpoint" = ("custom-endpoint", None) /\
  validateAwsRegion "mars-1" = ("", Some (errorString "Invalid region specified")).
Proof.
  assert (Hrev : forall v, v ∈ reverse awsRegionsList <-> v ∈ awsRegionsList)
    by (intros v; apply elem_of_reverse).
  destruct (validateAwsRegion_accepts (reverse awsRegionsList) "eu-west-3" Hrev)
    as (Horder & Hyes & _).
  destruct (validateAwsRegion_accepts awsRegionsList "custom-endpoint"
              (fun v => conj (fun H => H) (fun H => H))) as (_ & Hcustom & _).
  destruct (validateAwsRegion_accepts awsRegionsList "mars-1"
              (fun v => conj (fun H => H) (fun H => H))) as (_ & _ & Hno).
  split; [exact Horder|]. split; [|split].
  - apply Hyes. exists "ami-08d0e3f9e0d3a5fb1". vm_compute. reflexivity.
  - apply Hcustom. exists "". vm_compute. reflexivity.
  - apply Hno. vm_compute. reflexivity.
Defined.

End EC2ConfigFacts.

(** ** The tags of an EC2 instance *)

Module EC2TagFacts.
Import Go GoFacts AmazonEC2.

Lemma tag_pairs_length_le n : forall t : list string,
  (length t <= n)%nat -> length (tag_pairs t) = (length t / 2)%nat.
Proof.
  induction n as [|n IH]; intros t Hlen.
  - destruct t; [reflexivity | cbn in Hlen; lia].
  - destruct t as [|k [|v rest]]; [reflexivity | reflexivity|].
    cbn [tag_pairs length]. rewrite IH by (cbn in Hlen; lia).
    change (S (S (length rest))) with (1 * 2 + length rest)%nat.
    now rewrite Nat.div_add_l by lia.
Qed.

Lemma tag_pairs_length (t : list string) :
  length (tag_pairs t) = (length t / 2)%nat.
Proof. now apply (tag_pairs_length_le (length t)). Qed.

Section WithBackend.
Context {W : Type}.
Variable backend : forall c : Call, W -> Resp c * W.
Local Abbreviation M := (Go.M Driver Call W).
Local Abbreviation St := (Go.St Driver Call W).
Local Abbreviation createTags := (AmazonEC2.createTags : M (list Tag)).
Local Abbreviation tag_in_batches := (AmazonEC2.tag_in_batches backend).

(** X17.  [createTags] makes no call and leaves the driver alone.  The first
    tag is [Name], with the machine name.  Without [d.Tags] it is the only
    one.  Otherwise the comma-separated elements of [d.Tags] are paired in
    order: with [n] elements there are [n / 2] more tags; an odd [n] is
    logged as a warning and the last element is dropped. *)
Theorem createTags_pairs (st : St) :
  let d := drv st in
  let t := Split (Tags d) "," in
  exists tags st',
    createTags st = (Ret tags, st') /\
    drv st' = drv st /\ trace st' = trace st /\
    head tags = Some (mkTag "Name" (MachineName d)) /\
    (Tags d = "" -> tags = [mkTag "Name" (MachineName d)] /\ st' = st) /\
    (Tags d <> "" ->
     tags = mkTag "Name" (MachineName d) :: tag_pairs t /\
     length tags = S (length t / 2) /\
     logs st' =
       logs st ++
       (if Nat.even (length t) then []
        else [Warnf "Tags are not key value in pairs. %d elements found"
                    [Itoa (Z.of_nat (length t))]])).
Proof.
  intros d t. unfold AmazonEC2.createTags. step_drv. fold d.
  destruct (decide (Tags d = "")) as [Hempty | Htags].
  - rewrite (bool_decide_eq_true_2 _ Hempty). cbn [negb].
    exists [mkTag "Name" (MachineName d)], st.
    split; [reflexivity|]. split; [reflexivity|]. split; [reflexivity|].
    split; [reflexivity|]. split; [intros _; now split|].
    intros Hne. now destruct Hne.
  - rewrite (bool_decide_eq_false_2 _ Htags). cbn [negb]. fold t.
    assert (Hpos : (0 < length t)%nat).
    { pose proof (StringFacts.Split_nonempty (Tags d) ",") as Hne. fold t in Hne.
      destruct t; [now destruct Hne | cbn; lia]. }
    rewrite (bool_decide_eq_true_2 _ Hpos).
    destruct (Nat.even (length t)) eqn:Heven.
    + assert (Hmod : (length t `mod` 2 = 0)%nat).
      { apply Nat.even_spec in Heven as [k Hk]. rewrite Hk.
        rewrite Nat.mul_comm. apply Nat.Div0.mod_mul. }
      rewrite (bool_decide_eq_true_2 _ Hmod). cbn [negb andb].
      exists (mkTag "Name" (MachineName d) :: tag_pairs t), st.
      split; [reflexivity|]. split; [reflexivity|]. split; [reflexivity|].
      split; [reflexivity|]. split; [intros He; now destruct Htags|].
      intros _. split; [reflexivity|]. split.
      * cbn [length]. now rewrite tag_pairs_length.
      * now rewrite app_nil_r.
    + assert (Hmod : (length t `mod` 2 <> 0)%nat).
      { intros Hmod. apply Nat.Div0.mod_divides in Hmod as [k Hk].
        rewrite Hk, Nat.even_mul in Heven. discriminate Heven. }
      rewrite (bool_decide_eq_false_2 _ Hmod). cbn [negb andb].
      eexists (mkTag "Name" (MachineName d) :: tag_pairs t), _.
      split; [reflexivity|]. cbn [drv trace logs warned].
      split; [reflexivity|]. split; [reflexivity|].
      split; [reflexivity|]. split; [intros He; now destruct Htags|].
      intros _. split; [reflexivity|]. split.
      * cbn [length]. now rewrite tag_pairs_length.
      * reflexivity.
Qed.

(** X18.  The tagging loop of [innerCreate], given more rounds than there
    are tags (the driver gives one more): it does not run out of rounds; it
    makes at least one [CreateTags] call, even without tags; every call is
    for the instance alone and carries at most ten tags; the tags sent, in
    the order of the calls, are a prefix of the tags.  The provider accepted
    every call but possibly the last.  If it accepted the last one too, all
    the tags were sent and the loop succeeds.  If it refused the last one,
    the loop ended there: nothing was sent after the refused call, and the
    result is the error of that call, wrapped.  The driver and the log are
    left alone. *)
Theorem tag_in_batches_sends (instanceId : string) :
  forall rounds (tags : list Tag) (st st' : St) o,
    (length tags < rounds)%nat ->
    tag_in_batches rounds instanceId tags st = (o, st') ->
    exists batches rest,
      trace st' = trace st ++ map (CreateTags [instanceId]) batches /\
      batches <> [] /\
      Forall (fun batch => (length batch <= 10)%nat) batches /\
      tags = concat batches ++ rest /\
      drv st' = drv st /\ logs st' = logs st /\
      world st' = snd (Tagging.replies backend instanceId batches (world st)) /\
      (o = Ret None /\ rest = [] /\
       fst (Tagging.replies backend instanceId batches (world st))
         = repeat None (length batches) \/
       exists e,
         fst (Tagging.replies backend instanceId batches (world st))
           = repeat None (length batches - 1) ++ [Some e] /\
         o = Ret (Some (Errorf "Error setting tags for the spot instance: " e))).
Proof.
  induction rounds as [|rounds IH]; intros tags st st' o Hlen H; [lia|].
  cbn [AmazonEC2.tag_in_batches] in H.
  apply bind_cases in H as [(err & st1 & Hapi & H) | (o1 & Hapi & Hno)].
  2: { inv_api Hapi. destruct Hapi as (-> & _). now destruct (Hno _ eq_refl). }
  inv_api Hapi. destruct Hapi as (Herr & Hdrv & Hlogs & Htrace & Hworld).
  injection Herr as Herr.
  assert (Hten : (length (take 10 tags) <= 10)%nat)
    by (rewrite length_take; lia).
  assert (Hone : Tagging.replies backend instanceId [take 10 tags] (world st)
                 = ([err], world st1)).
  { cbn [Tagging.replies]. rewrite Herr, Hworld.
    now destruct (backend (CreateTags [instanceId] (take 10 tags)) (world st)). }
  destruct err as [e|].
  - injection H as <- <-. exists [take 10 tags], (drop 10 tags).
    split; [now rewrite Htrace|]. split; [discriminate|].
    split; [now constructor|].
    split; [cbn [concat]; now rewrite app_nil_r, take_drop|].
    split; [exact Hdrv|]. split; [exact Hlogs|]. rewrite Hone.
    split; [reflexivity|]. right. now exists e.
  - case_bool_decide as Hdone.
    + injection H as <- <-. exists [take 10 tags], (drop 10 tags).
      split; [now rewrite Htrace|]. split; [discriminate|].
      split; [now constructor|].
      split; [cbn [concat]; now rewrite app_nil_r, take_drop|].
      split; [exact Hdrv|]. split; [exact Hlogs|]. rewrite Hone.
      split; [reflexivity|]. left. split; [reflexivity|].
      split; [now apply length_zero_iff_nil | reflexivity].
    + apply IH in H
        as (batches & rest & Ht & Hne & Hall & Htags & Hd & Hl & Hw & Ho).
      2: { rewrite length_drop in *. lia. }
      assert (Hcons : Tagging.replies backend instanceId (take 10 tags :: batches)
                        (world st)
                      = (None :: fst (Tagging.replies backend instanceId batches
                                        (world st1)),
                         snd (Tagging.replies backend instanceId batches
                                (world st1)))).
      { cbn [Tagging.replies]. rewrite Hworld.
        destruct (backend (CreateTags [instanceId] (take 10 tags)) (world st))
          as [reply w1]. cbn [fst snd] in *. subst reply.
        now destruct (Tagging.replies backend instanceId batches w1). }
      exists (take 10 tags :: batches), rest.
      split; [rewrite Ht, Htrace; cbn [map]; now rewrite <- app_assoc|].
      split; [discriminate|]. split; [now constructor|].
      split.
      { cbn [concat]. rewrite <- app_assoc, <- Htags. now rewrite take_drop. }
      split; [congruence|]. split; [congruence|]. rewrite Hcons. cbn [fst snd].
      split; [exact Hw|].
      destruct Ho as [(-> & -> & Hr) | (e & Hr & ->)].
      * left. split; [reflexivity|]. split; [reflexivity|].
        cbn [length repeat]. now rewrite Hr.
      * right. exists e. split; [|reflexivity]. rewrite Hr.
        destruct batches as [|b bs]; [now destruct Hne|].
        replace (length (take 10 tags :: b :: bs) - 1)%nat
          with (S (length (b :: bs) - 1)) by (cbn [length]; lia).
        reflexivity.
Qed.

End WithBackend.
End EC2TagFacts.

(** ** The prerequisites of an EC2 machine *)

Module EC2PrereqFacts.
Import Go GoFacts AmazonEC2.

(** [find] returns the first element that passes the test. *)
Lemma find_first {A} (f : A -> bool) (l : list A) (x : A) :
  find f l = Some x ->
  exists pre post, l = pre ++ x :: post /\ f x = true /\
                   Forall (fun y => f y = false) pre.
Proof.
  induction l as [|y l IH]; [discriminate|]. cbn [find].
  destruct (f y) eqn:Hy.
  - intros [= ->]. exists [], l. now repeat split.
  - intros H. destruct (IH H) as (pre & post & -> & Hx & Hpre).
    exists (y :: pre), post. split; [reflexivity|]. split; [exact Hx|].
    now constructor.
Qed.

Lemma find_nothing {A} (f : A -> bool) (l : list A) :
  find f l = None -> Forall (fun y => f y = false) l.
Proof.
  induction l as [|y l IH]; [constructor|]. cbn [find].
  destruct (f y) eqn:Hy; [discriminate|]. intros H. constructor; auto.
Qed.

Section WithBackend.
Context {W : Type}.
Variable backend : forall c : Call, W -> Resp c * W.
Local Abbreviation M := (Go.M Driver Call W).
Local Abbreviation St := (Go.St Driver Call W).
Local Abbreviation checkPrereqs := (AmazonEC2.checkPrereqs backend).
Local Abbreviation key_asked d :=
  (if bool_decide (KeyName d = "") then MachineName d else KeyName d).
Local Abbreviation subnet_filters d :=
  [mkFilter "availability-zone" [getRegionZone d]; mkFilter "vpc-id" [VpcId d]].
Local Abbreviation default_for_az :=
  (fun sn => match DefaultForAz sn with Some true => true | _ => false end).

(** The steps of [checkPrereqs]: the key lookup, after which it may stop,
    and, for a driver without subnet, the subnet lookup, after which it
    either stops or records the subnet it chose. *)
Lemma checkPrereqs_steps (st st' : St) o :
  checkPrereqs st = (o, st') ->
  let d := drv st in
  exists key err st1,
    api backend (DescribeKeyPairs (key_asked d)) st = (Ret (key, err), st1) /\
    ((st' = st1 /\ (o <> Ret None \/ SubnetId d <> "")) \/
     (SubnetId d = "" /\
      exists subnets err2 st2,
        api backend (DescribeSubnets (subnet_filters d)) st1
          = (Ret (subnets, err2), st2) /\
        ((st' = st2 /\ o <> Ret None) \/
         (exists first rest,
            subnets = Some (first :: rest) /\ err2 = None /\ o = Ret None /\
            st' = {| drv := assign (F_SubnetId
                               (match rest with
                                | [] => Subnet_SubnetId first
                                | _ =>
                                  match find default_for_az (first :: rest) with
                                  | Some sn => Subnet_SubnetId sn
                                  | None => Subnet_SubnetId first
                                  end
                                end)) d;
                     world := world st2; trace := trace st2;
                     logs := logs st2 |})))).
Proof.
  intros H d. unfold AmazonEC2.checkPrereqs in H. revert H. step_drv. fold d.
  assert (Hshape :
    (if bool_decide (KeyName d = "") then (MachineName d, false)
     else (KeyName d, true)) =
    (key_asked d, negb (bool_decide (KeyName d = "")))) by now case_bool_decide.
  rewrite Hshape. clear Hshape. cbn beta iota zeta.
  set (keyName := key_asked d). set (should := negb (bool_decide (KeyName d = ""))).
  step_api.
  destruct (fst (backend (DescribeKeyPairs keyName) (world st))) as [key err] eqn:Hans.
  match goal with
  | |- _ ?s = _ -> _ => set (st1 := s)
  end.
  intros H. exists key, err, st1.
  split. { rewrite api_run, Hans. reflexivity. }
  assert (Hd1 : drv st1 = d) by reflexivity.
  (* the key lookup failed for good *)
  destruct (match err with
            | Some (awserr_Error code _ _) =>
              if bool_decide (code = keypairNotFoundCode) && should
              then Some (errorString ("There is no keypair with the name " +:+ keyName
                           +:+ ". Please verify the key name provided."))
              else None
            | Some e => Some e
            | None => None
            end) as [e|] eqn:Hfailed.
  { injection H as <- <-. left. split; [reflexivity|]. now left. }
  apply bind_outcome in H as [(taken & st1' & Htaken & H) | Hstop].
  2: { left. destruct err as [e|].
       - destruct Hstop as [(msg & Hm & _) | (Hm & _)]; discriminate Hm.
       - destruct key as [key|].
         + destruct Hstop as [(msg & Hm & _) | (Hm & _)];
             rewrite (bind_Ret _ _ _ _ _ (deref_Some _ _)) in Hm; discriminate Hm.
         + destruct Hstop as [(msg & [= <- <-] & ->) | (Hm & _)]; [|discriminate Hm].
           split; [reflexivity|]. now left. }
  assert (st1' = st1) as ->.
  { destruct err as [e|]; [now injection Htaken|].
    destruct key as [key|]; [|discriminate Htaken].
    rewrite (bind_Ret _ _ _ _ _ (deref_Some _ _)) in Htaken.
    now injection Htaken. }
  clear Htaken. destruct taken.
  { injection H as <- <-. left. split; [reflexivity|]. now left. }
  case_bool_decide as Hsub.
  2: { injection H as <- <-. left. split; [reflexivity|]. now right. }
  right. split; [exact Hsub|].
  revert H. step_api.
  destruct (fst (backend (DescribeSubnets (subnet_filters d)) (world st1)))
    as [subnets err2] eqn:Hans2.
  match goal with
  | |- _ ?s = _ -> _ => set (st2 := s)
  end.
  intros H. exists subnets, err2, st2.
  split. { rewrite api_run, Hans2. reflexivity. }
  destruct err2 as [e|].
  { injection H as <- <-. left. now split. }
  destruct subnets as [subnets|].
  2: { injection H as <- <-. left. now split. }
  rewrite (bind_Ret _ _ _ _ _ (deref_Some _ _)) in H.
  destruct subnets as [|first rest].
  { injection H as <- <-. left. now split. }
  rewrite (bind_Ret _ _ _ _ _ (modify_drv_run _ _)) in H.
  injection H as <- <-. right. exists first, rest. now repeat split.
Qed.

(** X19.  [checkPrereqs] only asks: its first call describes the key pair
    named by [d.KeyName], or by the machine name when there is none; the one
    call that may follow, only for a driver without subnet, describes the
    subnets of the zone and VPC of the driver.  It logs no warning, and the
    one field of the driver it may write is [SubnetId], which it writes only
    when it succeeds. *)
Theorem checkPrereqs_asks_only (st st' : St) o :
  checkPrereqs st = (o, st') ->
  let d := drv st in
  logs st' = logs st /\
  (trace st' = trace st ++ [DescribeKeyPairs (key_asked d)] \/
   SubnetId d = "" /\
   trace st' = trace st ++ [DescribeKeyPairs (key_asked d);
                            DescribeSubnets (subnet_filters d)]) /\
  (drv st' = d \/
   exists subnet, SubnetId d = "" /\ o = Ret None /\
                  drv st' = assign (F_SubnetId subnet) d).
Proof.
  intros H d. apply checkPrereqs_steps in H. fold d in H.
  destruct H as (key & err & st1 & Hkey & H).
  inv_api Hkey. destruct Hkey as (_ & Hd1 & Hl1 & Ht1 & _).
  destruct H as [(-> & _) | (Hsub & subnets & err2 & st2 & Hsubnets & H)].
  { split; [exact Hl1|]. split; [now left | now left]. }
  inv_api Hsubnets. destruct Hsubnets as (_ & Hd2 & Hl2 & Ht2 & _).
  assert (Ht : trace st2 = trace st ++ [DescribeKeyPairs (key_asked d);
                                        DescribeSubnets (subnet_filters d)]).
  { now rewrite Ht2, Ht1, <- app_assoc. }
  destruct H as [(-> & _) | (first & rest & _ & _ & -> & ->)].
  - split; [congruence|]. split; [now right|]. left. now rewrite Hd2, Hd1.
  - cbn [logs trace drv]. split; [congruence|]. split; [now right|].
    right. eexists. split; [exact Hsub|]. split; reflexivity.
Qed.

(** X20.  What [checkPrereqs] makes of the answer to the key lookup.  An
    error that is not an AWS error is returned as it is.  An AWS error is
    dropped, whatever its code, except [InvalidKeyPair.NotFound] for a key
    the driver was given, which is reported.  A key pair found under the
    machine name, when no key was given, is a name clash.  In each of these
    cases where it stops, it stops without a further call; when an AWS error
    is dropped and the driver has a subnet, it succeeds. *)
Theorem checkPrereqs_key_lookup (st : St) key err st1 :
  let d := drv st in
  api backend (DescribeKeyPairs (key_asked d)) st = (Ret (key, err), st1) ->
  (forall e, err = Some e -> (forall c m r, e <> awserr_Error c m r) ->
     checkPrereqs st = (Ret (Some e), st1)) /\
  (forall m r, err = Some (awserr_Error keypairNotFoundCode m r) ->
     KeyName d <> "" ->
     checkPrereqs st =
       (Ret (Some (errorString
          ("There is no keypair with the name " +:+ KeyName d
           +:+ ". Please verify the key name provided."))), st1)) /\
  (forall keys, err = None -> key = Some keys -> keys <> [] ->
     KeyName d = "" ->
     checkPrereqs st =
       (Ret (Some (errorString
          ("There is already a keypair with the name " +:+ MachineName d
           +:+ ".  Please either remove that keypair or use a different machine name."))),
        st1)) /\
  (forall c m r, err = Some (awserr_Error c m r) ->
     c <> keypairNotFoundCode \/ KeyName d = "" ->
     SubnetId d <> "" ->
     checkPrereqs st = (Ret None, st1)).
Proof.
  intros d Hcall.
  pose proof Hcall as Hinv. inv_api Hinv. destruct Hinv as (_ & Hd1 & _).
  assert (Hrun : forall keyShouldExist,
    (if bool_decide (KeyName d = "") then (MachineName d, false)
     else (KeyName d, true)) = (key_asked d, keyShouldExist) ->
    checkPrereqs st =
      (match
         match err with
         | Some (awserr_Error code _ _) =>
           if bool_decide (code = keypairNotFoundCode) && keyShouldExist
           then Some (errorString ("There is no keypair with the name "
                        +:+ key_asked d
                        +:+ ". Please verify the key name provided."))
           else None
         | Some e => Some e
         | None => None
         end
       with
       | Some e => mret (Some e)
       | None =>
         taken ←
           match err with
           | None =>
             key ← deref key;
             mret (negb (bool_decide (length key = 0%nat)) && negb keyShouldExist)
           | Some _ => mret false
           end;
         if taken : bool then
           mret (Some (errorString
             ("There is already a keypair with the name " +:+ MachineName d
              +:+ ".  Please either remove that keypair or use a different machine name.")))
         else if bool_decide (SubnetId d = "") then
           '(subnets, err) ← api backend (DescribeSubnets (subnet_filters d));
           match err with
           | Some e => mret (Some e)
           | None =>
             subnets ← deref subnets;
             match subnets with
             | [] =>
               mret (Some (errorString
                 ("unable to find a subnet that is both in the zone "
                  +:+ getRegionZone d
                  +:+ " and belonging to VPC ID " +:+ VpcId d)))
             | first :: rest =>
               _ ← modify_drv (assign (F_SubnetId
                      (match rest with
                       | [] => Subnet_SubnetId first
                       | _ =>
                         match find default_for_az subnets with
                         | Some sn => Subnet_SubnetId sn
                         | None => Subnet_SubnetId first
                         end
                       end)));
               mret None
             end
           end
         else mret None
       end : M (option error)) st1).
  { intros keyShouldExist Hshape. unfold AmazonEC2.checkPrereqs. step_drv. fold d.
    rewrite Hshape. cbn beta iota zeta. now step Hcall. }
  split; [|split; [|split]].
  - intros e -> Hnot.
    destruct (decide (KeyName d = "")) as [Hk|Hk].
    + rewrite (Hrun false) by now rewrite !(bool_decide_eq_true_2 _ Hk).
      destruct e; try reflexivity. now destruct (Hnot Code Message rest).
    + rewrite (Hrun true) by now rewrite !(bool_decide_eq_false_2 _ Hk).
      destruct e; try reflexivity. now destruct (Hnot Code Message rest).
  - intros m r -> Hk.
    rewrite (Hrun true) by now rewrite !(bool_decide_eq_false_2 _ Hk).
    rewrite (bool_decide_eq_true_2 _ (eq_refl keypairNotFoundCode)). cbn [andb].
    now rewrite (bool_decide_eq_false_2 _ Hk).
  - intros keys -> -> Hkeys Hk.
    rewrite (Hrun false) by now rewrite !(bool_decide_eq_true_2 _ Hk).
    rewrite (bind_assoc _ _ _ st1), (bind_Ret _ _ _ _ _ (deref_Some _ _)).
    assert (Hlen : length keys <> 0%nat) by now destruct keys.
    rewrite (bind_Ret _ _ _ _ _ (mret_run _ _)).
    now rewrite (bool_decide_eq_false_2 _ Hlen).
  - intros c m r -> Hc Hsub.
    assert (Hnone : forall keyShouldExist,
              (c <> keypairNotFoundCode \/ keyShouldExist = false) ->
              (if bool_decide (c = keypairNotFoundCode) && keyShouldExist
               then Some (errorString ("There is no keypair with the name "
                            +:+ key_asked d
                            +:+ ". Please verify the key name provided."))
               else None) = None).
    { intros b [Hne | ->].
      - now rewrite (bool_decide_eq_false_2 _ Hne).
      - now rewrite andb_false_r. }
    destruct (decide (KeyName d = "")) as [Hk|Hk].
    + rewrite (Hrun false) by now rewrite !(bool_decide_eq_true_2 _ Hk).
      rewrite Hnone by now right.
      rewrite (bind_Ret _ _ _ _ _ (mret_run _ _)).
      now rewrite (bool_decide_eq_false_2 _ Hsub).
    + rewrite (Hrun true) by now rewrite !(bool_decide_eq_false_2 _ Hk).
      destruct Hc as [Hc | Hc]; [|now destruct Hk].
      rewrite Hnone by now left.
      rewrite (bind_Ret _ _ _ _ _ (mret_run _ _)).
      now rewrite (bool_decide_eq_false_2 _ Hsub).
Qed.

(** X21.  The subnet [checkPrereqs] records for a driver without one: it is
    one of the subnets the provider listed; it is the only one listed, or
    the first one listed that is the default of its zone, or, when none is,
    the first one listed. *)
Theorem checkPrereqs_subnet (st st' : St) :
  SubnetId (drv st) = "" ->
  checkPrereqs st = (Ret None, st') ->
  exists (st1 st2 : St) listed chosen,
    api backend (DescribeSubnets (subnet_filters (drv st))) st1
      = (Ret (Some listed, None), st2) /\
    world st' = world st2 /\
    chosen ∈ listed /\
    drv st' = assign (F_SubnetId (Subnet_SubnetId chosen)) (drv st) /\
    (listed = [chosen] \/
     (exists pre post, listed = pre ++ chosen :: post /\
        DefaultForAz chosen = Some true /\
        Forall (fun sn => DefaultForAz sn <> Some true) pre) \/
     (head listed = Some chosen /\
      Forall (fun sn => DefaultForAz sn <> Some true) listed)).
Proof.
  intros Hsub H. apply checkPrereqs_steps in H. cbn zeta in H.
  destruct H as (key & err & st1 & _ & H).
  destruct H as [(_ & [Ho | Hne]) | (_ & subnets & err2 & st2 & Hsubnets & H)].
  { now destruct Ho. }
  { now destruct Hne. }
  destruct H as [(_ & Ho) | (first & rest & -> & -> & _ & ->)].
  { now destruct Ho. }
  assert (Hno : forall l : list Subnet,
            Forall (fun y => default_for_az y = false) l ->
            Forall (fun sn => DefaultForAz sn <> Some true) l).
  { intros l Hl. eapply Forall_impl; [exact Hl|].
    intros sn Hsn Heq. cbn beta in Hsn. rewrite Heq in Hsn. discriminate Hsn. }
  destruct rest as [|second rest].
  { exists st1, st2, [first], first. split; [exact Hsubnets|].
    split; [reflexivity|]. split; [apply list_elem_of_here|].
    split; [reflexivity|]. now left. }
  destruct (find default_for_az (first :: second :: rest)) as [sn|] eqn:Hfind.
  - apply find_first in Hfind as (pre & post & Hl & Hsn & Hpre).
    exists st1, st2, (first :: second :: rest), sn. split; [exact Hsubnets|].
    split; [reflexivity|].
    split; [rewrite Hl; apply elem_of_app; right; apply list_elem_of_here|].
    split; [reflexivity|]. right. left. exists pre, post.
    split; [exact Hl|]. split; [|now apply Hno].
    destruct (DefaultForAz sn) as [[|]|]; [reflexivity | discriminate Hsn..].
  - apply find_nothing in Hfind.
    exists st1, st2, (first :: second :: rest), first. split; [exact Hsubnets|].
    split; [reflexivity|]. split; [apply list_elem_of_here|].
    split; [reflexivity|]. right. right. split; [reflexivity | now apply Hno].
Qed.

End WithBackend.
End EC2PrereqFacts.

(** ** The key pair of an EC2 machine *)

Module EC2KeyFacts.
Import Go GoFacts AmazonEC2.

Section WithBackend.
Context {W : Type}.
Variable GetSSHKeyPath : Driver -> string.
Variable backend : forall c : Call, W -> Resp c * W.
Local Abbreviation M := (Go.M Driver Call W).
Local Abbreviation St := (Go.St Driver Call W).
Local Abbreviation createKeyPair := (AmazonEC2.createKeyPair GetSSHKeyPath backend).
Local Abbreviation quiet := (fun c : Call => mutating c = false).

(** The first half of [createKeyPair]: the private key is generated, or the
    key files of the user are copied.  It changes nothing at the provider and
    leaves the driver and the log alone; it ends [createKeyPair] with an
    error, or with success when the user named a key pair of their own, or
    hands on the path next to which the public key is read. *)
Lemma key_files_steps (st st' : St) (o : outcome (option error + string)) :
  let d := drv st in
  (if bool_decide (SSHPrivateKeyPath d = "") then
     err ← api backend (GenerateSSHKey (GetSSHKeyPath d));
     match err with
     | Some e => mret (inl (Some e))
     | None => mret (inr (GetSSHKeyPath d))
     end
   else
     err ← api backend (CopyFile (SSHPrivateKeyPath d) (GetSSHKeyPath d));
     match err with
     | Some e => mret (inl (Some e))
     | None =>
       err ← api backend (CopyFile (SSHPrivateKeyPath d +:+ ".pub")
                                   (GetSSHKeyPath d +:+ ".pub"));
       match err with
       | Some e => mret (inl (Some e))
       | None =>
         if negb (bool_decide (KeyName d = "")) then mret (inl None)
         else mret (inr (SSHPrivateKeyPath d))
       end
     end : M (option error + string)) st = (o, st') ->
  drv st' = d /\ logs st' = logs st /\
  exists new, trace st' = trace st ++ new /\ Forall quiet new /\
    ((exists e, o = Ret (inl (Some e))) \/
     (o = Ret (inl None) /\ SSHPrivateKeyPath d <> "" /\ KeyName d <> "" /\
      new = [CopyFile (SSHPrivateKeyPath d) (GetSSHKeyPath d);
             CopyFile (SSHPrivateKeyPath d +:+ ".pub") (GetSSHKeyPath d +:+ ".pub")]) \/
     (o = Ret (inr (if bool_decide (SSHPrivateKeyPath d = "")
                    then GetSSHKeyPath d else SSHPrivateKeyPath d)) /\
      (SSHPrivateKeyPath d <> "" -> KeyName d = ""))).
Proof.
  intros d. case_bool_decide as Hpath.
  - step_api. destruct (fst (backend _ (world st))) as [e|]; intros [= <- <-].
    + split; [reflexivity|]. split; [reflexivity|]. eexists. split; [reflexivity|].
      split; [now constructor|]. left. now exists e.
    + split; [reflexivity|]. split; [reflexivity|]. eexists. split; [reflexivity|].
      split; [now constructor|]. right. right. split; [reflexivity|].
      intros Hne. now destruct Hne.
  - step_api. destruct (fst (backend _ (world st))) as [e|].
    { intros [= <- <-]. split; [reflexivity|]. split; [reflexivity|].
      eexists. split; [reflexivity|]. split; [now constructor|].
      left. now exists e. }
    step_api.
    match goal with
    | |- match ?r with _ => _ end _ = _ -> _ => destruct r as [e|]
    end.
    { intros [= <- <-]. split; [reflexivity|]. split; [reflexivity|].
      eexists. split; [cbn [trace]; rewrite <- app_assoc; reflexivity|].
      split; [now repeat constructor|]. left. now exists e. }
    case_bool_decide as Hkey; cbn [negb]; intros [= <- <-].
    + split; [reflexivity|]. split; [reflexivity|].
      eexists. split; [cbn [trace]; rewrite <- app_assoc; reflexivity|].
      split; [now repeat constructor|]. right. right. now split.
    + split; [reflexivity|]. split; [reflexivity|].
      eexists. split; [cbn [trace]; rewrite <- app_assoc; reflexivity|].
      split; [now repeat constructor|]. right. left. now repeat split.
Qed.


End WithBackend.
End EC2KeyFacts.

(** ** The default VPC and the address of an EC2 machine *)

Module EC2LookupFacts.
Import Go GoFacts AmazonEC2.

Section WithAccount.
Context {W : Type}.
Variable backend : forall c : AccountCall, W -> AccountResp c * W.
Local Abbreviation St := (Go.St Driver AccountCall W).
Local Abbreviation getDefaultVPCId := (AmazonEC2.getDefaultVPCId backend).
Local Abbreviation default_vpc_loop :=
  (AmazonEC2.default_vpc_loop : _ -> Go.M Driver AccountCall W _).

Lemma default_vpc_loop_skips (pre rest : list AccountAttribute) (st : St) :
  Forall (fun a => AttributeName a <> "default-vpc") pre ->
  default_vpc_loop (pre ++ rest) st = default_vpc_loop rest st.
Proof.
  induction 1 as [|a pre Ha _ IH]; [reflexivity|].
  cbn [app AmazonEC2.default_vpc_loop]. now rewrite (bool_decide_eq_false_2 _ Ha).
Qed.

(** X23.  [getDefaultVPCId] makes one call and leaves the driver alone.  An
    error of the call is returned as it is.  Otherwise the first account
    attribute named [default-vpc] decides, whatever follows it: its first
    value is the VPC, unless that value is [none], which is an error; if it
    has no value the function panics.  Without such an attribute the result
    is an error. *)
Theorem getDefaultVPCId_cases (st : St) output err st1 :
  api backend DescribeAccountAttributes st = (Ret (output, err), st1) ->
  trace st1 = trace st ++ [DescribeAccountAttributes] /\ drv st1 = drv st /\
  (forall e, err = Some e -> getDefaultVPCId st = (Ret ("", Some e), st1)) /\
  (forall attributes, err = None -> output = Some attributes ->
     (Forall (fun a => AttributeName a <> "default-vpc") attributes ->
      getDefaultVPCId st =
        (Ret ("", Some (errorString "No default-vpc attribute")), st1)) /\
     (forall pre a post,
        attributes = pre ++ a :: post ->
        Forall (fun a => AttributeName a <> "default-vpc") pre ->
        AttributeName a = "default-vpc" ->
        getDefaultVPCId st =
          match AttributeValues a with
          | [] => (Panic "index out of range", st1)
          | value :: _ =>
            if bool_decide (value = "none")
            then (Ret ("", Some (errorString "default-vpc is 'none'")), st1)
            else (Ret (value, None), st1)
          end)).
Proof.
  intros Hcall.
  pose proof Hcall as Hinv. apply (api_inv backend DescribeAccountAttributes) in Hinv.
  destruct Hinv as (_ & Hdrv & _ & Htrace & _).
  split; [exact Htrace|]. split; [exact Hdrv|]. split.
  - intros e ->. unfold AmazonEC2.getDefaultVPCId. now step Hcall.
  - intros attributes -> ->.
    assert (Hrun : getDefaultVPCId st = default_vpc_loop attributes st1).
    { unfold AmazonEC2.getDefaultVPCId. step Hcall. cbn beta iota.
      now rewrite (bind_Ret _ _ _ _ _ (deref_Some _ _)). }
    rewrite Hrun. split.
    + intros Hnone. rewrite <- (app_nil_r attributes).
      now rewrite default_vpc_loop_skips.
    + intros pre a post -> Hpre Ha. rewrite default_vpc_loop_skips by exact Hpre.
      cbn [AmazonEC2.default_vpc_loop]. rewrite (bool_decide_eq_true_2 _ Ha).
      destruct (AttributeValues a) as [|value values]; [reflexivity|].
      change (index (value :: values) 0) with (mret value : Go.M Driver AccountCall W _).
      rewrite (bind_Ret _ _ _ _ _ (mret_run _ _)).
      now case_bool_decide.
Qed.

End WithAccount.

Section WithBackend.
Context {W : Type}.
Variable backend : forall c : Call, W -> Resp c * W.
Local Abbreviation St := (Go.St Driver Call W).
Local Abbreviation GetIP := (AmazonEC2.GetIP backend).

(** X24.  [GetIP] on a driver without stored address always returns, after
    exactly one call, which describes the instance of the driver, and leaves
    the driver as it is.  An address it returns without error is that of the
    first instance of the first reservation in the answer: the private
    address if the driver is set to private addresses only or to use the
    private address, the public address otherwise.  Together with an error
    it returns the empty address. *)
Theorem EC2_GetIP_resolves (st : St) :
  IPAddress (drv st) = "" ->
  let d := drv st in
  exists addr err st',
    GetIP st = (Ret (addr, err), st') /\
    trace st' = trace st ++ [DescribeInstances (InstanceId d)] /\
    drv st' = d /\ logs st' = logs st /\
    (err = None ->
     exists r reservations inst instances,
       fst (backend (DescribeInstances (InstanceId d)) (world st))
         = (Some (r :: reservations), None) /\
       Instances r = inst :: instances /\
       Some addr = if PrivateIPOnly d || UsePrivateIP d
                   then PrivateIpAddress inst else PublicIpAddress inst) /\
    (err <> None -> addr = "").
Proof.
  intros Hempty d. unfold AmazonEC2.GetIP. step_drv. fold d.
  rewrite (bool_decide_eq_true_2 _ Hempty). cbn [negb].
  unfold AmazonEC2.getInstance. rewrite bind_assoc. step_drv. fold d.
  rewrite bind_assoc. step_api.
  destruct (fst (backend (DescribeInstances (InstanceId d)) (world st)))
    as [reservations err] eqn:Hans.
  cbn beta iota.
  destruct err as [e|].
  { eexists _, _, _. split; [reflexivity|]. cbn [trace drv logs].
    split; [reflexivity|]. split; [reflexivity|]. split; [reflexivity|].
    split; [discriminate | reflexivity]. }
  destruct reservations as [[|r reservations]|].
  1, 3: eexists _, _, _; (split; [reflexivity|]); cbn [trace drv logs];
        (split; [reflexivity|]); (split; [reflexivity|]); (split; [reflexivity|]);
        (split; [discriminate | reflexivity]).
  destruct (Instances r) as [|inst instances] eqn:Hinst.
  { eexists _, _, _. split; [reflexivity|]. cbn [trace drv logs].
    split; [reflexivity|]. split; [reflexivity|]. split; [reflexivity|].
    split; [discriminate | reflexivity]. }
  rewrite (bind_Ret _ _ _ _ _ (mret_run _ _)). cbn beta iota.
  rewrite (bind_Ret _ _ _ _ _ (deref_Some _ _)).
  destruct (PrivateIPOnly d), (UsePrivateIP d); cbn [orb].
  1, 2, 3: destruct (PrivateIpAddress inst) as [a|] eqn:Ha.
  7: destruct (PublicIpAddress inst) as [a|] eqn:Ha.
  all: eexists _, _, _; (split; [reflexivity|]); cbn [trace drv logs];
       (split; [reflexivity|]); (split; [reflexivity|]); (split; [reflexivity|]);
       split.
  all: first [ discriminate
             | intros _; reflexivity
             | intros Hne; now destruct Hne
             | intros _; exists r, reservations, inst, instances;
               split; [reflexivity|]; split; [exact Hinst | now rewrite Ha] ].
Qed.

End WithBackend.
End EC2LookupFacts.

(** ** The launch of an EC2 instance *)

Module EC2LaunchFacts.
Import Go GoFacts AmazonEC2.

Section WithBackend.
Context {W : Type}.
Variable SplitPortProto : string -> string * string.
Variable ParseInt : string -> Z * option error.
Variable base64_EncodeToString : string -> string.
Variable GetSSHKeyPath : Driver -> string.
Variable maxAttempts : nat.
Variable interval : Duration.
Variable swarmPort : Z.
Variable backend : forall c : Call, W -> Resp c * W.
Local Abbreviation M := (Go.M Driver Call W).
Local Abbreviation St := (Go.St Driver Call W).
Local Abbreviation createKeyPair := (AmazonEC2.createKeyPair GetSSHKeyPath backend).
Local Abbreviation configure_groups :=
  (AmazonEC2.configure_groups SplitPortProto ParseInt maxAttempts interval
     swarmPort backend).
Local Abbreviation configureSecurityGroups :=
  (AmazonEC2.configureSecurityGroups SplitPortProto ParseInt maxAttempts interval
     swarmPort backend).
Local Abbreviation Base64UserData :=
  (AmazonEC2.Base64UserData base64_EncodeToString backend).
Local Abbreviation WaitFor_loop :=
  (AmazonEC2.WaitFor_loop maxAttempts interval backend).
Local Abbreviation tag_in_batches := (AmazonEC2.tag_in_batches backend).
Local Abbreviation innerCreate :=
  (AmazonEC2.innerCreate SplitPortProto ParseInt base64_EncodeToString
     GetSSHKeyPath maxAttempts interval swarmPort backend).

(** The calls that prepare a launch, those that wait for the instance, and
    those that may follow the launch of a spot instance. *)
Local Abbreviation preparing :=
  (fun c : Call => match c with
                   | RunInstances _ | CreateTags _ _ => False
                   | _ => True
                   end).
Local Abbreviation waiting :=
  (fun c : Call => match c with
                   | DescribeInstances _ | Sleep _ => True
                   | _ => False
                   end).
Local Abbreviation tagging_or_waiting :=
  (fun c : Call => match c with
                   | CreateTags _ _ | DescribeInstances _ | Sleep _ => True
                   | _ => False
                   end).
Local Abbreviation tags_of d :=
  (mkTag "Name" (MachineName d)
   :: (if bool_decide (Tags d = "") then [] else tag_pairs (Split (Tags d) ","))).

Lemma assign_same_ids (d : Driver) :
  assign (F_SecurityGroupIds (SecurityGroupIds d ++ [])) d = d.
Proof. rewrite app_nil_r. now destruct d. Qed.

Lemma createKeyPair_calls : only_calls preparing createKeyPair.
Proof. unfold AmazonEC2.createKeyPair. calls. Qed.

Lemma createKeyPair_drv (st st' : St) o :
  createKeyPair st = (o, st') ->
  drv st' = drv st \/
  drv st' = assign (F_KeyName (MachineName (drv st))) (drv st).
Proof.
  intros H. unfold AmazonEC2.createKeyPair in H. revert H. step_drv. intros H.
  apply bind_cases in H as [(early & st1 & Hearly & H) | (o1 & Hearly & _)].
  2: { apply EC2KeyFacts.key_files_steps in Hearly as (Hd & _). now left. }
  apply EC2KeyFacts.key_files_steps in Hearly as (Hd1 & _).
  destruct early as [r | keyPath].
  { injection H as _ <-. now left. }
  revert H. step_api.
  match goal with
  | |- (let '(_, _) := ?r in _) _ = _ -> _ => destruct r as [publicKey [e|]]
  end.
  { intros [= _ <-]. now left. }
  step_api.
  match goal with
  | |- match ?r with _ => _ end _ = _ -> _ => destruct r as [e|]
  end.
  { intros [= _ <-]. now left. }
  rewrite (bind_Ret _ _ _ _ _ (modify_drv_run _ _)). intros [= _ <-].
  right. cbn [drv]. now rewrite Hd1.
Qed.

Lemma configure_groups_drv groupsByName groupNames :
  forall (st st' : St) o,
    configure_groups groupsByName groupNames st = (o, st') ->
    exists more,
      drv st' = assign (F_SecurityGroupIds (SecurityGroupIds (drv st) ++ more))
                       (drv st) /\
      (length more <= length groupNames)%nat /\
      (o = Ret None -> length more = length groupNames).
Proof.
  induction groupNames as [|groupName rest IH]; intros st st' o H.
  { injection H as _ <-. exists []. now rewrite assign_same_ids. }
  cbn [AmazonEC2.configure_groups] in H.
  rewrite (bind_Ret _ _ _ _ _ (get_drv_run _)) in H.
  apply bind_outcome in H as [(found & st1 & Hfound & H) | Hstop].
  2: { exists []. rewrite assign_same_ids. cbn [length].
       destruct Hstop as [(msg & Hfound & ->) | (Hfound & ->)].
       all: match type of Hfound with
            | ?m _ = _ =>
              assert (Hkeep : keeps_drv m)
                by (destruct (groupsByName !! groupName); keeps;
                    unfold WaitFor; apply SecurityGroupFacts.WaitFor_loop_keeps;
                    unfold securityGroupAvailableFunc; keeps)
            end.
       all: split; [exact (Hkeep _ _ _ Hfound)|]; split; [lia | discriminate]. }
  match type of Hfound with
  | ?m _ = _ =>
    assert (Hkeep : keeps_drv m)
      by (destruct (groupsByName !! groupName); keeps;
          unfold WaitFor; apply SecurityGroupFacts.WaitFor_loop_keeps;
          unfold securityGroupAvailableFunc; keeps)
  end.
  pose proof (Hkeep _ _ _ Hfound) as Hd1.
  destruct found as [e | group].
  { injection H as <- <-. exists []. rewrite assign_same_ids. cbn [length].
    split; [exact Hd1|]. split; [lia | discriminate]. }
  rewrite (bind_Ret _ _ _ _ _ (modify_drv_run _ _)) in H.
  rewrite (bind_Ret _ _ _ _ _ (get_drv_run _)) in H.
  match type of H with
  | _ ?s = _ => set (st2 := s) in *
  end.
  assert (Hd2 : drv st2 =
                assign (F_SecurityGroupIds
                          (SecurityGroupIds (drv st) ++ [GroupId group])) (drv st))
    by (subst st2; cbn [drv]; now rewrite Hd1).
  assert (Hmore : forall (st3 : St) n (R : Prop),
            (exists more, drv st3 =
               assign (F_SecurityGroupIds (SecurityGroupIds (drv st2) ++ more))
                      (drv st2) /\
               (length more <= n)%nat /\ (R -> length more = n)) ->
            exists more, drv st3 =
               assign (F_SecurityGroupIds (SecurityGroupIds (drv st) ++ more))
                      (drv st) /\
               (length more <= S n)%nat /\ (R -> length more = S n)).
  { intros st3 n R (more & Hd3 & Hle & Hlen). exists (GroupId group :: more).
    split; [|cbn [length]; split; [lia | intros HR; now rewrite (Hlen HR)]].
    rewrite Hd3, Hd2. cbn [SecurityGroupIds assign].
    now rewrite <- app_assoc. }
  assert (Hfailed : forall e : error,
            drv st' = drv st2 -> o = Ret (Some e) ->
            exists more, drv st' =
               assign (F_SecurityGroupIds (SecurityGroupIds (drv st) ++ more))
                      (drv st) /\
               (length more <= S (length rest))%nat /\
               (o = Ret None -> length more = S (length rest))).
  { intros e Hd' ->. exists [GroupId group]. cbn [length].
    split; [now rewrite Hd'|]. split; [lia | discriminate]. }
  destruct (configureSecurityGroupPermissions _ _ _ (drv st2) group)
    as [perms [e|]].
  { injection H as <- <-. now apply (Hfailed e). }
  case_bool_decide as Hlen; cbn [negb] in H.
  { apply Hmore. eapply IH, H. }
  apply bind_outcome in H as [(err & st3 & Hapi & H) | Hstop].
  2: { destruct Hstop as [(msg & Hapi & _) | (Hapi & _)];
         inv_api Hapi; destruct Hapi as (Hno & _); discriminate Hno. }
  inv_api Hapi. destruct Hapi as (_ & Hd3 & _).
  destruct err as [e|].
  { injection H as <- <-. now apply (Hfailed e). }
  apply IH in H as (more & H & Hle & Hn). apply Hmore. exists more.
  split; [now rewrite H, Hd3|]. now split.
Qed.

Lemma configureSecurityGroups_drv groupNames (st st' : St) o :
  configureSecurityGroups groupNames st = (o, st') ->
  exists more,
    drv st' = assign (F_SecurityGroupIds (SecurityGroupIds (drv st) ++ more))
                     (drv st) /\
    (length more <= length groupNames)%nat /\
    (o = Ret None -> length more = length groupNames).
Proof.
  intros H. unfold AmazonEC2.configureSecurityGroups in H.
  case_bool_decide as Hlen.
  { injection H as _ <-. exists []. rewrite assign_same_ids. cbn [length].
    split; [reflexivity|]. split; [lia | now rewrite Hlen]. }
  rewrite (bind_Ret _ _ _ _ _ (get_drv_run _)) in H.
  apply bind_outcome in H as [([groups err] & st1 & Hapi & H) | Hstop].
  2: { destruct Hstop as [(msg & Hapi & _) | (Hapi & _)];
         inv_api Hapi; destruct Hapi as (Hno & _); discriminate Hno. }
  inv_api Hapi. destruct Hapi as (_ & Hd1 & _).
  destruct err as [e|].
  { injection H as <- <-. exists []. rewrite assign_same_ids. cbn [length].
    split; [exact Hd1|]. split; [lia | discriminate]. }
  destruct groups as [groups|].
  2: { injection H as <- <-. exists []. rewrite assign_same_ids. cbn [length].
       split; [exact Hd1|]. split; [lia | discriminate]. }
  rewrite (bind_Ret _ _ _ _ _ (deref_Some _ _)) in H.
  apply configure_groups_drv in H as (more & H & Hle & Hn). exists more.
  split; [now rewrite H, Hd1|]. now split.
Qed.

(** X26.  [configureSecurityGroups] writes no field of the driver but
    [SecurityGroupIds], to which it only appends: at most one id for each
    group name, and exactly one for each when it succeeds.  The ids appended
    before a failure stay in the driver. *)
Theorem configureSecurityGroups_records_ids groupNames (st st' : St) o :
  configureSecurityGroups groupNames st = (o, st') ->
  exists ids,
    drv st' = assign (F_SecurityGroupIds (SecurityGroupIds (drv st) ++ ids))
                     (drv st) /\
    (length ids <= length groupNames)%nat /\
    (o = Ret None -> length ids = length groupNames).
Proof. apply configureSecurityGroups_drv. Qed.

Lemma configureSecurityGroups_prepares groupNames :
  only_calls preparing (configureSecurityGroups groupNames).
Proof.
  intros st o st' H.
  apply SecurityGroupFacts.configureSecurityGroups_calls in H as (new & Ht & HP).
  exists new. split; [exact Ht|]. eapply Forall_impl; [exact HP|].
  intros c Hc. destruct c; try exact I; discriminate Hc.
Qed.

Lemma createTags_value (st : St) :
  exists st', (AmazonEC2.createTags : M _) st = (Ret (tags_of (drv st)), st') /\
              drv st' = drv st /\ trace st' = trace st /\ world st' = world st.
Proof.
  unfold AmazonEC2.createTags. step_drv. case_bool_decide; cbn [negb].
  - now exists st.
  - match goal with
    | |- context [if ?b then log_Warnf ?f ?a else mret tt] => destruct b
    end.
    + eexists. split; [reflexivity|]. now repeat split.
    + exists st. now repeat split.
Qed.

Lemma tag_in_batches_calls instanceId rounds :
  forall tags, only_calls tagging_or_waiting (tag_in_batches rounds instanceId tags).
Proof.
  induction rounds as [|rounds IH]; intros tags; cbn [AmazonEC2.tag_in_batches];
    calls. apply IH.
Qed.

Lemma GetIP_waits : only_calls waiting (AmazonEC2.GetIP backend).
Proof. unfold AmazonEC2.GetIP, AmazonEC2.getInstance. calls. Qed.

Lemma GetState_waits : only_calls waiting (AmazonEC2.GetState backend).
Proof. unfold AmazonEC2.GetState, AmazonEC2.getInstance. calls. Qed.

Lemma WaitFor_waits (f : M bool) :
  only_calls waiting f -> only_calls waiting (AmazonEC2.WaitFor maxAttempts interval backend f).
Proof.
  intros Hf. unfold AmazonEC2.WaitFor.
  apply SecurityGroupFacts.WaitFor_loop_calls; [exact I | exact Hf].
Qed.

Lemma instanceIpAvailable_waits :
  only_calls waiting (AmazonEC2.instanceIpAvailable backend).
Proof.
  unfold AmazonEC2.instanceIpAvailable. calls. apply GetIP_waits.
Qed.

Lemma waitForInstance_waits :
  only_calls waiting (AmazonEC2.waitForInstance maxAttempts interval backend).
Proof.
  unfold AmazonEC2.waitForInstance. apply WaitFor_waits.
  unfold AmazonEC2.instanceIsRunning. calls. apply GetState_waits.
Qed.

Lemma Base64UserData_prepares : only_calls preparing Base64UserData.
Proof. unfold AmazonEC2.Base64UserData. calls. Qed.

Lemma Base64UserData_keeps : keeps_drv Base64UserData.
Proof. unfold AmazonEC2.Base64UserData. keeps. Qed.

(** One more step of a run whose calls so far all satisfy [P]. *)
Lemma only_calls_after (P : Call -> Prop) {A} (m : M A) (st st1 st2 : St) o pre :
  only_calls P m -> m st1 = (o, st2) ->
  trace st1 = trace st ++ pre -> Forall P pre ->
  exists pre', trace st2 = trace st ++ pre' /\ Forall P pre'.
Proof.
  intros Hm Hrun Ht HP. destruct (Hm _ _ _ Hrun) as (new & Ht2 & HP2).
  exists (pre ++ new). split; [now rewrite Ht2, Ht, app_assoc|].
  now apply Forall_app.
Qed.

(** What follows the launch: the instance is awaited, and a spot instance is
    tagged before that. *)
Lemma after_launch_calls (inst : Instance) :
  only_calls tagging_or_waiting
    (_ ← modify_drv (assign (F_InstanceId (Instance_InstanceId inst)));
     d ← get_drv;
     err ←
       (if RequestSpotInstance d && negb (bool_decide (InstanceId d = ""))
        then
          tags ← AmazonEC2.createTags;
          tag_in_batches (S (length tags)) (Instance_InstanceId inst) tags
        else mret None);
     match err with
     | Some e => mret (Some e)
     | None =>
       err ← AmazonEC2.WaitFor maxAttempts interval backend
               (AmazonEC2.instanceIpAvailable backend);
       match err with
       | Some e => mret (Some e)
       | None =>
         _ ← match PrivateIpAddress inst with
             | Some a => modify_drv (assign (F_PrivateIPAddress a))
             | None => mret tt
             end;
         _ ← AmazonEC2.waitForInstance maxAttempts interval backend;
         mret None
       end
     end : M (option error)).
Proof.
  assert (Hweak : forall (A : Type) (m : M A),
            only_calls waiting m -> only_calls tagging_or_waiting m).
  { intros A m. apply only_calls_weaken. now intros []. }
  calls.
  - unfold AmazonEC2.createTags. calls.
  - apply tag_in_batches_calls.
  - apply Hweak, WaitFor_waits, instanceIpAvailable_waits.
  - apply Hweak, waitForInstance_waits.
Qed.

Lemma after_launch_waits (inst : Instance) (st : St) :
  RequestSpotInstance (drv st) = false ->
  forall o st',
    (_ ← modify_drv (assign (F_InstanceId (Instance_InstanceId inst)));
     d ← get_drv;
     err ←
       (if RequestSpotInstance d && negb (bool_decide (InstanceId d = ""))
        then
          tags ← AmazonEC2.createTags;
          tag_in_batches (S (length tags)) (Instance_InstanceId inst) tags
        else mret None);
     match err with
     | Some e => mret (Some e)
     | None =>
       err ← AmazonEC2.WaitFor maxAttempts interval backend
               (AmazonEC2.instanceIpAvailable backend);
       match err with
       | Some e => mret (Some e)
       | None =>
         _ ← match PrivateIpAddress inst with
             | Some a => modify_drv (assign (F_PrivateIPAddress a))
             | None => mret tt
             end;
         _ ← AmazonEC2.waitForInstance maxAttempts interval backend;
         mret None
       end
     end : M (option error)) st = (o, st') ->
    exists post, trace st' = trace st ++ post /\ Forall waiting post.
Proof.
  intros Hflag o st'.
  rewrite (bind_Ret _ _ _ _ _ (modify_drv_run _ _)).
  rewrite (bind_Ret _ _ _ _ _ (get_drv_run _)).
  cbn [drv assign RequestSpotInstance]. rewrite Hflag. cbn [andb].
  rewrite (bind_Ret _ _ _ _ _ (mret_run _ _)).
  match goal with
  | |- ?m ?s = _ -> _ =>
    assert (Hcalls : only_calls waiting m)
      by (calls;
          first [apply WaitFor_waits, instanceIpAvailable_waits
                | apply waitForInstance_waits]);
    intros H; exact (Hcalls _ _ _ H)
  end.
Qed.

(** X25.  What [innerCreate] launches.  The calls before the launch prepare
    it: none of them launches or tags.  If [RunInstances] is called at all
    it is called once, for the image, instance type, subnet and zone of the
    driver, with the key pair the driver was given or the one imported under
    the machine name, and with the security groups the driver had followed
    by those configured.  For an on-demand instance the request carries the
    tags of the driver for the instance, its volume and its network
    interface, and every later call only waits for the instance.  For a spot
    instance the request carries no tags, and the later calls tag or wait. *)
Theorem innerCreate_launch (st st' : St) o :
  innerCreate st = (o, st') ->
  let d := drv st in
  exists pre, Forall preparing pre /\
    ((trace st' = trace st ++ pre /\ o <> Ret None) \/
     exists req post,
       trace st' = trace st ++ pre ++ RunInstances req :: post /\
       ImageId req = AMI d /\
       Req_InstanceType req = InstanceType d /\
       Req_SubnetId req = SubnetId d /\
       AvailabilityZone req = getRegionZone d /\
       AssociatePublicIpAddress req = negb (PrivateIPOnly d) /\
       SpotMarket req = RequestSpotInstance d /\
       (Req_KeyName req = KeyName d \/ Req_KeyName req = MachineName d) /\
       (exists more,
          Groups req = migrateStringToSlice (SecurityGroupId d)
                         (SecurityGroupIds d ++ more)) /\
       (if RequestSpotInstance d
        then TagSpecifications req = [] /\ Forall tagging_or_waiting post
        else TagSpecifications req =
               [("instance", tags_of d); ("volume", tags_of d);
                ("network-interface", tags_of d)] /\
             Forall waiting post)).
Proof.
  intros H d. unfold AmazonEC2.innerCreate in H.
  assert (Ht0 : trace st = trace st ++ []) by now rewrite app_nil_r.
  assert (HP0 : Forall preparing []) by constructor.
  (* the key pair *)
  apply bind_outcome in H as [(err & st1 & Hkey & H) | Hstop].
  2: { destruct Hstop as [(msg & Hm & ->) | (Hm & ->)];
       destruct (only_calls_after _ _ _ _ _ _ _ createKeyPair_calls Hm Ht0 HP0)
         as (pre & Ht & HP);
       exists pre; (split; [exact HP|]); left; (split; [exact Ht | discriminate]). }
  destruct (only_calls_after _ _ _ _ _ _ _ createKeyPair_calls Hkey Ht0 HP0)
    as (pre1 & Ht1 & HP1).
  apply createKeyPair_drv in Hkey as Hd1. fold d in Hd1.
  destruct err as [e|].
  { injection H as <- <-. exists pre1. split; [exact HP1|]. left.
    split; [exact Ht1 | discriminate]. }
  (* the security groups *)
  rewrite (bind_Ret _ _ _ _ _ (get_drv_run _)) in H.
  apply bind_outcome in H as [(err & st2 & Hgroups & H) | Hstop].
  2: { destruct Hstop as [(msg & Hm & ->) | (Hm & ->)];
       destruct (only_calls_after _ _ _ _ _ _ _
                   (configureSecurityGroups_prepares _) Hm Ht1 HP1)
         as (pre & Ht & HP);
       exists pre; (split; [exact HP|]); left; (split; [exact Ht | discriminate]). }
  destruct (only_calls_after _ _ _ _ _ _ _
              (configureSecurityGroups_prepares _) Hgroups Ht1 HP1)
    as (pre2 & Ht2 & HP2).
  apply configureSecurityGroups_drv in Hgroups as (more & Hd2 & _).
  destruct err as [e|].
  { injection H as <- <-. exists pre2. split; [exact HP2|]. left.
    split; [exact Ht2 | discriminate]. }
  (* the user data *)
  apply bind_outcome in H as [([userdata err] & st3 & Hdata & H) | Hstop].
  2: { destruct Hstop as [(msg & Hm & ->) | (Hm & ->)];
       destruct (only_calls_after _ _ _ _ _ _ _ Base64UserData_prepares Hm Ht2 HP2)
         as (pre & Ht & HP);
       exists pre; (split; [exact HP|]); left; (split; [exact Ht | discriminate]). }
  destruct (only_calls_after _ _ _ _ _ _ _ Base64UserData_prepares Hdata Ht2 HP2)
    as (pre3 & Ht3 & HP3).
  apply Base64UserData_keeps in Hdata as Hd3.
  destruct err as [e|].
  { injection H as <- <-. exists pre3. split; [exact HP3|]. left.
    split; [exact Ht3 | discriminate]. }
  rewrite (bind_Ret _ _ _ _ _ (get_drv_run _)) in H.
  (* the driver at the launch *)
  assert (Hd : exists k, (k = KeyName d \/ k = MachineName d) /\
                 drv st3 = assign (F_SecurityGroupIds (SecurityGroupIds d ++ more))
                             (assign (F_KeyName k) d)).
  { rewrite Hd3, Hd2. destruct Hd1 as [-> | ->].
    - exists (KeyName d). split; [now left|]. now destruct d.
    - exists (MachineName d). split; [now right | reflexivity]. }
  destruct Hd as (k & Hk & Hd). rewrite Hd in H. clear Hd1 Hd2 Hd3.
  cbn [AMI InstanceType SubnetId PrivateIPOnly RequestSpotInstance KeyName
       assign] in H.
  exists pre3. split; [exact HP3|].
  assert (Hlaunched : forall (req : RunInstancesInput) (st4 : St) specs post
                             (Q : Call -> Prop),
    req = {| ImageId := AMI d;
             AvailabilityZone :=
               getRegionZone
                 (assign (F_SecurityGroupIds (SecurityGroupIds d ++ more))
                    (assign (F_KeyName k) d));
             Req_KeyName := k;
             Req_InstanceType := InstanceType d;
             Groups :=
               securityGroupIds
                 (assign (F_SecurityGroupIds (SecurityGroupIds d ++ more))
                    (assign (F_KeyName k) d));
             Req_SubnetId := SubnetId d;
             AssociatePublicIpAddress := negb (PrivateIPOnly d);
             UserData := userdata;
             SpotMarket := RequestSpotInstance d;
             TagSpecifications := specs |} ->
    trace st4 = trace st3 ++ [RunInstances req] ->
    trace st' = trace st4 ++ post ->
    Forall Q post ->
    exists req post,
      trace st' = trace st ++ pre3 ++ RunInstances req :: post /\
      ImageId req = AMI d /\
      Req_InstanceType req = InstanceType d /\
      Req_SubnetId req = SubnetId d /\
      AvailabilityZone req = getRegionZone d /\
      AssociatePublicIpAddress req = negb (PrivateIPOnly d) /\
      SpotMarket req = RequestSpotInstance d /\
      (Req_KeyName req = KeyName d \/ Req_KeyName req = MachineName d) /\
      (exists more,
         Groups req = migrateStringToSlice (SecurityGroupId d)
                        (SecurityGroupIds d ++ more)) /\
      TagSpecifications req = specs /\ Forall Q post).
  { intros req st4 specs post Q -> Ht4 Htp HQ. eexists _, post.
    split; [rewrite Htp, Ht4, Ht3, <- !app_assoc; reflexivity|].
    cbn [ImageId Req_InstanceType Req_SubnetId AvailabilityZone
         AssociatePublicIpAddress SpotMarket Req_KeyName Groups
         TagSpecifications].
    split; [reflexivity|]. split; [reflexivity|]. split; [reflexivity|].
    split; [reflexivity|]. split; [reflexivity|]. split; [reflexivity|].
    split; [exact Hk|]. split; [now exists more|]. now split. }
  destruct (RequestSpotInstance d) eqn:Hspot.
  - (* a spot instance *)
    rewrite (bind_Ret _ _ _ _ _ (mret_run _ _)) in H.
    match type of H with
    | (api _ (RunInstances ?r) ≫= _) _ = _ => set (req := r) in *
    end.
    revert H. step_api.
    destruct (fst (backend (RunInstances req) (world st3))) as [inst err].
    match goal with
    | |- _ ?s = _ -> _ => set (st4 := s)
    end.
    intros H. right.
    assert (Hpost : exists post, trace st' = trace st4 ++ post /\
                                 Forall tagging_or_waiting post).
    { destruct err as [e|].
      { injection H as _ <-. exists []. now rewrite app_nil_r. }
      destruct inst as [[|inst insts]|].
      1, 3: injection H as _ <-; exists []; now rewrite app_nil_r.
      exact (after_launch_calls inst _ _ _ H). }
    destruct Hpost as (post & Htp & HPp).
    destruct (Hlaunched req st4 [] post _ eq_refl eq_refl Htp HPp)
      as (req' & post' & Hl).
    exists req', post'. tauto.
  - (* an on-demand instance *)
    unfold AmazonEC2.createTagSpecifications in H.
    rewrite bind_assoc in H.
    destruct (createTags_value st3) as (st3' & Htags & Hd3' & Ht3' & _).
    rewrite (bind_Ret _ _ _ _ _ Htags) in H.
    rewrite (bind_Ret _ _ _ _ _ (mret_run _ _)) in H.
    match type of H with
    | (api _ (RunInstances ?r) ≫= _) _ = _ => set (req := r) in *
    end.
    revert H. step_api.
    destruct (fst (backend (RunInstances req) (world st3'))) as [inst err].
    match goal with
    | |- _ ?s = _ -> _ => set (st4 := s)
    end.
    intros H. right.
    assert (Hflag : RequestSpotInstance (drv st4) = false).
    { subst st4. cbn [drv]. now rewrite Hd3', Hd. }
    assert (Hpost : exists post, trace st' = trace st4 ++ post /\
                                 Forall waiting post).
    { destruct err as [e|].
      { injection H as _ <-. exists []. now rewrite app_nil_r. }
      destruct inst as [[|inst insts]|].
      1, 3: injection H as _ <-; exists []; now rewrite app_nil_r.
      exact (after_launch_waits inst _ Hflag _ _ H). }
    destruct Hpost as (post & Htp & HPp).
    assert (Hspecs : tags_of (drv st3) = tags_of d) by now rewrite Hd.
    destruct (Hlaunched req st4 _ post _ eq_refl
                ltac:(subst st4; cbn [trace]; now rewrite Ht3') Htp HPp)
      as (req' & post' & Hl).
    exists req', post'. rewrite <- Hspecs. tauto.
Qed.

End WithBackend.
End EC2LaunchFacts.

(** ** Runs of the Google driver on the in-memory provider *)

Module GoogleRuns.
Import Go Google.

Local Abbreviation addFirewallTag :=
  (Google.addFirewallTag FakeGCE.show_op_error FakeGCE.backend).
Local Abbreviation uploadSSHKey :=
  (Google.uploadSSHKey id FakeGCE.show_op_error FakeGCE.backend).
Local Abbreviation createInstance :=
  (Google.createInstance id FakeGCE.key_path FakeGCE.show_op_error FakeGCE.backend).
Local Abbreviation GetIP := (Google.GetIP FakeGCE.no_match FakeGCE.backend).
Local Abbreviation GetURL :=
  (Google.GetURL FakeGCE.no_match FakeGCE.backend FakeGCE.join_host_port).
Local Abbreviation Start :=
  (Google.Start FakeGCE.no_match id FakeGCE.key_path FakeGCE.show_op_error
     FakeGCE.backend).
Local Abbreviation Stop :=
  (Google.Stop FakeGCE.no_match FakeGCE.show_op_error FakeGCE.backend).
Local Abbreviation Restart :=
  (Google.Restart FakeGCE.no_match id FakeGCE.key_path FakeGCE.show_op_error
     FakeGCE.backend).
Local Abbreviation Create :=
  (Google.Create Lib.SplitPortProto Lib.url_Parse FakeGCE.no_match id
     FakeGCE.key_path FakeGCE.show_op_error FakeGCE.backend).
Local Abbreviation openFirewallPorts :=
  (Google.openFirewallPorts Lib.SplitPortProto Lib.url_Parse
     FakeGCE.show_op_error FakeGCE.backend).

Lemma prepareMetadata_items_witness :
  let d := FakeGCE.driver_with_metadata in
  let st := FakeGCE.start d FakeGCE.empty_cloud in
  let items := [mkMetadataItems "role" "db";
                mkMetadataItems "startup-script" "ssh-rsa AAAA"] in
  fst (prepareMetadata FakeGCE.backend d st) = Ret (items, None) /\
  forall item, item ∈ items ->
    Value item <> "" /\
    (Metadata d !! Key item = Some (Value item) \/
     exists path, MetadataFromFile d !! Key item = Some path /\ path <> "").
Proof.
  intros d st items.
  pose (st' := snd (prepareMetadata FakeGCE.backend d st)).
  assert (Hrun : prepareMetadata FakeGCE.backend d st = (Ret (items, None), st'))
    by (vm_compute; reflexivity).
  destruct (GoogleInstanceFacts.prepareMetadata_items FakeGCE.backend
              d st st' items None Hrun) as (_ & _ & Hitems).
  split; [now rewrite Hrun | exact Hitems].
Defined.

Lemma addFirewallTag_idempotent_witness :
  let c := FakeGCE.util_of FakeGCE.driver0 in
  let st := FakeGCE.start FakeGCE.driver0 (FakeGCE.cloud_with_instance "RUNNING") in
  addFirewallTag 10 c (FakeGCE.instance_in "RUNNING") st = (Ret None, st) /\
  exists rest,
    trace (snd (addFirewallTag 10 c FakeGCE.untagged_instance st)) =
      InstancesSetTags "proj" "us-central1-a" "machine" ["web"; "docker-machine"]
      :: rest /\
    Forall (fun call => mutating call = false) rest.
Proof.
  intros c st. split.
  - destruct (GoogleInstanceFacts.addFirewallTag_idempotent FakeGCE.show_op_error
                FakeGCE.backend 10 c (FakeGCE.instance_in "RUNNING") st)
      as (Htagged & _ & _).
    apply Htagged. apply (list_elem_of_lookup_2 _ 0%nat). reflexivity.
  - destruct (GoogleInstanceFacts.addFirewallTag_idempotent FakeGCE.show_op_error
                FakeGCE.backend 10 c FakeGCE.untagged_instance st)
      as (_ & Hsets & _).
    apply (Hsets ltac:(intros Hin; apply list_elem_of_singleton in Hin;
                       discriminate Hin)
                 (fst (addFirewallTag 10 c FakeGCE.untagged_instance st))).
    apply surjective_pairing.
Defined.

Lemma uploadSSHKey_appends_witness :
  let c := FakeGCE.util_of FakeGCE.driver0 in
  let st := FakeGCE.start FakeGCE.driver0 (FakeGCE.cloud_with_instance "RUNNING") in
  let path := "/store/machines/machine/id_rsa" in
  let value := "ubuntu:ssh-rsa AAAA ubuntu" +:+ newline in
  exists rest,
    trace (snd (uploadSSHKey 10 c FakeGCE.untagged_instance path st)) =
      [ReadFile "/store/machines/machine/id_rsa.pub"] ++
      InstancesSetMetadata "proj" "us-central1-a" "machine"
        [mkMetadataItems "role" "db"; mkMetadataItems "sshKeys" value;
         mkMetadataItems "ssh-keys" value] :: rest /\
    Forall (fun call => mutating call = false) rest.
Proof.
  intros c st path value.
  pose (st1 := snd (api FakeGCE.backend (ReadFile (path +:+ ".pub")) st)).
  assert (Hread : api FakeGCE.backend (ReadFile (path +:+ ".pub")) st
                  = (Ret ("ssh-rsa AAAA", None), st1))
    by (vm_compute; reflexivity).
  exact (GoogleInstanceFacts.uploadSSHKey_appends id FakeGCE.show_op_error
           FakeGCE.backend 10 c FakeGCE.untagged_instance path st st1
           "ssh-rsa AAAA" None Hread
           (fst (uploadSSHKey 10 c FakeGCE.untagged_instance path st))
           (snd (uploadSSHKey 10 c FakeGCE.untagged_instance path st))
           (surjective_pairing _)).
Defined.

Lemma createInstance_internal_only_address_witness :
  let run := fun d : Driver =>
    createInstance 10 (FakeGCE.util_of d) d (FakeGCE.start d FakeGCE.empty_cloud) in
  (fst (run FakeGCE.driver_internal_only) = Panic "index out of range" /\
   fst (run FakeGCE.driver_internal_short_zone)
     = Panic "slice bounds out of range" /\
   fst (run FakeGCE.driver_internal_named) = Panic "index out of range" /\
   trace (snd (run FakeGCE.driver_internal_named))
     = [AddressesGet "proj" "us-central1" "my-address"]) /\
  Forall (fun d =>
            fst (run d) <> Ret None /\
            exists new, trace (snd (run d)) = [] ++ new /\
                        Forall (fun call => mutating call = false) new)
         [FakeGCE.driver_internal_only; FakeGCE.driver_internal_short_zone;
          FakeGCE.driver_internal_named].
Proof.
  intros run. split; [vm_compute; now repeat split|].
  assert (Hrun : forall d,
            useInternalIPOnly (FakeGCE.util_of d) = true ->
            address (FakeGCE.util_of d) <> "" ->
            fst (run d) <> Ret None /\
            exists new, trace (snd (run d)) = [] ++ new /\
                        Forall (fun call => mutating call = false) new).
  { intros d Hint Haddr.
    destruct (GoogleInstanceFacts.createInstance_internal_only_address
                id FakeGCE.key_path FakeGCE.show_op_error FakeGCE.backend
                10 (FakeGCE.util_of d) d (FakeGCE.start d FakeGCE.empty_cloud)
                (snd (run d)) (fst (run d))
                Hint Haddr (surjective_pairing _))
      as (Hne & Hcalls & _).
    split; [exact Hne | exact Hcalls]. }
  repeat constructor; apply Hrun; (reflexivity || discriminate).
Defined.

Lemma createInstance_request_witness :
  let d := FakeGCE.driver0 in
  let c := FakeGCE.util_of d in
  let r := createInstance 10 c d (FakeGCE.start d FakeGCE.empty_cloud) in
  fst r = Ret None /\
  exists new,
    trace (snd r) = [] ++ new /\
    Forall (fun call =>
              match call with
              | InstancesInsert proj zn inst =>
                proj = "proj" /\ zn = "us-central1-a" /\
                Instance_Name inst = "machine" /\
                firewallTargetTag ∈ Tags_Items inst
              | call => instance_setup call = true
              end) new.
Proof.
  intros d c r. split; [vm_compute; reflexivity|].
  destruct (GoogleInstanceFacts.createInstance_request
              id FakeGCE.key_path FakeGCE.show_op_error FakeGCE.backend 10 c d
              (FakeGCE.start d FakeGCE.empty_cloud) (fst r) (snd r)
              (surjective_pairing _)) as (new & Ht & HP).
  exists new. split; [exact Ht|].
  eapply Forall_impl; [exact HP|].
  intros call Hcall. destruct call; try exact Hcall.
  destruct Hcall as (Hp & Hz & Hn & Htag & _). now repeat split.
Defined.

Lemma GetURL_cached_witness :
  let st := FakeGCE.start FakeGCE.driver0 (FakeGCE.cloud_with_instance "RUNNING") in
  let st1 := snd (GetIP st) in
  GetURL st = (Ret ("tcp://203.0.113.9:2376", None), st1) /\
  GetURL st1 = (Ret ("tcp://203.0.113.9:2376", None), st1).
Proof.
  intros st st1.
  assert (Hip : GetIP st = (Ret ("203.0.113.9", None), st1))
    by (vm_compute; reflexivity).
  exact (GoogleLifecycleFacts.GetURL_cached FakeGCE.no_match FakeGCE.join_host_port
           FakeGCE.backend st st1 "203.0.113.9" None Hip).
Defined.

Lemma Start_steps_witness :
  (let st := FakeGCE.start FakeGCE.driver0 (FakeGCE.cloud_with_instance "TERMINATED") in
   exists st',
     Start 10 st = (Ret None, st') /\ IPAddress (drv st') <> "" /\
     exists rest,
       trace st' =
         [DefaultClient; RawNew; InstancesGet "proj" "us-central1-a" "machine"] ++
         InstancesStart "proj" "us-central1-a" "machine" :: rest /\
       Forall (fun call => mutating call = false) rest) /\
  (let st := FakeGCE.start FakeGCE.driver0 FakeGCE.empty_cloud in
   exists pre i setup rest,
     trace (snd (Start 10 st)) =
       [DefaultClient; RawNew; InstancesGet "proj" "us-central1-a" "machine"] ++
       pre ++ InstancesInsert "proj" "us-central1-a" i :: setup ++ rest /\
     Forall (fun call => mutating call = false) pre /\
     Instance_Name i = "machine" /\
     Forall (fun call => instance_setup call = true) setup /\
     Forall (fun call => mutating call = false) rest).
Proof.
  split.
  - intros st.
    pose (c := FakeGCE.util_of FakeGCE.driver0).
    pose (st1 := snd (newComputeUtil FakeGCE.no_match FakeGCE.backend (drv st) st)).
    pose (st2 := snd (instance FakeGCE.backend c st1)).
    pose (st' := snd (Start 10 st)).
    assert (Hnew : newComputeUtil FakeGCE.no_match FakeGCE.backend (drv st) st
                   = (Ret (Some c, None), st1))
      by (vm_compute; reflexivity).
    assert (Hinst : instance FakeGCE.backend c st1
                    = (Ret (Some (FakeGCE.instance_in "TERMINATED"), None), st2))
      by (vm_compute; reflexivity).
    assert (Hrun : Start 10 st = (Ret None, st'))
      by (vm_compute; reflexivity).
    destruct (GoogleLifecycleFacts.Start_steps FakeGCE.no_match id FakeGCE.key_path
                FakeGCE.show_op_error FakeGCE.backend 10 st st1 st2 c _ _ Hnew Hinst)
      as (_ & Hgoes & Hok).
    exists st'. split; [exact Hrun|]. split.
    + exact (Hok st' Hrun).
    + exact (Hgoes (or_introl eq_refl) (Ret None) st' Hrun).
  - intros st.
    pose (c := FakeGCE.util_of FakeGCE.driver0).
    pose (st1 := snd (newComputeUtil FakeGCE.no_match FakeGCE.backend (drv st) st)).
    pose (st2 := snd (instance FakeGCE.backend c st1)).
    pose (st3 := snd (createInstance 10 c (drv st) st2)).
    pose (st' := snd (Start 10 st)).
    assert (Hnew : newComputeUtil FakeGCE.no_match FakeGCE.backend (drv st) st
                   = (Ret (Some c, None), st1))
      by (vm_compute; reflexivity).
    assert (Hinst : instance FakeGCE.backend c st1
                    = (Ret (None, Some FakeGCE.not_found), st2))
      by (vm_compute; reflexivity).
    assert (Hcreated : createInstance 10 c (drv st) st2 = (Ret None, st3))
      by (vm_compute; reflexivity).
    assert (Hrun : Start 10 st = (Ret (Some ErrHostIsNotRunning), st'))
      by (vm_compute; reflexivity).
    assert (Ht2 : trace st2 =
              [DefaultClient; RawNew; InstancesGet "proj" "us-central1-a" "machine"])
      by (vm_compute; reflexivity).
    destruct (GoogleLifecycleFacts.Start_steps FakeGCE.no_match id FakeGCE.key_path
                FakeGCE.show_op_error FakeGCE.backend 10 st st1 st2 c _ _ Hnew Hinst)
      as (_ & Hgoes & _).
    destruct (Hgoes (or_intror (ex_intro _ FakeGCE.not_found (conj eq_refl eq_refl)))
                _ st' Hrun)
      as (_ & created & st3' & Hc & _ & Hmade).
    rewrite Hcreated in Hc. injection Hc as <- <-.
    destruct (Hmade eq_refl)
      as ((pre & i & sta & stb & op & setup & Hpre & Hq & Hname & Hins & Hset & Hsetup)
          & rest & Hrest & Hquiet).
    apply (GoFacts.api_inv FakeGCE.backend
             (InstancesInsert (project c) (zone c) i)) in Hins
      as (_ & _ & _ & Htb & _).
    exists pre, i, setup, rest.
    split; [|now repeat split].
    change (snd (Start 10 st)) with st'.
    rewrite Hrest, Hset, Htb, Hpre, Ht2. now rewrite <- !app_assoc.
Defined.

Lemma Stop_effects_witness :
  let st := snd (GetIP
                   (FakeGCE.start FakeGCE.driver0 (FakeGCE.cloud_with_instance "RUNNING"))) in
  exists st',
    IPAddress (drv st) = "203.0.113.9" /\
    Stop 10 st = (Ret None, st') /\
    (@Ret (option error) None = Ret None /\ drv st' = set_IPAddress "" (drv st) \/
     @Ret (option error) None <> Ret None /\ drv st' = drv st).
Proof.
  intros st.
  pose (st' := snd (Stop 10 st)).
  assert (Hrun : Stop 10 st = (Ret None, st'))
    by (vm_compute; reflexivity).
  destruct (GoogleLifecycleFacts.Stop_effects FakeGCE.no_match FakeGCE.show_op_error
              FakeGCE.backend 10) as (_ & Hout & _).
  exists st'. split; [vm_compute; reflexivity|]. split; [exact Hrun|].
  exact (Hout st st' (Ret None) Hrun).
Defined.

Lemma Restart_steps_witness :
  let st := snd (GetIP
                   (FakeGCE.start FakeGCE.driver0 (FakeGCE.cloud_with_instance "RUNNING"))) in
  exists st1 st',
    Stop 10 st = (Ret None, st1) /\
    Restart 10 st = Start 10 st1 /\
    IPAddress (drv st1) = "" /\
    Restart 10 st = (Ret None, st') /\
    IPAddress (drv st') <> "".
Proof.
  intros st.
  pose (st1 := snd (Stop 10 st)).
  pose (st' := snd (Restart 10 st)).
  destruct (GoogleLifecycleFacts.Restart_steps FakeGCE.no_match id FakeGCE.key_path
              FakeGCE.show_op_error FakeGCE.backend 10 st) as (_ & Hstop & Hok).
  assert (Hrun : Stop 10 st = (Ret None, st1)) by (vm_compute; reflexivity).
  assert (Hres : Restart 10 st = (Ret None, st'))
    by (vm_compute; reflexivity).
  destruct (Hstop st1 Hrun) as [Hrestart Hempty].
  exists st1, st'. split; [exact Hrun|]. split; [exact Hrestart|].
  split; [exact Hempty|]. split; [exact Hres|]. exact (Hok st' Hres).
Defined.

Lemma Create_use_existing_witness :
  let d := FakeGCE.driver_existing in
  let r := Create 10 (FakeGCE.start d (FakeGCE.cloud_with_instance "RUNNING")) in
  fst r = Ret None /\
  exists new,
    trace (snd r) = [] ++ new /\
    Forall (fun call =>
              match call with
              | InstancesInsert _ _ _ | InstancesDelete _ _ _
              | InstancesStart _ _ _ | InstancesStop _ _ _
              | DisksDelete _ _ _ => False
              | _ => True
              end) new.
Proof.
  intros d r. split; [vm_compute; reflexivity|].
  apply (GoogleLifecycleFacts.Create_use_existing Lib.SplitPortProto Lib.url_Parse
           FakeGCE.no_match id FakeGCE.key_path FakeGCE.show_op_error FakeGCE.backend
           10 (FakeGCE.start d (FakeGCE.cloud_with_instance "RUNNING")) (snd r) (fst r)).
  - reflexivity.
  - apply surjective_pairing.
Defined.

Lemma swarm_host_stops_firewall_witness :
  let d := FakeGCE.driver_swarm_no_port in
  let c := FakeGCE.util_of d in
  let st := FakeGCE.start d FakeGCE.empty_cloud in
  portsUsed Lib.SplitPortProto Lib.url_Parse c = Panic "index out of range" /\
  fst (openFirewallPorts 10 c d st) = Panic "index out of range" /\
  trace (snd (openFirewallPorts 10 c d st))
    = [FirewallsGet "proj" "docker-machines"].
Proof.
  intros d c st.
  destruct (GoogleLifecycleFacts.swarm_host_stops_firewall Lib.SplitPortProto
              Lib.url_Parse FakeGCE.show_op_error FakeGCE.backend c eq_refl)
    as (_ & Hpanic).
  destruct (Hpanic (mkURL "swarm") ltac:(vm_compute; reflexivity)
                   ltac:(vm_compute; reflexivity)) as (Hports & Hopen).
  split; [exact Hports|].
  pose (st1 := snd (firewallRule FakeGCE.backend c st)).
  assert (Hget : firewallRule FakeGCE.backend c st = (Ret (None, None), st1))
    by (vm_compute; reflexivity).
  rewrite (Hopen 10%nat d st st1 None eq_refl Hget).
  split; [reflexivity | vm_compute; reflexivity].
Defined.

End GoogleRuns.

(** ** Runs of the EC2 driver on the in-memory provider *)

Module EC2Runs.
Import Go AmazonEC2.

Local Abbreviation St := (Go.St Driver Call FakeEC2.Cloud).
Local Abbreviation createTags :=
  (AmazonEC2.createTags : M Driver Call FakeEC2.Cloud (list Tag)).
Local Abbreviation tag_in_batches := (AmazonEC2.tag_in_batches FakeEC2.backend).
Local Abbreviation checkPrereqs := (AmazonEC2.checkPrereqs FakeEC2.backend).
Local Abbreviation createKeyPair :=
  (AmazonEC2.createKeyPair FakeEC2.key_path FakeEC2.backend).
Local Abbreviation getDefaultVPCId :=
  (AmazonEC2.getDefaultVPCId FakeEC2.account_backend).
Local Abbreviation GetIP := (AmazonEC2.GetIP FakeEC2.backend).
Local Abbreviation configureSecurityGroups :=
  (AmazonEC2.configureSecurityGroups Lib.SplitPortProto Lib.ParseInt
     60%nat 3000000000 FakeEC2.swarmPort0 FakeEC2.backend).
Local Abbreviation innerCreate :=
  (AmazonEC2.innerCreate Lib.SplitPortProto Lib.ParseInt id FakeEC2.key_path
     60%nat 3000000000 FakeEC2.swarmPort0 FakeEC2.backend).

Lemma createTags_pairs_witness :
  let st := FakeEC2.start FakeEC2.driver_tagged FakeEC2.empty_cloud in
  exists st',
    createTags st = (Ret [mkTag "Name" "machine"; mkTag "env" "prod"], st') /\
    logs st' = [Warnf "Tags are not key value in pairs. %d elements found" ["3"]].
Proof.
  intros st.
  destruct (EC2TagFacts.createTags_pairs st)
    as (tags & st' & Hrun & _ & _ & _ & _ & Hgiven).
  destruct (Hgiven ltac:(discriminate)) as (Htags & _ & Hlogs).
  exists st'. split.
  - rewrite Hrun, Htags. vm_compute. reflexivity.
  - rewrite Hlogs. vm_compute. reflexivity.
Defined.

Lemma tag_in_batches_sends_witness :
  let tags := repeat (mkTag "k" "v") 12 in
  (let st := FakeEC2.start FakeEC2.driver0 FakeEC2.empty_cloud in
   exists st' batches,
     tag_in_batches 13 "i-0001" tags st = (Ret None, st') /\
     trace st' = map (CreateTags ["i-0001"]) batches /\
     Forall (fun batch => (length batch <= 10)%nat) batches /\
     tags = concat batches) /\
  (let st := FakeEC2.start FakeEC2.driver0
               (FakeEC2.with_faults FakeEC2.fail_tagging FakeEC2.empty_cloud) in
   exists st',
     tag_in_batches 13 "i-0001" tags st =
       (Ret (Some (Errorf "Error setting tags for the spot instance: "
                     FakeEC2.throttled)), st') /\
     trace st' = [CreateTags ["i-0001"] (take 10 tags)] /\
     exists batches e,
       trace st' = map (CreateTags ["i-0001"]) batches /\
       fst (Tagging.replies FakeEC2.backend "i-0001" batches (world st))
         = repeat None (length batches - 1) ++ [Some e]).
Proof.
  intros tags. split.
  - intros st.
    pose (st' := snd (tag_in_batches 13 "i-0001" tags st)).
    assert (Hrun : tag_in_batches 13 "i-0001" tags st = (Ret None, st'))
      by (vm_compute; reflexivity).
    destruct (EC2TagFacts.tag_in_batches_sends FakeEC2.backend "i-0001" 13 tags
                st st' (Ret None) ltac:(vm_compute; lia) Hrun)
      as (batches & rest & Ht & _ & Hten & Htags & _ & _ & _ & Ho).
    destruct Ho as [(_ & -> & _) | (e & _ & He)]; [|discriminate He].
    exists st', batches. split; [exact Hrun|]. split; [exact Ht|].
    split; [exact Hten|]. now rewrite app_nil_r in Htags.
  - intros st.
    pose (st' := snd (tag_in_batches 13 "i-0001" tags st)).
    assert (Hrun : tag_in_batches 13 "i-0001" tags st =
                     (Ret (Some (Errorf "Error setting tags for the spot instance: "
                                   FakeEC2.throttled)), st'))
      by (vm_compute; reflexivity).
    destruct (EC2TagFacts.tag_in_batches_sends FakeEC2.backend "i-0001" 13 tags
                st st' _ ltac:(vm_compute; lia) Hrun)
      as (batches & rest & Ht & _ & _ & _ & _ & _ & _ & Ho).
    destruct Ho as [(Hnone & _) | (e & Hr & _)]; [discriminate Hnone|].
    exists st'. split; [exact Hrun|]. split; [vm_compute; reflexivity|].
    exists batches, e. split; [exact Ht | exact Hr].
Defined.

Lemma checkPrereqs_asks_only_witness :
  let st := FakeEC2.start FakeEC2.driver0 FakeEC2.empty_cloud in
  exists st',
    checkPrereqs st = (Ret None, st') /\
    logs st' = [] /\
    (trace st' = [DescribeKeyPairs "machine"] \/
     trace st' = [DescribeKeyPairs "machine";
                  DescribeSubnets [mkFilter "availability-zone" ["us-east-1a"];
                                   mkFilter "vpc-id" ["vpc-1"]]]) /\
    (drv st' = FakeEC2.driver0 \/
     exists subnet, drv st' = assign (F_SubnetId subnet) FakeEC2.driver0).
Proof.
  intros st.
  pose (st' := snd (checkPrereqs st)).
  assert (Hrun : checkPrereqs st = (Ret None, st')) by (vm_compute; reflexivity).
  destruct (EC2PrereqFacts.checkPrereqs_asks_only FakeEC2.backend st st' (Ret None) Hrun)
    as (Hlogs & Htrace & Hdrv).
  exists st'. split; [exact Hrun|]. split; [exact Hlogs|]. split.
  - destruct Htrace as [Ht | (_ & Ht)]; [left | right]; exact Ht.
  - destruct Hdrv as [Hd | (subnet & _ & _ & Hd)]; [left; exact Hd|].
    right. exists subnet. exact Hd.
Defined.

Lemma checkPrereqs_key_lookup_witness :
  let st := FakeEC2.start FakeEC2.driver0
              (FakeEC2.with_keypairs ["machine"] FakeEC2.empty_cloud) in
  exists st1,
    checkPrereqs st =
      (Ret (Some (errorString
         "There is already a keypair with the name machine.  Please either remove that keypair or use a different machine name.")),
       st1) /\
    trace st1 = [DescribeKeyPairs "machine"].
Proof.
  intros st.
  pose (st1 := snd (api FakeEC2.backend (DescribeKeyPairs "machine") st)).
  assert (Hcall : api FakeEC2.backend (DescribeKeyPairs "machine") st
                  = (Ret (Some ["machine"], None), st1))
    by (vm_compute; reflexivity).
  destruct (EC2PrereqFacts.checkPrereqs_key_lookup FakeEC2.backend st
              (Some ["machine"]) None st1 Hcall) as (_ & _ & Hclash & _).
  exists st1. split.
  - exact (Hclash ["machine"] eq_refl eq_refl ltac:(discriminate) eq_refl).
  - vm_compute. reflexivity.
Defined.

Lemma checkPrereqs_subnet_witness :
  let st := FakeEC2.start FakeEC2.driver0 FakeEC2.cloud_two_subnets in
  exists st' (listed : list Subnet) chosen,
    checkPrereqs st = (Ret None, st') /\
    chosen ∈ listed /\
    SubnetId (drv st') = Subnet_SubnetId chosen /\
    SubnetId (drv st') = "subnet-2".
Proof.
  intros st.
  pose (st' := snd (checkPrereqs st)).
  assert (Hrun : checkPrereqs st = (Ret None, st')) by (vm_compute; reflexivity).
  destruct (EC2PrereqFacts.checkPrereqs_subnet FakeEC2.backend st st' eq_refl Hrun)
    as (st1 & st2 & listed & chosen & _ & _ & Hin & Hd & _).
  exists st', listed, chosen. split; [exact Hrun|]. split; [exact Hin|].
  split; [now rewrite Hd | vm_compute; reflexivity].
Defined.


Lemma getDefaultVPCId_cases_witness :
  let st := {| drv := FakeEC2.driver0; world := FakeEC2.account_attributes;
               trace := []; logs := [] |} in
  exists st1,
    getDefaultVPCId st = (Ret ("vpc-1", None), st1) /\
    trace st1 = [DescribeAccountAttributes].
Proof.
  intros st.
  pose (st1 := snd (api FakeEC2.account_backend DescribeAccountAttributes st)).
  assert (Hcall : api FakeEC2.account_backend DescribeAccountAttributes st
                  = (Ret (Some FakeEC2.account_attributes, None), st1))
    by (vm_compute; reflexivity).
  destruct (EC2LookupFacts.getDefaultVPCId_cases FakeEC2.account_backend st
              (Some FakeEC2.account_attributes) None st1 Hcall)
    as (Htrace & _ & _ & Hfound).
  destruct (Hfound FakeEC2.account_attributes eq_refl eq_refl) as (_ & Hfirst).
  exists st1. split; [|exact Htrace].
  rewrite (Hfirst [mkAccountAttribute "supported-platforms" ["VPC"]]
             (mkAccountAttribute "default-vpc" ["vpc-1"])
             [mkAccountAttribute "default-vpc" ["vpc-2"]] eq_refl
             ltac:(repeat constructor; discriminate) eq_refl).
  reflexivity.
Defined.

Lemma EC2_GetIP_resolves_witness :
  let st := FakeEC2.start (assign (F_InstanceId "i-0001") FakeEC2.driver0)
              (FakeEC2.cloud_with_machine "running") in
  exists addr st',
    GetIP st = (Ret (addr, None), st') /\
    trace st' = [DescribeInstances "i-0001"] /\
    addr = "198.51.100.5".
Proof.
  intros st.
  destruct (EC2LookupFacts.EC2_GetIP_resolves FakeEC2.backend st eq_refl)
    as (addr & err & st' & Hrun & Htrace & _ & _ & _ & _).
  assert (Hval : fst (GetIP st) = Ret ("198.51.100.5", None))
    by (vm_compute; reflexivity).
  rewrite Hrun in Hval. injection Hval as -> ->.
  exists "198.51.100.5", st'. split; [exact Hrun|]. split; [exact Htrace | reflexivity].
Defined.

Lemma innerCreate_launch_witness :
  let d := FakeEC2.driver_spot in
  let st := FakeEC2.start d FakeEC2.empty_cloud in
  exists st' pre req post,
    innerCreate st = (Ret None, st') /\
    trace st' = pre ++ RunInstances req :: post /\
    ImageId req = "ami-0cadabe060becb0e1" /\
    TagSpecifications req = [] /\
    Forall (fun c : Call => match c with
                            | RunInstances _ | CreateTags _ _ => False
                            | _ => True
                            end) pre /\
    Forall (fun c : Call => match c with
                            | CreateTags _ _ | DescribeInstances _ | Sleep _ => True
                            | _ => False
                            end) post.
Proof.
  intros d st.
  pose (st' := snd (innerCreate st)).
  assert (Hrun : innerCreate st = (Ret None, st')) by (vm_compute; reflexivity).
  destruct (EC2LaunchFacts.innerCreate_launch Lib.SplitPortProto Lib.ParseInt id
              FakeEC2.key_path 60%nat 3000000000 FakeEC2.swarmPort0 FakeEC2.backend
              st st' (Ret None) Hrun) as (pre & Hpre & Hcases).
  destruct Hcases as [(_ & Hno) | (req & post & Ht & Himg & _ & _ & _ & _ & _ & _ & _ & Hspot)].
  { now destruct Hno. }
  destruct Hspot as (Hspecs & Hpost).
  exists st', pre, req, post. split; [exact Hrun|]. split; [exact Ht|].
  split; [exact Himg|]. split; [exact Hspecs|]. split; [exact Hpre | exact Hpost].
Defined.

Lemma configureSecurityGroups_records_ids_witness :
  let st := FakeEC2.start FakeEC2.driver0 FakeEC2.empty_cloud in
  exists st' ids,
    configureSecurityGroups ["docker-machine"; "extra"] st = (Ret None, st') /\
    SecurityGroupIds (drv st') = ids /\ length ids = 2%nat.
Proof.
  intros st.
  pose (st' := snd (configureSecurityGroups ["docker-machine"; "extra"] st)).
  assert (Hrun : configureSecurityGroups ["docker-machine"; "extra"] st
                 = (Ret None, st'))
    by (vm_compute; reflexivity).
  destruct (EC2LaunchFacts.configureSecurityGroups_records_ids Lib.SplitPortProto
              Lib.ParseInt 60%nat 3000000000 FakeEC2.swarmPort0 FakeEC2.backend
              ["docker-machine"; "extra"] st st' (Ret None) Hrun)
    as (ids & Hd & _ & Hlen).
  exists st', ids. split; [exact Hrun|]. split; [now rewrite Hd|].
  exact (Hlen eq_refl).
Defined.

End EC2Runs.

(** ** The queries of both drivers *)

Module QueryFacts.
Import Go GoFacts.

Section BothDrivers.
Context {W1 W2 : Type}.
Variable FindStringSubmatch : string -> list string.
Variable JoinHostPort : string -> string -> string.
Variable gce : forall c : Google.Call, W1 -> Google.Resp c * W1.
Variable ec2 : forall c : AmazonEC2.Call, W2 -> AmazonEC2.Resp c * W2.
Local Abbreviation G_GetState := (Google.GetState FindStringSubmatch gce).
Local Abbreviation G_GetIP := (Google.GetIP FindStringSubmatch gce).
Local Abbreviation G_GetURL := (Google.GetURL FindStringSubmatch gce JoinHostPort).
Local Abbreviation G_GetSSHHostname := (Google.GetSSHHostname FindStringSubmatch gce).
Local Abbreviation E_GetState := (AmazonEC2.GetState ec2).
Local Abbreviation E_GetIP := (AmazonEC2.GetIP ec2).
Local Abbreviation describes :=
  (fun c : AmazonEC2.Call => match c with
                             | AmazonEC2.DescribeInstances _ => True
                             | _ => False
                             end).

Lemma EC2_GetState_keeps : keeps_drv E_GetState.
Proof.
  unfold AmazonEC2.GetState. keeps. apply EC2Facts.getInstance_keeps.
Qed.

(** X27.  The queries change nothing at the provider.  Of the Google
    driver, [GetState], [GetIP], [GetURL] and [GetSSHHostname] make no call
    that changes anything, and [GetState] leaves the driver as it is.  Of
    the EC2 driver, [GetState] and [GetIP] make no call but the description
    of instances, and leave the driver as it is. *)
Theorem queries_change_nothing :
  (only_calls (fun c => Google.mutating c = false) G_GetState /\
   only_calls (fun c => Google.mutating c = false) G_GetIP /\
   only_calls (fun c => Google.mutating c = false) G_GetURL /\
   only_calls (fun c => Google.mutating c = false) G_GetSSHHostname /\
   keeps_drv G_GetState) /\
  (only_calls describes E_GetState /\ only_calls describes E_GetIP /\
   keeps_drv E_GetState /\ keeps_drv E_GetIP).
Proof.
  split.
  - split; [apply GoogleLifecycleFacts.GetState_quiet|].
    split; [apply GoogleLifecycleFacts.GetIP_quiet|].
    split.
    { unfold Google.GetURL. apply only_calls_bind;
        [apply GoogleLifecycleFacts.GetIP_quiet | intros [addr [e|]]; calls]. }
    split; [apply GoogleLifecycleFacts.GetIP_quiet|].
    apply GoogleLifecycleFacts.GetState_keeps.
  - split; [unfold AmazonEC2.GetState, AmazonEC2.getInstance; calls|].
    split; [unfold AmazonEC2.GetIP, AmazonEC2.getInstance; calls|].
    split; [apply EC2_GetState_keeps | apply EC2Facts.EC2_GetIP_keeps].
Qed.

End BothDrivers.

Lemma queries_change_nothing_witness :
  let g := FakeGCE.start FakeGCE.driver0 (FakeGCE.cloud_with_instance "RUNNING") in
  let e := FakeEC2.start (FakeEC2.created FakeEC2.driver0)
             (FakeEC2.cloud_with_machine "running") in
  (exists st',
     Google.GetState FakeGCE.no_match FakeGCE.backend g = (Ret (Running, None), st') /\
     drv st' = drv g /\ world st' = world g /\
     exists new, trace st' = trace g ++ new /\
                 Forall (fun c => Google.mutating c = false) new) /\
  (exists st',
     AmazonEC2.GetState FakeEC2.backend e = (Ret (Running, None), st') /\
     drv st' = drv e /\ world st' = world e /\
     exists new, trace st' = trace e ++ new /\
                 Forall (fun c => match c with
                                  | AmazonEC2.DescribeInstances _ => True
                                  | _ => False
                                  end) new).
Proof.
  intros g e.
  destruct (queries_change_nothing FakeGCE.no_match FakeGCE.join_host_port
              FakeGCE.backend FakeEC2.backend)
    as ((Hgs & _ & _ & _ & Hgk) & (Hes & _ & Hek & _)).
  split.
  - pose (st' := snd (Google.GetState FakeGCE.no_match FakeGCE.backend g)).
    assert (Hrun : Google.GetState FakeGCE.no_match FakeGCE.backend g
                   = (Ret (Running, None), st'))
      by (vm_compute; reflexivity).
    exists st'. split; [exact Hrun|]. split; [exact (Hgk _ _ _ Hrun)|].
    split; [vm_compute; reflexivity | exact (Hgs _ _ _ Hrun)].
  - pose (st' := snd (AmazonEC2.GetState FakeEC2.backend e)).
    assert (Hrun : AmazonEC2.GetState FakeEC2.backend e = (Ret (Running, None), st'))
      by (vm_compute; reflexivity).
    exists st'. split; [exact Hrun|]. split; [exact (Hek _ _ _ Hrun)|].
    split; [vm_compute; reflexivity | exact (Hes _ _ _ Hrun)].
Defined.

End QueryFacts.
